(* ===== verification/_CoqProject ===== *)
-Q . S2P
Prelude.v
JsMap.v
Regex.v
Monad.v
Uri.v
Dom.v
SiteScripts.v
SiteSearch.v
Types.v
ShortCodes.v
FindCycle.v
Validate.v
Renaming.v
Wiring.v
Flow.v
Forms.v
FormTree.v
ImportExport.v
FlowGraph.v
PipelineBuilder.v
MapContext.v
MapSort.v
MapSpec.v
Schema.v
Sql.v
Acl.v
PipelineRepo.v
DataFileRepo.v
RunRepo.v
BlockRepo.v
Repositories.v
Server.v
Steps.v
RunsApi.v
RunsSpec.v
ZipSpec.v
ZipStream.v
LibraryApi.v
Router.v
Isolation.v
Statements.v
Concurrent.v
Access.v
Noninterference.v
Uploads.v
Client.v
ClientSpec.v
ConnectPage.v
Polling.v
Callback.v
DataPage.v
FileViewer.v
Views.v
ListPages.v
BlockPages.v
EditorViews.v
ClientAuth.v
AccountViews.v
Services.v
ServerDemo.v
ConcurrentDemo.v
ZipDemo.v
PagesDemo.v
NodeFs.v
BlockLib.v
Outputs.v
CopyTree.v
SavePipeline.v
AllRoutes.v
BlockOutputs.v
BlockInputs.v
BlockDemo.v
CatalogueDemo.v
