(* ===== verification/Prelude.v ===== *)
(** * Spade web client, server and TypeScript block library: a verification library

    Spade is a system for geospatial pipelines.  A pipeline is a graph of blocks; users
    draw it in a browser, save it to a library, submit it as a run, and look at the
    files a run leaves.  This library models the parts written in TypeScript and Vue:
    the web client and the web server in [src/web_ui], the block library in
    [src/libs/typescript], with which authors write blocks, and the scripts of the
    documentation ([src/documentation/static/js]) and of the product's site
    ([src/website/static/js]).  The engine that executes
    runs, the command line and the blocks themselves are other programs, in Go, Rust,
    Python and R, and are not modelled.

    ** The program and the files that model it

    Language and platform.  [Prelude] (notations [o ⁇ d] for [??], [a === b], [js_or] for
    [||]; the tactic [bool_prop]; lemmas on lists and options), [JsMap] (insertion-ordered
    maps, sets and objects), [Regex] (a matcher by derivatives and its language),
    [Monad] (state and exceptions: what was done before a [throw] stays done), [Uri]
    ([encodeURIComponent] and [decodeURIComponent]), [Dom] (trees of elements with
    [classList], [querySelector] and [closest]).

    Pipelines ([web_ui/utils]).  [Types] is [types.ts].  [ShortCodes] is
    [short_codes.ts]: placeholder ids become UUIDs.  [FindCycle] and [Validate] are
    [validate.ts]; [Renaming] composes short codes with validation, as the upload path
    does.  [Wiring] is [wiring.ts]; it sees the store through the class [FlowOps] with
    its laws [FlowLaws], which [Flow] implements.  [PipelineBuilder] is [pipeline.ts].
    [MapContext], [MapSort] and [MapSpec] are [mapContext.ts]: the stack of maps open at
    every block.

    The editor ([web_ui/composables], [web_ui/components]).  [Flow] is the store
    [useFlow.ts], [FlowGraph] the abstract graph it implements, and [ImportExport] its
    import and export against each other.  [Forms] is
    the form of a block ([FormInput.vue], [FormArray.vue], [SchemaField.vue],
    [SchemaForm.vue], [flow/BlockEditor.vue]); argument objects are shared by reference
    and so are references in the model.  [FormTree] is the nesting of its array and object
    fields.  [ConnectPage] is the editor page with its
    dialogs and cards ([flow/Base.vue], [flow/ConnectionResolver.vue],
    [flow/CustomBlock.vue], [useBlockCatalogue.ts]): a dialog waits for the manifests
    while the page goes on, the canvas edits the drawing itself, and any document can be
    imported, valid or not.  [EditorViews] is what they show.

    The server ([web_ui/server]).  [Schema] has one record per table; [Sql] is the
    interface of the statements the repositories run (class [Sql], laws [SqlLaws], and a
    state of lists that satisfies them).  [Acl] is the access control that the three
    repositories repeat, written once over a class [Resource]; [PipelineRepo],
    [DataFileRepo], [RunRepo], [BlockRepo] are the files of [db/repositories], and
    [Repositories] is what they promise.  [Server] is the state and the errors of the
    handlers and [requireUser.ts]; [RunsApi] and [LibraryApi] are the handlers under
    [server/api]; [Router] has one constructor of [request] per route over the database and
    the object store, and [handle], which runs the handler.  [Steps] has the lemmas on running handlers.  [RunsSpec], [ZipSpec],
    [Isolation], [Access], [Noninterference] and [Uploads] are the theorems.
    [Statements] has the statements all handlers are made of, and [Concurrent] the operations of
    the repositories that run several, among the statements of other requests.  [ZipStream]
    is the stream of an archive ([runs/[id]/zip.get.ts]), between the object store and
    the client.  [Callback]
    takes the worker's callback apart into its repository calls.  [SavePipeline] is the
    older endpoint [api/pipeline/save.post.ts], over the file system of [NodeFs], and
    [AllRoutes] the server with this route among the others.
    [Services] is the cached clients of the database, the object store and the auth
    library ([db/index.ts], [storage.ts], [auth.ts]), with the webhook [hooks/runs.ts] and
    the stores nothing reads.

    The pages ([web_ui/pages], [web_ui/components]).  [Client] has the browser's side of a
    request ([fetch], over a network that may lose the request or the answer) and the
    pages that export, save, import and list pipelines; its handlers run against
    [Router.handle], so the theorems of [ClientSpec] are about client and server
    together.  [Polling] is the result pages ([results/[id].vue], [results/index.vue]),
    [ListPages] the lists with tabs of runs, pipelines and data files,
    [DataPage] is [data/index.vue], [FileViewer] is [results/RunFileViewer.vue] (a machine
    of clicks and of replies to the loads they began),
    [ClientAuth] is [useAuth.ts], the layout, the route middleware and the pages of an
    account, with their views in [AccountViews]; [Views] is what the templates of the
    lists and of a run show and offer, and [BlockPages] the page of a block
    ([blocks/[id].vue]) and the requests for a manifest.

    The block library ([src/libs/typescript/src]).  [NodeFs] is the part of [node:fs] and
    [node:path] it uses; [BlockLib] is [types.ts], [metadata.ts], [build.ts] and
    [scanning.ts]; [Outputs] is [output.ts] and [run.ts]; [CopyTree] is the recursive copy;
    [BlockOutputs] and [BlockInputs] are the theorems.

    The two sites.  [SiteScripts] is [main.js] of the documentation and of the product's
    site, with the sidebar as its template builds it; [SiteSearch] is [search.js].

    [ServerDemo], [ConcurrentDemo], [ZipDemo], [PagesDemo], [BlockDemo] and
    [CatalogueDemo] run the theorems on concrete states.

    ** What the theorems show

    Pipelines: short codes are resolved as a reference renaming says, which is refused
    exactly for a short code as the pipeline's id and for missing arrays, and keeps the
    verdict of validation;
    [findCycle] is [None] exactly on acyclic graphs and otherwise returns a cycle;
    validation accepts exactly the well-formed documents; the wiring only pairs
    compatible ports; [computeMapContext] always ends and its stacks are what the graph
    says: distinct maps the block depends on.

    Editor: in every reachable state of the page the edges carry composed ids and join a
    pair of nodes once, and the drawing is consistent when the document imported last was
    valid; the form of a new block yields one typed argument per scalar input; what the
    resolver dialog confirms, before its manifests arrive and after; import and export
    are inverse up to the order and repetition of references; the store refines a graph
    of blocks and labelled edges, imports included, validated or not, as long as ids are
    plain and distinct; the problems box, the warnings on the cards and the buttons of
    the export panel agree on a consistent drawing.

    Server: a user's requests, one at a time and in any sequence, leave the rows of
    others alone; responses disclose only what the user may see, and are the same on two
    servers that agree on it; requests without a session leave the database and the store
    alone, short of the worker's; where the endpoint that saves a file writes; what a
    submission, an upload and an archive do; a downloaded archive holds the stored bytes
    of the run's files in whatever order server and client proceed, and an unreadable
    object ends it in an error; a run is answered to those who could see it while the request
    ran, with all its files, and sharing takes effect at one moment, whatever else runs; what
    the worker's callback does, also with
    requests of users between its steps.

    Pages: a drawing that the export panel accepts becomes exactly one queued run; a saved
    pipeline opens as it was drawn; every control a page offers is accepted by the server;
    pages behind the login are shown to reported users only; lists show the rows of the
    tab that is selected, in whatever order answers arrive; polling stops, also after a
    refresh that fails; how often the viewer of a file reads its bytes; sizes; a block has
    a page exactly when its name needs no escape.

    Block library: what a function receives and what its outputs directory holds
    afterwards; the built manifest describes what [run] does.

    Sites: which elements each script changes, on any page; on the sidebar of the
    documentation the section buttons fail; an open panel of search results belongs to a
    query that was typed.

    ** State, parameters and bounds

    State is explicit: the store, the page and the world are records and a handler is a
    function from one to the next, or a step of a relation where the order of events is
    open ([ConnectPage.page_step], [ClientAuth.auth_step], [Polling.execution],
    [Callback.interleaves], [SiteSearch.on_event], [ZipStream.zip_event],
    [ListPages.list_step], [FileViewer.viewer_step]).  The theorems on requests
    treat each as one step; [Statements] and [Concurrent] take the access control apart
    into its statements, and [Callback] the worker's callback into its repository calls.
    Two callbacks for one run are not interleaved with each other.  Packages are
    parameters, with what the code relies on as hypotheses that a witness instantiates:
    [uuid] (the n-th value), [yaml], the presigner, the database, the auth client, the
    CSV parser, the search index, the archive library.  Times are integers, coordinates and sizes are
    exact numbers (file sizes below [2^53], where JavaScript's are exact too), and texts
    are byte strings on which upper and lower case are those of ASCII.

    Fuel is used where a loop has no structural measure, and is enough in each case:
    [FindCycle] searches with as many steps as there are nodes and [MapContext] sorts
    with two per block (both theorems say so on every input); [CopyTree] takes the depth
    of the copied tree, and shows what happens when a directory is copied into itself.

    ** Not modelled

    Styling, and pages that only show constants, a map or a drawing ([about.vue],
    [logout.vue], [file.vue], [maps], [SpadeLogo.vue], [AppFooter.vue]).  The tables only
    the auth package uses, and its route.  Configuration ([nuxt.config.ts],
    [tailwind.config.ts] and their like), tests, and generated files under [.nuxt].  The
    bytes of uploads, which go from the browser to the object store. *)

From stdpp Require Export base tactics option list list_numbers gmap strings pretty sorting.

(** ** Notations of the JavaScript fragment *)

Declare Scope js_scope.
Delimit Scope js_scope with js.
#[global] Open Scope js_scope.

(** The nullish coalescing operator (two question marks), written [a ⁇ b]: [undefined] and [null] are [None]. *)
Notation "o ⁇ d" := (default d o) (at level 60, right associativity) : js_scope.

(** [x === y] as a boolean. *)
Notation "x === y" := (bool_decide (x = y)) (at level 70, no associativity) : js_scope.

(** Truthiness of a string, and of a string that may be [undefined] or [null]. *)
Definition truthy (s : string) : bool := negb (s === "").
Definition otruthy (o : option string) : bool :=
  match o with Some s => truthy s | None => false end.

(** [a || b] on strings: the first operand when it is truthy, else the second. *)
Definition js_or (a b : string) : string := if truthy a then a else b.

(** [s.toLowerCase()], on ASCII letters. *)
Definition lower (c : Ascii.ascii) : Ascii.ascii :=
  let n := Ascii.nat_of_ascii c in if bool_decide (65 <= n <= 90) then Ascii.ascii_of_nat (n + 32) else c.
Fixpoint toLowerCase (s : string) : string :=
  match s with String c s' => String (lower c) (toLowerCase s') | EmptyString => EmptyString end.

(** [s.startsWith(p)] and [s.includes(p)] *)
Definition startsWith (p s : string) : bool := String.prefix p s.
Fixpoint includes (p s : string) : bool :=
  startsWith p s || match s with String _ s' => includes p s' | EmptyString => false end.

(** The double quote character, used to build messages. *)
Definition dq : string := String (Ascii.ascii_of_nat 34) EmptyString.

(** [Array.prototype.join]. *)
Fixpoint js_join (sep : string) (l : list string) : string :=
  match l with
  | [] => ""
  | [x] => x
  | x :: l' => x +:+ sep +:+ js_join sep l'
  end.

(** [Array.prototype.indexOf] (on an array that holds the element) and
    [Array.prototype.slice] from an index. *)
Fixpoint indexOf (x : string) (l : list string) : option nat :=
  match l with
  | [] => None
  | y :: l' => if y === x then Some 0 else S <$> indexOf x l'
  end.

(** [Array.prototype.find] with a boolean predicate. *)
Fixpoint js_find {A} (p : A -> bool) (l : list A) : option A :=
  match l with
  | [] => None
  | x :: l' => if p x then Some x else js_find p l'
  end.

(** [Array.prototype.findIndex]. *)
Fixpoint findIndex {A} (p : A -> bool) (l : list A) : option nat :=
  match l with
  | [] => None
  | x :: l' => if p x then Some 0 else S <$> findIndex p l'
  end.

(** [Array.prototype.filter] with a boolean predicate, and [some]/[every]. *)
Definition js_filter {A} (p : A -> bool) (l : list A) : list A := filter (fun x => p x = true) l.
Definition js_some {A} (p : A -> bool) (l : list A) : bool := existsb p l.

(** ** Hint databases *)
Create HintDb spade discriminated.
Create Rewrite HintDb spade_rw.

(** ** Tactics *)

(** Case analysis on every boolean decision of the goal or of a hypothesis. *)
Ltac decide_all := repeat (case_bool_decide || case_decide); simplify_eq/=.

(** Reads a boolean hypothesis or goal as a proposition. *)
Ltac bool_prop :=
  repeat match goal with
  | H : bool_decide _ = true |- _ => apply bool_decide_eq_true in H
  | H : bool_decide _ = false |- _ => apply bool_decide_eq_false in H
  | H : _ && _ = true |- _ => apply andb_true_iff in H as [??]
  | H : _ || _ = false |- _ => apply orb_false_iff in H as [??]
  | H : negb _ = true |- _ => apply negb_true_iff in H
  | H : negb _ = false |- _ => apply negb_false_iff in H
  | |- bool_decide _ = true => apply bool_decide_eq_true
  | |- bool_decide _ = false => apply bool_decide_eq_false
  | |- _ && _ = true => apply andb_true_iff; split
  | |- negb _ = true => apply negb_true_iff
  | |- negb _ = false => apply negb_false_iff
  end.

(** ** Booleans, options and strings *)

Lemma truthy_spec s : truthy s = true <-> s <> "".
Proof. unfold truthy. case_bool_decide; simpl; split; congruence. Qed.

Lemma truthy_false s : truthy s = false <-> s = "".
Proof. unfold truthy. case_bool_decide; simpl; split; congruence. Qed.

Lemma eqb_refl_js {A} `{EqDecision A} (x : A) : (x === x) = true.
Proof. by apply bool_decide_eq_true. Qed.

Lemma eqb_ne_js {A} `{EqDecision A} (x y : A) : x <> y -> (x === y) = false.
Proof. intros. by apply bool_decide_eq_false. Qed.

Lemma string_app_nil_l s : "" +:+ s = s.
Proof. reflexivity. Qed.

Lemma string_app_cons c s1 s2 : String c s1 +:+ s2 = String c (s1 +:+ s2).
Proof. reflexivity. Qed.

Lemma string_app_nil_r s : s +:+ "" = s.
Proof. induction s as [|c s IH]; [done|]. by rewrite string_app_cons, IH. Qed.

Lemma string_app_assoc s1 s2 s3 : s1 +:+ (s2 +:+ s3) = (s1 +:+ s2) +:+ s3.
Proof. induction s1 as [|c s1 IH]; [done|]. by rewrite !string_app_cons, IH. Qed.

Lemma string_app_length s1 s2 :
  String.length (s1 +:+ s2) = String.length s1 + String.length s2.
Proof.
  induction s1 as [|c s1 IH]; [done|]. rewrite string_app_cons. simpl. by rewrite IH.
Qed.

Lemma string_app_inj_r s1 s2 t : s1 +:+ t = s2 +:+ t -> s1 = s2.
Proof.
  revert s2. induction s1 as [|c s1 IH]; intros [|c' s2] H; [done| | |].
  - apply (f_equal String.length) in H. rewrite !string_app_length in H. simpl in H. lia.
  - apply (f_equal String.length) in H. rewrite !string_app_length in H. simpl in H. lia.
  - rewrite !string_app_cons in H. injection H as -> H. f_equal. by apply IH.
Qed.

#[export] Hint Rewrite @eqb_refl_js : spade_rw.
#[export] Hint Rewrite string_app_nil_l string_app_nil_r : spade_rw.

(** ** Lists *)

Lemma startsWith_app p s : startsWith p s = true -> exists r, s = p +:+ r.
Proof.
  unfold startsWith. revert s. induction p as [|c p IH]; intros s H; [by exists s|].
  destruct s as [|d s]; [done|]. simpl in H. destruct (Ascii.ascii_dec c d) as [->|]; [|done].
  destruct (IH s H) as [r ->]. by exists r.
Qed.

Lemma elem_of_js_filter {A} (p : A -> bool) l x : x ∈ js_filter p l <-> p x = true /\ x ∈ l.
Proof. unfold js_filter. by rewrite list_elem_of_filter. Qed.

Lemma js_filter_all {A} (p : A -> bool) l : Forall (fun x => p x = true) l -> js_filter p l = l.
Proof.
  unfold js_filter. induction 1 as [|x l Hx _ IH]; [done|].
  by rewrite filter_cons_True, IH.
Qed.

Lemma js_filter_none {A} (p : A -> bool) l : Forall (fun x => p x = false) l -> js_filter p l = [].
Proof.
  unfold js_filter. induction 1 as [|x l Hx _ IH]; [done|].
  rewrite filter_cons_False; [done | congruence].
Qed.

Lemma js_find_Some {A} (p : A -> bool) l x :
  js_find p l = Some x -> p x = true /\ x ∈ l.
Proof.
  induction l as [|y l IH]; simpl; [done|]. destruct (p y) eqn:Hp; intros ?; simplify_eq.
  - split; [done | left].
  - destruct IH; [done|]. split; [done | by right].
Qed.

Lemma js_find_None {A} (p : A -> bool) l :
  js_find p l = None <-> forall x, x ∈ l -> p x = false.
Proof.
  induction l as [|y l IH]; simpl.
  - split; [intros _ x Hx; by apply elem_of_nil in Hx | done].
  - destruct (p y) eqn:Hp.
    + split; [done|]. intros H. specialize (H y). rewrite H in Hp; [done | left].
    + rewrite IH. split.
      * intros H x [->|Hx]%elem_of_cons; auto.
      * intros H x Hx. apply H. by right.
Qed.

Lemma js_some_true {A} (p : A -> bool) l :
  js_some p l = true <-> exists x, x ∈ l /\ p x = true.
Proof.
  unfold js_some. rewrite existsb_exists. split; intros (x & Hx & Hp); exists x;
    (split; [by apply list_elem_of_In | done]).
Qed.

Lemma js_some_false {A} (p : A -> bool) l :
  js_some p l = false <-> forall x, x ∈ l -> p x = false.
Proof.
  rewrite <-not_true_iff_false, js_some_true. split.
  - intros H x Hx. destruct (p x) eqn:E; [|done]. destruct H. eauto.
  - intros H (x & Hx & Hp). rewrite H in Hp; done.
Qed.

Lemma indexOf_Some x l i : indexOf x l = Some i -> l !! i = Some x /\ x ∉ take i l.
Proof.
  revert i. induction l as [|y l IH]; intros i; simpl; [done|].
  case_bool_decide; intros Hi; simplify_eq/=.
  - split; [done | set_solver].
  - destruct (indexOf x l) as [j|] eqn:E; simplify_eq/=.
    destruct (IH j) as [??]; [done|]. split; [done | set_solver].
Qed.

Lemma indexOf_elem x l : x ∈ l <-> is_Some (indexOf x l).
Proof.
  induction l as [|y l IH]; simpl.
  - split; [by intros ?%elem_of_nil | by intros [? ?]].
  - rewrite elem_of_cons, IH. case_bool_decide as Hyx; subst.
    + split; [eauto | by left].
    + rewrite fmap_is_Some. naive_solver.
Qed.

Lemma NoDup_map_inj {A B} (f : A -> B) l :
  (forall x y, x ∈ l -> y ∈ l -> f x = f y -> x = y) -> NoDup l -> NoDup (f <$> l).
Proof.
  intros Hinj Hnd. induction Hnd as [|x l Hx Hnd IH]; [constructor|].
  rewrite fmap_cons. constructor.
  - intros (y & Heq & Hy)%list_elem_of_fmap.
    rewrite (Hinj x y) in Hx; [done | left | by right | done].
  - apply IH. intros ????. apply Hinj; by right.
Qed.

Lemma NoDup_fmap_eq {A B} (f : A -> B) l x y :
  NoDup (f <$> l) -> x ∈ l -> y ∈ l -> f x = f y -> x = y.
Proof.
  intros Hnd Hx Hy Heq. apply list_elem_of_lookup in Hx as [i Hi], Hy as [j Hj].
  assert (i = j) as ->; [|naive_solver].
  eapply NoDup_lookup; [exact Hnd | |]; rewrite list_lookup_fmap.
  - by rewrite Hi.
  - by rewrite Hj, Heq.
Qed.

Lemma NoDup_fmap_cons_inv {A B} (f : A -> B) x l :
  NoDup (f <$> x :: l) -> f x ∉ f <$> l /\ NoDup (f <$> l).
Proof. rewrite fmap_cons. apply NoDup_cons. Qed.

(** A concatenation is empty exactly when every part is. *)
Lemma bind_nil_iff {A B} (f : A -> list B) l : l ≫= f = [] <-> forall x, x ∈ l -> f x = [].
Proof.
  induction l as [|x l IH].
  - split; [by intros _ x ?%elem_of_nil | done].
  - rewrite bind_cons, app_nil, IH. split.
    + intros [Hx Hl] y [->|Hy]%elem_of_cons; auto.
    + intros H. split; [apply H; left | intros y Hy; apply H; by right].
Qed.

Lemma filter_all {A} (P : A -> Prop) `{!forall x, Decision (P x)} (l : list A) :
  (forall x, x ∈ l -> P x) -> filter P l = l.
Proof.
  induction l as [|x l IH]; intros Hall; [done|].
  rewrite filter_cons_True by (apply Hall; left). f_equal. apply IH. intros y Hy. apply Hall. by right.
Qed.

Lemma Forall_sublist {A} (P : A -> Prop) (l1 l2 : list A) :
  l1 `sublist_of` l2 -> Forall P l2 -> Forall P l1.
Proof. rewrite !Forall_forall. intros Hs HP x Hx. apply HP. by eapply elem_of_sublist. Qed.

Lemma list_fmap_fixed {A} (f : A -> A) (l : list A) : (forall x, x ∈ l -> f x = x) -> f <$> l = l.
Proof.
  induction l as [|x l IH]; intros H; [done|]. rewrite fmap_cons, H by left. f_equal.
  apply IH. intros y Hy. apply H. by right.
Qed.

Lemma filter_ext_in {A} (P Q : A -> Prop) `{!forall x, Decision (P x), !forall x, Decision (Q x)}
    (l : list A) : (forall x, x ∈ l -> P x <-> Q x) -> filter P l = filter Q l.
Proof.
  induction l as [|x l IH]; intros Heqv; [done|].
  assert (filter P l = filter Q l) as Heq by (apply IH; intros y Hy; apply Heqv; by right).
  destruct (decide (P x)) as [HP|HP].
  - rewrite !filter_cons_True; [by rewrite Heq| |done]. apply Heqv; [left | done].
  - rewrite !filter_cons_False; [done| |done]. intros HQ. apply HP, Heqv; [left | done].
Qed.

Lemma js_filter_cons {A} (p : A -> bool) x l :
  js_filter p (x :: l) = if p x then x :: js_filter p l else js_filter p l.
Proof.
  unfold js_filter. destruct (p x) eqn:E.
  - by rewrite filter_cons_True.
  - rewrite filter_cons_False; [done | congruence].
Qed.

(** ** Sorting *)

(** [Array.prototype.sort] on strings. *)
Definition js_before (a b : string) : Prop := String.leb a b = true.
#[export] Instance js_before_dec : RelDecision js_before.
Proof. intros a b. unfold js_before. apply _. Defined.
Definition js_sort (l : list string) : list string := merge_sort js_before l.

Lemma js_sort_perm l : js_sort l ≡ₚ l.
Proof. apply merge_sort_Permutation. Qed.

Lemma elem_js_sort x l : x ∈ js_sort l <-> x ∈ l.
Proof. by rewrite js_sort_perm. Qed.

#[export] Instance js_before_total : Total js_before.
Proof. intros a b. unfold js_before. destruct (String.leb_total a b); auto. Qed.

Lemma js_sort_sorted l : Sorted js_before (js_sort l).
Proof. apply Sorted_merge_sort, _. Qed.
