(* ===== verification/JsMap.v ===== *)
(** * JavaScript [Map], [Set] and plain objects

    A [Map<string, V>] and a plain object used as a dictionary are association
    lists in insertion order, which is the order their entries are enumerated in.
    A [Set<string>] is the list of its elements in insertion order. *)

From S2P Require Export Prelude.

Abbreviation jsmap V := (list (string * V)).

Section JsMap.
Context {V : Type}.
Implicit Types (m : jsmap V) (k : string) (v : V).

(** [m.get(k)] *)
Fixpoint jm_get k m : option V :=
  match m with
  | [] => None
  | (k', v) :: m' => if k' === k then Some v else jm_get k m'
  end.

(** [m.has(k)] *)
Definition jm_has k m : bool := match jm_get k m with Some _ => true | None => false end.

(** [m.set(k, v)]: an existing key keeps its place. *)
Fixpoint jm_set k v m : jsmap V :=
  match m with
  | [] => [(k, v)]
  | (k', v') :: m' => if k' === k then (k, v) :: m' else (k', v') :: jm_set k v m'
  end.

(** [m.delete(k)] *)
Fixpoint jm_delete k m : jsmap V :=
  match m with
  | [] => []
  | (k', v') :: m' => if k' === k then m' else (k', v') :: jm_delete k m'
  end.

(** [m.keys()] *)
Definition jm_keys m : list string := fst <$> m.

(** [new Map(entries)]: later entries overwrite earlier ones. *)
Definition jm_of_entries (l : list (string * V)) : jsmap V :=
  foldl (fun m e => jm_set e.1 e.2 m) [] l.

(** ** Lookup laws *)

Lemma jm_get_set_eq k v m : jm_get k (jm_set k v m) = Some v.
Proof.
  induction m as [|[k' v'] m IH]; simpl; [by rewrite eqb_refl_js|].
  case_bool_decide; simpl; [by rewrite eqb_refl_js|]. by rewrite eqb_ne_js.
Qed.

Lemma jm_get_set_ne k k' v m : k <> k' -> jm_get k' (jm_set k v m) = jm_get k' m.
Proof.
  intros Hne. induction m as [|[k'' v''] m IH]; simpl; [by rewrite eqb_ne_js|].
  case_bool_decide; subst; simpl.
  - by rewrite !eqb_ne_js.
  - case_bool_decide; done.
Qed.

Lemma jm_get_set k k' v m :
  jm_get k' (jm_set k v m) = if k === k' then Some v else jm_get k' m.
Proof.
  case_bool_decide; subst; [apply jm_get_set_eq | by apply jm_get_set_ne].
Qed.

Lemma jm_get_elem k v m : jm_get k m = Some v -> (k, v) ∈ m.
Proof.
  induction m as [|[k' v'] m IH]; simpl; [done|].
  case_bool_decide; intros; simplify_eq; [left | right; auto].
Qed.

Lemma jm_get_None k m : jm_get k m = None <-> k ∉ jm_keys m.
Proof.
  unfold jm_keys. induction m as [|[k' v'] m IH]; simpl; [set_solver|].
  case_bool_decide; subst; [set_solver|]. rewrite IH. set_solver.
Qed.

Lemma jm_get_is_Some k m : is_Some (jm_get k m) <-> k ∈ jm_keys m.
Proof.
  destruct (jm_get k m) as [v|] eqn:E.
  - split; [intros _ | eauto]. apply jm_get_elem in E.
    apply list_elem_of_fmap. by exists (k, v).
  - apply jm_get_None in E. split; [by intros [? ?] | done].
Qed.

Lemma jm_has_true k m : jm_has k m = true <-> k ∈ jm_keys m.
Proof.
  rewrite <-jm_get_is_Some. unfold jm_has. destruct (jm_get k m); naive_solver.
Qed.

Lemma jm_has_false k m : jm_has k m = false <-> k ∉ jm_keys m.
Proof.
  rewrite <-jm_get_None. unfold jm_has. destruct (jm_get k m); naive_solver.
Qed.

Lemma elem_jm_get k v m : NoDup (jm_keys m) -> (k, v) ∈ m -> jm_get k m = Some v.
Proof.
  induction m as [|[k' v'] m IH]; intros Hnd Hin; [by apply elem_of_nil in Hin|].
  apply NoDup_fmap_cons_inv in Hnd as [Hk Hnd]. simpl in *.
  apply elem_of_cons in Hin as [Heq|Hin]; simplify_eq.
  - by rewrite eqb_refl_js.
  - rewrite eqb_ne_js; [by apply IH|]. intros ->. destruct Hk.
    apply list_elem_of_fmap. by exists (k, v).
Qed.

Lemma jm_get_fst k v m : jm_get k m = Some v -> k ∈ jm_keys m.
Proof. intros H. apply jm_get_is_Some. eauto. Qed.

(** ** Keys *)

Lemma jm_keys_set k v m :
  jm_keys (jm_set k v m) = if bool_decide (k ∈ jm_keys m) then jm_keys m else jm_keys m ++ [k].
Proof.
  unfold jm_keys. induction m as [|[k' v'] m IH]; simpl; [done|].
  destruct (decide (k' = k)) as [->|Hne].
  - rewrite eqb_refl_js, bool_decide_eq_true_2 by set_solver. done.
  - rewrite eqb_ne_js by done. csimpl. rewrite IH.
    repeat case_bool_decide; set_solver.
Qed.

Lemma elem_jm_keys_set k k' v m : k' ∈ jm_keys (jm_set k v m) <-> k' = k \/ k' ∈ jm_keys m.
Proof. rewrite jm_keys_set. case_bool_decide; set_solver. Qed.

Lemma NoDup_jm_set k v m : NoDup (jm_keys m) -> NoDup (jm_keys (jm_set k v m)).
Proof.
  intros Hnd. rewrite jm_keys_set. case_bool_decide; [done|].
  apply NoDup_app. repeat split; [done | set_solver | apply NoDup_singleton].
Qed.

Lemma jm_get_delete_eq k m : NoDup (jm_keys m) -> jm_get k (jm_delete k m) = None.
Proof.
  induction m as [|[k' v'] m IH]; intros Hnd; simpl; [done|].
  apply NoDup_fmap_cons_inv in Hnd as [Hk Hnd]. simpl in *.
  case_bool_decide; subst; [by apply jm_get_None|].
  simpl. rewrite eqb_ne_js by done. auto.
Qed.

Lemma jm_get_delete_ne k k' m : k <> k' -> jm_get k' (jm_delete k m) = jm_get k' m.
Proof.
  intros Hne. induction m as [|[k'' v''] m IH]; simpl; [done|].
  case_bool_decide; subst; simpl; [by rewrite eqb_ne_js|]. by case_bool_decide.
Qed.

Lemma jm_delete_sublist k m : jm_delete k m `sublist_of` m.
Proof.
  induction m as [|[k' v'] m IH]; simpl; [done|].
  case_bool_decide; subst; by constructor.
Qed.

Lemma NoDup_jm_delete k m : NoDup (jm_keys m) -> NoDup (jm_keys (jm_delete k m)).
Proof.
  intros Hnd. eapply sublist_NoDup; [exact Hnd|].
  apply fmap_sublist, jm_delete_sublist.
Qed.

Lemma elem_jm_delete e k m : e ∈ jm_delete k m -> e ∈ m.
Proof. intros He. eapply elem_of_sublist; [exact He | apply jm_delete_sublist]. Qed.

Lemma elem_jm_keys_delete k k' m :
  NoDup (jm_keys m) -> k' ∈ jm_keys (jm_delete k m) <-> k' <> k /\ k' ∈ jm_keys m.
Proof.
  intros Hnd. rewrite <-!jm_get_is_Some. destruct (decide (k = k')) as [->|Hne].
  - rewrite jm_get_delete_eq by done. split; [by intros [? ?] | naive_solver].
  - rewrite jm_get_delete_ne by done. naive_solver.
Qed.

(** ** [new Map(entries)] *)

Lemma NoDup_jm_of_entries l : NoDup (jm_keys (jm_of_entries l)).
Proof.
  unfold jm_of_entries. assert (NoDup (jm_keys (@nil (string * V)))) as H by constructor.
  revert H. generalize (@nil (string * V)). induction l as [|e l IH]; intros m Hm; simpl; [done|].
  apply IH. by apply NoDup_jm_set.
Qed.

Lemma jm_set_snoc k v m : k ∉ jm_keys m -> jm_set k v m = m ++ [(k, v)].
Proof.
  induction m as [|[k' v'] m IH]; simpl; intros Hk; [done|].
  unfold jm_keys in *. rewrite eqb_ne_js by set_solver. f_equal. apply IH. set_solver.
Qed.

Lemma jm_of_entries_NoDup l : NoDup (jm_keys l) -> jm_of_entries l = l.
Proof.
  unfold jm_of_entries. intros Hl.
  change l with ([] ++ l) in Hl at 1. rewrite <-(app_nil_l l) at 2.
  revert Hl. generalize (@nil (string * V)).
  induction l as [|[k v] l IH]; intros m Hl; simpl; [by rewrite app_nil_r|].
  rewrite jm_set_snoc.
  - rewrite IH; [by rewrite <-app_assoc|]. by rewrite <-app_assoc.
  - unfold jm_keys in *. rewrite fmap_app, fmap_cons in Hl. simpl in Hl.
    apply NoDup_app in Hl as (_ & Hl & _). intros Hk. apply (Hl k Hk). left.
Qed.
End JsMap.

#[export] Hint Resolve NoDup_jm_set NoDup_jm_delete NoDup_jm_of_entries : spade.
#[export] Hint Resolve jm_get_elem jm_get_fst elem_jm_get : spade.
#[export] Hint Rewrite @jm_get_set_eq : spade_rw.

(** ** [Set<string>] *)

(** [s.add(x)] *)
Definition js_add (x : string) (s : list string) : list string :=
  if bool_decide (x ∈ s) then s else s ++ [x].

(** [s.has(x)] *)
Definition js_mem (x : string) (s : list string) : bool := bool_decide (x ∈ s).

(** [new Set(l)] *)
Definition js_set_of (l : list string) : list string := foldl (fun s x => js_add x s) [] l.

Lemma elem_js_add x y s : y ∈ js_add x s <-> y = x \/ y ∈ s.
Proof. unfold js_add. case_bool_decide; set_solver. Qed.

Lemma NoDup_js_add x s : NoDup s -> NoDup (js_add x s).
Proof.
  intros. unfold js_add. case_bool_decide; [done|].
  apply NoDup_app. repeat split; [done | set_solver | apply NoDup_singleton].
Qed.

Lemma elem_foldl_js_add l s x : x ∈ foldl (fun s x => js_add x s) s l <-> x ∈ s \/ x ∈ l.
Proof.
  revert s. induction l as [|y l IH]; intros s; simpl; [set_solver|].
  rewrite IH, elem_js_add. set_solver.
Qed.

Lemma elem_js_set_of l x : x ∈ js_set_of l <-> x ∈ l.
Proof. unfold js_set_of. rewrite elem_foldl_js_add. set_solver. Qed.

Lemma NoDup_js_set_of l : NoDup (js_set_of l).
Proof.
  unfold js_set_of. assert (NoDup (@nil string)) as H by constructor. revert H.
  generalize (@nil string). induction l as [|x l IH]; intros s Hs; simpl; [done|].
  by apply IH, NoDup_js_add.
Qed.

#[export] Hint Resolve NoDup_js_add NoDup_js_set_of : spade.

(** Deleting a key is filtering it out. *)
Lemma jm_delete_filter {V} k (m : jsmap V) :
  NoDup (jm_keys m) -> jm_delete k m = filter (fun e => e.1 <> k) m.
Proof.
  induction m as [|[k' v] m IH]; intros Hnd; [done|].
  apply NoDup_fmap_cons_inv in Hnd as [Hk Hnd]. simpl in Hk. simpl. case_bool_decide as Heq.
  - subst k'. rewrite filter_cons_False by (simpl; tauto).
    rewrite filter_all; [done|]. intros e He Hc. apply Hk.
    rewrite <-Hc. by apply list_elem_of_fmap_2.
  - rewrite filter_cons_True by done. by rewrite IH.
Qed.

Lemma jm_get_filter {V} (P : string -> Prop) `{!forall e : string * V, Decision (P e.1)} k v
    (m : jsmap V) :
  jm_get k (filter (fun e => P e.1) m) = Some v <-> jm_get k m = Some v /\ P k.
Proof.
  induction m as [|[k' v'] m IH]; simpl; [naive_solver|].
  destruct (decide (P (k', v').1)) as [HP|HP]; simpl in HP.
  - rewrite filter_cons_True by done. simpl. case_bool_decide as Heq; [|done].
    subst. naive_solver.
  - rewrite filter_cons_False, IH by done. case_bool_decide as Heq; [|done].
    subst. naive_solver.
Qed.

Lemma NoDup_filter_keys {V} (P : string * V -> Prop) `{!forall e, Decision (P e)} (m : jsmap V) :
  NoDup (jm_keys m) -> NoDup (jm_keys (filter P m)).
Proof. intros Hnd. eapply sublist_NoDup; [exact Hnd|]. apply fmap_sublist, sublist_filter. Qed.

#[export] Hint Resolve NoDup_filter_keys : spade.

(** ** Maps given by a function on their keys *)

Definition jm_tab {V} (f : string -> V) (ks : list string) : jsmap V := (fun k => (k, f k)) <$> ks.

Lemma jm_keys_tab {V} (f : string -> V) ks : jm_keys (jm_tab f ks) = ks.
Proof. unfold jm_keys, jm_tab. rewrite <-list_fmap_compose. apply list_fmap_id. Qed.

Lemma jm_get_tab {V} (f : string -> V) ks k :
  jm_get k (jm_tab f ks) = if bool_decide (k ∈ ks) then Some (f k) else None.
Proof.
  induction ks as [|k' ks IH]; simpl; [done|]. decide_all; try done; set_solver.
Qed.

Lemma jm_tab_ext {V} (f g : string -> V) ks : (forall k, k ∈ ks -> f k = g k) -> jm_tab f ks = jm_tab g ks.
Proof.
  intros H. apply list_fmap_ext. intros i k Hk. f_equal. apply H. by eapply list_elem_of_lookup_2.
Qed.

Lemma jm_set_tab {V} (f : string -> V) ks k v :
  NoDup ks -> jm_set k v (jm_tab f ks) = jm_tab (fun k' => if k' === k then v else f k') (js_add k ks).
Proof.
  intros Hnd. unfold js_add. case_bool_decide as Hk.
  - induction Hnd as [|k' ks Hk' Hnd IH]; [by apply elem_of_nil in Hk|]. simpl.
    case_bool_decide as Heq; subst.
    + f_equal. apply jm_tab_ext. intros k' Hin. rewrite eqb_ne_js; [done|]. by intros ->.
    + f_equal. apply IH. set_solver.
  - rewrite jm_set_snoc by (by rewrite jm_keys_tab). unfold jm_tab. rewrite fmap_app. simpl.
    rewrite eqb_refl_js. f_equal. apply (jm_tab_ext f). intros k' Hin.
    rewrite eqb_ne_js; [done|]. by intros ->.
Qed.

Lemma js_set_of_snoc l x : js_set_of (l ++ [x]) = js_add x (js_set_of l).
Proof. unfold js_set_of. by rewrite foldl_app. Qed.

(** Adding a list of elements one by one appends those that are new. *)
Lemma foldl_js_add l s :
  NoDup l -> foldl (fun s x => js_add x s) s l = s ++ filter (fun x => x ∉ s) l.
Proof.
  intros Hnd. revert s. induction Hnd as [|x l Hx Hnd IH]; intros s; simpl.
  { by rewrite app_nil_r. }
  rewrite IH. unfold js_add. case_bool_decide as Hin.
  - rewrite filter_cons_False by tauto. done.
  - rewrite filter_cons_True by done. rewrite <-app_assoc. simpl. do 2 f_equal.
    apply filter_ext_in. intros y Hy. set_solver.
Qed.
