(* ===== verification/Regex.v ===== *)
(** * Regular expressions

    The fragment of JavaScript's regular expressions the program uses: character
    classes, sequence, choice and iteration, matched against a whole string
    (a pattern between [^] and [$], no flag).  [re_test] is the executable
    matcher, by derivatives; [re_lang] is the language a pattern denotes. *)

From S2P Require Export Prelude.
From Stdlib Require Import Ascii.

Inductive regex :=
  | RNone
  | REps
  | RClass (p : ascii -> bool)
  | RSeq (r1 r2 : regex)
  | RAlt (r1 r2 : regex)
  | RStar (r : regex).

(** [r+] *)
Definition RPlus (r : regex) : regex := RSeq r (RStar r).

(** One literal character, and a range such as [a-z]. *)
Definition RChar (c : ascii) : regex := RClass (fun d => d === c).
Definition in_range (lo hi c : ascii) : bool :=
  (nat_of_ascii lo <=? nat_of_ascii c) && (nat_of_ascii c <=? nat_of_ascii hi).

(** The language of a pattern. *)
Inductive re_lang : regex -> string -> Prop :=
  | lang_eps : re_lang REps ""
  | lang_class p c : p c = true -> re_lang (RClass p) (String c "")
  | lang_seq r1 r2 s1 s2 : re_lang r1 s1 -> re_lang r2 s2 -> re_lang (RSeq r1 r2) (s1 +:+ s2)
  | lang_alt_l r1 r2 s : re_lang r1 s -> re_lang (RAlt r1 r2) s
  | lang_alt_r r1 r2 s : re_lang r2 s -> re_lang (RAlt r1 r2) s
  | lang_star_nil r : re_lang (RStar r) ""
  | lang_star_cons r s1 s2 :
      re_lang r s1 -> re_lang (RStar r) s2 -> re_lang (RStar r) (s1 +:+ s2).

Fixpoint nullable (r : regex) : bool :=
  match r with
  | RNone | RClass _ => false
  | REps | RStar _ => true
  | RSeq r1 r2 => nullable r1 && nullable r2
  | RAlt r1 r2 => nullable r1 || nullable r2
  end.

Fixpoint deriv (c : ascii) (r : regex) : regex :=
  match r with
  | RNone | REps => RNone
  | RClass p => if p c then REps else RNone
  | RSeq r1 r2 =>
      if nullable r1 then RAlt (RSeq (deriv c r1) r2) (deriv c r2) else RSeq (deriv c r1) r2
  | RAlt r1 r2 => RAlt (deriv c r1) (deriv c r2)
  | RStar r => RSeq (deriv c r) (RStar r)
  end.

(** [/^r$/.test(s)] *)
Fixpoint re_test (r : regex) (s : string) : bool :=
  match s with
  | EmptyString => nullable r
  | String c s' => re_test (deriv c r) s'
  end.

#[export] Hint Constructors re_lang : spade.

(** Inversion of the language at each constructor of a pattern. *)
Lemma re_lang_none s : ~ re_lang RNone s.
Proof. intros H. inversion H. Qed.

Lemma re_lang_seq r1 r2 s :
  re_lang (RSeq r1 r2) s <-> exists s1 s2, s = s1 +:+ s2 /\ re_lang r1 s1 /\ re_lang r2 s2.
Proof.
  split.
  - inversion 1; subst; eauto.
  - intros (s1 & s2 & -> & ? & ?). by constructor.
Qed.

Lemma re_lang_alt r1 r2 s : re_lang (RAlt r1 r2) s <-> re_lang r1 s \/ re_lang r2 s.
Proof. split; [inversion 1; eauto | intros [?|?]; auto with spade]. Qed.

Lemma re_lang_class p s : re_lang (RClass p) s <-> exists c, s = String c "" /\ p c = true.
Proof. split; [inversion 1; eauto | intros (c & -> & ?); by constructor]. Qed.

Lemma nullable_spec r : nullable r = true <-> re_lang r "".
Proof.
  induction r as [| |p|r1 IH1 r2 IH2|r1 IH1 r2 IH2|r IH]; simpl.
  - split; [done | inversion 1].
  - split; auto with spade.
  - split; [done | rewrite re_lang_class; by intros (? & ? & _)].
  - rewrite andb_true_iff, IH1, IH2, re_lang_seq. split.
    + intros [? ?]. by exists "", "".
    + by intros ([|] & [|] & ? & ? & ?).
  - by rewrite orb_true_iff, IH1, IH2, re_lang_alt.
  - split; auto with spade.
Qed.

(** A nonempty word of [r*] starts with a nonempty word of [r]. *)
Lemma re_lang_star_cons_inv r c s :
  re_lang (RStar r) (String c s) ->
  exists s1 s2, s = s1 +:+ s2 /\ re_lang r (String c s1) /\ re_lang (RStar r) s2.
Proof.
  remember (RStar r) as r' eqn:Hr. remember (String c s) as w eqn:Hw. intros H.
  revert r s Hr Hw.
  induction H as [| | | | | |r1 [|c1 s1] s2 H1 IH1 H2 IH2]; intros; simplify_eq.
  - by apply (IH2 r s).
  - rewrite string_app_cons in Hw. simplify_eq. eauto.
Qed.

Lemma deriv_spec r c s : re_lang (deriv c r) s <-> re_lang r (String c s).
Proof.
  revert s. induction r as [| |p|r1 IH1 r2 IH2|r1 IH1 r2 IH2|r IH]; intros s; simpl.
  - split; inversion 1.
  - split; inversion 1.
  - rewrite re_lang_class. destruct (p c) eqn:Hp.
    + split; [inversion 1; subst; eauto | intros (? & ? & ?); simplify_eq; constructor].
    + split; [inversion 1 | intros (? & ? & ?); congruence].
  - assert (Hseq : re_lang (RSeq r1 r2) (String c s) <->
      re_lang (RSeq (deriv c r1) r2) s \/ (nullable r1 = true /\ re_lang (deriv c r2) s)).
    { rewrite !re_lang_seq, nullable_spec, IH2. split.
      - intros ([|c' s1] & s2 & Heq & H1 & H2); [right; by rewrite Heq|].
        rewrite string_app_cons in Heq. simplify_eq. left. exists s1, s2. by rewrite IH1.
      - intros [(s1 & s2 & -> & H1 & H2)|[H1 H2]].
        + exists (String c s1), s2. by rewrite <-IH1.
        + by exists "", (String c s). }
    destruct (nullable r1).
    + rewrite re_lang_alt, Hseq. naive_solver.
    + rewrite Hseq. naive_solver.
  - by rewrite !re_lang_alt, IH1, IH2.
  - rewrite re_lang_seq. split.
    + intros (s1 & s2 & -> & H1%IH & H2). rewrite <-string_app_cons. by constructor.
    + intros (s1 & s2 & -> & H1 & H2)%re_lang_star_cons_inv. exists s1, s2. by rewrite IH.
Qed.

(** The matcher decides the language. *)
Lemma re_test_spec r s : re_test r s = true <-> re_lang r s.
Proof.
  revert r. induction s as [|c s IH]; intros r; simpl; [apply nullable_spec|].
  by rewrite IH, deriv_spec.
Qed.

(** A class under a star: every character is in the class. *)
Fixpoint all_chars (p : ascii -> bool) (s : string) : bool :=
  match s with
  | EmptyString => true
  | String c s' => p c && all_chars p s'
  end.

Lemma re_lang_star_class p s : re_lang (RStar (RClass p)) s <-> all_chars p s = true.
Proof.
  induction s as [|c s IH]; simpl; [split; auto with spade|].
  rewrite andb_true_iff, <-IH. split.
  - intros Hs. apply re_lang_star_cons_inv in Hs as (s1 & s2 & -> & H1 & H2).
    apply re_lang_class in H1 as (c' & Heq & Hp). by simplify_eq.
  - intros [Hp Hs]. change (String c s) with (String c "" +:+ s).
    constructor; [by constructor | done].
Qed.

(** [s] does not contain the character [c]. *)
Definition char_free (c : ascii) (s : string) : bool := all_chars (fun c' => negb (c' === c)) s.

Lemma all_chars_app p s1 s2 : all_chars p (s1 +:+ s2) = all_chars p s1 && all_chars p s2.
Proof.
  induction s1 as [|c s1 IH]; [done|]. rewrite string_app_cons. simpl. by rewrite IH, andb_assoc.
Qed.

(** The first occurrence of a separator splits a string in one way. *)
Lemma split_char_inj c s t u v :
  char_free c s = true -> char_free c u = true ->
  s +:+ String c t = u +:+ String c v -> s = u /\ t = v.
Proof.
  unfold char_free. revert u. induction s as [|d s IH]; intros [|d' u] Hs Hu Heq;
    rewrite ?string_app_nil_l, ?string_app_cons in Heq; simpl in *; bool_prop; simplify_eq; [done|].
  destruct (IH u) as [-> ->]; done.
Qed.

(** The last occurrence of a separator splits a string in one way. *)
Lemma split_char_inj_last c s t u v :
  char_free c t = true -> char_free c v = true ->
  s +:+ String c t = u +:+ String c v -> s = u /\ t = v.
Proof.
  assert (Hno : forall (x y : string), char_free c (x +:+ String c y) = true -> False).
  { intros x y Hf. unfold char_free in Hf. rewrite all_chars_app in Hf. simpl in Hf.
    rewrite eqb_refl_js, andb_false_r in Hf. done. }
  unfold char_free in *. revert u. induction s as [|d s IH]; intros [|d' u] Ht Hv Heq;
    rewrite ?string_app_nil_l, ?string_app_cons in Heq; simplify_eq; [done| | |].
  - by destruct (Hno _ _ Ht).
  - by destruct (Hno _ _ Hv).
  - destruct (IH u) as [-> ->]; done.
Qed.

(** The decimal representation of a natural number has only digits. *)
Lemma pretty_N_char_digit x : in_range "0" "9" (pretty_N_char x) = true.
Proof. unfold pretty_N_char. repeat case_match; vm_compute; reflexivity. Qed.

Lemma pretty_N_go_digits x s :
  all_chars (in_range "0" "9") s = true -> all_chars (in_range "0" "9") (pretty_N_go x s) = true.
Proof.
  revert s. induction (N.lt_wf_0 x) as [x _ IH]. intros s Hs.
  destruct (decide (0 < x)%N) as [Hx|Hx].
  - rewrite pretty_N_go_step by done. apply IH; [apply N.div_lt; lia|]. simpl.
    by rewrite pretty_N_char_digit, Hs.
  - replace x with 0%N by lia. by rewrite pretty_N_go_0.
Qed.

Lemma pretty_digits (n : nat) : all_chars (in_range "0" "9") (pretty n) = true.
Proof.
  unfold pretty, pretty_nat, pretty, pretty_N. case_decide; [reflexivity|]. by apply pretty_N_go_digits.
Qed.

Lemma all_chars_impl (p q : ascii -> bool) s :
  (forall c, p c = true -> q c = true) -> all_chars p s = true -> all_chars q s = true.
Proof.
  intros Hpq. induction s as [|c s IH]; simpl; [done|]. rewrite !andb_true_iff. intros [??]. auto.
Qed.

Lemma pretty_char_free c (n : nat) : in_range "0" "9" c = false -> char_free c (pretty n) = true.
Proof.
  intros Hc. unfold char_free. eapply all_chars_impl; [|apply pretty_digits].
  intros d Hd. simpl. bool_prop. intros ->. congruence.
Qed.
