(* ===== verification/Monad.v ===== *)
(** * State and exceptions

    Code that mutates state and throws is a function from the state to the new
    state and either a value or the exception: what was done before a [throw]
    stays done.  The monad instances give stdpp's [x ← m; k] notation and [mapM]. *)

From S2P Require Export Prelude.

Inductive result (E A : Type) :=
  | Ok (a : A)
  | Throw (e : E).
Arguments Ok {E A} a.
Arguments Throw {E A} e.

Definition M (St E A : Type) : Type := St -> St * result E A.

#[export] Instance M_ret {St E} : MRet (M St E) := fun _ a st => (st, Ok a).
#[export] Instance M_bind {St E} : MBind (M St E) := fun _ _ k m st =>
  match m st with
  | (st', Ok a) => k a st'
  | (st', Throw e) => (st', Throw e)
  end.

Section Operations.
Context {St E : Type}.

Definition throw {A} (e : E) : M St E A := fun st => (st, Throw e).
Definition get_state : M St E St := fun st => (st, Ok st).
Definition put_state (st : St) : M St E unit := fun _ => (st, Ok tt).
Definition modify (f : St -> St) : M St E unit := fun st => (f st, Ok tt).

(** [for (const x of l) body(x)] *)
Fixpoint forM {A} (l : list A) (body : A -> M St E unit) : M St E unit :=
  match l with
  | [] => mret tt
  | x :: l' => body x ≫= fun _ => forM l' body
  end.

(** [try { m } catch (e) { h(e) }] *)
Definition try_catch {A} (m : M St E A) (h : E -> M St E A) : M St E A := fun st =>
  match m st with
  | (st', Ok a) => (st', Ok a)
  | (st', Throw e) => h e st'
  end.
End Operations.

(** ** Equations of the monad, used to run code symbolically *)
Section Laws.
Context {St E : Type}.

Lemma run_ret {A} (a : A) (st : St) : (mret a : M St E A) st = (st, Ok a).
Proof. reflexivity. Qed.

Lemma run_bind {A B} (m : M St E A) (k : A -> M St E B) st :
  (m ≫= k) st =
    match m st with (st', Ok a) => k a st' | (st', Throw e) => (st', Throw e) end.
Proof. reflexivity. Qed.

Lemma run_bind_ok {A B} (m : M St E A) (k : A -> M St E B) st st' a :
  m st = (st', Ok a) -> (m ≫= k) st = k a st'.
Proof. intros H. by rewrite run_bind, H. Qed.

Lemma run_bind_throw {A B} (m : M St E A) (k : A -> M St E B) st st' e :
  m st = (st', Throw e) -> (m ≫= k) st = (st', Throw e).
Proof. intros H. by rewrite run_bind, H. Qed.

(** A successful sequence ran both parts. *)
Lemma run_bind_Ok_inv {A B} (m : M St E A) (k : A -> M St E B) st st' b :
  (m ≫= k) st = (st', Ok b) ->
  exists st1 a, m st = (st1, Ok a) /\ k a st1 = (st', Ok b).
Proof. rewrite run_bind. destruct (m st) as [st1 [a|e]]; intros; simplify_eq; eauto. Qed.

(** A loop over two lists is two loops. *)
Lemma forM_app {A} (l1 l2 : list A) (body : A -> M St E unit) st :
  forM (l1 ++ l2) body st =
    match forM l1 body st with (st', Ok _) => forM l2 body st' | (st', Throw e) => (st', Throw e) end.
Proof.
  revert st. induction l1 as [|x l1 IH]; intros st; [done|]. simpl. rewrite !run_bind.
  destruct (body x st) as [st' [u|e]]; [apply IH|done].
Qed.
End Laws.

#[export] Hint Rewrite @run_ret @run_bind : spade_rw.

(** ** Code that cannot throw *)
Definition NoThrow {St E A} (m : M St E A) : Prop := forall st, exists st' a, m st = (st', Ok a).

Lemma NoThrow_ret {St E A} (a : A) : NoThrow (mret a : M St E A).
Proof. intros st. by exists st, a. Qed.

Lemma NoThrow_bind {St E A B} (m : M St E A) (k : A -> M St E B) :
  NoThrow m -> (forall a, NoThrow (k a)) -> NoThrow (m ≫= k).
Proof.
  intros Hm Hk st. destruct (Hm st) as (st1 & a & Hma). destruct (Hk a st1) as (st2 & b & Hkb).
  exists st2, b. by rewrite run_bind, Hma.
Qed.

Lemma NoThrow_mapM {St E A B} (f : A -> M St E B) l : (forall x, NoThrow (f x)) -> NoThrow (mapM f l).
Proof.
  intros Hf. induction l as [|x l IH]; [apply NoThrow_ret|].
  apply (NoThrow_bind (f x) (fun y => mapM f l ≫= fun ys => mret (y :: ys))); [done|].
  intros y. apply (NoThrow_bind (mapM f l) (fun ys => mret (y :: ys))); [done|].
  intros ys. apply NoThrow_ret.
Qed.

#[export] Hint Resolve NoThrow_ret NoThrow_bind NoThrow_mapM : spade.

(** Inverts a hypothesis that says a sequence of statements succeeded. *)
Ltac run_inv H :=
  repeat (apply run_bind_Ok_inv in H as (? & ? & ? & H)).
