(* ===== verification/Uri.v ===== *)
(** * [encodeURIComponent] and [decodeURIComponent]

    The two functions of the language by which pages put names into addresses and
    handlers take them out.  A string is the bytes of its UTF-8 form. *)

From S2P Require Export Monad.

Definition code (c : Ascii.ascii) : nat := Ascii.nat_of_ascii c.
Definition between (a b n : nat) : bool := bool_decide (a <= n <= b).
Definition percent : Ascii.ascii := Ascii.ascii_of_nat 37.

(** Letters, digits and [-_.!~*'()]. *)
Definition unreserved (c : Ascii.ascii) : bool :=
  let n := code c in
  between 65 90 n || between 97 122 n || between 48 57 n || bool_decide (n ∈ [45; 95; 46; 33; 126; 42; 39; 40; 41]).

Definition hex_digit (n : nat) : Ascii.ascii := Ascii.ascii_of_nat (if bool_decide (n < 10) then 48 + n else 55 + n).
Definition hex_value (c : Ascii.ascii) : option nat :=
  let n := code c in
  if between 48 57 n then Some (n - 48)
  else if between 65 70 n then Some (n - 55)
  else if between 97 102 n then Some (n - 87)
  else None.

Fixpoint encodeURIComponent (s : string) : string :=
  match s with
  | EmptyString => ""
  | String c s =>
      if unreserved c then String c (encodeURIComponent s)
      else String percent (String (hex_digit (code c / 16)) (String (hex_digit (code c mod 16)) (encodeURIComponent s)))
  end.

(** ** UTF-8 *)

(** How many bytes a character still needs, and the range of the next one. *)
Record Utf8 := mkUtf8 { u8_need : nat; u8_lo : nat; u8_hi : nat }.
Definition u8_start : Utf8 := mkUtf8 0 128 191.

Definition u8_lead (n : nat) : option Utf8 :=
  if bool_decide (n < 128) then Some u8_start
  else if between 194 223 n then Some (mkUtf8 1 128 191)
  else if n === 224 then Some (mkUtf8 2 160 191)
  else if n === 237 then Some (mkUtf8 2 128 159)
  else if between 225 239 n then Some (mkUtf8 2 128 191)
  else if n === 240 then Some (mkUtf8 3 144 191)
  else if between 241 243 n then Some (mkUtf8 3 128 191)
  else if n === 244 then Some (mkUtf8 3 128 143)
  else None.

Definition u8_step (st : Utf8) (n : nat) : option Utf8 :=
  match u8_need st with
  | 0 => u8_lead n
  | S m => if between (u8_lo st) (u8_hi st) n then Some (mkUtf8 m 128 191) else None
  end.

Fixpoint utf8_from (st : Utf8) (s : string) : bool :=
  match s with
  | EmptyString => u8_need st === 0
  | String c s => match u8_step st (code c) with Some st' => utf8_from st' s | None => false end
  end.
Definition utf8 (s : string) : bool := utf8_from u8_start s.

(** ** Decoding *)

(** The bytes of an address, each with whether it was escaped. *)
Fixpoint unescape (s : string) : option (list (bool * Ascii.ascii)) :=
  match s with
  | EmptyString => Some []
  | String c s' =>
      if c === percent then
        match s' with
        | String a (String b s'') =>
            match hex_value a, hex_value b with
            | Some x, Some y => cons (true, Ascii.ascii_of_nat (16 * x + y)) <$> unescape s''
            | _, _ => None
            end
        | _ => None
        end
      else cons (false, c) <$> unescape s'
  end.

(** A character is escaped as a whole. *)
Fixpoint escapes_ok (st : Utf8) (l : list (bool * Ascii.ascii)) : bool :=
  match l with
  | [] => u8_need st === 0
  | (true, c) :: l => match u8_step st (code c) with Some st' => escapes_ok st' l | None => false end
  | (false, c) :: l => (u8_need st === 0) && escapes_ok u8_start l
  end.

Fixpoint string_of (l : list (bool * Ascii.ascii)) : string :=
  match l with [] => "" | (_, c) :: l => String c (string_of l) end.

Definition decodeURIComponent (s : string) : result string string :=
  match unescape s with
  | Some l => if escapes_ok u8_start l then Ok (string_of l) else Throw "URI malformed"
  | None => Throw "URI malformed"
  end.

(** ** Round trip *)

Lemma escaped_byte c :
  exists a b, hex_value (hex_digit (code c / 16)) = Some a /\ hex_value (hex_digit (code c mod 16)) = Some b /\
    Ascii.ascii_of_nat (16 * a + b) = c.
Proof. exists (code c / 16), (code c mod 16). destruct c as [[] [] [] [] [] [] [] []]; repeat split; vm_compute; reflexivity. Qed.

Lemma unreserved_ascii c : unreserved c = true -> code c < 128 /\ c <> percent.
Proof.
  intros H. split.
  - apply (bool_decide_unpack _). revert H. destruct c as [[] [] [] [] [] [] [] []]; vm_compute; first [done|discriminate].
  - intros ->. by vm_compute in H.
Qed.

Fixpoint escaped (s : string) : list (bool * Ascii.ascii) :=
  match s with EmptyString => [] | String c s => (negb (unreserved c), c) :: escaped s end.

Lemma unescape_encode s : unescape (encodeURIComponent s) = Some (escaped s).
Proof.
  induction s as [|c s IH]; [done|]. cbn [encodeURIComponent escaped]. destruct (unreserved c) eqn:Hc.
  - cbn [unescape]. rewrite eqb_ne_js by (by apply unreserved_ascii). by rewrite IH.
  - cbn [unescape]. rewrite eqb_refl_js. destruct (escaped_byte c) as (a & b & -> & -> & ->). by rewrite IH.
Qed.

Lemma string_of_escaped s : string_of (escaped s) = s.
Proof. induction s as [|c s IH]; [done|]. simpl. by rewrite IH. Qed.

(** States the automaton reaches inside a character expect no ASCII. *)
Lemma u8_step_hi st n st' :
  (u8_need st <> 0 -> 128 <= u8_lo st) -> u8_step st n = Some st' -> u8_need st' <> 0 -> 128 <= u8_lo st'.
Proof.
  intros Hst Hstep Hne. unfold u8_step, u8_lead in Hstep.
  repeat case_match; simplify_eq/=; lia.
Qed.

Lemma escapes_utf8 st s : (u8_need st <> 0 -> 128 <= u8_lo st) -> utf8_from st s = true -> escapes_ok st (escaped s) = true.
Proof.
  revert st. induction s as [|c s IH]; intros st Hst Hs; [done|]. simpl in *.
  destruct (u8_step st (code c)) as [st'|] eqn:E; [|done].
  pose proof (fun H => u8_step_hi st (code c) st' Hst E H) as Hst'. specialize (IH st' Hst' Hs).
  destruct (unreserved c) eqn:Hc; simpl; [|done].
  apply unreserved_ascii in Hc as [Hc _]. unfold u8_step in E. destruct (u8_need st) as [|m] eqn:Hn.
  - unfold u8_lead in E. rewrite bool_decide_eq_true_2 in E by done. by injection E as <-.
  - specialize (Hst ltac:(done)). unfold between in E. rewrite bool_decide_eq_false_2 in E by lia. done.
Qed.

Abbreviation chars := String.list_ascii_of_string.
Definition addressable (s : string) : Prop := Forall (fun c => unreserved c = true) (chars s).

Lemma encode_length s : String.length s <= String.length (encodeURIComponent s).
Proof. induction s as [|c s IH]; [done|]. cbn [encodeURIComponent]. destruct (unreserved c); simpl; lia. Qed.

Lemma encode_plain s : encodeURIComponent s = s <-> addressable s.
Proof.
  unfold addressable. induction s as [|c s IH]; [by split|]. cbn [encodeURIComponent String.list_ascii_of_string].
  rewrite Forall_cons, <-IH. destruct (unreserved c) eqn:Hc; [by split; [intros [= ->]|intros [_ ->]]|].
  split; [|by intros [? _]]. intros H. apply (f_equal String.length) in H. simpl in H. pose proof (encode_length s). lia.
Qed.

Lemma hex_digit_unreserved n : n < 16 -> unreserved (hex_digit n) = true.
Proof. intros Hn. do 16 (destruct n as [|n]; [done|]). lia. Qed.

Lemma encode_chars s : Forall (fun c => unreserved c = true \/ c = percent) (chars (encodeURIComponent s)).
Proof.
  induction s as [|c s IH]; [constructor|]. cbn [encodeURIComponent]. destruct (unreserved c) eqn:Hc.
  - constructor; [by left|done].
  - constructor; [by right|]. assert (code c < 256) by apply Ascii.nat_ascii_bounded.
    constructor; [left; apply hex_digit_unreserved, Nat.Div0.div_lt_upper_bound; lia|].
    constructor; [left; apply hex_digit_unreserved, Nat.mod_upper_bound; lia|done].
Qed.

Lemma decode_encodeURI s : utf8 s = true -> decodeURIComponent (encodeURIComponent s) = Ok s.
Proof.
  intros Hs. unfold decodeURIComponent. by rewrite unescape_encode, escapes_utf8, string_of_escaped.
Qed.

Lemma encode_inj s t : encodeURIComponent t = encodeURIComponent s -> t = s.
Proof.
  intros H. apply (f_equal unescape) in H. rewrite !unescape_encode in H. injection H as H.
  by rewrite <-(string_of_escaped t), H, string_of_escaped.
Qed.

Lemma encode_truthy s : truthy (encodeURIComponent s) = truthy s.
Proof. destruct s as [|c s]; [done|]. cbn [encodeURIComponent]. by destruct (unreserved c). Qed.

(** Names in addresses.  What [encodeURIComponent] makes of a text holds only
    unreserved characters and escapes, so it is one segment of a path; a handler that
    decodes it gets the text back, whatever characters it holds; a handler that does
    not decode it gets the text exactly if no character of it is escaped; and different
    texts have different addresses. *)
Theorem uri_component (s : string) :
  Forall (fun c => unreserved c = true \/ c = percent) (chars (encodeURIComponent s)) /\
  (utf8 s = true -> decodeURIComponent (encodeURIComponent s) = Ok s) /\
  (encodeURIComponent s = s <-> addressable s) /\
  (forall t, encodeURIComponent t = encodeURIComponent s -> t = s).
Proof.
  split; [apply encode_chars|]. split; [apply decode_encodeURI|]. split; [apply encode_plain|apply encode_inj].
Qed.

(** Escapes that are not UTF-8, or not escapes, are refused. *)
Example decode_refuses :
  decodeURIComponent "100%" = Throw "URI malformed" /\ decodeURIComponent "%C3" = Throw "URI malformed" /\
  decodeURIComponent "%ED%A0%80" = Throw "URI malformed" /\ decodeURIComponent "a%20b" = Ok "a b".
Proof. repeat split. Qed.

Lemma uri_component_witness :
  utf8 "a b/c%.txt" = true /\ encodeURIComponent "a b/c%.txt" = "a%20b%2Fc%25.txt" /\
  decodeURIComponent "a%20b%2Fc%25.txt" = Ok "a b/c%.txt" /\ encodeURIComponent "gdal.warp" = "gdal.warp".
Proof.
  split; [reflexivity|]. split; [reflexivity|]. split.
  - exact (proj1 (proj2 (uri_component "a b/c%.txt")) eq_refl).
  - apply (proj1 (proj2 (proj2 (uri_component "gdal.warp")))). repeat constructor.
Defined.
