(* ===== verification/Dom.v ===== *)
(** * Trees of elements

    The part of the document object model the scripts of the two web sites use: elements
    with classes, attributes and children, [querySelector], [closest], [parentElement]
    and [classList].  An element of a document is named by its path from the root, the
    positions of the children to follow; the scripts only change classes, so paths stay. *)

From S2P Require Export JsMap Monad.

Inductive element := Element (tag : string) (classes : list string) (attrs : jsmap string) (kids : list element).

Definition el_tag (e : element) : string := let 'Element t _ _ _ := e in t.
Definition el_classes (e : element) : list string := let 'Element _ c _ _ := e in c.
Definition el_attrs (e : element) : jsmap string := let 'Element _ _ a _ := e in a.
Definition el_kids (e : element) : list element := let 'Element _ _ _ k := e in k.

Abbreviation path := (list nat).

(** ** [classList] *)

Definition has_class (c : string) (e : element) : bool := bool_decide (c ∈ el_classes e).
Definition class_add (c : string) (l : list string) : list string := if bool_decide (c ∈ l) then l else l ++ [c].
Definition class_remove (c : string) (l : list string) : list string := filter (fun x => x <> c) l.
Definition class_toggle (c : string) (l : list string) : list string :=
  if bool_decide (c ∈ l) then class_remove c l else l ++ [c].

Definition on_classes (f : list string -> list string) (e : element) : element :=
  let 'Element t c a k := e in Element t (f c) a k.

(** ** Elements of a document *)

Fixpoint el_at (e : element) (q : path) : option element :=
  match q with
  | [] => Some e
  | i :: q => match el_kids e !! i with Some k => el_at k q | None => None end
  end.

Fixpoint el_update (f : element -> element) (q : path) (e : element) : element :=
  match q with
  | [] => f e
  | i :: q => let 'Element t c a kids := e in Element t c a (alter (el_update f q) i kids)
  end.

(** The elements that satisfy [p], in document order, the root included. *)
Fixpoint search (p : element -> bool) (e : element) : list path :=
  let 'Element _ _ _ kids := e in
  (if p e then [[]] else []) ++
  (fix go (i : nat) (l : list element) : list path :=
     match l with
     | [] => []
     | k :: l => ((fun q => i :: q) <$> search p k) ++ go (S i) l
     end) 0 kids.

(** [querySelectorAll] and [querySelector] on the element at [r]: its descendants. *)
Definition querySelectorAll (p : element -> bool) (doc : element) (r : path) : list path :=
  match el_at doc r with
  | Some e => (fun q => r ++ q) <$> filter (fun q => q <> []) (search p e)
  | None => []
  end.
Definition querySelector (p : element -> bool) (doc : element) (r : path) : option path :=
  head (querySelectorAll p doc r).

(** The element and its ancestors, from the inside out; [closest]. *)
Definition ancestors (q : path) : list path := (fun n => take n q) <$> reverse (seq 0 (S (length q))).
Definition satisfies (p : element -> bool) (doc : element) (q : path) : bool :=
  match el_at doc q with Some e => p e | None => false end.
Definition closest (p : element -> bool) (doc : element) (q : path) : option path :=
  js_find (satisfies p doc) (ancestors q).

(** [previousElementSibling] *)
Definition previousSibling (q : path) : option path :=
  match last q with Some (S i) => Some (take (pred (length q)) q ++ [i]) | _ => None end.

(** ** Scripts change a document and may throw *)

Abbreviation Script := (M element string).

Definition set_classes (f : list string -> list string) (q : path) : Script unit :=
  modify (el_update (on_classes f) q).

(** ** Lemmas *)

Section ElementInd.
Context (P : element -> Prop) (HP : forall t c a kids, Forall P kids -> P (Element t c a kids)).

Fixpoint element_ind' (e : element) : P e :=
  let 'Element t c a kids := e in
  HP t c a kids
    ((fix go (l : list element) : Forall P l :=
        match l with [] => Forall_nil_2 P | k :: l => Forall_cons_2 P k l (element_ind' k) (go l) end) kids).
End ElementInd.

(** The paths [search] finds are those of the elements that satisfy [p]. *)
Lemma elem_search p e q : q ∈ search p e <-> satisfies p e q = true.
Proof.
  revert q. induction e as [t c a kids IH] using element_ind'. intros q. simpl. rewrite elem_of_app.
  set (go := fix go (i : nat) (l : list element) : list path :=
     match l with [] => [] | k :: l => ((fun q => i :: q) <$> search p k) ++ go (S i) l end).
  assert (Hgo : forall l i, Forall (fun k => forall q, q ∈ search p k <-> satisfies p k q = true) l ->
    q ∈ go i l <-> exists j k q', q = (i + j) :: q' /\ l !! j = Some k /\ satisfies p k q' = true).
  { induction l as [|k l IHl]; intros i Hl; simpl.
    { split; [by intros ?%elem_of_nil | by intros (j & k & q' & _ & ? & _)]. }
    apply Forall_cons in Hl as [Hk Hl]. rewrite elem_of_app, (IHl (S i) Hl), list_elem_of_fmap. split.
    - intros [(q' & -> & Hq)|(j & k' & q' & -> & Hj & Hq)].
      + exists 0, k, q'. rewrite Nat.add_0_r. split_and!; [done|done|by apply Hk].
      + exists (S j), k', q'. split_and!; [f_equal; lia|done|done].
    - intros ([|j] & k' & q' & -> & Hj & Hq); simpl in Hj.
      + left. injection Hj as ->. exists q'. rewrite Nat.add_0_r. split; [done|by apply Hk].
      + right. exists j, k', q'. split_and!; [f_equal; lia|done|done]. }
  rewrite Hgo by done. unfold satisfies. destruct q as [|i q]; simpl.
  - split.
    + intros [H|(j & k & q' & ? & _)]; [|done]. destruct (p _); [done|by apply elem_of_nil in H].
    + intros Hp. left. rewrite Hp. left.
  - split.
    + intros [H|(j & k & q' & Heq & Hj & Hq)].
      * destruct (p _); [by apply list_elem_of_singleton in H|by apply elem_of_nil in H].
      * simpl in Heq. injection Heq as -> ->. by rewrite Hj.
    + intros H. right. destruct (kids !! i) as [k|] eqn:E; [|done]. by exists i, k, q.
Qed.

(** What [search] finds depends on which elements there are and which satisfy [p]. *)
Lemma search_ext p e e' :
  (forall q, is_Some (el_at e q) <-> is_Some (el_at e' q)) -> (forall q, satisfies p e q = satisfies p e' q) ->
  search p e = search p e'.
Proof.
  revert e'. induction e as [t c a kids IH] using element_ind'. intros [t' c' a' kids'] Hat Hsat.
  assert (Hk : Forall2 (fun k k' => search p k = search p k') kids kids').
  { apply Forall2_same_length_lookup_2.
    - apply Nat.le_antisymm; apply Nat.le_ngt; intros Hlt.
      + destruct (lookup_lt_is_Some_2 kids (length kids')) as [k Hk]; [done|]. specialize (Hat [length kids']). simpl in Hat.
        rewrite Hk, (lookup_ge_None_2 kids') in Hat by lia. by destruct (proj1 Hat (mk_is_Some _ _ eq_refl)).
      + destruct (lookup_lt_is_Some_2 kids' (length kids)) as [k Hk]; [done|]. specialize (Hat [length kids]). simpl in Hat.
        rewrite Hk, (lookup_ge_None_2 kids) in Hat by lia. by destruct (proj2 Hat (mk_is_Some _ _ eq_refl)).
    - intros i k k' E E'. rewrite Forall_lookup in IH. apply (IH i k E).
      + intros q. specialize (Hat (i :: q)). simpl in Hat. by rewrite E, E' in Hat.
      + intros q. specialize (Hsat (i :: q)). unfold satisfies in *. simpl in Hsat. by rewrite E, E' in Hsat. }
  specialize (Hsat []). unfold satisfies in Hsat. simpl in Hsat |- *. rewrite Hsat. f_equal. clear -Hk.
  generalize 0. induction Hk as [|k k' l l' Hk _ IHl]; intros i; [done|]. by rewrite Hk, IHl.
Qed.

Lemma el_at_app e q r : el_at e (q ++ r) = el_at e q ≫= fun x => el_at x r.
Proof. revert e. induction q as [|i q IH]; intros e; [done|]. simpl. by destruct (el_kids e !! i). Qed.

Lemma elem_querySelectorAll p doc r q :
  q ∈ querySelectorAll p doc r <-> exists q', q = r ++ q' /\ q' <> [] /\ satisfies p doc q = true.
Proof.
  unfold querySelectorAll. destruct (el_at doc r) as [e|] eqn:E.
  - rewrite list_elem_of_fmap. split.
    + intros (q' & -> & [Hne Hq]%list_elem_of_filter). exists q'. split_and!; [done|done|].
      apply elem_search in Hq. unfold satisfies in *. by rewrite el_at_app, E.
    + intros (q' & -> & Hne & Hs). exists q'. split; [done|]. apply list_elem_of_filter. split; [done|].
      apply elem_search. unfold satisfies in *. by rewrite el_at_app, E in Hs.
  - split; [by intros ?%elem_of_nil|]. intros (q' & -> & _ & Hs). unfold satisfies in Hs.
    by rewrite el_at_app, E in Hs.
Qed.

Lemma elem_ancestors q a : a ∈ ancestors q <-> exists r, q = a ++ r.
Proof.
  unfold ancestors. rewrite list_elem_of_fmap. split.
  - intros (n & -> & _). exists (drop n q). by rewrite take_drop.
  - intros [r ->]. exists (length a). split; [by rewrite take_app_length|].
    rewrite elem_of_reverse, elem_of_seq, length_app. lia.
Qed.

(** ** Changing the classes of one element *)

Definition classes_at (doc : element) (q : path) : option (list string) := el_classes <$> el_at doc q.
Definition shape_at (doc : element) (q : path) : option (string * jsmap string) :=
  (fun e => (el_tag e, el_attrs e)) <$> el_at doc q.

Lemma el_update_kids f q i e : el_kids (el_update f (i :: q) e) = alter (el_update f q) i (el_kids e).
Proof. by destruct e. Qed.

Lemma classes_update f doc q r :
  classes_at (el_update (on_classes f) q doc) r =
    if decide (q = r) then f <$> classes_at doc r else classes_at doc r.
Proof.
  unfold classes_at. revert doc r. induction q as [|i q IH]; intros doc r.
  - by destruct r as [|j r]; destruct doc.
  - destruct r as [|j r]; [by destruct doc|]. cbn [el_at]. rewrite el_update_kids.
    destruct (decide (i = j)) as [->|Hne].
    + rewrite list_lookup_alter_eq. destruct (el_kids doc !! j) as [k|]; simpl; [|by case_decide].
      rewrite IH. destruct (decide (q = r)) as [->|Hqr]; [by rewrite !decide_True|].
      rewrite !decide_False by congruence. done.
    + rewrite list_lookup_alter_ne by done. rewrite decide_False by congruence. done.
Qed.

Lemma shape_update f doc q r : shape_at (el_update (on_classes f) q doc) r = shape_at doc r.
Proof.
  unfold shape_at. revert doc r. induction q as [|i q IH]; intros doc r.
  - destruct r as [|j r]; by destruct doc.
  - destruct r as [|j r]; [by destruct doc|]. cbn [el_at]. rewrite el_update_kids.
    destruct (decide (i = j)) as [->|Hne].
    + rewrite list_lookup_alter_eq. destruct (el_kids doc !! j) as [k|]; simpl; [apply IH|done].
    + by rewrite list_lookup_alter_ne.
Qed.

Lemma elem_class_add c x l : x ∈ class_add c l <-> x = c \/ x ∈ l.
Proof. unfold class_add. case_bool_decide; rewrite ?elem_of_app, ?list_elem_of_singleton; naive_solver. Qed.

Lemma elem_class_remove c x l : x ∈ class_remove c l <-> x <> c /\ x ∈ l.
Proof. unfold class_remove. by rewrite list_elem_of_filter. Qed.

Lemma elem_class_toggle c x l : x ∈ class_toggle c l <-> (x <> c /\ x ∈ l) \/ (x = c /\ c ∉ l).
Proof.
  unfold class_toggle. case_bool_decide; rewrite ?elem_class_remove, ?elem_of_app, ?list_elem_of_singleton; [naive_solver|].
  split; [|naive_solver]. intros [?| ->]; [left|by right]. split; [|done]. by intros ->.
Qed.
