(* ===== verification/SiteScripts.v ===== *)
(** * The scripts of the web sites ([documentation/static/js/main.js], [website/static/js/main.js])

    Menus, the sidebar of the documentation, copy buttons, tabs and scroll animations.
    The sidebar and the language tabs are also built here as the templates build them
    ([documentation/templates/macros/nav.html], [shortcodes/lang_tabs.html]), so that the
    scripts can be run on the pages they are for. *)

From S2P Require Export Dom.

Definition attr (name : string) (e : element) : option string := jm_get name (el_attrs e).
Definition attr_at (name : string) (doc : element) (q : path) : option string := el_at doc q ≫= attr name.

Definition TypeError : string := "TypeError".

(** ** Menus *)

(** The button and the links of the navigation, on both sites. *)
Definition nav_toggle (links : path) : Script unit := set_classes (class_toggle "nav__links--open") links.
Definition nav_link (links : path) : Script unit := set_classes (class_remove "nav__links--open") links.

(** [a.contains(b)] *)
Definition contains (a b : path) : bool := bool_decide (take (length a) b = a).

(** A click that reaches the document: the button's own listener first, when the click
    is on it or inside it, then the document's. *)
Definition sidebar_click (sidebar toggle target : path) : Script unit :=
  _ ← (if contains toggle target then set_classes (class_toggle "docs-sidebar--open") sidebar else mret tt);
  doc ← get_state;
  if satisfies (has_class "docs-sidebar--open") doc sidebar && negb (contains sidebar target) && negb (target === toggle)
  then set_classes (class_remove "docs-sidebar--open") sidebar
  else mret tt.

(** ** Copy buttons *)

(** The label, the copies in flight and the timers that will restore the label. *)
Record CopyButton := mkCopy { cb_label : string; cb_writes : nat; cb_timers : nat }.
Inductive CopyEvent := CopyClick (has_code : bool) | Written | NotWritten | Expired.

Definition copy_button : CopyButton := mkCopy "Copy" 0 0.

Definition copy_step (ev : CopyEvent) (b : CopyButton) : CopyButton :=
  match ev with
  | CopyClick true => mkCopy (cb_label b) (S (cb_writes b)) (cb_timers b)
  | CopyClick false => b
  | Written => match cb_writes b with S n => mkCopy "Copied!" n (S (cb_timers b)) | 0 => b end
  | NotWritten => mkCopy (cb_label b) (pred (cb_writes b)) (cb_timers b)
  | Expired => match cb_timers b with S n => mkCopy "Copy" (cb_writes b) n | 0 => b end
  end.

(** ** The sidebar *)

(** The selector [.sidebar-nav a]. *)
Definition is_sidebar_link (doc : element) (q : path) : bool :=
  satisfies (fun e => el_tag e === "a") doc q && js_some (satisfies (has_class "sidebar-nav") doc) (tail (ancestors q)).
Definition sidebar_links (doc : element) : list path := filter (fun q => is_sidebar_link doc q = true) (search (fun _ => true) doc).

Definition matches_path (currentPath : string) (href : option string) : bool :=
  match href with Some h => (h === currentPath) || (h === currentPath +:+ "/") | None => false end.

(** One turn of the loop over the parents. *)
Definition expand_parent (parent : path) : Script unit :=
  doc ← get_state;
  if satisfies (has_class "sidebar-nav__children") doc parent then
    _ ← set_classes (class_add "sidebar-nav__children--expanded") parent;
    match previousSibling parent with
    | Some s =>
        match querySelector (has_class "sidebar-nav__toggle") doc s with
        | Some t => set_classes (class_add "sidebar-nav__toggle--expanded") t
        | None => mret tt
        end
    | None => mret tt
    end
  else mret tt.

Definition highlight_link (currentPath : string) (link : path) : Script unit :=
  doc ← get_state;
  if matches_path currentPath (attr_at "href" doc link) then
    _ ← set_classes (class_add "active") link;
    forM (tail (ancestors link)) expand_parent
  else mret tt.

Definition highlight (currentPath : string) : Script unit :=
  doc ← get_state;
  forM (sidebar_links doc) (highlight_link currentPath).

(** The listener of a section's button. *)
Definition toggle_section (button : path) : Script unit :=
  _ ← set_classes (class_toggle "sidebar-nav__toggle--expanded") button;
  doc ← get_state;
  match closest (has_class "sidebar-nav__item") doc button with
  | None => throw TypeError
  | Some item =>
      match querySelector (has_class "sidebar-nav__children") doc item with
      | Some children => set_classes (class_toggle "sidebar-nav__children--expanded") children
      | None => mret tt
      end
  end.

(** *** The template of the sidebar *)

Record SitePage := mkSitePage { sp_permalink : string; sp_path : string }.
Record SiteSection := mkSiteSection {
  ss_permalink : string; ss_path : string; ss_pages : list SitePage;
  ss_subsections : list (string * string * list SitePage) }.

Definition page_item (current : string) (p : SitePage) : element :=
  Element "div" ["sidebar-nav__item"] []
    [Element "a" ("sidebar-nav__link" :: (if current === sp_path p then ["active"] else [])) [("href", sp_permalink p)] []].

Definition section_el (current permalink path_ : string) (kids : list element) : element :=
  let open := startsWith path_ current in
  Element "div" ["sidebar-nav__section"] []
    [Element "div" ["sidebar-nav__heading"] []
       [Element "button" ("sidebar-nav__toggle" :: (if open then ["sidebar-nav__toggle--expanded"] else [])) [] [];
        Element "a" [] [("href", permalink)] []];
     Element "div" ("sidebar-nav__children" :: (if open then ["sidebar-nav__children--expanded"] else [])) [] kids].

Definition sidebar_nav (current : string) (sections : list SiteSection) : element :=
  Element "nav" ["sidebar-nav"] []
    ((fun s => section_el current (ss_permalink s) (ss_path s)
        ((page_item current <$> ss_pages s) ++
         ((fun '(permalink, path_, pages) => section_el current permalink path_ (page_item current <$> pages)) <$> ss_subsections s)))
     <$> sections).

(** ** Tabs *)

(** The listener of a button of a group of language tabs; the selector quotes the
    language, which holds no quote. *)
Definition lang_of (doc : element) (q : path) : string := attr_at "data-lang" doc q ⁇ "null".

Definition lang_click (group button : path) : Script unit :=
  doc ← get_state;
  let target := lang_of doc button in
  _ ← forM (querySelectorAll (has_class "lang-tab-btn") doc group) (set_classes (class_remove "active"));
  _ ← forM (querySelectorAll (has_class "lang-tab-panel") doc group) (set_classes (class_remove "active"));
  _ ← set_classes (class_add "active") button;
  doc ← get_state;
  match querySelector (fun e => has_class "lang-tab-panel" e && (attr "data-lang" e === Some target)) doc group with
  | Some panel => set_classes (class_add "active") panel
  | None => throw TypeError
  end.

(** The tabs of the product's site, made from the code blocks of the page: a block is its
    [data-lang], if it has one; a tab and a panel are their language and whether active. *)
Record TabBar := mkTabBar { tb_tabs : list (string * bool); tb_panels : list (string * bool) }.

Definition lang_name (lang : string) : string :=
  jm_get lang [("python", "Python"); ("r", "R"); ("typescript", "TypeScript"); ("go", "Go"); ("rust", "Rust"); ("yaml", "YAML")]
    ⁇ lang.

Definition code_panels (blocks : list (option string)) : list (string * bool) :=
  omap id (imap (fun i (b : option string) => (fun lang => (lang, i === 0)) <$> b) blocks).
Definition build_tabs (blocks : list (option string)) : TabBar :=
  mkTabBar (imap (fun i (p : string * bool) => (p.1, i === 0)) (code_panels blocks)) (code_panels blocks).

(** [getElementById]: the first panel with the id. *)
Definition show_panel (lang : string) (panels : list (string * bool)) : list (string * bool) :=
  let hidden : list (string * bool) := (fun p : string * bool => (p.1, false)) <$> panels in
  match findIndex (fun p : string * bool => p.1 === lang) panels with
  | Some i => alter (fun p : string * bool => (p.1, true)) i hidden
  | None => hidden
  end.

Definition tab_click (i : nat) (b : TabBar) : TabBar :=
  match tb_tabs b !! i with
  | Some (lang, _) => mkTabBar (imap (fun j (t : string * bool) => (t.1, j === i)) (tb_tabs b)) (show_panel lang (tb_panels b))
  | None => b
  end.

(** ** Scroll animations *)

(** The classes of a section and whether it is observed. *)
Record Animated := mkAnimated { an_ready : bool; an_in : bool; an_observed : bool }.
Definition observe_all (n : nat) : list Animated := replicate n (mkAnimated true false true).
Definition intersection (entries : list (nat * bool)) (sections : list Animated) : list Animated :=
  foldl (fun (l : list Animated) (e : nat * bool) => if e.2 then alter (fun a => mkAnimated (an_ready a) true false) e.1 l else l) sections entries.

(** ** Classes of elements, as booleans *)

Definition holds (c : string) (doc : element) (q : path) : bool := satisfies (has_class c) doc q.

Lemma holds_classes c doc q : holds c doc q = true <-> exists l, classes_at doc q = Some l /\ c ∈ l.
Proof.
  unfold holds, satisfies, classes_at, has_class. destruct (el_at doc q) as [e|]; simpl.
  - rewrite bool_decide_eq_true. split; [eauto | by intros (l & [= <-] & ?)].
  - split; [done | by intros (l & ? & _)].
Qed.

Lemma classes_at_some doc q : is_Some (classes_at doc q) <-> is_Some (el_at doc q).
Proof. unfold classes_at. by rewrite fmap_is_Some. Qed.

(** Whether [c] holds is decided by the classes. *)
Lemma holds_update c f doc q x :
  holds c (el_update (on_classes f) q doc) x =
    if decide (q = x) then match classes_at doc x with Some l => bool_decide (c ∈ f l) | None => false end
    else holds c doc x.
Proof.
  apply eq_true_iff_eq. rewrite holds_classes, classes_update. destruct (decide (q = x)).
  - destruct (classes_at doc x) as [l|]; simpl.
    + rewrite bool_decide_eq_true. split; [by intros (? & [= <-] & ?) | eauto].
    + split; [by intros (? & ? & _) | done].
  - by rewrite holds_classes.
Qed.

(** A change that adds only classes of [cs]. *)
Record quiet (cs : list string) (doc doc' : element) : Prop := {
  qt_shape q : shape_at doc' q = shape_at doc q;
  qt_more c q : holds c doc q = true -> holds c doc' q = true;
  qt_same c q : c ∉ cs -> holds c doc' q = holds c doc q }.

#[export] Instance quiet_refl cs : Reflexive (quiet cs).
Proof. by split. Qed.
#[export] Instance quiet_trans cs : Transitive (quiet cs).
Proof.
  intros d1 d2 d3 [S1 M1 E1] [S2 M2 E2]. split; [intros q; by rewrite S2|auto|intros c q Hc; by rewrite E2, E1].
Qed.

Lemma quiet_add cs c q doc : c ∈ cs -> quiet cs doc (el_update (on_classes (class_add c)) q doc).
Proof.
  intros Hc. split; [intros; apply shape_update|..].
  - intros c' x Hx. rewrite holds_update. destruct (decide (q = x)) as [->|]; [|done].
    apply holds_classes in Hx as (l & -> & Hl). apply bool_decide_eq_true, elem_class_add. by right.
  - intros c' x Hc'. rewrite holds_update. destruct (decide (q = x)) as [->|]; [|done].
    apply eq_true_iff_eq. rewrite holds_classes. destruct (classes_at doc x) as [l|].
    + rewrite bool_decide_eq_true, elem_class_add. split; [intros [->|]; [done|eauto]|intros (? & [= <-] & ?); by right].
    + split; [done | by intros (? & ? & _)].
Qed.

Lemma holds_added c q doc : is_Some (el_at doc q) -> holds c (el_update (on_classes (class_add c)) q doc) q = true.
Proof.
  intros Hq. rewrite holds_update, decide_True by done. apply classes_at_some in Hq as [l ->].
  apply bool_decide_eq_true, elem_class_add. by left.
Qed.

Lemma holds_el c doc q : holds c doc q = true -> is_Some (el_at doc q).
Proof. unfold holds, satisfies. destruct (el_at doc q); [eauto|done]. Qed.

(** ** Highlighting *)

Definition expansions : list string := ["sidebar-nav__children--expanded"; "sidebar-nav__toggle--expanded"].

Lemma expand_parent_spec a doc :
  exists doc', expand_parent a doc = (doc', Ok tt) /\ quiet expansions doc doc' /\
    (holds "sidebar-nav__children" doc a = true -> holds "sidebar-nav__children--expanded" doc' a = true).
Proof.
  unfold expand_parent, get_state, set_classes, modify, mbind, M_bind, mret, M_ret.
  change (satisfies (has_class "sidebar-nav__children") doc a) with (holds "sidebar-nav__children" doc a).
  destruct (holds "sidebar-nav__children" doc a) eqn:Ha; [|by exists doc].
  set (doc1 := el_update (on_classes (class_add "sidebar-nav__children--expanded")) a doc).
  assert (Hq : quiet expansions doc doc1) by (apply quiet_add; left).
  assert (Hh : holds "sidebar-nav__children--expanded" doc1 a = true) by (eapply holds_added, holds_el, Ha).
  destruct (previousSibling a) as [s|]; [destruct (querySelector _ doc s) as [t|]|]; [|by exists doc1..].
  eexists. split; [reflexivity|].
  assert (Hq' : quiet expansions doc1 (el_update (on_classes (class_add "sidebar-nav__toggle--expanded")) t doc1))
    by (apply quiet_add; right; left).
  split; [by etransitivity | intros _; by apply (qt_more _ _ _ Hq')].
Qed.

Lemma expand_all l doc :
  exists doc', forM l expand_parent doc = (doc', Ok tt) /\ quiet expansions doc doc' /\
    forall a, a ∈ l -> holds "sidebar-nav__children" doc a = true -> holds "sidebar-nav__children--expanded" doc' a = true.
Proof.
  revert doc. induction l as [|a l IH]; intros doc; simpl.
  { exists doc. split_and!; [done|done|by intros a ?%elem_of_nil]. }
  rewrite run_bind. destruct (expand_parent_spec a doc) as (doc1 & -> & Hq1 & Ha).
  destruct (IH doc1) as (doc' & -> & Hq & Hall). exists doc'. split; [done|]. split; [by etransitivity|].
  intros x [->|Hx]%elem_of_cons Hc.
  - by apply (qt_more _ _ _ Hq), Ha.
  - apply Hall; [done|]. by rewrite (qt_same _ _ _ Hq1) by (apply (bool_decide_unpack _); vm_compute; exact I).
Qed.

(** The links stay the links. *)
Lemma quiet_link cs doc doc' q :
  "sidebar-nav" ∉ cs -> quiet cs doc doc' ->
  is_sidebar_link doc' q = is_sidebar_link doc q /\ attr_at "href" doc' q = attr_at "href" doc q.
Proof.
  intros Hcs Hq. pose proof (fun x => qt_shape _ _ _ Hq x) as Hs. split.
  - unfold is_sidebar_link. f_equal.
    + specialize (Hs q). unfold shape_at, satisfies in *. destruct (el_at doc' q), (el_at doc q); try done.
      injection Hs as Ht _. by rewrite Ht.
    + generalize (tail (ancestors q)) as l. induction l as [|x l IH]; [done|]. simpl. rewrite IH. f_equal.
      exact (qt_same _ _ _ Hq "sidebar-nav" x Hcs).
  - specialize (Hs q). unfold shape_at, attr_at, attr in *. destruct (el_at doc' q), (el_at doc q); try done.
    injection Hs as _ Ha. simpl. by rewrite Ha.
Qed.

(** What highlighting does on any document: exactly the links of the sidebar to the
    current path become active, and every container of such a link is expanded; no class
    is removed. *)
Lemma highlight_link_spec current link doc :
  is_sidebar_link doc link = true ->
  exists doc', highlight_link current link doc = (doc', Ok tt) /\ quiet ("active" :: expansions) doc doc' /\
    (forall q, holds "active" doc' q = holds "active" doc q ||
       ((q === link) && matches_path current (attr_at "href" doc link))) /\
    (matches_path current (attr_at "href" doc link) = true -> forall a, a ∈ tail (ancestors link) ->
       holds "sidebar-nav__children" doc a = true -> holds "sidebar-nav__children--expanded" doc' a = true).
Proof.
  intros Hlink. unfold highlight_link, get_state, set_classes, modify. rewrite run_bind.
  destruct (matches_path current _) eqn:Hm.
  2:{ exists doc. split_and!; [done|done|intros q; by rewrite andb_false_r, orb_false_r|done]. }
  rewrite run_bind. set (doc1 := el_update (on_classes (class_add "active")) link doc).
  assert (Hq1 : quiet ("active" :: expansions) doc doc1) by (apply quiet_add; left).
  destruct (expand_all (tail (ancestors link)) doc1) as (doc' & -> & Hq & Hall).
  exists doc'. split; [done|]. split.
  { etransitivity; [exact Hq1|]. destruct Hq as [S1 M1 E1]. split; [done|done|]. intros c q Hc. apply E1. set_solver. }
  split.
  - intros q. rewrite (qt_same _ _ _ Hq) by (apply (bool_decide_unpack _); vm_compute; exact I).
    unfold doc1. rewrite holds_update, andb_true_r. destruct (decide (link = q)) as [<-|Hne].
    + rewrite eqb_refl_js, orb_true_r. assert (is_Some (classes_at doc link)) as [l ->].
      { apply classes_at_some. unfold is_sidebar_link, satisfies in Hlink. destruct (el_at doc link); [eauto|done]. }
      apply bool_decide_eq_true, elem_class_add. by left.
    + rewrite eqb_ne_js by congruence. by rewrite orb_false_r.
  - intros _ a Ha Hc. apply Hall; [done|].
    by rewrite (qt_same _ _ _ Hq1) by (apply (bool_decide_unpack _); vm_compute; exact I).
Qed.

Lemma highlight_links_spec current l doc :
  (forall link, link ∈ l -> is_sidebar_link doc link = true) ->
  exists doc', forM l (highlight_link current) doc = (doc', Ok tt) /\ quiet ("active" :: expansions) doc doc' /\
    (forall q, holds "active" doc' q = holds "active" doc q ||
       (bool_decide (q ∈ l) && matches_path current (attr_at "href" doc q))) /\
    (forall link, link ∈ l -> matches_path current (attr_at "href" doc link) = true -> forall a, a ∈ tail (ancestors link) ->
       holds "sidebar-nav__children" doc a = true -> holds "sidebar-nav__children--expanded" doc' a = true).
Proof.
  revert doc. induction l as [|link l IH]; intros doc Hl; simpl.
  { exists doc. split_and!; [done|done| |by intros ? ?%elem_of_nil]. intros q.
    by rewrite orb_false_r. }
  rewrite run_bind. destruct (highlight_link_spec current link doc) as (doc1 & -> & Hq1 & Ha1 & He1); [apply Hl; left|].
  assert (Hkeep : forall q, is_sidebar_link doc1 q = is_sidebar_link doc q /\ attr_at "href" doc1 q = attr_at "href" doc q).
  { intros q. eapply quiet_link; [|exact Hq1]. apply (bool_decide_unpack _). vm_compute. exact I. }
  destruct (IH doc1) as (doc' & -> & Hq & Ha & He).
  { intros x Hx. destruct (Hkeep x) as [-> _]. apply Hl. by right. }
  exists doc'. split; [done|]. split; [by etransitivity|]. split.
  - intros q. rewrite Ha, Ha1. destruct (Hkeep q) as [_ ->]. rewrite <-orb_assoc. f_equal.
    destruct (decide (q = link)) as [->|Hne].
    + rewrite eqb_refl_js, (bool_decide_eq_true_2 (link ∈ link :: l)) by left. simpl.
      by destruct (matches_path _ _); rewrite ?andb_false_r.
    + rewrite eqb_ne_js by done. simpl. f_equal. apply bool_decide_ext. rewrite elem_of_cons. naive_solver.
  - intros x [->|Hx]%elem_of_cons Hm a Hin Hc.
    + apply (qt_more _ _ _ Hq). by apply He1.
    + apply (He x); [done|by destruct (Hkeep x) as [_ ->]|done|].
      by rewrite (qt_same _ _ _ Hq1) by (apply (bool_decide_unpack _); vm_compute; exact I).
Qed.

Lemma elem_sidebar_links doc q : q ∈ sidebar_links doc <-> is_sidebar_link doc q = true.
Proof.
  unfold sidebar_links. rewrite list_elem_of_filter. split; [by intros [? _]|]. intros H. split; [done|].
  apply elem_search. unfold is_sidebar_link, satisfies in *. by destruct (el_at doc q).
Qed.

Theorem highlight_spec current doc :
  exists doc', highlight current doc = (doc', Ok tt) /\ quiet ("active" :: expansions) doc doc' /\
    (forall q, holds "active" doc' q = holds "active" doc q ||
       (is_sidebar_link doc q && matches_path current (attr_at "href" doc q))) /\
    (forall link a, is_sidebar_link doc link = true -> matches_path current (attr_at "href" doc link) = true ->
       a ∈ tail (ancestors link) -> holds "sidebar-nav__children" doc a = true ->
       holds "sidebar-nav__children--expanded" doc' a = true).
Proof.
  unfold highlight, get_state. rewrite run_bind.
  destruct (highlight_links_spec current (sidebar_links doc) doc) as (doc' & Hrun & Hq & Ha & He).
  { intros q. apply elem_sidebar_links. }
  exists doc'. split_and!; [done|done| |].
  - intros q. rewrite Ha. f_equal. f_equal. apply eq_true_iff_eq. rewrite bool_decide_eq_true. apply elem_sidebar_links.
  - intros link a Hlink Hm Hin Hc. apply (He link); [by apply elem_sidebar_links|done..].
Qed.

(** ** The sidebar of the documentation *)

(** No toggle button lies inside an item. *)
Definition toggle_outside (e : element) : Prop :=
  forall q a r, holds "sidebar-nav__toggle" e q = true -> q = a ++ r -> holds "sidebar-nav__item" e a = false.

Lemma outside_kids t c at_ kids :
  "sidebar-nav__item" ∉ c -> Forall toggle_outside kids -> toggle_outside (Element t c at_ kids).
Proof.
  intros Hc Hk q a r Hq ->. destruct a as [|i a]; [by apply bool_decide_eq_false|].
  unfold holds, satisfies in *. simpl in *. destruct (kids !! i) as [k|] eqn:E; [|done].
  rewrite Forall_lookup in Hk. by apply (Hk i k E (a ++ r) a r).
Qed.

Lemma outside_nothing e : (forall q, holds "sidebar-nav__toggle" e q = false) -> toggle_outside e.
Proof. intros He q a r Hq. by rewrite He in Hq. Qed.

Lemma page_item_outside current p : toggle_outside (page_item current p).
Proof.
  apply outside_nothing. intros q. unfold page_item.
  destruct q as [|[|i] [|j q]]; try done. unfold holds, satisfies. simpl. by case_bool_decide.
Qed.

Lemma section_outside current permalink path_ kids :
  Forall toggle_outside kids -> toggle_outside (section_el current permalink path_ kids).
Proof.
  intros Hk. unfold section_el. apply outside_kids; [by apply (bool_decide_unpack _); vm_compute|].
  apply Forall_cons. split; [|apply Forall_singleton].
  - apply outside_kids; [by apply (bool_decide_unpack _); vm_compute|].
    apply Forall_cons. split; [|apply Forall_singleton]; (apply outside_kids; [|constructor]);
      [destruct (startsWith _ _)|]; by apply (bool_decide_unpack _); vm_compute.
  - apply outside_kids; [|done]. destruct (startsWith _ _); by apply (bool_decide_unpack _); vm_compute.
Qed.

Lemma sidebar_outside current sections : toggle_outside (sidebar_nav current sections).
Proof.
  apply outside_kids; [by apply (bool_decide_unpack _); vm_compute|].
  assert (Hitems : forall l, Forall toggle_outside (page_item current <$> l)).
  { intros l. apply Forall_fmap, Forall_forall. intros p _. apply page_item_outside. }
  apply Forall_fmap, Forall_forall. intros s _. apply section_outside, Forall_app. split; [done|].
  apply Forall_fmap, Forall_forall. intros [[permalink path_] pages] _. by apply section_outside.
Qed.

Lemma holds_toggle_ne c c' q doc x :
  c <> c' -> holds c (el_update (on_classes (class_toggle c')) q doc) x = holds c doc x.
Proof.
  intros Hc. rewrite holds_update. destruct (decide (q = x)) as [->|]; [|done].
  apply eq_true_iff_eq. rewrite holds_classes. destruct (classes_at doc x) as [l|].
  - rewrite bool_decide_eq_true, elem_class_toggle. split; [intros [[_ ?]|[? _]]; [eauto|done]|].
    intros (? & [= <-] & ?). by left.
  - split; [done | by intros (? & ? & _)].
Qed.

(** A click on such a button turns its arrow and fails. *)
Lemma toggle_section_fails doc q :
  toggle_outside doc -> holds "sidebar-nav__toggle" doc q = true ->
  let doc' := el_update (on_classes (class_toggle "sidebar-nav__toggle--expanded")) q doc in
  toggle_section q doc = (doc', Throw TypeError) /\ toggle_outside doc'.
Proof.
  intros Hout Hq doc'.
  assert (Hsame : forall c x, c <> "sidebar-nav__toggle--expanded" -> holds c doc' x = holds c doc x)
    by (intros; by apply holds_toggle_ne).
  assert (Hout' : toggle_outside doc').
  { intros x a r Hx Heq. rewrite Hsame in Hx |- * by done. by eapply Hout. }
  split; [|done]. unfold toggle_section, set_classes, modify, get_state, mbind, M_bind. fold doc'.
  assert (closest (has_class "sidebar-nav__item") doc' q = None) as ->; [|done].
  apply js_find_None. intros a [r Hr]%elem_ancestors.
  apply (Hout' q a r); [by rewrite Hsame|done].
Qed.

Fixpoint click_all (clicks : list path) (doc : element) : element :=
  match clicks with [] => doc | q :: clicks => click_all clicks (toggle_section q doc).1 end.

(** The sections of the sidebar do not open or close: on the sidebar the template
    builds, whatever its sections and whatever page is shown, any sequence of clicks on
    its buttons leaves the containers of the sections as they were; only the arrows turn,
    and every click ends in an exception. *)
Theorem sidebar_sections_stay current sections clicks :
  let doc := sidebar_nav current sections in
  Forall (fun q => holds "sidebar-nav__toggle" doc q = true) clicks ->
  (forall q, holds "sidebar-nav__children--expanded" (click_all clicks doc) q = holds "sidebar-nav__children--expanded" doc q) /\
  (forall q l, clicks = q :: l -> (toggle_section q doc).2 = Throw TypeError).
Proof.
  intros doc Hclicks. assert (Hout : toggle_outside doc) by apply sidebar_outside. split.
  - revert Hclicks Hout. generalize doc. clear doc. induction clicks as [|c clicks IH]; intros doc Hclicks Hout q; [done|].
    apply Forall_cons in Hclicks as [Hc Hclicks]. simpl.
    destruct (toggle_section_fails doc c Hout Hc) as [Hrun Hout']. rewrite Hrun. cbn [fst].
    rewrite IH; [by apply holds_toggle_ne| |done]. eapply Forall_impl; [exact Hclicks|]. intros x Hx. simpl.
    by rewrite holds_toggle_ne.
  - intros q l ->. apply Forall_cons in Hclicks as [Hq _]. by destruct (toggle_section_fails doc q Hout Hq) as [-> _].
Qed.

Lemma sidebar_sections_stay_witness :
  let doc := sidebar_nav "/runs/a/" [mkSiteSection "https://x/runs/" "/runs/" [mkSitePage "https://x/runs/a/" "/runs/a/"] []] in
  let button := [0; 0; 0] in
  holds "sidebar-nav__toggle" doc button = true /\
  holds "sidebar-nav__children--expanded" (click_all [button; button] doc) [0; 1] = true /\
  (toggle_section button doc).2 = Throw TypeError.
Proof.
  split; [reflexivity|].
  destruct (sidebar_sections_stay "/runs/a/" [mkSiteSection "https://x/runs/" "/runs/" [mkSitePage "https://x/runs/a/" "/runs/a/"] []]
    [[0; 0; 0]; [0; 0; 0]]) as [H1 H2]; [repeat constructor|].
  split; [rewrite H1; reflexivity|]. exact (H2 _ _ eq_refl).
Defined.

(** Every address in the tree satisfies [P]. *)
Definition all_hrefs (P : string -> Prop) (e : element) : Prop := forall q h, attr_at "href" e q = Some h -> P h.

Lemma hrefs_kids P t c at_ kids :
  (forall h, jm_get "href" at_ = Some h -> P h) -> Forall (all_hrefs P) kids -> all_hrefs P (Element t c at_ kids).
Proof.
  intros Ha Hk [|i q] h; [apply Ha|]. unfold attr_at. simpl. destruct (kids !! i) as [k|] eqn:E; [|done].
  rewrite Forall_lookup in Hk. apply (Hk i k E).
Qed.

Definition section_hrefs (s : SiteSection) : list string :=
  ss_permalink s :: (sp_permalink <$> ss_pages s) ++
    (ss_subsections s ≫= fun '(permalink, _, pages) => permalink :: (sp_permalink <$> pages)).

Lemma page_item_hrefs P current p : P (sp_permalink p) -> all_hrefs P (page_item current p).
Proof.
  intros Hp. apply hrefs_kids; [done|]. apply Forall_singleton, hrefs_kids; [|constructor].
  simpl. by intros h [= <-].
Qed.

Lemma section_el_hrefs P current permalink path_ kids :
  P permalink -> Forall (all_hrefs P) kids -> all_hrefs P (section_el current permalink path_ kids).
Proof.
  intros Hp Hk. apply hrefs_kids; [done|]. apply Forall_cons. split.
  - apply hrefs_kids; [done|]. apply Forall_cons. split; [by apply hrefs_kids|].
    apply Forall_singleton, hrefs_kids; [|constructor]. simpl. by intros h [= <-].
  - apply Forall_singleton. by apply hrefs_kids.
Qed.

Lemma sidebar_hrefs P current sections :
  Forall (fun s => Forall P (section_hrefs s)) sections -> all_hrefs P (sidebar_nav current sections).
Proof.
  intros Hs. apply hrefs_kids; [done|]. apply Forall_fmap. eapply Forall_impl; [exact Hs|]. intros s Hall. simpl.
  unfold section_hrefs in Hall. apply Forall_cons in Hall as [Hp Hall]. apply Forall_app in Hall as [Hpages Hsubs].
  assert (Hitems : forall l, Forall P (sp_permalink <$> l) -> Forall (all_hrefs P) (page_item current <$> l)).
  { intros l Hl. apply Forall_fmap. rewrite Forall_fmap in Hl. eapply Forall_impl; [exact Hl|]. intros p. apply page_item_hrefs. }
  apply section_el_hrefs; [done|]. apply Forall_app. split; [by apply Hitems|]. apply Forall_fmap, Forall_forall.
  intros [[permalink path_] pages] Hin. simpl.
  assert (Forall P (permalink :: (sp_permalink <$> pages))) as [Hpl Hpg]%Forall_cons.
  { rewrite Forall_forall in Hsubs |- *. intros x Hx. apply Hsubs, list_elem_of_bind. by exists (permalink, path_, pages). }
  apply section_el_hrefs; [done|by apply Hitems].
Qed.

(** On the sidebar the template builds, whose addresses are absolute, the script
    highlights nothing: the template has done it. *)
Theorem highlight_template current sections :
  startsWith "/" current = true ->
  Forall (fun s => Forall (fun h => startsWith "http" h = true) (section_hrefs s)) sections ->
  forall q, holds "active" (highlight current (sidebar_nav current sections)).1 q = holds "active" (sidebar_nav current sections) q.
Proof.
  intros Hc Hs q. destruct (highlight_spec current (sidebar_nav current sections)) as (doc' & -> & _ & -> & _).
  assert (matches_path current (attr_at "href" (sidebar_nav current sections) q) = false) as ->.
  2:{ by rewrite andb_false_r, orb_false_r. }
  destruct (attr_at _ _ q) as [h|] eqn:E; [|done]. apply (sidebar_hrefs _ current sections Hs) in E.
  unfold matches_path. destruct current as [|c current]; [done|].
  assert (h <> String c current /\ h <> String c current +:+ "/") as [H1 H2].
  { apply startsWith_app in Hc as [r Hr], E as [r' ->]. rewrite Hr. by split. }
  by rewrite !eqb_ne_js.
Qed.

(** ** Language tabs *)

(** A change that concerns only the class [c]. *)
Record only (c : string) (doc doc' : element) : Prop := {
  on_shape q : shape_at doc' q = shape_at doc q;
  on_other c' q : c' <> c -> holds c' doc' q = holds c' doc q }.

#[export] Instance only_refl c : Reflexive (only c).
Proof. by split. Qed.
#[export] Instance only_trans c : Transitive (only c).
Proof.
  intros d1 d2 d3 [S1 O1] [S2 O2]. split; [intros q; by rewrite S2|]. intros c' q Hc. by rewrite O2, O1.
Qed.

Lemma only_remove c q doc :
  let doc' := el_update (on_classes (class_remove c)) q doc in
  only c doc doc' /\ forall x, holds c doc' x = holds c doc x && negb (x === q).
Proof.
  intros doc'. assert (Hh : forall c' x, holds c' doc' x = holds c' doc x && negb (bool_decide (c' = c /\ x = q))).
  { intros c' x. unfold doc'. rewrite holds_update. destruct (decide (q = x)) as [->|Hne].
    - apply eq_true_iff_eq. rewrite andb_true_iff, negb_true_iff, bool_decide_eq_false, holds_classes.
      destruct (classes_at doc x) as [l|]; [|by split; [|intros [(? & ? & _) _]]].
      rewrite bool_decide_eq_true, elem_class_remove. naive_solver.
    - rewrite bool_decide_eq_false_2 by naive_solver. by rewrite andb_true_r. }
  split; [split; [intros; apply shape_update|]|].
  - intros c' x Hc. rewrite Hh, bool_decide_eq_false_2 by naive_solver. by rewrite andb_true_r.
  - intros x. rewrite Hh. do 2 f_equal. apply bool_decide_ext. naive_solver.
Qed.

Lemma only_add c q doc :
  is_Some (classes_at doc q) ->
  let doc' := el_update (on_classes (class_add c)) q doc in
  only c doc doc' /\ forall x, holds c doc' x = holds c doc x || (x === q).
Proof.
  intros [l Hl] doc'. split; [split; [intros; apply shape_update|]|].
  - intros c' x Hc. unfold doc'. rewrite holds_update. destruct (decide (q = x)) as [<-|]; [|done].
    apply eq_true_iff_eq. rewrite holds_classes, Hl, bool_decide_eq_true, elem_class_add. naive_solver.
  - intros x. unfold doc'. rewrite holds_update. destruct (decide (q = x)) as [<-|Hne].
    + rewrite Hl, eqb_refl_js, orb_true_r. apply bool_decide_eq_true, elem_class_add. by left.
    + by rewrite eqb_ne_js, orb_false_r by congruence.
Qed.

Lemma forM_remove c l doc :
  exists doc', forM l (set_classes (class_remove c)) doc = (doc', Ok tt) /\ only c doc doc' /\
    forall x, holds c doc' x = holds c doc x && negb (bool_decide (x ∈ l)).
Proof.
  revert doc. induction l as [|q l IH]; intros doc; simpl.
  { exists doc. split_and!; [done|done|]. intros x. by rewrite andb_true_r. }
  rewrite run_bind. unfold set_classes at 1, modify at 1. destruct (only_remove c q doc) as [Ho1 Hh1].
  destruct (IH (el_update (on_classes (class_remove c)) q doc)) as (doc' & -> & Ho & Hh).
  exists doc'. split_and!; [done|by etransitivity|]. intros x. rewrite Hh, Hh1, <-andb_assoc. f_equal.
  apply eq_true_iff_eq. rewrite andb_true_iff, !negb_true_iff, !bool_decide_eq_false, elem_of_cons. tauto.
Qed.

(** Selectors that do not look at the class [c] find the same elements. *)
Lemma only_querySelector c p doc doc' r :
  only c doc doc' -> (forall q, satisfies p doc' q = satisfies p doc q) ->
  querySelectorAll p doc' r = querySelectorAll p doc r.
Proof.
  intros [Hs _] Hp. assert (Hsearch : search p doc' = search p doc).
  { apply search_ext; [|done]. intros q. specialize (Hs q). unfold shape_at in Hs.
    destruct (el_at doc' q), (el_at doc q); naive_solver. }
  unfold querySelectorAll. destruct (el_at doc r) as [e|] eqn:E, (el_at doc' r) as [e'|] eqn:E'.
  - f_equal. f_equal. apply search_ext.
    + intros q. specialize (Hs (r ++ q)). unfold shape_at in Hs. rewrite !el_at_app, E, E' in Hs. simpl in Hs.
      destruct (el_at e' q), (el_at e q); naive_solver.
    + intros q. specialize (Hp (r ++ q)). unfold satisfies in *. by rewrite !el_at_app, E, E' in Hp.
  - specialize (Hs r). unfold shape_at in Hs. by rewrite E, E' in Hs.
  - specialize (Hs r). unfold shape_at in Hs. by rewrite E, E' in Hs.
  - done.
Qed.

Lemma only_classes c doc doc' q : only c doc doc' -> is_Some (el_at doc q) -> is_Some (classes_at doc' q).
Proof.
  intros Hd [e He]. apply classes_at_some. pose proof (on_shape _ _ _ Hd q) as Hs. unfold shape_at in Hs.
  rewrite He in Hs. destruct (el_at doc' q); [eauto|done].
Qed.

Lemma querySelector_weaken (p p' : element -> bool) doc r q :
  (forall e, p e = true -> p' e = true) -> querySelector p doc r = Some q -> q ∈ querySelectorAll p' doc r.
Proof.
  intros Hp Hq. unfold querySelector in Hq. apply head_Some_elem_of, elem_querySelectorAll in Hq as (q' & -> & Hne & Hq).
  apply elem_querySelectorAll. exists q'. split_and!; [done..|]. unfold satisfies in *.
  destruct (el_at doc (r ++ q')); [by apply Hp|done].
Qed.

(** A click on a button of a group of language tabs: the button and the panel of its
    language are the active ones of the group, and nothing else of the page changes; a
    button without a panel loses the active panel and fails. *)
Theorem lang_tabs_switch doc group button :
  let buttons := querySelectorAll (has_class "lang-tab-btn") doc group in
  let panels := querySelectorAll (has_class "lang-tab-panel") doc group in
  let panel := querySelector (fun e => has_class "lang-tab-panel" e && (attr "data-lang" e === Some (lang_of doc button))) doc group in
  button ∈ buttons ->
  exists doc', lang_click group button doc = (doc', if panel then Ok tt else Throw TypeError) /\ only "active" doc doc' /\
    forall q, holds "active" doc' q =
      if bool_decide (q ∈ buttons ++ panels) then (q === button) || (Some q === panel) else holds "active" doc q.
Proof.
  intros buttons panels panel Hb.
  assert (Hin : is_Some (el_at doc button)).
  { apply elem_querySelectorAll in Hb as (? & _ & _ & Hb). by eapply holds_el. }
  unfold lang_click, get_state. rewrite run_bind. fold buttons panels.
  destruct (forM_remove "active" buttons doc) as (d1 & H1 & Ho1 & Hh1). rewrite run_bind, H1.
  destruct (forM_remove "active" panels d1) as (d2 & H2 & Ho2 & Hh2). rewrite run_bind, H2.
  assert (Ho : only "active" doc d2) by by etransitivity.
  destruct (only_add "active" button d2 (only_classes _ _ _ _ Ho Hin)) as [Ho3 Hh3].
  rewrite run_bind. unfold set_classes at 1, modify at 1. rewrite run_bind.
  set (d3 := el_update _ button d2) in *. assert (Hd3 : only "active" doc d3) by by etransitivity.
  assert (Hp : querySelector (fun e => has_class "lang-tab-panel" e && (attr "data-lang" e === Some (lang_of doc button))) d3 group = panel).
  { unfold panel, querySelector. f_equal. eapply only_querySelector; [exact Hd3|]. intros q. unfold satisfies.
    pose proof (on_shape _ _ _ Hd3 q) as Hs. pose proof (on_other _ _ _ Hd3 "lang-tab-panel" q) as Hc.
    unfold shape_at, holds, satisfies in Hs, Hc. destruct (el_at d3 q), (el_at doc q); try done.
    rewrite Hc by done. unfold attr. injection Hs as _ ->. done. }
  rewrite Hp. assert (Hmem : forall q, holds "active" d3 q =
     holds "active" doc q && negb (bool_decide (q ∈ buttons ++ panels)) || (q === button)).
  { intros q. rewrite Hh3, Hh2, Hh1, <-andb_assoc. do 2 f_equal. apply eq_true_iff_eq.
    rewrite andb_true_iff, !negb_true_iff, !bool_decide_eq_false, elem_of_app. tauto. }
  destruct panel as [pn|] eqn:Epn.
  - assert (Hpn : pn ∈ panels).
    { eapply querySelector_weaken; [|exact Epn]. by intros e [? _]%andb_true_iff. }
    assert (is_Some (el_at doc pn)) as Hpin.
    { apply elem_querySelectorAll in Hpn as (? & _ & _ & ?). by eapply holds_el. }
    destruct (only_add "active" pn d3 (only_classes _ _ _ _ Hd3 Hpin)) as [Ho4 Hh4]. unfold set_classes, modify.
    eexists. split; [reflexivity|]. split; [by etransitivity|]. intros q. rewrite Hh4, Hmem.
    assert (bool_decide (Some q = Some pn) = (q === pn)) as -> by (apply bool_decide_ext; naive_solver).
    case_bool_decide as Hq; [by rewrite andb_false_r|]. rewrite andb_true_r.
    rewrite !eqb_ne_js, !orb_false_r by (intros ->; apply Hq, elem_of_app; auto). done.
  - exists d3. split; [done|]. split; [done|]. intros q. rewrite Hmem.
    case_bool_decide as Hq; [by rewrite andb_false_r, orb_false_r|]. rewrite andb_true_r.
    rewrite eqb_ne_js, orb_false_r by (intros ->; apply Hq, elem_of_app; auto). done.
Qed.

(** *** The tabs of the product's site *)

Definition active_of (l : list (string * bool)) : list string := (filter (fun p : string * bool => p.2 = true) l).*1.

Definition hide (l : list (string * bool)) : list (string * bool) := (fun p : string * bool => (p.1, false)) <$> l.
Definition reveal (i : nat) (l : list (string * bool)) : list (string * bool) :=
  alter (fun p : string * bool => (p.1, true)) i (hide l).

Lemma active_cons p l : active_of (p :: l) = (if p.2 then [p.1] else []) ++ active_of l.
Proof.
  unfold active_of. destruct p as [x []]; [by rewrite filter_cons_True|by rewrite filter_cons_False].
Qed.

Lemma active_hide l : active_of (hide l) = [].
Proof. induction l as [|p l IH]; [done|]. unfold hide in *. by rewrite fmap_cons, active_cons. Qed.

Lemma langs_hide l : (hide l).*1 = l.*1.
Proof. unfold hide. rewrite <-list_fmap_compose. by apply list_fmap_ext. Qed.

Lemma reveal_cons i p l :
  reveal i (p :: l) = match i with 0 => (p.1, true) :: hide l | S i => (p.1, false) :: reveal i l end.
Proof. by destruct i. Qed.

Lemma active_reveal l i lang : l.*1 !! i = Some lang -> active_of (reveal i l) = [lang].
Proof.
  revert i. induction l as [|[x y] l IH]; intros [|i] H; try done; rewrite reveal_cons, active_cons; simpl in H |- *.
  - injection H as ->. by rewrite active_hide.
  - by apply IH.
Qed.

Lemma langs_reveal l i : (reveal i l).*1 = l.*1.
Proof.
  revert i. induction l as [|p l IH]; intros [|i]; [done|done|..]; rewrite reveal_cons, !fmap_cons.
  - by rewrite langs_hide.
  - by rewrite IH.
Qed.

Lemma imap_reveal (l : list (string * bool)) i : imap (fun j (t : string * bool) => (t.1, j === i)) l = reveal i l.
Proof.
  unfold reveal, hide. apply list_eq. intros j. rewrite list_lookup_imap. destruct (decide (i = j)) as [->|Hne].
  - rewrite list_lookup_alter_eq, list_lookup_fmap. destruct (l !! j); [|done]. simpl. by rewrite eqb_refl_js.
  - rewrite list_lookup_alter_ne, list_lookup_fmap by done. destruct (l !! j); [|done]. simpl. by rewrite eqb_ne_js by done.
Qed.

Lemma findIndex_lang lang (l : list (string * bool)) :
  lang ∈ l.*1 -> exists i, findIndex (fun p : string * bool => p.1 === lang) l = Some i /\ l.*1 !! i = Some lang.
Proof.
  induction l as [|[x y] l IH]; [by intros ?%elem_of_nil|]. rewrite fmap_cons, elem_of_cons. simpl.
  destruct (decide (x = lang)) as [->|Hne]; [rewrite eqb_refl_js; by exists 0|].
  rewrite eqb_ne_js by done. intros [?|H]; [congruence|]. destruct (IH H) as (i & -> & Hi). by exists (S i).
Qed.

(** Clicks on the tabs, from the page as it was built. *)
Definition clicked (blocks : list (option string)) (clicks : list nat) : TabBar :=
  foldl (fun b i => tab_click i b) (build_tabs blocks) clicks.

Lemma tab_click_langs i b : (tb_tabs b).*1 = (tb_panels b).*1 ->
  (tb_tabs (tab_click i b)).*1 = (tb_tabs b).*1 /\ (tb_panels (tab_click i b)).*1 = (tb_panels b).*1.
Proof.
  intros Hb. unfold tab_click. destruct (tb_tabs b !! i) as [[lang act]|] eqn:E; [|done]. simpl.
  rewrite imap_reveal, langs_reveal. split; [done|]. unfold show_panel. fold (hide (tb_panels b)).
  destruct (findIndex_lang lang (tb_panels b)) as (j & -> & _).
  { rewrite <-Hb. apply list_elem_of_lookup. exists i. by rewrite list_lookup_fmap, E. }
  apply (langs_reveal (tb_panels b)).
Qed.

Lemma panels_langs (f : nat -> bool) (blocks : list (option string)) :
  (omap id (imap (fun i (b : option string) => (fun lang => (lang, f i)) <$> b) blocks)).*1 = omap id blocks.
Proof. revert f. induction blocks as [|[lang|] blocks IH]; intros f; [done|exact (f_equal (cons lang) (IH (f ∘ S)))|exact (IH (f ∘ S))]. Qed.

Lemma panels_hidden (blocks : list (option string)) :
  active_of (omap id (imap (fun (_ : nat) (b : option string) => (fun lang => (lang, false)) <$> b) blocks)) = [].
Proof. induction blocks as [|[lang|] blocks IH]; [done|exact IH|exact IH]. Qed.

Lemma clicked_langs blocks clicks :
  (tb_tabs (clicked blocks clicks)).*1 = omap id blocks /\ (tb_panels (clicked blocks clicks)).*1 = omap id blocks.
Proof.
  unfold clicked. induction clicks as [|i clicks IH] using rev_ind.
  - pose proof (panels_langs (fun i => i === 0) blocks) as H2. split; [|exact H2].
    simpl. by rewrite imap_reveal, langs_reveal.
  - destruct IH as [H1 H2]. rewrite foldl_snoc. destruct (tab_click_langs i (foldl (fun b i => tab_click i b) (build_tabs blocks) clicks)) as [-> ->];
      [by rewrite H1|done].
Qed.

(** The tabs built from the code blocks of the page.  Before the first click the first
    tab is active, and its panel is unless the page's first block has no language; after
    a click exactly the clicked tab is active and exactly one panel, of its language. *)
Theorem website_tabs blocks clicks i lang :
  let langs := omap id blocks in
  let b := clicked blocks clicks in
  let b' := clicked blocks (clicks ++ [i]) in
  (active_of (tb_tabs (build_tabs blocks)) = take 1 langs /\
   active_of (tb_panels (build_tabs blocks)) = match blocks with Some lang :: _ => [lang] | _ => [] end) /\
  (langs !! i = Some lang ->
   active_of (tb_tabs b') = [lang] /\ active_of (tb_panels b') = [lang] /\ (exists act, tb_tabs b' !! i = Some (lang, act) /\ act = true)) /\
  (langs !! i = None -> b' = b).
Proof.
  intros langs b b'. destruct (clicked_langs blocks clicks) as [H1 H2]. fold b in H1, H2.
  assert (Hb' : b' = tab_click i b) by (unfold b', clicked; by rewrite foldl_snoc).
  split; [|split].
  - split.
    + unfold build_tabs. cbn [tb_tabs]. rewrite imap_reveal. destruct (clicked_langs blocks []) as [_ Hl].
      unfold clicked in Hl. simpl in Hl. unfold langs. rewrite <-Hl. destruct (code_panels blocks) as [|[x y] l]; [done|].
      by apply active_reveal.
    + destruct blocks as [|[x|] blocks]; [done|..]; unfold build_tabs, code_panels; cbn [tb_panels].
      * simpl. rewrite active_cons. simpl. f_equal. apply panels_hidden.
      * apply panels_hidden.
  - intros Hi. rewrite Hb'. unfold tab_click, langs in *. rewrite <-H1, list_lookup_fmap in Hi.
    destruct (tb_tabs b !! i) as [[x act]|] eqn:E; [|done]. injection Hi as ->. cbn [tb_tabs tb_panels].
    rewrite imap_reveal. assert (Hlang : (tb_tabs b).*1 !! i = Some lang) by (by rewrite list_lookup_fmap, E).
    split_and!; [by apply active_reveal| |].
    + unfold show_panel. fold (hide (tb_panels b)). destruct (findIndex_lang lang (tb_panels b)) as (j & -> & Hj).
      { rewrite H2, <-H1. apply list_elem_of_lookup. by exists i. }
      by apply (active_reveal (tb_panels b)).
    + exists true. split; [|done]. unfold reveal, hide. by rewrite list_lookup_alter_eq, list_lookup_fmap, E.
  - intros Hi. rewrite Hb'. unfold tab_click, langs in *. rewrite <-H1, list_lookup_fmap in Hi. by destruct (tb_tabs b !! i).
Qed.

(** ** Menus, copy buttons and animations *)

(** A click opens or closes the sidebar on its button, closes it outside the sidebar,
    and leaves it alone inside; a click on something inside the button, which is outside
    the sidebar, never leaves it open. *)
Theorem sidebar_click_spec sidebar toggle target doc :
  is_Some (el_at doc sidebar) -> contains sidebar target = false \/ contains toggle target = false ->
  exists doc', sidebar_click sidebar toggle target doc = (doc', Ok tt) /\ only "docs-sidebar--open" doc doc' /\
    holds "docs-sidebar--open" doc' sidebar =
      if target === toggle then negb (holds "docs-sidebar--open" doc sidebar)
      else contains sidebar target && holds "docs-sidebar--open" doc sidebar.
Proof.
  intros Hs Hout. set (open := holds "docs-sidebar--open" doc sidebar).
  assert (Htog : let d := el_update (on_classes (class_toggle "docs-sidebar--open")) sidebar doc in
    only "docs-sidebar--open" doc d /\ holds "docs-sidebar--open" d sidebar = negb open).
  { split; [split; [intros; apply shape_update|intros; by apply holds_toggle_ne]|].
    rewrite holds_update, decide_True by done. apply classes_at_some in Hs as [l Hl]. rewrite Hl. apply eq_true_iff_eq.
    unfold open. rewrite bool_decide_eq_true, elem_class_toggle, negb_true_iff, <-not_true_iff_false, holds_classes, Hl.
    naive_solver. }
  assert (Hrm : forall d, only "docs-sidebar--open" doc d ->
    let d' := el_update (on_classes (class_remove "docs-sidebar--open")) sidebar d in
    only "docs-sidebar--open" doc d' /\ holds "docs-sidebar--open" d' sidebar = false).
  { intros d Hd. destruct (only_remove "docs-sidebar--open" sidebar d) as [Ho Hh]. split; [by etransitivity|].
    by rewrite Hh, eqb_refl_js, andb_false_r. }
  assert (Hself : contains toggle toggle = true) by (unfold contains; by rewrite firstn_all, eqb_refl_js).
  unfold sidebar_click. rewrite run_bind. destruct (contains toggle target) eqn:Ht.
  - destruct Hout as [Hout|]; [|done]. rewrite Hout. cbv zeta in Htog. destruct Htog as [Ho Hh].
    unfold set_classes, modify, get_state. cbn beta iota. rewrite run_bind, andb_true_r.
    change (satisfies (has_class ?c) ?d ?x) with (holds c d x). rewrite Hh.
    case_bool_decide; simpl; rewrite ?andb_false_r, ?andb_true_r.
    + by eexists.
    + destruct (negb open); [|by eexists]. eexists. split; [reflexivity|]. by apply Hrm.
  - assert (Hne : (target === toggle) = false) by (apply eqb_ne_js; intros ->; congruence).
    rewrite Hne. unfold set_classes, modify, get_state, mret at 1, M_ret at 1. cbn beta iota. rewrite run_bind, andb_true_r.
    change (satisfies (has_class ?c) ?d ?x) with (holds c d x). fold open.
    destruct open eqn:Eo, (contains sidebar target); simpl; eexists; (split; [reflexivity|]); try (by split).
    by apply Hrm.
Qed.

(** The label is "Copy" whenever no timer is pending, and every text that reached the
    clipboard shows as "Copied!" until the first timer to expire. *)
Theorem copy_label events :
  let b := foldl (fun b ev => copy_step ev b) copy_button events in
  (cb_label b = "Copy" \/ cb_label b = "Copied!") /\ (cb_timers b = 0 -> cb_label b = "Copy") /\
  cb_writes b + cb_timers b <= length events.
Proof.
  intros b. subst b. induction events as [|ev events IH] using rev_ind; [simpl; auto|].
  rewrite foldl_snoc, length_app. simpl. set (b := foldl _ _ _) in *. destruct IH as (H1 & H2 & H3), b as [l w t], ev as [[]| | |]; simpl in *.
  - split_and!; [done..|lia].
  - split_and!; [done..|lia].
  - destruct w; simpl; (split_and!; [auto|auto with lia|lia]).
  - split_and!; [done..|lia].
  - destruct t; simpl; (split_and!; [auto..|lia]).
Qed.

(** A section is animated exactly when it has been reported visible, and is not observed
    any more from then on. *)
Theorem animated_when_seen n batches :
  let l := foldl (fun l entries => intersection entries l) (observe_all n) batches in
  length l = n /\
  forall i a, l !! i = Some a ->
    an_ready a = true /\ an_observed a = negb (an_in a) /\ (an_in a = true <-> (i, true) ∈ concat batches).
Proof.
  intros l.
  assert (H : l = foldl (fun (l : list Animated) (e : nat * bool) => if e.2 then alter (fun a => mkAnimated (an_ready a) true false) e.1 l else l)
                    (observe_all n) (concat batches)).
  { unfold l. generalize (observe_all n). induction batches as [|b bs IH]; intros l0; [done|]. simpl. by rewrite foldl_app, <-IH. }
  rewrite H. clear H l. generalize (concat batches) as es. intros es. induction es as [|[j v] es IH] using rev_ind; simpl.
  - unfold observe_all. rewrite length_replicate. split; [done|]. intros i a [-> Hi]%lookup_replicate. simpl.
    split_and!; [done..|]. split; [done|by intros ?%elem_of_nil].
  - rewrite foldl_snoc. simpl. destruct IH as [Hlen IH]. set (l := foldl _ _ es) in *. destruct v.
    2:{ split; [done|]. intros i a Hi. destruct (IH i a Hi) as (? & ? & Hin). split_and!; [done..|].
        rewrite Hin, elem_of_app, list_elem_of_singleton. naive_solver. }
    rewrite length_alter. split; [done|]. intros i a Hi. destruct (decide (j = i)) as [->|Hne].
    + rewrite list_lookup_alter_eq in Hi. destruct (l !! i) as [a0|] eqn:E; [|done]. injection Hi as <-. simpl.
      destruct (IH i a0 E) as (? & _ & _). split_and!; [done..|]. split; [|done]. intros _. apply elem_of_app. right. left.
    + rewrite list_lookup_alter_ne in Hi by done. destruct (IH i a Hi) as (? & ? & Hin). split_and!; [done..|].
      rewrite Hin, elem_of_app, list_elem_of_singleton. naive_solver.
Qed.
