(* ===== verification/SiteSearch.v ===== *)
(** * Searching the documentation ([documentation/static/js/search.js])

    The two inputs of a page share one timer and one panel of results; the index is
    loaded on the first search.  What the script does is a function of the order in which
    the reader types and clicks, the timer expires, the library loads and the index
    arrives.  The index is the library [elasticlunr]'s: its search is a parameter. *)

From S2P Require Export Regex JsMap.

Record IndexedDoc := mkIndexedDoc { sd_id : string; sd_title : option string; sd_body : option string }.

(** Which of the inputs: the page's own or the header's. *)
Inductive Field := PageInput | HeaderInput.
#[export] Instance Field_eq_dec : EqDecision Field.
Proof. solve_decision. Defined.

(** ** What is shown *)

Definition lt_char : Ascii.ascii := Ascii.ascii_of_nat 60.

(** [s.replace(/</g, '&lt;')] *)
Fixpoint escape_lt (s : string) : string :=
  match s with
  | EmptyString => ""
  | String c s => if c === lt_char then "&lt;" +:+ escape_lt s else String c (escape_lt s)
  end.

(** [s.substring(0, n)] *)
Definition js_take (n : nat) (s : string) : string := String.substring 0 n s.

Definition snippet (body : string) : string :=
  escape_lt (js_take 150 body) +:+ (if bool_decide (150 < String.length body) then "..." else "").

Definition result_html (d : IndexedDoc) : string :=
  let title := js_or (sd_title d ⁇ "") "Untitled" in
  let body := sd_body d ⁇ "" in
  "<a class=" +:+ dq +:+ "search-result" +:+ dq +:+ " href=" +:+ dq +:+ sd_id d +:+ dq +:+ ">" +:+
  "<div class=" +:+ dq +:+ "search-result__title" +:+ dq +:+ ">" +:+ title +:+ "</div>" +:+
  "<div class=" +:+ dq +:+ "search-result__snippet" +:+ dq +:+ ">" +:+ snippet body +:+ "</div>" +:+
  "</a>".

Definition results_html (results : list IndexedDoc) : string :=
  match results with
  | [] => "<div class=" +:+ dq +:+ "search-result search-result--empty" +:+ dq +:+ ">No results found.</div>"
  | _ => foldl (fun html d => html +:+ result_html d) "" (take 10 results)
  end.

(** [s.trim()] *)
Definition is_blank (c : Ascii.ascii) : bool :=
  let n := Ascii.nat_of_ascii c in bool_decide (9 <= n <= 13 \/ n = 32).
Fixpoint trim_end (s : string) : string :=
  match s with
  | EmptyString => ""
  | String c s => match trim_end s with EmptyString => if is_blank c then "" else String c "" | r => String c r end
  end.
Fixpoint trim_start (s : string) : string :=
  match s with EmptyString => "" | String c s' => if is_blank c then trim_start s' else s end.
Definition trim (s : string) : string := trim_end (trim_start s).

Section Search.
Context {Index : Type} (search : Index -> string -> list IndexedDoc).

(** ** The state of a page *)

(** A search waiting for the index: for the script, or for the answer of [fetch]. *)
Record Load := mkLoad { ld_script : bool; ld_query : string }.

Record Page := mkPage {
  pg_index : option Index; pg_library : bool; pg_loads : list Load;
  pg_timer : option Field; pg_value : Field -> string;
  pg_html : string; pg_visible : bool }.

(** The script with [panel] and the inputs there are on the page. *)
Record Layout := mkLayout { ly_panel : bool; ly_page : bool; ly_header : bool }.

Definition has_field (ly : Layout) (f : Field) : bool := match f with PageInput => ly_page ly | HeaderInput => ly_header ly end.

Definition set_panel (html : string) (visible : bool) (p : Page) : Page :=
  mkPage (pg_index p) (pg_library p) (pg_loads p) (pg_timer p) (pg_value p) html visible.
Definition hide_panel (p : Page) : Page := set_panel (pg_html p) false p.
Definition set_timer (t : option Field) (p : Page) : Page :=
  mkPage (pg_index p) (pg_library p) (pg_loads p) t (pg_value p) (pg_html p) (pg_visible p).
Definition set_loads (l : list Load) (p : Page) : Page :=
  mkPage (pg_index p) (pg_library p) l (pg_timer p) (pg_value p) (pg_html p) (pg_visible p).
Definition set_index (i : Index) (p : Page) : Page :=
  mkPage (Some i) (pg_library p) (pg_loads p) (pg_timer p) (pg_value p) (pg_html p) (pg_visible p).
Definition set_library (p : Page) : Page :=
  mkPage (pg_index p) true (pg_loads p) (pg_timer p) (pg_value p) (pg_html p) (pg_visible p).
Definition set_value (f : Field) (v : string) (p : Page) : Page :=
  mkPage (pg_index p) (pg_library p) (pg_loads p) (pg_timer p) (fun g => if g === f then v else pg_value p g)
    (pg_html p) (pg_visible p).

(** The callback of [loadIndex]. *)
Definition show_results (query : string) (p : Page) : Page :=
  match pg_index p with
  | None => p
  | Some i => set_panel (results_html (search i query)) true p
  end.

(** [loadIndex]: at once when the index is there, else a search waits. *)
Definition loadIndex (query : string) (p : Page) : Page :=
  match pg_index p with
  | Some _ => show_results query p
  | None => set_loads (pg_loads p ++ [mkLoad (negb (pg_library p)) query]) p
  end.

Definition doSearch (ly : Layout) (query : string) (p : Page) : Page :=
  if negb (ly_panel ly) then p
  else if bool_decide (String.length query < 2) then set_panel "" false p
  else loadIndex query p.

(** ** Events *)

Inductive Event :=
  | Typed (f : Field) (v : string)          (** [input], the value changed *)
  | Focused (f : Field)
  | TimerExpires
  | ScriptLoaded (n : nat)                  (** [onload] of the [n]th waiting search *)
  | IndexArrives (n : nat) (index : option Index)   (** the answer of [fetch], or its failure *)
  | ClickedOutside                          (** neither in the panel nor on an input *)
  | CtrlK                                   (** the input did not have the focus *)
  | Escape.

Definition remove_load (n : nat) (p : Page) : Page := set_loads (take n (pg_loads p) ++ drop (S n) (pg_loads p)) p.

Definition on_focus (ly : Layout) (f : Field) (p : Page) : Page :=
  if has_field ly f && bool_decide (2 <= String.length (trim (pg_value p f))) then doSearch ly (trim (pg_value p f)) p else p.

Definition on_event (ly : Layout) (ev : Event) (p : Page) : Page :=
  match ev with
  | Typed f v => if has_field ly f then set_timer (Some f) (set_value f v p) else p
  | Focused f => on_focus ly f p
  | TimerExpires =>
      match pg_timer p with
      | Some f => doSearch ly (trim (pg_value p f)) (set_timer None p)
      | None => p
      end
  | ScriptLoaded n =>
      match pg_loads p !! n with
      | Some (mkLoad true q) => set_library (set_loads (<[n := mkLoad false q]> (pg_loads p)) p)
      | _ => p
      end
  | IndexArrives n index =>
      match pg_loads p !! n, index with
      | Some (mkLoad false q), Some i => show_results q (set_index i (remove_load n p))
      | Some (mkLoad false _), None => remove_load n p
      | _, _ => p
      end
  | ClickedOutside | Escape => if ly_panel ly then hide_panel p else p
  | CtrlK =>
      if ly_header ly then on_focus ly HeaderInput p
      else if ly_page ly then on_focus ly PageInput p
      else p
  end.

Definition opened (library : bool) : Page := mkPage None library [] None (fun _ => "") "" false.
Definition run_events (ly : Layout) (evs : list Event) (p : Page) : Page := foldl (fun p ev => on_event ly ev p) p evs.

(** ** What the panel shows *)

Definition typed (evs : list Event) (q : string) : Prop := exists f v, Typed f v ∈ evs /\ q = trim v.
Definition arrived (evs : list Event) (i : Index) : Prop := exists n, IndexArrives n (Some i) ∈ evs.

(** The invariant: queries were typed, indexes arrived, and a panel that shows shows
    the results of such a query in such an index. *)
Record page_ok (evs : list Event) (p : Page) : Prop := {
  po_index i : pg_index p = Some i -> arrived evs i;
  po_value f : pg_value p f = "" \/ typed evs (trim (pg_value p f));
  po_loads l : l ∈ pg_loads p -> typed evs (ld_query l) /\ 2 <= String.length (ld_query l);
  po_panel : pg_visible p = true -> exists q i, typed evs q /\ 2 <= String.length q /\ arrived evs i /\
    pg_html p = results_html (search i q) }.

Lemma page_ok_mono evs evs' p : evs ⊆ evs' -> page_ok evs p -> page_ok evs' p.
Proof. intros Hs [H1 H2 H3 H4]. split; unfold typed, arrived in *; naive_solver. Qed.

Lemma show_results_ok evs q p : page_ok evs p -> typed evs q -> 2 <= String.length q -> page_ok evs (show_results q p).
Proof.
  intros Hp Hq Hl. unfold show_results. destruct (pg_index p) as [i|] eqn:E; [|done].
  split; simpl; [apply Hp..|]. intros _. exists q, i. split_and!; [done..| |done]. by apply (po_index _ _ Hp).
Qed.

Lemma doSearch_ok evs ly q p : page_ok evs p -> q = "" \/ typed evs q -> page_ok evs (doSearch ly q p).
Proof.
  intros Hp Hq. unfold doSearch. destruct (ly_panel ly); simpl; [|done].
  case_bool_decide as Hl; [by split; [apply Hp..|]|].
  destruct Hq as [->|Hq]; [simpl in Hl; lia|]. unfold loadIndex. destruct (pg_index p) as [i|] eqn:E.
  - apply show_results_ok; [done..|lia].
  - split; simpl; [apply Hp..| |apply Hp]. intros l [Hin| ->%list_elem_of_singleton]%elem_of_app; [by apply (po_loads _ _ Hp)|].
    simpl. split; [done|lia].
Qed.

Lemma on_focus_ok evs ly f p : page_ok evs p -> page_ok evs (on_focus ly f p).
Proof.
  intros Hp. unfold on_focus. destruct (_ && _); [|done]. apply doSearch_ok; [done|].
  destruct (po_value _ _ Hp f) as [->|]; [by left|by right].
Qed.

Lemma remove_load_ok evs n p : page_ok evs p -> page_ok evs (remove_load n p).
Proof.
  intros Hp. split; simpl; [apply Hp..| |apply Hp]. intros l [Hl|Hl]%elem_of_app.
  - eapply (po_loads _ _ Hp), subseteq_take, Hl.
  - eapply (po_loads _ _ Hp), subseteq_drop, Hl.
Qed.

Lemma on_event_ok evs ly ev p : page_ok evs p -> ev ∈ evs -> page_ok evs (on_event ly ev p).
Proof.
  intros Hp Hev. destruct ev as [f v|f| |n|n [i|]| | |]; simpl.
  - destruct (has_field ly f); [|done]. split; simpl; [apply Hp| |apply Hp..]. intros g. case_bool_decide; [|apply Hp].
    right. by exists f, v.
  - by apply on_focus_ok.
  - destruct (pg_timer p) as [f|]; [|done]. apply doSearch_ok; [by split; simpl; apply Hp|].
    destruct (po_value _ _ Hp f) as [->|]; [by left|by right].
  - destruct (pg_loads p !! n) as [[[] q]|] eqn:E; [|done..]. split; simpl; [apply Hp..| |apply Hp].
    intros l [m [(_ & <- & _)|[_ Hl%list_elem_of_lookup_2]]%list_lookup_insert_Some]%list_elem_of_lookup_1; [|by apply (po_loads _ _ Hp)].
    apply (po_loads _ _ Hp (mkLoad true q)).
    by eapply list_elem_of_lookup_2.
  - destruct (pg_loads p !! n) as [[[] q]|] eqn:E; [done| |done]. apply list_elem_of_lookup_2, (po_loads _ _ Hp) in E as [Hq Hl].
    apply show_results_ok; [|done..]. apply (remove_load_ok _ n) in Hp. split; simpl; [|apply Hp..].
    intros j [= <-]. by exists n.
  - destruct (pg_loads p !! n) as [[[] q]|]; [done| |done]. by apply remove_load_ok.
  - destruct (ly_panel ly); [|done]. by split; simpl; [apply Hp..|].
  - destruct (ly_header ly); [by apply on_focus_ok|]. destruct (ly_page ly); [by apply on_focus_ok|done].
  - destruct (ly_panel ly); [|done]. by split; simpl; [apply Hp..|].
Qed.

(** Search results.  Whatever the order of what the reader does and the network brings, a panel that is
    open shows the results of a query of two characters or more that was typed, in an
    index that arrived. *)
Theorem search_panel ly library evs :
  let p := run_events ly evs (opened library) in
  pg_visible p = true ->
  exists f v n i, Typed f v ∈ evs /\ IndexArrives n (Some i) ∈ evs /\ 2 <= String.length (trim v) /\
    pg_html p = results_html (search i (trim v)).
Proof.
  intros p Hvis. assert (Hp : page_ok evs p).
  { unfold p. clear. induction evs as [|ev evs IH] using rev_ind.
    - split; simpl; try done; [by left|by intros l ?%elem_of_nil].
    - unfold run_events in *. rewrite foldl_snoc. apply on_event_ok; [|set_solver]. eapply page_ok_mono; [|exact IH]. set_solver. }
  destruct (po_panel _ _ Hp Hvis) as (q & i & (f & v & Hf & ->) & Hl & (n & Hn) & Hh). by exists f, v, n, i.
Qed.

(** ** One search for a burst of typing *)

Lemma typing_state ly burst p :
  Forall (fun e : Field * string => has_field ly e.1 = true) burst ->
  let p' := run_events ly ((fun e : Field * string => Typed e.1 e.2) <$> burst) p in
  pg_html p' = pg_html p /\ pg_visible p' = pg_visible p /\ pg_index p' = pg_index p /\ pg_loads p' = pg_loads p /\
  pg_library p' = pg_library p /\
  pg_timer p' = match last burst with Some e => Some e.1 | None => pg_timer p end /\
  forall e, last burst = Some e -> pg_value p' e.1 = e.2.
Proof.
  unfold run_events. induction burst as [|e burst IH] using rev_ind; [by intros _|].
  intros [Hb He]%Forall_app. rewrite Forall_singleton in He. destruct (IH Hb) as (H1 & H2 & H3 & H4 & H5 & H6 & H7).
  rewrite fmap_app, foldl_app, last_snoc. simpl. rewrite He. simpl. split_and!; [done..|].
  intros e' [= <-]. by rewrite eqb_refl_js.
Qed.

(** Until the timer expires typing changes nothing on the screen; then there is one
    search, of what was typed last in the input typed in last: an open panel with its
    results, a closed and empty one for a short query, or a search waiting for the index. *)
Theorem typing_searches_once ly burst f v p :
  ly_panel ly = true -> Forall (fun e : Field * string => has_field ly e.1 = true) burst -> last burst = Some (f, v) ->
  let events := (fun e : Field * string => Typed e.1 e.2) <$> burst in
  let before := run_events ly events p in
  let after := on_event ly TimerExpires before in
  pg_html before = pg_html p /\ pg_visible before = pg_visible p /\ pg_loads before = pg_loads p /\
  pg_timer after = None /\
  (if bool_decide (String.length (trim v) < 2) then
     pg_html after = "" /\ pg_visible after = false /\ pg_loads after = pg_loads p
   else match pg_index p with
        | Some i => pg_html after = results_html (search i (trim v)) /\ pg_visible after = true /\ pg_loads after = pg_loads p
        | None => pg_html after = pg_html p /\ pg_visible after = pg_visible p /\
                  pg_loads after = pg_loads p ++ [mkLoad (negb (pg_library p)) (trim v)]
        end).
Proof.
  intros Hly Hb Hlast events before after.
  destruct (typing_state ly burst p Hb) as (H1 & H2 & H3 & H4 & H5 & H6 & H7).
  fold events before in H1, H2, H3, H4, H5, H6, H7. rewrite Hlast in H6. specialize (H7 _ Hlast). simpl in H6, H7.
  split; [done|]. split; [done|]. split; [done|]. unfold after. simpl. rewrite H6, H7.
  unfold doSearch. rewrite Hly. simpl. case_bool_decide; [done|]. unfold loadIndex, show_results. simpl. rewrite H3.
  destruct (pg_index p) as [i|]; simpl; [done|]. by rewrite H1, H2, H4, H5.
Qed.

(** The answer of a search that waited shows whatever the reader did since: the first
    query's results appear after the input was emptied. *)
Theorem late_index_shows ly q i :
  ly_panel ly = true -> ly_header ly = true -> 2 <= String.length (trim q) ->
  let p := run_events ly [Typed HeaderInput q; TimerExpires; Typed HeaderInput ""; TimerExpires; ScriptLoaded 0; IndexArrives 0 (Some i)]
             (opened false) in
  pg_value p HeaderInput = "" /\ pg_visible p = true /\ pg_html p = results_html (search i (trim q)).
Proof.
  intros Hp Hh Hq. unfold run_events. destruct ly as [pn pg hd]. simpl in Hp, Hh. subst pn hd.
  cbn -[trim results_html String.length]. rewrite (bool_decide_eq_false_2 (String.length (trim q) < 2)) by lia. done.
Qed.
End Search.

(** ** The snippet *)

Fixpoint has_char (c : Ascii.ascii) (s : string) : bool :=
  match s with EmptyString => false | String d s => (d === c) || has_char c s end.

Lemma has_char_app c s t : has_char c (s +:+ t) = has_char c s || has_char c t.
Proof. induction s as [|d s IH]; [done|]. rewrite string_app_cons. simpl. by rewrite IH, orb_assoc. Qed.

(** A snippet never opens a tag, whatever the page's text. *)
Theorem snippet_no_tag body : has_char lt_char (snippet body) = false.
Proof.
  unfold snippet. rewrite has_char_app, orb_false_iff. split; [|by case_bool_decide].
  generalize (js_take 150 body) as s. induction s as [|c s IH]; [done|]. simpl. case_bool_decide as H.
  - by rewrite has_char_app, IH.
  - simpl. by rewrite IH, orb_false_r, eqb_ne_js.
Qed.

(** The title and the address are not escaped. *)
Example title_unescaped :
  exists a b, result_html (mkIndexedDoc "x" (Some "<script>") None) = a +:+ "<script>" +:+ b.
Proof.
  exists ("<a class=" +:+ dq +:+ "search-result" +:+ dq +:+ " href=" +:+ dq +:+ "x" +:+ dq +:+ ">" +:+
    "<div class=" +:+ dq +:+ "search-result__title" +:+ dq +:+ ">"),
    ("</div>" +:+ "<div class=" +:+ dq +:+ "search-result__snippet" +:+ dq +:+ ">" +:+ "" +:+ "</div>" +:+ "</a>").
  reflexivity.
Qed.

(** ** A page with a small index *)

Definition small_search (i : nat) (q : string) : list IndexedDoc :=
  if q === "runs" then [mkIndexedDoc "/runs" (Some "Runs") (Some "a < b")] else [].

Definition both_inputs : Layout := mkLayout true true true.

Lemma search_panel_witness :
  let p := run_events small_search both_inputs
             [Typed HeaderInput "ru"; Typed HeaderInput "runs "; TimerExpires; ScriptLoaded 0; IndexArrives 0 (Some 7)]
             (opened false) in
  pg_visible p = true /\ pg_html p = results_html [mkIndexedDoc "/runs" (Some "Runs") (Some "a < b")] /\
  exists q i, 2 <= String.length (trim q) /\ pg_html p = results_html (small_search i (trim q)).
Proof.
  split; [reflexivity|]. split; [reflexivity|].
  destruct (search_panel small_search both_inputs false
    [Typed HeaderInput "ru"; Typed HeaderInput "runs "; TimerExpires; ScriptLoaded 0; IndexArrives 0 (Some 7)])
    as (f & v & n & i & _ & _ & Hl & Hh); [reflexivity|].
  exists v, i. split; [exact Hl|exact Hh].
Defined.
