(* ===== verification/Types.v ===== *)
(** * Data model of the web client ([web_ui/utils/types.ts])

    Fields the code reads with a null check ([?.] or [??]) are options.  A
    [Record<string, T>] is its list of entries, in the order [Object.entries]
    enumerates them, and has one entry per key. *)

From S2P Require Export JsMap.

(** The values of [args] (type [any]) are JSON values; the code never looks inside. *)
Inductive Json :=
  | JNull
  | JBool (b : bool)
  | JNum (n : Z)
  | JStr (s : string)
  | JArr (l : list Json)
  | JObj (o : list (string * Json)).

Abbreviation ArgKeyValueStore := (jsmap Json).

(** Reference to another block: a bare invocation id, or a named output. *)
Inductive InputRef :=
  | Bare (id : string)
  | Explicit (block : string) (output : string).

#[export] Instance InputRef_eq_dec : EqDecision InputRef.
Proof. solve_decision. Defined.

Record Block := mkBlock {
  b_id : string;
  b_name : string;
  b_inputs : option (list InputRef);
  b_args : option ArgKeyValueStore }.

(** [description] is optional in the type; [id], [name], [version] and [blocks]
    are absent in uploaded documents that leave them out, which the server
    handles explicitly. *)
Record Pipeline := mkPipeline {
  p_id : option string;
  p_name : option string;
  p_version : option string;
  p_description : option string;
  p_blocks : option (list Block) }.

Record PipelineMetadata := mkPipelineMetadata {
  m_id : string;
  m_name : string;
  m_version : string;
  m_description : option string }.

Inductive PortType :=
  | T_file | T_directory | T_collection | T_json | T_expansion
  | T_string | T_number | T_boolean.

#[export] Instance PortType_eq_dec : EqDecision PortType.
Proof. solve_decision. Defined.

Record PortDecl := mkPort {
  pt_type : PortType;
  pt_format : option string;
  pt_description : option string;
  pt_item_type : option PortType }.

Inductive BlockKind := Standard | MapKind | ReduceKind.

#[export] Instance BlockKind_eq_dec : EqDecision BlockKind.
Proof. solve_decision. Defined.

Record BlockManifest := mkManifest {
  mf_id : string;
  mf_version : string;
  mf_kind : BlockKind;
  mf_network : bool;
  mf_description : option string;
  mf_entrypoint : option string;
  mf_inputs : option (jsmap PortDecl);
  mf_outputs : option (jsmap PortDecl) }.

Record BlockListItem := mkListItem {
  bl_id : string;
  bl_name : string;
  bl_label : string;
  bl_kind : BlockKind;
  bl_network : bool;
  bl_description : option string }.

(** The bindings an edge carries: one upstream output per downstream input. *)
Record Binding := mkBinding { bd_output : string; bd_input : string }.

#[export] Instance Binding_eq_dec : EqDecision Binding.
Proof. solve_decision. Defined.

Abbreviation EdgeBindings := (list Binding).

Record EdgeData := mkEdgeData {
  ed_bindings : option EdgeBindings;
  ed_unresolved : option bool }.

(** The string a port type is in the source, as messages print it. *)
Definition port_type_name (t : PortType) : string :=
  match t with
  | T_file => "file" | T_directory => "directory" | T_collection => "collection"
  | T_json => "json" | T_expansion => "expansion" | T_string => "string"
  | T_number => "number" | T_boolean => "boolean"
  end.

(** The id a reference names ([refToId], shared by validation and its clients). *)
Definition refToId (r : InputRef) : string :=
  match r with Bare id => id | Explicit block _ => block end.
