(* ===== verification/ShortCodes.v ===== *)
(** * Short codes ([web_ui/utils/short_codes.ts])

    [resolveShortCodes] replaces every short code of a pipeline by a fresh UUID.
    The UUID generator (package [uuid]) is a parameter: [uuidv7 n] is the value
    its [n]-th call returns. *)

From S2P Require Export Types Monad Regex.
From Stdlib Require Import Ascii.

(** ** The grammar *)

(** [/^@[A-Za-z_][A-Za-z0-9_]*$/] *)
Definition is_alpha_ (c : ascii) : bool :=
  in_range "A" "Z" c || in_range "a" "z" c || (c === "_"%char).
Definition is_alnum_ (c : ascii) : bool := is_alpha_ c || in_range "0" "9" c.

Definition SHORT_CODE_REGEX : regex :=
  RSeq (RChar "@") (RSeq (RClass is_alpha_) (RStar (RClass is_alnum_))).

Definition isShortCode (s : string) : bool := re_test SHORT_CODE_REGEX s.

(** On a value that may be [undefined] the [typeof] test fails. *)
Definition isShortCode_opt (o : option string) : bool :=
  match o with Some s => isShortCode s | None => false end.

(** ** The resolver *)

Record resolver := mkResolver {
  rs_bindings : jsmap string;   (* the map the closure [resolve] captures *)
  rs_minted : nat }.            (* calls of [uuidv7] so far *)

(** What can be thrown: the refusal of a short code as pipeline id, with its
    message, and the [TypeError] of [.map] on a missing array. *)
Inductive ShortCodeError :=
  | PipelineIdIsShortCode (msg : string)
  | MissingArray.

Section Resolve.
Context (uuidv7 : nat -> string).

Abbreviation RM := (M resolver ShortCodeError).

(** The closure [resolve]. *)
Definition resolve (code : string) : RM string := fun st =>
  match jm_get code (rs_bindings st) with
  | Some existing => (st, Ok existing)
  | None =>
      let fresh := uuidv7 (rs_minted st) in
      (mkResolver (jm_set code fresh (rs_bindings st)) (S (rs_minted st)), Ok fresh)
  end.

Definition resolve_id (s : string) : RM string :=
  if isShortCode s then resolve s else mret s.

Definition resolve_ref (r : InputRef) : RM InputRef :=
  match r with
  | Bare s => s' ← resolve_id s; mret (Bare s')
  | Explicit block output => block' ← resolve_id block; mret (Explicit block' output)
  end.

(** The body of [pipeline.blocks.map]. *)
Definition resolve_block (b : Block) : RM Block :=
  newId ← resolve_id (b_id b);
  match b_inputs b with
  | None => throw MissingArray
  | Some inputs =>
      newInputs ← mapM resolve_ref inputs;
      mret (mkBlock newId (b_name b) (Some newInputs) (b_args b))
  end.

Definition short_code_message (id : string) : string :=
  "short code " +:+ id +:+ " is not allowed on the pipeline-level 'id' field " +:+
  "(spec/pipeline.md §6.1): omit 'id' to let the system generate one, " +:+
  "or use a concrete UUID".

Definition resolve_pipeline (p : Pipeline) : RM Pipeline :=
  if isShortCode_opt (p_id p)
  then throw (PipelineIdIsShortCode (short_code_message (p_id p ⁇ "")))
  else match p_blocks p with
       | None => throw MissingArray
       | Some blocks =>
           newBlocks ← mapM resolve_block blocks;
           mret (mkPipeline (p_id p) (p_name p) (p_version p) (p_description p) (Some newBlocks))
       end.

(** [minted] is the number of UUIDs made before the call; the result has the
    number made after it. *)
Definition resolveShortCodes (p : Pipeline) (minted : nat) : nat * result ShortCodeError Pipeline :=
  let '(st, r) := resolve_pipeline p (mkResolver [] minted) in (rs_minted st, r).
End Resolve.

(** ** Reference definitions *)

(** The invocation ids a block mentions, in the order the walk visits them. *)
Definition block_occurrences (b : Block) : list string :=
  b_id b :: (refToId <$> (b_inputs b ⁇ [])).
Definition occurrences (blocks : list Block) : list string := blocks ≫= block_occurrences.

(** The distinct short codes, in order of first occurrence, after [codes]. *)
Definition add_codes (codes : list string) (occ : list string) : list string :=
  foldl (fun s x => js_add x s) codes (js_filter isShortCode occ).
Definition codes_of (p : Pipeline) : list string := add_codes [] (occurrences (p_blocks p ⁇ [])).

(** The substitution that binds the i-th code to the i-th UUID from [n0]. *)
Definition sigma (uuidv7 : nat -> string) (n0 : nat) (codes : list string) : jsmap string :=
  zip codes (uuidv7 <$> seq n0 (length codes)).

Definition subst_id (σ : jsmap string) (s : string) : string :=
  if isShortCode s then (jm_get s σ ⁇ s) else s.
Definition subst_ref (σ : jsmap string) (r : InputRef) : InputRef :=
  match r with
  | Bare s => Bare (subst_id σ s)
  | Explicit block output => Explicit (subst_id σ block) output
  end.
Definition subst_block (σ : jsmap string) (b : Block) : Block :=
  mkBlock (subst_id σ (b_id b)) (b_name b) (Some (subst_ref σ <$> (b_inputs b ⁇ []))) (b_args b).
Definition subst_pipeline (σ : jsmap string) (p : Pipeline) : Pipeline :=
  mkPipeline (p_id p) (p_name p) (p_version p) (p_description p)
    (Some (subst_block σ <$> (p_blocks p ⁇ []))).

(** A document the walk does not fail on. *)
Definition walkable (p : Pipeline) : Prop :=
  isShortCode_opt (p_id p) = false /\
  exists blocks, p_blocks p = Some blocks /\ Forall (fun b => is_Some (b_inputs b)) blocks.

(** ** Lemmas *)

(** The grammar, spelled out. *)
Lemma isShortCode_lang s : isShortCode s = true <-> re_lang SHORT_CODE_REGEX s.
Proof. apply re_test_spec. Qed.

Lemma add_codes_app codes o1 o2 : add_codes codes (o1 ++ o2) = add_codes (add_codes codes o1) o2.
Proof. unfold add_codes, js_filter. by rewrite filter_app, foldl_app. Qed.

Lemma add_codes_one codes s :
  add_codes codes [s] = if isShortCode s then js_add s codes else codes.
Proof.
  unfold add_codes, js_filter. destruct (isShortCode s) eqn:E.
  - by rewrite filter_cons_True.
  - rewrite filter_cons_False; [done | congruence].
Qed.

Lemma prefix_js_add x s : s `prefix_of` js_add x s.
Proof. unfold js_add. case_bool_decide; [done | by apply prefix_app_r]. Qed.

Lemma NoDup_add_codes occ codes : NoDup codes -> NoDup (add_codes codes occ).
Proof.
  unfold add_codes. revert codes. induction (js_filter isShortCode occ) as [|x l IH]; simpl; [by intros|].
  intros codes H. by apply IH, NoDup_js_add.
Qed.

Lemma prefix_add_codes occ codes : codes `prefix_of` add_codes codes occ.
Proof.
  unfold add_codes. revert codes. induction (js_filter isShortCode occ) as [|x l IH]; simpl; [by intros|].
  intros codes. etrans; [apply (prefix_js_add x) | apply IH].
Qed.

Lemma elem_add_codes x codes occ :
  x ∈ add_codes codes occ <-> x ∈ codes \/ (isShortCode x = true /\ x ∈ occ).
Proof. unfold add_codes. rewrite elem_foldl_js_add, elem_of_js_filter. done. Qed.

#[export] Hint Resolve NoDup_add_codes prefix_add_codes prefix_js_add : spade.

Section SigmaLemmas.
Context (uuidv7 : nat -> string) (n0 : nat).
Implicit Types codes : list string.

Abbreviation σ := (sigma uuidv7 n0).

Lemma sigma_snoc codes c : σ (codes ++ [c]) = σ codes ++ [(c, uuidv7 (n0 + length codes))].
Proof.
  unfold sigma. rewrite length_app. simpl. rewrite seq_app, fmap_app. simpl.
  rewrite zip_with_app; [done|]. by rewrite length_fmap, length_seq.
Qed.

Lemma keys_sigma codes : jm_keys (σ codes) = codes.
Proof.
  unfold jm_keys, sigma. apply fst_zip. by rewrite length_fmap, length_seq.
Qed.

Lemma length_sigma codes : length (σ codes) = length codes.
Proof. rewrite <-(length_fmap fst (σ codes)). f_equal. apply keys_sigma. Qed.

Lemma sigma_get_lookup codes i c :
  NoDup codes -> codes !! i = Some c -> jm_get c (σ codes) = Some (uuidv7 (n0 + i)).
Proof.
  intros Hnd Hi. apply elem_jm_get; [by rewrite keys_sigma|].
  apply list_elem_of_lookup. exists i. unfold sigma.
  rewrite lookup_zip_with, Hi. simpl.
  rewrite list_lookup_fmap, lookup_seq_lt by (by eapply lookup_lt_Some). done.
Qed.

Lemma sigma_get_prefix codes codes' c :
  NoDup codes' -> codes `prefix_of` codes' -> c ∈ codes ->
  jm_get c (σ codes') = jm_get c (σ codes).
Proof.
  intros Hnd [k ->] (i & Hi)%list_elem_of_lookup.
  rewrite (sigma_get_lookup codes i c), (sigma_get_lookup (codes ++ k) i c); [done | done | | | done].
  - by rewrite lookup_app_l by (by eapply lookup_lt_Some).
  - apply NoDup_app in Hnd. tauto.
Qed.

Lemma sigma_get_None codes c : c ∉ codes -> jm_get c (σ codes) = None.
Proof. intros H. apply jm_get_None. by rewrite keys_sigma. Qed.

Lemma sigma_values codes c u :
  NoDup codes -> jm_get c (σ codes) = Some u ->
  exists i, codes !! i = Some c /\ u = uuidv7 (n0 + i).
Proof.
  intros Hnd Hu. assert (c ∈ codes) as [i Hi]%list_elem_of_lookup.
  { rewrite <-keys_sigma. eauto with spade. }
  exists i. rewrite (sigma_get_lookup _ i) in Hu by done. naive_solver.
Qed.

(** The resolver's state after the codes [codes] were met. *)
Definition resolver_of codes : resolver := mkResolver (σ codes) (n0 + length codes).

(** [m] binds the codes among [occ] and returns [g σ'] for the substitution
    [σ'] of any later state. *)
Definition Resolves {A} (m : M resolver ShortCodeError A) (occ : list string)
    (g : jsmap string -> A) : Prop :=
  forall codes, NoDup codes ->
  exists a, m (resolver_of codes) = (resolver_of (add_codes codes occ), Ok a) /\
    forall codes', NoDup codes' -> add_codes codes occ `prefix_of` codes' -> a = g (σ codes').

Lemma Resolves_ret {A} (a : A) : Resolves (mret a) [] (fun _ => a).
Proof. intros codes Hnd. exists a. by split. Qed.

Lemma Resolves_bind {A B} m (k : A -> M resolver ShortCodeError B) o1 o2 g1 g2 :
  Resolves m o1 g1 -> (forall a, Resolves (k a) o2 (fun s => g2 s a)) ->
  Resolves (m ≫= k) (o1 ++ o2) (fun s => g2 s (g1 s)).
Proof.
  intros Hm Hk codes Hnd. destruct (Hm codes Hnd) as (a & Hrun & Ha).
  destruct (Hk a (add_codes codes o1)) as (b & Hrun' & Hb); [auto with spade|].
  exists b. rewrite run_bind, Hrun, add_codes_app. split; [done|].
  intros codes' Hnd' Hpre. rewrite (Hb codes') by done. f_equal. apply Ha; [done|].
  etrans; [apply prefix_add_codes | done].
Qed.

Lemma Resolves_mapM {A B} (f : A -> M resolver ShortCodeError B) (occ : A -> list string) g l :
  (forall x, x ∈ l -> Resolves (f x) (occ x) (fun s => g s x)) ->
  Resolves (mapM f l) (l ≫= occ) (fun s => g s <$> l).
Proof.
  induction l as [|x l IH]; intros Hf; [apply Resolves_ret|].
  rewrite bind_cons.
  set (gl := fun s => g s <$> l).
  refine (Resolves_bind (f x) (fun y => mapM f l ≫= fun ys => mret (y :: ys)) (occ x) (l ≫= occ)
    (fun s => g s x) (fun s y => y :: gl s) _ _).
  - apply Hf. left.
  - intros y. rewrite <-(app_nil_r (l ≫= occ)).
    refine (Resolves_bind (mapM f l) (fun ys => mret (y :: ys)) (l ≫= occ) []
      gl (fun _ ys => y :: ys) _ _).
    + apply IH. intros x' Hx'. apply Hf. by right.
    + intros ys. apply Resolves_ret.
Qed.

Lemma Resolves_id s : Resolves (resolve_id uuidv7 s) [s] (fun σ' => subst_id σ' s).
Proof.
  intros codes Hnd. unfold resolve_id, subst_id. rewrite add_codes_one.
  destruct (isShortCode s) eqn:Hs; [|exists s; by split].
  unfold resolve, js_add. simpl. case_bool_decide as Hin.
  - apply list_elem_of_lookup in Hin as Hi. destruct Hi as [i Hi].
    rewrite (sigma_get_lookup _ i) by done. eexists. split; [done|].
    intros codes' Hnd' Hpre. by rewrite (sigma_get_prefix codes), (sigma_get_lookup _ i).
  - rewrite sigma_get_None by done. eexists. split.
    + unfold resolver_of. rewrite sigma_snoc, length_app. simpl.
      rewrite jm_set_snoc by (by rewrite keys_sigma). do 2 f_equal. lia.
    + intros codes' Hnd' Hpre. rewrite (sigma_get_prefix (codes ++ [s])); [|done|done|set_solver].
      rewrite (sigma_get_lookup _ (length codes)); [done | |].
      * apply NoDup_app. repeat split; [done | set_solver | apply NoDup_singleton].
      * by rewrite lookup_app_r, Nat.sub_diag by lia.
Qed.

Lemma Resolves_ref r : Resolves (resolve_ref uuidv7 r) [refToId r] (fun σ' => subst_ref σ' r).
Proof.
  destruct r as [s|block output]; simpl.
  - rewrite <-(app_nil_r [s]).
    apply (Resolves_bind _ _ _ _ (fun σ' => subst_id σ' s) (fun _ s' => Bare s')).
    + apply Resolves_id.
    + intros. apply Resolves_ret.
  - rewrite <-(app_nil_r [block]).
    apply (Resolves_bind _ _ _ _ (fun σ' => subst_id σ' block) (fun _ s' => Explicit s' output)).
    + apply Resolves_id.
    + intros. apply Resolves_ret.
Qed.

Lemma Resolves_block b :
  is_Some (b_inputs b) ->
  Resolves (resolve_block uuidv7 b) (block_occurrences b) (fun σ' => subst_block σ' b).
Proof.
  intros [inputs Hin]. unfold resolve_block, block_occurrences, subst_block. rewrite Hin. simpl.
  change (b_id b :: (refToId <$> inputs)) with ([b_id b] ++ (refToId <$> inputs)).
  apply (Resolves_bind _ _ _ _ (fun σ' => subst_id σ' (b_id b))
    (fun σ' i => mkBlock i (b_name b) (Some (subst_ref σ' <$> inputs)) (b_args b))).
  - apply Resolves_id.
  - intros i. rewrite <-(app_nil_r (refToId <$> inputs)).
    apply (Resolves_bind _ _ _ _ (fun σ' => subst_ref σ' <$> inputs)
      (fun _ l => mkBlock i (b_name b) (Some l) (b_args b))); [|intros; apply Resolves_ret].
    replace (refToId <$> inputs) with (inputs ≫= fun r => [refToId r]).
    + apply Resolves_mapM. intros. apply Resolves_ref.
    + clear. induction inputs as [|r l IH]; [done|]. csimpl. by rewrite IH.
Qed.

Lemma Resolves_blocks blocks :
  Forall (fun b => is_Some (b_inputs b)) blocks ->
  Resolves (mapM (resolve_block uuidv7) blocks) (occurrences blocks)
    (fun σ' => subst_block σ' <$> blocks).
Proof.
  intros Hall. apply Resolves_mapM. intros b Hb. apply Resolves_block.
  by eapply Forall_forall in Hall.
Qed.
End SigmaLemmas.

(** ** Theorems *)

Section Theorems.
Context (uuidv7 : nat -> string).

Lemma resolve_pipeline_walkable p n0 :
  walkable p ->
  resolve_pipeline uuidv7 p (mkResolver [] n0) =
    (resolver_of uuidv7 n0 (codes_of p), Ok (subst_pipeline (sigma uuidv7 n0 (codes_of p)) p)).
Proof.
  intros (Hid & blocks & Hb & Hall). unfold resolve_pipeline, codes_of, subst_pipeline.
  rewrite Hid, Hb. simpl.
  destruct (Resolves_blocks uuidv7 n0 blocks Hall []) as (bs & Hrun & Hbs); [constructor|].
  replace (mkResolver [] n0) with (resolver_of uuidv7 n0 []).
  - rewrite run_bind, Hrun, run_ret. rewrite (Hbs (add_codes [] (occurrences blocks))); [done| |done].
    apply NoDup_add_codes. constructor.
  - unfold resolver_of. simpl. by rewrite Nat.add_0_r.
Qed.

Lemma NoThrow_resolve_id s : NoThrow (resolve_id uuidv7 s).
Proof.
  intros st. unfold resolve_id, resolve. destruct (isShortCode s); [|by eexists _, _].
  destruct (jm_get s _); by eexists _, _.
Qed.

Lemma NoThrow_resolve_ref r : NoThrow (resolve_ref uuidv7 r).
Proof. destruct r; apply NoThrow_bind; auto using NoThrow_resolve_id, NoThrow_ret. Qed.

Lemma resolve_block_throw b st st' e :
  resolve_block uuidv7 b st = (st', Throw e) -> e = MissingArray /\ b_inputs b = None.
Proof.
  unfold resolve_block. rewrite run_bind.
  destruct (NoThrow_resolve_id (b_id b) st) as (st1 & i & ->).
  destruct (b_inputs b) as [l|]; [|unfold throw; naive_solver].
  rewrite run_bind. destruct (NoThrow_mapM _ l NoThrow_resolve_ref st1) as (st2 & l' & ->). done.
Qed.

(** A missing array is the only failure of the block walk. *)
Lemma mapM_resolve_throw blocks st :
  ~ Forall (fun b => is_Some (b_inputs b)) blocks ->
  exists st', mapM (resolve_block uuidv7) blocks st = (st', Throw MissingArray).
Proof.
  revert st. induction blocks as [|b blocks IH]; intros st Hn; [by destruct Hn|].
  change (mapM (resolve_block uuidv7) (b :: blocks)) with
    (resolve_block uuidv7 b ≫= fun b' => mapM (resolve_block uuidv7) blocks ≫= fun bs => mret (b' :: bs)).
  rewrite run_bind. destruct (resolve_block uuidv7 b st) as [st1 [b'|e]] eqn:Hb.
  - destruct (IH st1) as [st' Hst']; [|exists st'; by rewrite run_bind, Hst'].
    intros Hall. apply Hn. constructor; [|done].
    unfold resolve_block in Hb. apply run_bind_Ok_inv in Hb as (? & ? & _ & Hb).
    by destruct (b_inputs b).
  - apply resolve_block_throw in Hb as [-> _]. by exists st1.
Qed.

(** The run on a walkable document. *)
Lemma resolveShortCodes_walkable p n0 :
  walkable p ->
  resolveShortCodes uuidv7 p n0 =
    (n0 + length (codes_of p), Ok (subst_pipeline (sigma uuidv7 n0 (codes_of p)) p)).
Proof. intros Hw. unfold resolveShortCodes. by rewrite resolve_pipeline_walkable. Qed.

(** C17. [resolveShortCodes] computes exactly the reference substitution: on a
    document whose arrays are present and whose pipeline id is not a short
    code, the distinct short codes in order of first occurrence (block ids and
    references, not [args], names or outputs) are bound to consecutive fresh
    UUIDs, every occurrence is replaced by its binding, everything else is kept. *)
Theorem resolveShortCodes_spec p n0 :
  walkable p ->
  resolveShortCodes uuidv7 p n0 =
    (n0 + length (codes_of p), Ok (subst_pipeline (sigma uuidv7 n0 (codes_of p)) p)).
Proof. apply resolveShortCodes_walkable. Qed.

Lemma occurrences_subst σ blocks :
  occurrences (subst_block σ <$> blocks) = subst_id σ <$> occurrences blocks.
Proof.
  unfold occurrences. induction blocks as [|b blocks IH]; [done|].
  rewrite fmap_cons, !bind_cons, fmap_app, IH. f_equal. unfold block_occurrences. simpl. f_equal.
  induction (b_inputs b ⁇ []) as [|[s|s o] l IHl]; csimpl; [done| |]; by rewrite IHl.
Qed.

(** What a code that occurs is replaced by. *)
Lemma subst_id_code p n0 s :
  s ∈ occurrences (p_blocks p ⁇ []) -> isShortCode s = true ->
  exists i, codes_of p !! i = Some s /\ subst_id (sigma uuidv7 n0 (codes_of p)) s = uuidv7 (n0 + i).
Proof.
  intros Hs Hc. assert (s ∈ codes_of p) as [i Hi]%list_elem_of_lookup.
  { apply elem_add_codes. auto. }
  exists i. split; [done|]. unfold subst_id. rewrite Hc.
  rewrite (sigma_get_lookup _ _ _ i); [done| |done]. apply NoDup_add_codes. constructor.
Qed.

(** [resolveShortCodes] throws exactly on the documents that are not
    walkable; a short code as pipeline id is refused before any UUID is made. *)
Theorem resolveShortCodes_error p n0 :
  ((exists n e, resolveShortCodes uuidv7 p n0 = (n, Throw e)) <-> ~ walkable p) /\
  (isShortCode_opt (p_id p) = true ->
   resolveShortCodes uuidv7 p n0 =
     (n0, Throw (PipelineIdIsShortCode (short_code_message (p_id p ⁇ ""))))).
Proof.
  split; [split|].
  - intros (n & e & H) Hw. rewrite resolveShortCodes_walkable in H by done. congruence.
  - intros Hn. unfold resolveShortCodes, resolve_pipeline.
    destruct (isShortCode_opt (p_id p)) eqn:Hid; [unfold throw; eauto|].
    destruct (p_blocks p) as [blocks|] eqn:Hb; [|unfold throw; eauto].
    destruct (mapM_resolve_throw blocks (mkResolver [] n0)) as [st' Hst'].
    { intros Hall. apply Hn. split; eauto. }
    rewrite run_bind, Hst'. eauto.
  - intros Hid. unfold resolveShortCodes, resolve_pipeline. by rewrite Hid.
Qed.

Lemma resolveShortCodes_Ok_walkable p n0 n p' :
  resolveShortCodes uuidv7 p n0 = (n, Ok p') -> walkable p.
Proof.
  unfold resolveShortCodes, resolve_pipeline. intros Hrun.
  destruct (isShortCode_opt (p_id p)) eqn:Hid; [done|]. split; [done|].
  destruct (p_blocks p) as [blocks|] eqn:Hb; [|by unfold throw in Hrun].
  exists blocks. split; [done|].
  destruct (decide (Forall (fun b => is_Some (b_inputs b)) blocks)) as [|Hn]; [done|].
  destruct (mapM_resolve_throw blocks (mkResolver [] n0)) as [st' Hst']; [done|].
  by rewrite run_bind, Hst' in Hrun.
Qed.

(** What the generator must guarantee: no repeated value, no short code, and no id
    the document already holds. *)
Definition fresh_for (p : Pipeline) : Prop :=
  (forall i j, uuidv7 i = uuidv7 j -> i = j) /\
  (forall i, isShortCode (uuidv7 i) = false) /\
  (forall i, uuidv7 i ∉ occurrences (p_blocks p ⁇ [])).

Lemma subst_id_inj p n0 s t :
  fresh_for p ->
  s ∈ occurrences (p_blocks p ⁇ []) -> t ∈ occurrences (p_blocks p ⁇ []) ->
  subst_id (sigma uuidv7 n0 (codes_of p)) s = subst_id (sigma uuidv7 n0 (codes_of p)) t -> s = t.
Proof.
  intros (Hinj & Hnc & Hfresh) Hs Ht.
  destruct (isShortCode s) eqn:Hcs, (isShortCode t) eqn:Hct.
  - destruct (subst_id_code p n0 s) as (i & Hi & ->); [done..|].
    destruct (subst_id_code p n0 t) as (j & Hj & ->); [done..|].
    intros Heq%Hinj. assert (i = j) by lia. naive_solver.
  - destruct (subst_id_code p n0 s) as (i & _ & ->); [done..|]. unfold subst_id. rewrite Hct.
    intros <-. by destruct (Hfresh (n0 + i)).
  - destruct (subst_id_code p n0 t) as (i & _ & ->); [done..|]. unfold subst_id. rewrite Hcs.
    intros ->. by destruct (Hfresh (n0 + i)).
  - unfold subst_id. by rewrite Hcs, Hct.
Qed.

(** The resolved pipeline is a renaming of the uploaded one.  When the
    generator never repeats a value, makes no short code and no id the
    document already holds, a resolved pipeline has no short code left, and two
    occurrences of ids are equal after the resolution exactly when they were
    equal before: the graph is the same graph. *)
Theorem resolveShortCodes_renaming p n0 n p' :
  fresh_for p ->
  resolveShortCodes uuidv7 p n0 = (n, Ok p') ->
  exists f : string -> string,
    occurrences (p_blocks p' ⁇ []) = f <$> occurrences (p_blocks p ⁇ []) /\
    Forall (fun s => isShortCode s = false) (occurrences (p_blocks p' ⁇ [])) /\
    (forall s, isShortCode s = false -> f s = s) /\
    (forall s t, s ∈ occurrences (p_blocks p ⁇ []) -> t ∈ occurrences (p_blocks p ⁇ []) ->
       f s = f t -> s = t).
Proof.
  intros Hfresh Hrun. apply resolveShortCodes_Ok_walkable in Hrun as Hw.
  rewrite resolveShortCodes_walkable in Hrun by done. injection Hrun as <- <-.
  exists (subst_id (sigma uuidv7 n0 (codes_of p))). simpl. rewrite occurrences_subst.
  split; [done|]. split; [|split].
  - apply Forall_fmap, Forall_forall. intros s Hs. simpl.
    destruct (isShortCode s) eqn:Hc; [|unfold subst_id; by rewrite Hc].
    destruct (subst_id_code p n0 s) as (i & _ & ->); [done..|]. apply Hfresh.
  - intros s Hs. unfold subst_id. by rewrite Hs.
  - intros s t. by apply subst_id_inj.
Qed.
End Theorems.

(** The grammar, read off the regular expression. *)
Lemma isShortCode_grammar s :
  isShortCode s = true <->
  exists c r, s = String "@" (String c r) /\ is_alpha_ c = true /\ all_chars is_alnum_ r = true.
Proof.
  rewrite isShortCode_lang. unfold SHORT_CODE_REGEX, RChar. rewrite re_lang_seq. split.
  - intros (s1 & s2 & -> & H1 & H2). apply re_lang_class in H1 as (c1 & -> & ?). bool_prop. subst c1.
    apply re_lang_seq in H2 as (s3 & s4 & -> & H3 & H4). apply re_lang_class in H3 as (c & -> & Hc).
    apply re_lang_star_class in H4. by exists c, s4.
  - intros (c & r & -> & Hc & Hr). exists "@", (String c r). split; [done|]. split.
    + apply re_lang_class. exists "@"%char. split; [done|]. by apply bool_decide_eq_true.
    + apply re_lang_seq. exists (String c ""), r. split; [done|].
      split; [by constructor | by apply re_lang_star_class].
Qed.

(** The grammar: [isShortCode] accepts exactly an at sign followed by a
    letter or underscore and then letters, digits and underscores. *)
Theorem isShortCode_spec s :
  isShortCode s = true <->
  exists c r, s = String "@" (String c r) /\ is_alpha_ c = true /\ all_chars is_alnum_ r = true.
Proof. apply isShortCode_grammar. Qed.

(** ** A concrete run: the witnesses *)

(** A generator for the examples. *)
Definition uuid_example (n : nat) : string := "u-" +:+ pretty n.

Lemma uuid_example_inj i j : uuid_example i = uuid_example j -> i = j.
Proof. unfold uuid_example. intros H%(inj _)%(inj _). done. Qed.

Lemma uuid_example_not_code i : isShortCode (uuid_example i) = false.
Proof.
  destruct (isShortCode _) eqn:E; [|done].
  apply isShortCode_grammar in E as (c & r & H & _). unfold uuid_example in H.
  by rewrite string_app_cons in H.
Qed.

(** Two blocks, one id given as a UUID and two as short codes; [args] holds a
    string that looks like a short code. *)
Definition doc_example : Pipeline :=
  mkPipeline None (Some "land-cover") (Some "1.0") None
    (Some [ mkBlock "@source" "data.sentinel2" (Some []) (Some [("region", JStr "@source")]);
            mkBlock "019c" "raster.reproject" (Some [Bare "@source"]) None;
            mkBlock "@clip" "raster.clip" (Some [Explicit "019c" "out"; Bare "@source"]) None ]).

Lemma doc_example_walkable : walkable doc_example.
Proof. split; [done|]. eexists. split; [done|]. repeat constructor; eauto. Qed.

Lemma doc_example_fresh : fresh_for uuid_example doc_example.
Proof.
  split; [exact uuid_example_inj|]. split; [exact uuid_example_not_code|]. intros i.
  change (occurrences _) with ["@source"; "019c"; "@source"; "@clip"; "019c"; "@source"].
  unfold uuid_example. rewrite string_app_cons, !elem_of_cons, elem_of_nil. naive_solver.
Qed.

Lemma resolveShortCodes_spec_witness :
  resolveShortCodes uuid_example doc_example 7 =
    (9, Ok (mkPipeline None (Some "land-cover") (Some "1.0") None
      (Some [ mkBlock "u-7" "data.sentinel2" (Some []) (Some [("region", JStr "@source")]);
              mkBlock "019c" "raster.reproject" (Some [Bare "u-7"]) None;
              mkBlock "u-8" "raster.clip" (Some [Explicit "019c" "out"; Bare "u-7"]) None ]))).
Proof.
  rewrite (resolveShortCodes_spec uuid_example doc_example 7 doc_example_walkable).
  vm_compute. reflexivity.
Defined.

Definition bad_doc_example : Pipeline :=
  mkPipeline (Some "@pipeline") (Some "p") None None (Some []).

Lemma resolveShortCodes_error_witness :
  isShortCode_opt (p_id bad_doc_example) = true /\
  resolveShortCodes uuid_example bad_doc_example 3 =
    (3, Throw (PipelineIdIsShortCode (short_code_message "@pipeline"))).
Proof.
  split; [vm_compute; reflexivity|].
  apply (proj2 (resolveShortCodes_error uuid_example bad_doc_example 3)). vm_compute. reflexivity.
Defined.

Lemma resolveShortCodes_renaming_witness :
  exists p' f, resolveShortCodes uuid_example doc_example 0 = (2, Ok p') /\
    occurrences (p_blocks p' ⁇ []) = f <$> occurrences (p_blocks doc_example ⁇ []) /\
    f "@source" = f "@source" /\ f "@source" <> f "@clip".
Proof.
  assert (Hrun : resolveShortCodes uuid_example doc_example 0 =
    (2, Ok (subst_pipeline (sigma uuid_example 0 (codes_of doc_example)) doc_example)))
    by (vm_compute; reflexivity).
  destruct (resolveShortCodes_renaming uuid_example doc_example 0 _ _ doc_example_fresh Hrun) as (f & Hocc & _ & _ & Hf).
  eexists _, f. split; [exact Hrun|]. split; [exact Hocc|]. split; [reflexivity|].
  intros Heq. apply Hf in Heq; [discriminate | |].
  all: change (occurrences _) with ["@source"; "019c"; "@source"; "@clip"; "019c"; "@source"].
  all: repeat first [left | right].
Defined.
