(* ===== verification/FindCycle.v ===== *)
(** * Cycle detection ([findCycle] of [web_ui/utils/validate.ts])

    A depth-first search with three colours over the adjacency map of a pipeline.
    The recursion is bounded by fuel; [dfs_correct] shows that the number of white
    nodes is enough, so [findCycle] always has the search's result. *)

From S2P Require Export Types.

(** ** The code *)

Inductive Color := WHITE | GRAY | BLACK.

#[export] Instance Color_eq_dec : EqDecision Color.
Proof. solve_decision. Defined.

Abbreviation adjacency := (jsmap (list string)).

(** [adj.set(b.id, (b.inputs ?? []).map(refToId))] for each block: a repeated id
    keeps the inputs of its last block. *)
Definition build_adj (blocks : list Block) : adjacency :=
  foldl (fun adj b => jm_set (b_id b) (refToId <$> (b_inputs b ⁇ [])) adj) [] blocks.

(** The variables [dfs] shares between calls. *)
Record dfs_state := mkDfs { color : gmap string Color; stack : list string }.

(** [stack.slice(stack.indexOf(dep))]; [indexOf] of an absent element is -1 and
    [slice(-1)] is the last element. *)
Definition slice_from (dep : string) (l : list string) : list string :=
  match indexOf dep l with
  | Some idx => drop idx l
  | None => drop (length l - 1) l
  end.

(** [None] is lack of fuel; otherwise the state and the returned cycle or [null]. *)
Abbreviation dfs_result := (option (dfs_state * option (list string))).

Section Dfs.
Context (adj : adjacency).

(** The loop over the dependencies of a node; [rec] is the recursive call. *)
Fixpoint visit (rec : string -> dfs_state -> dfs_result) (deps : list string) (st : dfs_state)
    : dfs_result :=
  match deps with
  | [] => Some (st, None)
  | dep :: deps' =>
      if negb (jm_has dep adj) then visit rec deps' st
      else match color st !! dep with
           | Some GRAY => Some (st, Some (slice_from dep (stack st) ++ [dep]))
           | Some WHITE =>
               match rec dep st with
               | Some (st', None) => visit rec deps' st'
               | r => r
               end
           | _ => visit rec deps' st
           end
  end.

Fixpoint dfs (fuel : nat) (node : string) (st : dfs_state) : dfs_result :=
  match fuel with
  | 0 => None
  | S fuel' =>
      match visit (dfs fuel') (jm_get node adj ⁇ [])
              (mkDfs (<[node := GRAY]> (color st)) (stack st ++ [node])) with
      | Some (st', None) =>
          Some (mkDfs (<[node := BLACK]> (color st')) (take (length (stack st') - 1) (stack st')), None)
      | r => r
      end
  end.

(** The outer loop over [adj.keys()]. *)
Fixpoint search (fuel : nat) (ids : list string) (st : dfs_state) : dfs_result :=
  match ids with
  | [] => Some (st, None)
  | id :: ids' =>
      if color st !! id === Some WHITE
      then match dfs fuel id st with
           | Some (st', None) => search fuel ids' st'
           | r => r
           end
      else search fuel ids' st
  end.
End Dfs.

Definition initial_state (adj : adjacency) : dfs_state :=
  mkDfs (list_to_map ((fun id => (id, WHITE)) <$> jm_keys adj)) [].

(** The whole search, with as much fuel as there are nodes. *)
Definition findCycle_run (blocks : list Block) : dfs_result :=
  let adj := build_adj blocks in
  search adj (length (jm_keys adj)) (jm_keys adj) (initial_state adj).

Definition findCycle (blocks : list Block) : option (list string) :=
  match findCycle_run blocks with
  | Some (_, r) => r
  | None => None
  end.

(** ** The dependency relation *)

Section Relation.
Context (adj : adjacency).

(** [x] depends on [y], and both are nodes of the map. *)
Definition edge (x y : string) : Prop :=
  exists deps, jm_get x adj = Some deps /\ y ∈ deps /\ jm_has y adj = true.

Definition acyclic : Prop := forall x, ~ tc edge x x.

(** Consecutive elements are related. *)
Fixpoint chain (l : list string) : Prop :=
  match l with
  | x :: ((y :: _) as l') => edge x y /\ chain l'
  | _ => True
  end.

(** A closed walk: what [findCycle] promises to return. *)
Definition is_cycle (c : list string) : Prop :=
  exists x mid, c = x :: mid ++ [x] /\ chain c.

Lemma chain_app l1 x l2 : chain (l1 ++ x :: l2) <-> chain (l1 ++ [x]) /\ chain (x :: l2).
Proof.
  induction l1 as [|y l1 IH]; [simpl; tauto|]. destruct l1 as [|z l1]; simpl in *; tauto.
Qed.

Lemma chain_snoc l x y : chain (l ++ [x]) -> edge x y -> chain ((l ++ [x]) ++ [y]).
Proof. intros Hc He. rewrite <-app_assoc. simpl. apply chain_app. split; [done | by split]. Qed.

Lemma chain_drop l1 l2 : chain (l1 ++ l2) -> chain l2.
Proof. destruct l2 as [|x l2]; [done|]. rewrite chain_app. tauto. Qed.

Lemma chain_rtc x l y : chain (x :: l ++ [y]) -> tc edge x y.
Proof.
  revert x. induction l as [|z l IH]; intros x [He Hc].
  - by apply tc_once.
  - eapply tc_l; [done | by apply IH].
Qed.

Lemma is_cycle_not_acyclic c : is_cycle c -> ~ acyclic.
Proof. intros (x & mid & -> & Hc) Ha. by eapply Ha, chain_rtc. Qed.

(** ** Finished nodes form a topological order *)

(** Every node depends only on later elements of the list. *)
Inductive topo : list string -> Prop :=
  | topo_nil : topo []
  | topo_cons x l : x ∉ l -> (forall y, edge x y -> y ∈ l) -> topo l -> topo (x :: l).

Lemma topo_closed l x y : topo l -> x ∈ l -> rtc edge x y -> y ∈ l.
Proof.
  intros Ht Hx Hr. induction Hr as [|x y z He _ IH]; [done|]. apply IH. clear IH.
  induction Ht as [|a l Ha Hsucc Ht IH]; [by apply elem_of_nil in Hx|].
  apply elem_of_cons in Hx as [->|Hx]; right; auto.
Qed.

Lemma topo_irrefl l x : topo l -> x ∈ l -> ~ tc edge x x.
Proof.
  intros Ht. induction Ht as [|a l Ha Hsucc Ht IH]; intros Hx; [by apply elem_of_nil in Hx|].
  destruct (decide (x ∈ l)) as [Hin|Hnin]; [auto|].
  apply elem_of_cons in Hx as [->|Hx]; [|done]. intros Htc.
  assert (exists z, edge a z /\ rtc edge z a) as (z & Hz & Hr).
  { inversion Htc; subst; eexists; split; eauto using rtc_refl, tc_rtc. }
  apply Ha. eapply topo_closed; eauto.
Qed.

Lemma edge_node x y : edge x y -> x ∈ jm_keys adj.
Proof. intros (deps & H & _). by eapply jm_get_fst. Qed.
End Relation.

#[export] Hint Resolve edge_node : spade.

(** ** Correctness of the search *)

Section Correctness.
Context (adj : adjacency) (Hadj : NoDup (jm_keys adj)).

(** The colours and the stack in terms of the finished nodes [fin], a ghost list. *)
Record Inv (st : dfs_state) (fin : list string) : Prop := {
  inv_gray : forall x, color st !! x = Some GRAY <-> x ∈ stack st;
  inv_black : forall x, color st !! x = Some BLACK <-> x ∈ fin;
  inv_dom : forall x, is_Some (color st !! x) <-> x ∈ jm_keys adj;
  inv_chain : chain adj (stack st);
  inv_topo : topo adj fin }.

(** The white nodes, whose number bounds the depth of the recursion. *)
Definition whites (st : dfs_state) : list string :=
  filter (fun x => color st !! x = Some WHITE) (jm_keys adj).

Definition fewer_whites (st st' : dfs_state) : Prop :=
  forall x, color st' !! x = Some WHITE -> color st !! x = Some WHITE.

Lemma fewer_whites_length st st' :
  fewer_whites st st' -> length (whites st') <= length (whites st).
Proof.
  intros H. apply submseteq_length, NoDup_submseteq; [by apply NoDup_filter|].
  intros x. unfold whites. rewrite !list_elem_of_filter. naive_solver.
Qed.

Lemma whites_lt st st' x :
  fewer_whites st st' -> color st !! x = Some WHITE -> color st' !! x <> Some WHITE ->
  x ∈ jm_keys adj -> length (whites st') < length (whites st).
Proof.
  intros H Hx Hx' Hk. change (length (x :: whites st') <= length (whites st)).
  apply submseteq_length, NoDup_submseteq.
  - constructor; [|by apply NoDup_filter]. unfold whites. rewrite list_elem_of_filter. tauto.
  - intros y. unfold whites. rewrite elem_of_cons, !list_elem_of_filter. naive_solver.
Qed.

(** Painting a white node gray and pushing it. *)
Lemma Inv_enter st fin node :
  Inv st fin -> color st !! node = Some WHITE -> chain adj (stack st ++ [node]) ->
  Inv (mkDfs (<[node := GRAY]> (color st)) (stack st ++ [node])) fin.
Proof.
  intros [Hg Hb Hd Hc Ht] Hw Hch. split; simpl; [..|done|done]; intros x;
    (destruct (decide (x = node)) as [->|Hne];
      [rewrite lookup_insert_eq | rewrite lookup_insert_ne by done]).
  - set_solver.
  - rewrite Hg. set_solver.
  - rewrite <-Hb. naive_solver.
  - apply Hb.
  - rewrite <-Hd. split; eauto.
  - apply Hd.
Qed.

(** Popping a node whose dependencies are all finished. *)
Lemma Inv_leave st fin node stk :
  Inv st fin -> stack st = stk ++ [node] -> node ∉ stk ->
  (forall y, edge adj node y -> y ∈ fin) ->
  Inv (mkDfs (<[node := BLACK]> (color st)) stk) (node :: fin).
Proof.
  intros [Hg Hb Hd Hc Ht] Hstk Hnot Hsucc.
  assert (color st !! node = Some GRAY) as Hgray by (apply Hg; rewrite Hstk; set_solver).
  split; simpl.
  - intros x. destruct (decide (x = node)) as [->|Hne].
    + rewrite lookup_insert_eq. naive_solver.
    + rewrite lookup_insert_ne, Hg, Hstk by done. set_solver.
  - intros x. destruct (decide (x = node)) as [->|Hne].
    + rewrite lookup_insert_eq. set_solver.
    + rewrite lookup_insert_ne, Hb by done. set_solver.
  - intros x. destruct (decide (x = node)) as [->|Hne].
    + rewrite lookup_insert_eq, <-Hd. naive_solver.
    + by rewrite lookup_insert_ne.
  - rewrite Hstk in Hc. destruct stk as [|z stk'] using rev_ind; [done|].
    rewrite <-app_assoc in Hc. simpl in Hc. by apply chain_app in Hc as [? _].
  - constructor; [|done|done]. rewrite <-Hb. congruence.
Qed.

(** The cycle a back edge gives. *)
Lemma back_edge_cycle st fin node dep stk :
  Inv st fin -> stack st = stk ++ [node] -> edge adj node dep -> dep ∈ stack st ->
  is_cycle adj (slice_from dep (stack st) ++ [dep]).
Proof.
  intros [_ _ _ Hc _] Hstk He [i Hi]%indexOf_elem. unfold slice_from. rewrite Hi.
  apply indexOf_Some in Hi as [Hi _].
  assert (drop i (stack st) = dep :: drop (S i) (stack st)) as Hd by (by apply drop_S).
  rewrite Hd. exists dep, (drop (S i) (stack st)). split; [done|].
  rewrite <-Hd. assert (exists l, drop i (stack st) = l ++ [node]) as [l Hl].
  { rewrite Hstk in Hi |- *. apply lookup_lt_Some in Hi. rewrite length_app in Hi. simpl in Hi.
    rewrite drop_app_le by lia. eauto. }
  rewrite Hl. apply chain_snoc; [|done]. rewrite <-Hl.
  apply (chain_drop _ (take i (stack st))). by rewrite take_drop.
Qed.

(** What a finished call leaves: the stack as it was, more finished nodes. *)
Definition Finished (st st' : dfs_state) (fin l : list string) : Prop :=
  Inv st' (l ++ fin) /\ stack st' = stack st /\ fewer_whites st st'.

Definition dfs_ok (fuel : nat) : Prop := forall node st fin,
  Inv st fin -> color st !! node = Some WHITE -> chain adj (stack st ++ [node]) ->
  length (whites st) <= fuel ->
  exists st' r, dfs adj fuel node st = Some (st', r) /\
    match r with
    | None => exists l, node ∈ l /\ Finished st st' fin l
    | Some c => is_cycle adj c
    end.

Lemma visit_correct fuel node deps stk st fin :
  dfs_ok fuel -> Inv st fin -> stack st = stk ++ [node] ->
  (forall y, y ∈ deps -> jm_has y adj = true -> edge adj node y) ->
  length (whites st) <= fuel ->
  exists st' r, visit adj (dfs adj fuel) deps st = Some (st', r) /\
    match r with
    | None => exists l, Finished st st' fin l /\
        forall y, y ∈ deps -> jm_has y adj = true -> y ∈ l ++ fin
    | Some c => is_cycle adj c
    end.
Proof.
  intros Hdfs. revert st fin. induction deps as [|dep deps IH]; intros st fin Hinv Hstk Hedge Hfuel.
  { exists st, None. split; [done|]. exists []. split; [|by intros y ?%elem_of_nil].
    split; [exact Hinv|]. split; [done | by intros x]. }
  simpl. destruct (jm_has dep adj) eqn:Hhas; simpl.
  2:{ destruct (IH st fin) as (st' & r & Hrun & Hr); [done|done|set_solver|done|].
      exists st', r. split; [done|]. destruct r; [done|]. destruct Hr as (l & Hfin & Hall).
      exists l. split; [done|]. intros y [->|Hy]%elem_of_cons Hy'; [congruence | auto]. }
  assert (is_Some (color st !! dep)) as [c Hcol]
    by (apply (inv_dom st fin Hinv); by apply jm_has_true).
  rewrite Hcol. destruct c.
  - destruct (Hdfs dep st fin) as (st1 & r1 & Hrun1 & Hr1); [done|done| |done|].
    { rewrite Hstk. apply chain_snoc; [rewrite <-Hstk; apply Hinv|]. apply Hedge; [left | done]. }
    rewrite Hrun1. destruct r1 as [c|]; [by exists st1, (Some c)|].
    destruct Hr1 as (l1 & Hdep & Hinv1 & Hstk1 & Hwh1).
    destruct (IH st1 (l1 ++ fin)) as (st2 & r2 & Hrun2 & Hr2); [done|congruence|set_solver| |].
    { pose proof (fewer_whites_length st st1 Hwh1). lia. }
    exists st2, r2. split; [done|]. destruct r2; [done|].
    destruct Hr2 as (l2 & (Hinv2 & Hstk2 & Hwh2) & Hall). exists (l2 ++ l1).
    unfold Finished. rewrite <-app_assoc. split; [split; [done|]; split; [congruence|] | ].
    + intros x Hx. auto.
    + intros y [->|Hy]%elem_of_cons Hy'; [set_solver | auto].
  - exists st. eexists. split; [done|]. eapply back_edge_cycle; [done|done| |].
    + apply Hedge; [left | done].
    + by apply (inv_gray st fin Hinv).
  - destruct (IH st fin) as (st' & r & Hrun & Hr); [done|done|set_solver|done|].
    exists st', r. split; [done|]. destruct r; [done|]. destruct Hr as (l & Hfin & Hall).
    exists l. split; [done|]. intros y [->|Hy]%elem_of_cons Hy'; [|auto].
    apply (inv_black st fin Hinv) in Hcol. set_solver.
Qed.

Lemma dfs_correct fuel : dfs_ok fuel.
Proof.
  induction fuel as [|fuel IH]; intros node st fin Hinv Hw Hch Hfuel.
  { assert (node ∈ whites st) as Hin.
    { unfold whites. rewrite list_elem_of_filter. split; [done|].
      apply (inv_dom st fin Hinv). eauto. }
    destruct (whites st); [by apply elem_of_nil in Hin | simpl in Hfuel; lia]. }
  simpl. set (st1 := mkDfs _ _).
  assert (fewer_whites st st1) as Hwh1.
  { intros x. simpl. rewrite lookup_insert. case_decide; naive_solver. }
  assert (node ∉ stack st) as Hnot by (rewrite <-(inv_gray st fin Hinv); congruence).
  destruct (visit_correct fuel node (jm_get node adj ⁇ []) (stack st) st1 fin)
    as (st2 & r & -> & Hr); [done|by apply Inv_enter|done| | |].
  - intros y Hy Hhas. destruct (jm_get node adj) as [deps|] eqn:Hd; [|by apply elem_of_nil in Hy].
    by exists deps.
  - enough (length (whites st1) < length (whites st)) by lia.
    apply (whites_lt st st1 node); [done|done| |apply (inv_dom st fin Hinv); eauto].
    simpl. by rewrite lookup_insert_eq.
  - destruct r as [c|]; [by exists st2, (Some c)|]. destruct Hr as (l & (Hinv2 & Hstk2 & Hwh2) & Hall).
    simpl in Hstk2. eexists _, None. split; [done|]. exists (node :: l). split; [left|].
    rewrite Hstk2, length_app, Nat.add_sub, take_app_length. split; [|split; [done|]].
    + apply (Inv_leave st2 (l ++ fin)); [done|done|done|].
      intros y (deps & Hd & Hy & Hhas). apply Hall; [by rewrite Hd | done].
    + intros x. simpl. rewrite lookup_insert. case_decide; [done|]. auto.
Qed.
End Correctness.

Section Search.
Context (adj : adjacency) (Hadj : NoDup (jm_keys adj)).

Lemma search_correct fuel ids st fin :
  Inv adj st fin -> stack st = [] -> length (whites adj st) <= fuel ->
  exists st' r, search adj fuel ids st = Some (st', r) /\
    match r with
    | None => exists fin', Inv adj st' fin' /\ stack st' = [] /\ fin ⊆ fin' /\
        forall id, id ∈ ids -> id ∈ jm_keys adj -> id ∈ fin'
    | Some c => is_cycle adj c
    end.
Proof.
  revert st fin. induction ids as [|id ids IH]; intros st fin Hinv Hstk Hfuel; simpl.
  { exists st, None. split; [done|]. exists fin. split_and!; [done|done|done|].
    by intros id ?%elem_of_nil. }
  case_bool_decide as Hcol.
  - destruct (dfs_correct adj Hadj fuel id st fin) as (st1 & r1 & -> & Hr1);
      [done|done|by rewrite Hstk|done|].
    destruct r1 as [c|]; [by exists st1, (Some c)|].
    destruct Hr1 as (l & Hid & Hinv1 & Hstk1 & Hwh1).
    destruct (IH st1 (l ++ fin)) as (st2 & r2 & -> & Hr2); [done|congruence| |].
    { pose proof (fewer_whites_length adj Hadj st st1 Hwh1). lia. }
    exists st2, r2. split; [done|]. destruct r2; [done|].
    destruct Hr2 as (fin' & Hinv2 & Hstk2 & Hsub & Hall). exists fin'.
    split_and!; [done|done|set_solver|].
    intros x [->|Hx]%elem_of_cons Hk; [set_solver | auto].
  - destruct (IH st fin) as (st2 & r2 & -> & Hr2); [done|done|done|].
    exists st2, r2. split; [done|]. destruct r2; [done|].
    destruct Hr2 as (fin' & Hinv2 & Hstk2 & Hsub & Hall). exists fin'.
    split_and!; [done|done|done|]. intros x [->|Hx]%elem_of_cons Hk; [|auto].
    apply Hsub. apply (inv_black _ _ _ Hinv).
    destruct (inv_dom _ _ _ Hinv id) as [_ [c Hc]]; [done|].
    destruct c; [by rewrite Hc in Hcol | | done].
    apply (inv_gray _ _ _ Hinv) in Hc. rewrite Hstk in Hc. by apply elem_of_nil in Hc.
Qed.

Lemma initial_state_color x :
  color (initial_state adj) !! x = if bool_decide (x ∈ jm_keys adj) then Some WHITE else None.
Proof.
  unfold initial_state. simpl. case_bool_decide as Hx.
  - apply elem_of_list_to_map_1.
    + rewrite <-list_fmap_compose. unfold compose. simpl. by rewrite list_fmap_id.
    + apply list_elem_of_fmap. eauto.
  - apply not_elem_of_list_to_map_1. rewrite <-list_fmap_compose. unfold compose. simpl.
    by rewrite list_fmap_id.
Qed.

Lemma Inv_initial : Inv adj (initial_state adj) [].
Proof.
  split; [..|done|constructor]; intros x; rewrite initial_state_color; case_bool_decide as Hx.
  - split; [done | by intros ?%elem_of_nil].
  - split; [done | by intros ?%elem_of_nil].
  - split; [done | by intros ?%elem_of_nil].
  - split; [done | by intros ?%elem_of_nil].
  - split; eauto.
  - split; [by intros [? ?] | done].
Qed.

Lemma search_all :
  exists st' r, search adj (length (jm_keys adj)) (jm_keys adj) (initial_state adj) = Some (st', r) /\
    match r with None => acyclic adj | Some c => is_cycle adj c end.
Proof.
  destruct (search_correct (length (jm_keys adj)) (jm_keys adj) (initial_state adj) [])
    as (st' & r & Hrun & Hr); [apply Inv_initial | done | |].
  { unfold whites. apply length_filter. }
  exists st', r. split; [done|]. destruct r; [done|].
  destruct Hr as (fin & Hinv & _ & _ & Hall). intros x Htc.
  assert (x ∈ jm_keys adj) as Hk by (inversion Htc; subst; eauto with spade).
  eapply topo_irrefl; [apply (inv_topo _ _ _ Hinv) | by apply Hall | done].
Qed.
End Search.

Lemma NoDup_build_adj blocks : NoDup (jm_keys (build_adj blocks)).
Proof.
  unfold build_adj. assert (NoDup (jm_keys (@nil (string * list string)))) as H by constructor.
  revert H. generalize (@nil (string * list string)).
  induction blocks as [|b blocks IH]; intros m Hm; simpl; [done|]. auto with spade.
Qed.

(** ** The specification in terms of the blocks *)

(** Block [x] names [y] among its inputs, and [y] is the id of a block. *)
Definition depends (blocks : list Block) (x y : string) : Prop :=
  exists b, b ∈ blocks /\ b_id b = x /\ y ∈ (refToId <$> (b_inputs b ⁇ [])) /\ y ∈ (b_id <$> blocks).

Lemma foldl_adj_fresh blocks m x :
  x ∉ b_id <$> blocks ->
  jm_get x (foldl (fun adj b => jm_set (b_id b) (refToId <$> (b_inputs b ⁇ [])) adj) m blocks) =
    jm_get x m.
Proof.
  revert m. induction blocks as [|b blocks IH]; intros m Hx; simpl; [done|].
  rewrite fmap_cons, not_elem_of_cons in Hx. destruct Hx as [Hne Hx].
  rewrite IH by done. by apply jm_get_set_ne.
Qed.

Lemma build_adj_get blocks x :
  NoDup (b_id <$> blocks) ->
  jm_get x (build_adj blocks) =
    (fun b => refToId <$> (b_inputs b ⁇ [])) <$> js_find (fun b => b_id b === x) blocks.
Proof.
  unfold build_adj. intros Hnd.
  assert (jm_get x (@nil (string * list string)) = None) as Hm by done. revert Hm.
  generalize (@nil (string * list string)) as m.
  induction blocks as [|b blocks IH]; intros m Hm; simpl; [done|].
  apply NoDup_fmap_cons_inv in Hnd as [Hb Hnd]. case_bool_decide as Hx.
  - subst x. rewrite foldl_adj_fresh by done. by rewrite jm_get_set_eq.
  - rewrite IH; [done|done|]. by rewrite jm_get_set_ne.
Qed.

Lemma elem_keys_build_adj blocks x : x ∈ jm_keys (build_adj blocks) <-> x ∈ b_id <$> blocks.
Proof.
  unfold build_adj. assert (x ∈ jm_keys (@nil (string * list string)) <-> False) as Hm
    by (split; [by intros ?%elem_of_nil | done]).
  enough (forall m, x ∈ jm_keys (foldl (fun adj b => jm_set (b_id b) (refToId <$> (b_inputs b ⁇ [])) adj) m blocks)
    <-> x ∈ jm_keys m \/ x ∈ b_id <$> blocks) as H by (rewrite H, Hm; tauto).
  clear Hm. induction blocks as [|b blocks IH]; intros m; simpl.
  - rewrite elem_of_nil. tauto.
  - rewrite IH, elem_jm_keys_set, elem_of_cons. tauto.
Qed.

Lemma js_find_id blocks b :
  NoDup (b_id <$> blocks) -> b ∈ blocks -> js_find (fun b' => b_id b' === b_id b) blocks = Some b.
Proof.
  intros Hnd Hb. destruct (js_find _ blocks) as [b'|] eqn:E.
  - apply js_find_Some in E as [Heq Hb']. bool_prop. f_equal. by eapply NoDup_fmap_eq.
  - eapply js_find_None in E; [|done]. by rewrite eqb_refl_js in E.
Qed.

Lemma edge_build_adj blocks x y :
  NoDup (b_id <$> blocks) -> edge (build_adj blocks) x y <-> depends blocks x y.
Proof.
  intros Hnd. unfold edge, depends. rewrite build_adj_get by done.
  setoid_rewrite jm_has_true. setoid_rewrite elem_keys_build_adj. split.
  - intros (deps & Hd & Hy & Hk). destruct (js_find _ _) as [b|] eqn:E; simplify_eq/=.
    apply js_find_Some in E as [? ?]. bool_prop. eauto 10.
  - intros (b & Hb & <- & Hy & Hk). rewrite js_find_id by done. simpl. eauto.
Qed.

Lemma tc_ext {A} (R S : A -> A -> Prop) x y :
  (forall x y, R x y <-> S x y) -> tc R x y -> tc S x y.
Proof. intros H Htc. induction Htc; [apply tc_once | eapply tc_l; [|done]]; by apply H. Qed.

Lemma findCycle_result blocks :
  is_Some (findCycle_run blocks) /\
  match findCycle blocks with
  | None => acyclic (build_adj blocks)
  | Some c => is_cycle (build_adj blocks) c
  end.
Proof.
  unfold findCycle, findCycle_run.
  destruct (search_all (build_adj blocks) (NoDup_build_adj blocks)) as (st' & r & -> & Hr).
  split; [eauto | by destruct r].
Qed.

Lemma findCycle_None blocks : findCycle blocks = None <-> acyclic (build_adj blocks).
Proof.
  destruct (findCycle_result blocks) as [_ H]. destruct (findCycle blocks) as [c|]; [|done].
  apply is_cycle_not_acyclic in H. naive_solver.
Qed.

(** C25. The search is correct: it always ends (the fuel is never exhausted), it
    returns [null] exactly when no block depends on itself through other blocks
    of the pipeline, and what it returns otherwise is a closed walk along
    dependencies. *)
Theorem findCycle_correct blocks :
  is_Some (findCycle_run blocks) /\
  (findCycle blocks = None <-> acyclic (build_adj blocks)) /\
  (forall c, findCycle blocks = Some c -> is_cycle (build_adj blocks) c) /\
  (NoDup (b_id <$> blocks) -> forall x y, edge (build_adj blocks) x y <-> depends blocks x y).
Proof.
  destruct (findCycle_result blocks) as [Hrun H]. split_and!; [done | apply findCycle_None | |].
  - intros c Hc. by rewrite Hc in H.
  - intros Hnd x y. by apply edge_build_adj.
Qed.

(** Blocks [a] and [b] that depend on each other, after a block they do not use. *)
Definition loop_example : list Block :=
  [ mkBlock "s" "src" (Some []) None;
    mkBlock "a" "f" (Some [Bare "s"; Bare "b"]) None;
    mkBlock "b" "g" (Some [Explicit "a" "out"]) None ].

Lemma findCycle_correct_witness :
  findCycle loop_example = Some ["a"; "b"; "a"] /\
  is_cycle (build_adj loop_example) ["a"; "b"; "a"] /\
  (edge (build_adj loop_example) "a" "b" <-> depends loop_example "a" "b").
Proof.
  assert (findCycle loop_example = Some ["a"; "b"; "a"]) as H by (vm_compute; reflexivity).
  split; [exact H|]. split.
  - apply (findCycle_correct loop_example). exact H.
  - apply (findCycle_correct loop_example).
    refine (bool_decide_unpack _ _). vm_compute. exact I.
Defined.
