(* ===== verification/Validate.v ===== *)
(** * Pipeline validation ([web_ui/utils/validate.ts])

    [validatePipeline] runs its checks in order and concatenates their messages.
    The manifest-aware checks run only when manifests are given. *)

From S2P Require Export FindCycle.

(** ** Objects used as dictionaries *)

(** What [Object.prototype] holds: [key in obj] and [obj[key]] also find these. *)
Definition object_prototype_keys : list string :=
  ["constructor"; "hasOwnProperty"; "isPrototypeOf"; "propertyIsEnumerable"; "toLocaleString";
   "toString"; "valueOf"; "__proto__"; "__defineGetter__"; "__defineSetter__";
   "__lookupGetter__"; "__lookupSetter__"].

(** [key in obj], and the truthiness of [obj[key]] when own values are objects. *)
Definition js_in {V} (key : string) (obj : jsmap V) : bool :=
  jm_has key obj || bool_decide (key ∈ object_prototype_keys).

(** What [manifests[name]] is for an inherited name: a value whose [kind],
    [inputs] and [outputs] are undefined, which every check treats as a standard
    block without ports. *)
Definition inherited_manifest : BlockManifest :=
  mkManifest "" "" Standard false None None None None.

Definition get_manifest (manifests : jsmap BlockManifest) (name : string) : option BlockManifest :=
  match jm_get name manifests with
  | Some mf => Some mf
  | None => if bool_decide (name ∈ object_prototype_keys) then Some inherited_manifest else None
  end.

(** ** The checks *)

Inductive ValidationResult :=
  | Valid
  | Invalid (errors : list string).

Definition quote (s : string) : string := dq +:+ s +:+ dq.

Definition duplicate_error (id : string) : string := "Duplicate block id: " +:+ id.
Definition missing_ref_error (id refId : string) : string :=
  "Block " +:+ quote id +:+ " references missing block id " +:+ quote refId +:+ ".".
Definition unknown_type_error (id name : string) : string :=
  "Block " +:+ quote id +:+ " uses unknown block type " +:+ quote name +:+ ".".
Definition cycle_error (cycle : list string) : string :=
  "Pipeline contains a cycle: " +:+ js_join " → " cycle.
Definition missing_output_error (id output name : string) : string :=
  "Block " +:+ quote id +:+ " references output " +:+ quote output +:+
  " that does not exist on " +:+ quote name +:+ ".".
Definition missing_arg_error (id input : string) : string :=
  "Block " +:+ quote id +:+ " missing required arg " +:+ quote input +:+ ".".
Definition map_error (id : string) : string :=
  "Map block " +:+ quote id +:+ " must declare an output of type " +:+ quote "expansion" +:+ ".".
Definition reduce_error (id : string) : string :=
  "Reduce block " +:+ quote id +:+ " must declare a " +:+ quote "collection" +:+ " input.".

(** 1. Unique block ids. *)
Fixpoint check_unique (seen : list string) (blocks : list Block) : list string :=
  match blocks with
  | [] => []
  | b :: blocks' =>
      (if js_mem (b_id b) seen then [duplicate_error (b_id b)] else []) ++
      check_unique (js_add (b_id b) seen) blocks'
  end.

(** 2. All referenced ids exist in the pipeline. *)
Definition check_refs_of (idSet : list string) (b : Block) : list string :=
  (b_inputs b ⁇ []) ≫= fun ref =>
    if js_mem (refToId ref) idSet then [] else [missing_ref_error (b_id b) (refToId ref)].
Definition check_refs (blocks : list Block) : list string :=
  let idSet := js_set_of (b_id <$> blocks) in blocks ≫= check_refs_of idSet.

(** 3. All names refer to known blocks. *)
Definition check_names (manifests : jsmap BlockManifest) (blocks : list Block) : list string :=
  blocks ≫= fun b =>
    match get_manifest manifests (b_name b) with
    | Some _ => []
    | None => [unknown_type_error (b_id b) (b_name b)]
    end.

(** 4. The graph is acyclic. *)
Definition check_cycle (blocks : list Block) : list string :=
  match findCycle blocks with
  | Some cycle => [cycle_error cycle]
  | None => []
  end.

(** 5 and 6. Named outputs exist. *)
Definition check_output (manifests : jsmap BlockManifest) (blocks : list Block) (b : Block)
    (ref : InputRef) : list string :=
  match ref with
  | Bare _ => []
  | Explicit block output =>
      match js_find (fun x => b_id x === block) blocks with
      | None => []
      | Some upstream =>
          match get_manifest manifests (b_name upstream) with
          | None => []
          | Some mf =>
              if match mf_outputs mf with Some outputs => js_in output outputs | None => false end
              then []
              else [missing_output_error (b_id b) output (b_name upstream)]
          end
      end
  end.
Definition check_outputs (manifests : jsmap BlockManifest) (blocks : list Block) : list string :=
  blocks ≫= fun b =>
    match get_manifest manifests (b_name b) with
    | None => []
    | Some _ => (b_inputs b ⁇ []) ≫= check_output manifests blocks b
    end.

(** 7. Required scalar arguments are present. *)
Definition isScalar (decl : PortDecl) : bool :=
  (pt_type decl === T_string) || (pt_type decl === T_number) || (pt_type decl === T_boolean).
Definition check_arg (b : Block) (entry : string * PortDecl) : list string :=
  let '(inputName, decl) := entry in
  if negb (isScalar decl) then []
  else if negb (js_in inputName (b_args b ⁇ [])) then [missing_arg_error (b_id b) inputName] else [].
Definition check_args (manifests : jsmap BlockManifest) (blocks : list Block) : list string :=
  blocks ≫= fun b =>
    match get_manifest manifests (b_name b) with
    | None => []
    | Some mf => (mf_inputs mf ⁇ []) ≫= check_arg b
    end.

(** 8. Map and reduce blocks declare their ports. *)
Definition has_port (t : PortType) (ports : option (jsmap PortDecl)) : bool :=
  js_some (fun e => pt_type e.2 === t) (ports ⁇ []).
Definition check_map_reduce (manifests : jsmap BlockManifest) (blocks : list Block) : list string :=
  blocks ≫= fun b =>
    match get_manifest manifests (b_name b) with
    | None => []
    | Some mf =>
        (if (mf_kind mf === MapKind) && negb (has_port T_expansion (mf_outputs mf))
         then [map_error (b_id b)] else []) ++
        (if (mf_kind mf === ReduceKind) && negb (has_port T_collection (mf_inputs mf))
         then [reduce_error (b_id b)] else [])
    end.

Definition with_manifests (o : option (jsmap BlockManifest))
    (f : jsmap BlockManifest -> list string) : list string :=
  match o with Some manifests => f manifests | None => [] end.

Definition validation_errors (pipeline : Pipeline) (manifests : option (jsmap BlockManifest))
    : list string :=
  let blocks := p_blocks pipeline ⁇ [] in
  check_unique [] blocks ++
  check_refs blocks ++
  with_manifests manifests (fun ms => check_names ms blocks) ++
  check_cycle blocks ++
  with_manifests manifests (fun ms => check_outputs ms blocks) ++
  with_manifests manifests (fun ms => check_args ms blocks) ++
  with_manifests manifests (fun ms => check_map_reduce ms blocks).

Definition validatePipeline (pipeline : Pipeline) (manifests : option (jsmap BlockManifest))
    : ValidationResult :=
  match validation_errors pipeline manifests with
  | [] => Valid
  | errors => Invalid errors
  end.

(** ** What a valid pipeline is *)

(** The structural part: unique ids, no dangling reference, no dependency cycle. *)
Record WellFormed (blocks : list Block) : Prop := {
  wf_unique : NoDup (b_id <$> blocks);
  wf_refs : forall b r, b ∈ blocks -> r ∈ b_inputs b ⁇ [] -> refToId r ∈ b_id <$> blocks;
  wf_acyclic : forall x, ~ tc (depends blocks) x x }.

(** The part that reads the manifests. *)
Record Typed (manifests : jsmap BlockManifest) (blocks : list Block) : Prop := {
  ty_known : forall b, b ∈ blocks -> is_Some (get_manifest manifests (b_name b));
  ty_outputs : forall b block output upstream mf,
    b ∈ blocks -> Explicit block output ∈ b_inputs b ⁇ [] ->
    upstream ∈ blocks -> b_id upstream = block ->
    get_manifest manifests (b_name upstream) = Some mf ->
    exists outputs, mf_outputs mf = Some outputs /\ js_in output outputs = true;
  ty_args : forall b mf name decl,
    b ∈ blocks -> get_manifest manifests (b_name b) = Some mf ->
    (name, decl) ∈ mf_inputs mf ⁇ [] -> isScalar decl = true ->
    js_in name (b_args b ⁇ []) = true;
  ty_map_reduce : forall b mf,
    b ∈ blocks -> get_manifest manifests (b_name b) = Some mf ->
    (mf_kind mf = MapKind -> has_port T_expansion (mf_outputs mf) = true) /\
    (mf_kind mf = ReduceKind -> has_port T_collection (mf_inputs mf) = true) }.

(** ** Each check against its meaning *)

Lemma check_unique_nil seen blocks :
  check_unique seen blocks = [] <->
  NoDup (b_id <$> blocks) /\ forall x, x ∈ b_id <$> blocks -> x ∉ seen.
Proof.
  revert seen. induction blocks as [|b blocks IH]; intros seen; simpl.
  { split; [|done]. intros _. split; [constructor | by intros x ?%elem_of_nil]. }
  rewrite app_nil, IH, NoDup_cons. setoid_rewrite elem_js_add. unfold js_mem. split.
  - intros [Hb [Hnd Hx]]. case_bool_decide; [done|]. split; [split; [set_solver | done]|].
    intros x [->|Hin]%elem_of_cons; [done|]. set_solver.
  - intros [[Hb Hnd] Hx]. rewrite bool_decide_eq_false_2 by (apply Hx; left).
    split; [done|]. split; [done|]. intros x Hin. set_solver.
Qed.

Lemma check_refs_nil blocks :
  check_refs blocks = [] <->
  forall b r, b ∈ blocks -> r ∈ b_inputs b ⁇ [] -> refToId r ∈ b_id <$> blocks.
Proof.
  unfold check_refs, check_refs_of. rewrite bind_nil_iff. split.
  - intros H b r Hb Hr. specialize (H b Hb). rewrite bind_nil_iff in H. specialize (H r Hr).
    unfold js_mem in H. case_bool_decide as Hin; [|done]. by rewrite elem_js_set_of in Hin.
  - intros H b Hb. apply bind_nil_iff. intros r Hr. unfold js_mem.
    rewrite bool_decide_eq_true_2; [done|]. apply elem_js_set_of. eauto.
Qed.

Lemma check_cycle_nil blocks : check_cycle blocks = [] <-> acyclic (build_adj blocks).
Proof. rewrite <-findCycle_None. unfold check_cycle. by destruct (findCycle blocks). Qed.

Lemma check_names_nil ms blocks :
  check_names ms blocks = [] <-> forall b, b ∈ blocks -> is_Some (get_manifest ms (b_name b)).
Proof.
  unfold check_names. rewrite bind_nil_iff. split; intros H b Hb; specialize (H b Hb).
  - destruct (get_manifest _ _); [eauto | done].
  - by destruct H as [mf ->].
Qed.

Lemma check_outputs_nil ms blocks :
  NoDup (b_id <$> blocks) ->
  (forall b, b ∈ blocks -> is_Some (get_manifest ms (b_name b))) ->
  check_outputs ms blocks = [] <->
  forall b block output upstream mf,
    b ∈ blocks -> Explicit block output ∈ b_inputs b ⁇ [] ->
    upstream ∈ blocks -> b_id upstream = block ->
    get_manifest ms (b_name upstream) = Some mf ->
    exists outputs, mf_outputs mf = Some outputs /\ js_in output outputs = true.
Proof.
  intros Hnd Hknown. unfold check_outputs. rewrite bind_nil_iff. split.
  - intros H b block output upstream mf Hb Hr Hu Hid Hmf. specialize (H b Hb). simpl in H.
    destruct (Hknown b Hb) as [mfb Hmfb]. rewrite Hmfb, bind_nil_iff in H. specialize (H _ Hr).
    simpl in H. subst block. rewrite js_find_id, Hmf in H by done.
    destruct (mf_outputs mf) as [outputs|]; [|done]. exists outputs. split; [done|].
    by destruct (js_in output outputs).
  - intros H b Hb. destruct (Hknown b Hb) as [mfb ->]. apply bind_nil_iff.
    intros [s|block output] Hr; simpl; [done|].
    destruct (js_find _ blocks) as [u|] eqn:Hu; [|done].
    apply js_find_Some in Hu as [Hid Hu]. bool_prop.
    destruct (get_manifest ms (b_name u)) as [mf|] eqn:Hmf; [|done].
    destruct (H b block output u mf) as (outputs & -> & ->); done.
Qed.

Lemma check_args_nil ms blocks :
  check_args ms blocks = [] <->
  forall b mf name decl,
    b ∈ blocks -> get_manifest ms (b_name b) = Some mf ->
    (name, decl) ∈ mf_inputs mf ⁇ [] -> isScalar decl = true -> js_in name (b_args b ⁇ []) = true.
Proof.
  unfold check_args. rewrite bind_nil_iff. split.
  - intros H b mf name decl Hb Hmf Hin Hs. specialize (H b Hb). simpl in H.
    rewrite Hmf, bind_nil_iff in H. specialize (H _ Hin). simpl in H. rewrite Hs in H. simpl in H.
    by destruct (js_in _ _).
  - intros H b Hb. destruct (get_manifest ms (b_name b)) as [mf|] eqn:Hmf; [|done].
    apply bind_nil_iff. intros [name decl] Hin. simpl.
    destruct (isScalar decl) eqn:Hs; [|done]. simpl. by rewrite (H b mf name decl).
Qed.

Lemma check_map_reduce_nil ms blocks :
  check_map_reduce ms blocks = [] <->
  forall b mf, b ∈ blocks -> get_manifest ms (b_name b) = Some mf ->
    (mf_kind mf = MapKind -> has_port T_expansion (mf_outputs mf) = true) /\
    (mf_kind mf = ReduceKind -> has_port T_collection (mf_inputs mf) = true).
Proof.
  unfold check_map_reduce. rewrite bind_nil_iff. split.
  - intros H b mf Hb Hmf. specialize (H b Hb). simpl in H. rewrite Hmf in H.
    apply app_nil in H as [H1 H2]. split; intros Hk; rewrite Hk in *; simpl in *;
      by destruct (has_port _ _).
  - intros H b Hb. destruct (get_manifest ms (b_name b)) as [mf|] eqn:Hmf; [|done].
    destruct (H b mf) as [H1 H2]; [done|done|].
    destruct (mf_kind mf); simpl; [done|by rewrite H1|by rewrite H2].
Qed.

(** The graph checks together. *)
Lemma structural_nil blocks :
  check_unique [] blocks = [] /\ check_refs blocks = [] /\ check_cycle blocks = [] <->
  WellFormed blocks.
Proof.
  rewrite check_unique_nil, check_refs_nil, check_cycle_nil. split.
  - intros ([Hnd _] & Hrefs & Hac). split; [done|done|].
    intros x Htc. apply (Hac x). eapply tc_ext; [|done]. intros. symmetry. by apply edge_build_adj.
  - intros [Hnd Hrefs Hac]. split_and!; [done | by intros x _ ?%elem_of_nil | done |].
    intros x Htc. apply (Hac x). eapply tc_ext; [|done]. intros. by apply edge_build_adj.
Qed.

(** ** Theorems *)

(** Validation without manifests decides well-formedness. *)
Lemma validatePipeline_WellFormed p :
  validatePipeline p None = Valid <-> WellFormed (p_blocks p ⁇ []).
Proof.
  rewrite <-structural_nil. unfold validatePipeline, validation_errors, with_manifests.
  rewrite !app_nil_r. simpl.
  destruct (_ ++ _) as [|e l] eqn:E.
  - rewrite !app_nil in E. tauto.
  - split; [done|]. intros (H1 & H2 & H3). by rewrite H1, H2, H3 in E.
Qed.

(** C27. Validation without manifests, as the server runs it, accepts exactly the
    pipelines whose block ids are distinct, whose references all name a block of
    the pipeline and whose dependency graph has no cycle. *)
Theorem validatePipeline_structural p :
  validatePipeline p None = Valid <-> WellFormed (p_blocks p ⁇ []).
Proof. apply validatePipeline_WellFormed. Qed.

(** C29. Validation with manifests accepts exactly the well-formed pipelines whose
    block types are known, whose explicit references name declared outputs, whose
    scalar inputs are all in [args], and whose map and reduce blocks declare an
    expansion output and a collection input. *)
Theorem validatePipeline_typed p manifests :
  validatePipeline p (Some manifests) = Valid <->
  WellFormed (p_blocks p ⁇ []) /\ Typed manifests (p_blocks p ⁇ []).
Proof.
  set (blocks := p_blocks p ⁇ []).
  assert (validatePipeline p (Some manifests) = Valid <->
    validation_errors p (Some manifests) = []) as ->
    by (unfold validatePipeline; by destruct (validation_errors _ _)).
  unfold validation_errors, with_manifests. fold blocks. rewrite !app_nil. split.
  - intros (H1 & H2 & H3 & H4 & H5 & H6 & H7).
    assert (WellFormed blocks) as Hwf by (by apply structural_nil).
    rewrite check_names_nil in H3. split; [done|]. split.
    + done.
    + by apply check_outputs_nil; [apply Hwf|..].
    + by apply check_args_nil.
    + by apply check_map_reduce_nil.
  - intros [Hwf [H3 H5 H6 H7]]. apply structural_nil in Hwf as Hs. destruct Hs as (H1 & H2 & H4).
    split_and!; [done|done|by apply check_names_nil|done| | |].
    + apply check_outputs_nil; [apply Hwf | done | done].
    + by apply check_args_nil.
    + by apply check_map_reduce_nil.
Qed.
