(* ===== verification/Renaming.v ===== *)
(** * Short codes and validation together

    The upload path resolves short codes and then validates; renaming the ids of a
    pipeline injectively changes neither its graph nor the verdict. *)

From S2P Require Export ShortCodes Validate.

(** ** Renaming ids *)

Section Renaming.
Context (f : string -> string).

Definition rename_ref (r : InputRef) : InputRef :=
  match r with
  | Bare s => Bare (f s)
  | Explicit block output => Explicit (f block) output
  end.
Definition rename_block (b : Block) : Block :=
  mkBlock (f (b_id b)) (b_name b) (Some (rename_ref <$> (b_inputs b ⁇ []))) (b_args b).

Context (blocks : list Block).
Context (Hinj : forall s t, s ∈ occurrences blocks -> t ∈ occurrences blocks -> f s = f t -> s = t).

Lemma occurrence_id b : b ∈ blocks -> b_id b ∈ occurrences blocks.
Proof. intros Hb. apply list_elem_of_bind. exists b. split; [left | done]. Qed.

Lemma occurrence_ids x : x ∈ b_id <$> blocks -> x ∈ occurrences blocks.
Proof. intros (b & -> & Hb)%list_elem_of_fmap. by apply occurrence_id. Qed.

Lemma occurrence_ref b x : b ∈ blocks -> x ∈ refToId <$> (b_inputs b ⁇ []) -> x ∈ occurrences blocks.
Proof. intros Hb Hx. apply list_elem_of_bind. exists b. split; [by right | done]. Qed.

Lemma rename_ids : b_id <$> (rename_block <$> blocks) = f <$> (b_id <$> blocks).
Proof. rewrite <-!list_fmap_compose. done. Qed.

Lemma rename_refs b :
  refToId <$> (b_inputs (rename_block b) ⁇ []) = f <$> (refToId <$> (b_inputs b ⁇ [])).
Proof.
  simpl. rewrite <-!list_fmap_compose. apply list_fmap_ext. by intros i [s|s o] _.
Qed.

Lemma elem_rename_ids x : x ∈ occurrences blocks -> f x ∈ f <$> (b_id <$> blocks) <-> x ∈ b_id <$> blocks.
Proof.
  intros Hx. split; [|by apply list_elem_of_fmap_2].
  intros (y & Heq & Hy)%list_elem_of_fmap. apply Hinj in Heq; [by subst|done|by apply occurrence_ids].
Qed.

Lemma depends_rename x y :
  x ∈ occurrences blocks -> y ∈ occurrences blocks ->
  depends (rename_block <$> blocks) (f x) (f y) <-> depends blocks x y.
Proof.
  intros Hx Hy. unfold depends. rewrite rename_ids. setoid_rewrite elem_rename_ids; [|done]. split.
  - intros (b' & (b & -> & Hb)%list_elem_of_fmap & Hid & Hr & Hk). rewrite rename_refs in Hr.
    apply list_elem_of_fmap in Hr as (y' & Heq & Hy'). exists b. split; [done|]. split.
    + apply Hinj; [by apply occurrence_id | done | done].
    + apply Hinj in Heq; [by subst|done|by eapply occurrence_ref].
  - intros (b & Hb & <- & Hr & Hk). exists (rename_block b). split; [by apply list_elem_of_fmap_2|].
    split; [done|]. rewrite rename_refs. split; [by apply list_elem_of_fmap_2 | done].
Qed.

Lemma tc_depends_rename u v :
  tc (depends (rename_block <$> blocks)) u v ->
  exists x y, u = f x /\ v = f y /\ x ∈ occurrences blocks /\ y ∈ occurrences blocks /\ tc (depends blocks) x y.
Proof.
  assert (Hone : forall u v, depends (rename_block <$> blocks) u v ->
    exists x y, u = f x /\ v = f y /\ x ∈ occurrences blocks /\ y ∈ occurrences blocks /\ depends blocks x y).
  { intros u' v' (b' & (b & -> & Hb)%list_elem_of_fmap & <- & Hr & Hk).
    rewrite rename_refs in Hr. apply list_elem_of_fmap in Hr as (y & -> & Hy).
    exists (b_id b), y. split_and!; [done|done|by apply occurrence_id|by eapply occurrence_ref|].
    apply depends_rename; [by apply occurrence_id|by eapply occurrence_ref|].
    exists (rename_block b). split_and!; [by apply list_elem_of_fmap_2|done| |done].
    rewrite rename_refs. by apply list_elem_of_fmap_2. }
  induction 1 as [u v Hd|u w v Hd _ IH]; apply Hone in Hd as (x & y & -> & -> & Hx & Hy & Hd).
  - exists x, y. split_and!; [done..|by apply tc_once].
  - destruct IH as (y' & z & Heq & -> & Hy' & Hz & Htc). apply Hinj in Heq as ->; [|done|done].
    exists x, z. split_and!; [done..|by eapply tc_l].
Qed.

Lemma tc_rename_depends x y :
  tc (depends blocks) x y -> tc (depends (rename_block <$> blocks)) (f x) (f y).
Proof.
  assert (Hone : forall u v, depends blocks u v -> depends (rename_block <$> blocks) (f u) (f v)).
  { intros u v Hd. apply depends_rename; [| |done]; destruct Hd as (b & Hb & <- & Hr & _).
    - by apply occurrence_id.
    - by eapply occurrence_ref. }
  induction 1 as [u v Hd|u w v Hd _ IH]; [by apply tc_once, Hone | eapply tc_l; [by apply Hone | done]].
Qed.

Lemma WellFormed_rename : WellFormed (rename_block <$> blocks) <-> WellFormed blocks.
Proof.
  split; intros [Hnd Hrefs Hac].
  - rewrite rename_ids in Hnd. split.
    + by eapply NoDup_fmap_1.
    + intros b r Hb Hr. apply elem_rename_ids; [eapply occurrence_ref; [done|by apply list_elem_of_fmap_2]|].
      rewrite <-rename_ids. assert (f (refToId r) = refToId (rename_ref r)) as -> by (by destruct r).
      apply (Hrefs (rename_block b)); by apply list_elem_of_fmap_2.
    + intros x Htc. apply (Hac (f x)). by apply tc_rename_depends.
  - split.
    + rewrite rename_ids. apply NoDup_map_inj; [|done].
      intros x y Hx Hy. apply Hinj; by apply occurrence_ids.
    + intros b' r' (b & -> & Hb)%list_elem_of_fmap (r & -> & Hr)%list_elem_of_fmap.
      rewrite rename_ids. assert (refToId (rename_ref r) = f (refToId r)) as -> by (by destruct r).
      apply list_elem_of_fmap_2. by eapply Hrefs.
    + intros u (x & y & -> & Heq & Hx & Hy & Htc)%tc_depends_rename. apply Hinj in Heq as ->; [|done|done].
      by apply (Hac y).
Qed.
End Renaming.

(** C30. Resolving short codes does not change the verdict of validation: the
    resolved pipeline is accepted exactly when the uploaded one is. *)
Theorem resolve_preserves_validity uuidv7 p n0 n p' :
  fresh_for uuidv7 p ->
  resolveShortCodes uuidv7 p n0 = (n, Ok p') ->
  validatePipeline p' None = Valid <-> validatePipeline p None = Valid.
Proof.
  intros Hfresh Hrun. apply resolveShortCodes_Ok_walkable in Hrun as Hw.
  rewrite resolveShortCodes_walkable in Hrun by done. injection Hrun as <- <-.
  rewrite !validatePipeline_WellFormed.
  rewrite <-(WellFormed_rename (subst_id (sigma uuidv7 n0 (codes_of p))) (p_blocks p ⁇ [])); [done|].
  intros s t. by apply subst_id_inj.
Qed.

Lemma resolve_preserves_validity_witness :
  exists p', resolveShortCodes uuid_example doc_example 0 = (2, Ok p') /\
    validatePipeline doc_example None = Valid /\ validatePipeline p' None = Valid.
Proof.
  assert (Hrun : resolveShortCodes uuid_example doc_example 0 =
    (2, Ok (subst_pipeline (sigma uuid_example 0 (codes_of doc_example)) doc_example)))
    by (vm_compute; reflexivity).
  assert (Hv : validatePipeline doc_example None = Valid) by (vm_compute; reflexivity).
  eexists. split; [exact Hrun|]. split; [exact Hv|].
  apply (resolve_preserves_validity uuid_example doc_example 0 _ _ doc_example_fresh Hrun).
  exact Hv.
Defined.
