(* ===== verification/Wiring.v ===== *)
(** * Input/output wiring ([web_ui/utils/wiring.ts])

    [resolveConnection] decides which outputs of an upstream block feed which
    inputs of a downstream one; [resolveAndApply] runs it for an edge of the editor
    and writes the result into the editor's store, which it sees through the
    interface [FlowOps]. *)

From S2P Require Export Types Monad.

(** ** The code *)

Inductive ResolveOutcome :=
  | ROk (bindings : list Binding)
  | RAmbiguous (candidates : jsmap (list string))
      (inputDescriptions outputDescriptions : jsmap (option string)) (partial : list Binding)
  | RInvalid (reason : string).

Definition portsCompatible (out inp : PortDecl) : bool :=
  if negb (pt_type out === pt_type inp) then false
  else match pt_type out, pt_item_type out, pt_item_type inp with
       | T_collection, Some o, Some i => o === i
       | _, _, _ => true
       end.

Definition portLabel (p : PortDecl) : string :=
  if otruthy (pt_format p)
  then port_type_name (pt_type p) +:+ ":" +:+ (pt_format p ⁇ "")
  else port_type_name (pt_type p).

Definition pickDescriptions (ports : option (jsmap PortDecl)) : jsmap (option string) :=
  foldl (fun out e => jm_set e.1 (pt_description e.2) out) [] (ports ⁇ []).

(** The variables of [resolveConnection]: the two maps and the array. *)
Record wiring := mkWiring {
  remainingOutputs : jsmap PortDecl;
  remainingInputs : jsmap PortDecl;
  bound : list Binding }.

(** Binding a pair removes both ports from further consideration. *)
Definition bind_pair (b : Binding) (w : wiring) : wiring :=
  mkWiring (jm_delete (bd_output b) (remainingOutputs w))
    (jm_delete (bd_input b) (remainingInputs w)) (bound w ++ [b]).

Definition no_output_reason (output id : string) : string :=
  "Output " +:+ dq +:+ output +:+ dq +:+ " does not exist on " +:+ id +:+ ".".
Definition no_input_reason (input id : string) : string :=
  "Input " +:+ dq +:+ input +:+ dq +:+ " does not exist on " +:+ id +:+ ".".
Definition incompatible_reason (b : Binding) (out inp : PortDecl) : string :=
  "Output " +:+ dq +:+ bd_output b +:+ dq +:+ " (" +:+ portLabel out +:+
  ") is not compatible with input " +:+ dq +:+ bd_input b +:+ dq +:+ " (" +:+ portLabel inp +:+ ").".

(** Step 1: explicit bindings. *)
Fixpoint bind_explicit (upstream downstream : BlockManifest) (explicit : list Binding) (w : wiring)
    : result string wiring :=
  match explicit with
  | [] => Ok w
  | b :: explicit' =>
      match jm_get (bd_output b) (remainingOutputs w), jm_get (bd_input b) (remainingInputs w) with
      | None, _ => Throw (no_output_reason (bd_output b) (mf_id upstream))
      | Some _, None => Throw (no_input_reason (bd_input b) (mf_id downstream))
      | Some out, Some inp =>
          if negb (portsCompatible out inp) then Throw (incompatible_reason b out inp)
          else bind_explicit upstream downstream explicit' (bind_pair b w)
      end
  end.

(** The remaining outputs an input could take. *)
Definition matches (w : wiring) (inp : PortDecl) : list string :=
  fst <$> filter (fun e => portsCompatible e.2 inp = true) (remainingOutputs w).

(** Step 2: one pass over the inputs that were pending when it started. *)
Definition bind_unambiguous (w : wiring) (e : string * PortDecl) : wiring :=
  match matches w e.2 with
  | [outputName] => bind_pair (mkBinding outputName e.1) w
  | _ => w
  end.
Definition bind_pass (w : wiring) : wiring := foldl bind_unambiguous w (remainingInputs w).

(** Step 3: [some] stops at the first input with several matches, so [candidates]
    has no entry for the inputs after it. *)
Fixpoint scan_candidates (w : wiring) (inputs : jsmap PortDecl) (candidates : jsmap (list string))
    : bool * jsmap (list string) :=
  match inputs with
  | [] => (false, candidates)
  | (inputName, inputDecl) :: inputs' =>
      let ms := matches w inputDecl in
      let candidates' := jm_set inputName ms candidates in
      if bool_decide (1 < length ms) then (true, candidates') else scan_candidates w inputs' candidates'
  end.

Definition resolveConnection (upstream downstream : BlockManifest)
    (preExistingExplicit : list Binding) : ResolveOutcome :=
  match bind_explicit upstream downstream preExistingExplicit
          (mkWiring (mf_outputs upstream ⁇ []) (mf_inputs downstream ⁇ []) []) with
  | Throw reason => RInvalid reason
  | Ok w1 =>
      let w := bind_pass w1 in
      match remainingInputs w with
      | [] => ROk (bound w)
      | _ =>
          match scan_candidates w (remainingInputs w) [] with
          | (false, _) => ROk (bound w)
          | (true, candidates) =>
              RAmbiguous candidates (pickDescriptions (mf_inputs downstream))
                (pickDescriptions (mf_outputs upstream)) (bound w)
          end
      end
  end.

(** ** The editor's store, as this module uses it *)

Class FlowOps (F : Type) := {
  getNameById : F -> string -> option string;
  getEdgeData : F -> string -> string -> option EdgeData;
  setEdgeData : F -> string -> string -> EdgeData -> F }.

(** What the resolver relies on: writing the data of an edge that exists makes it
    readable, and changes no other edge's data and no name. *)
Class FlowLaws (F : Type) `{FlowOps F} : Prop := {
  get_set_edge f s t d : is_Some (getEdgeData f s t) -> getEdgeData (setEdgeData f s t d) s t = Some d;
  get_set_edge_ne f s t s' t' d :
    (s, t) <> (s', t') -> getEdgeData (setEdgeData f s t d) s' t' = getEdgeData f s' t';
  set_edge_name f s t d id : getNameById (setEdgeData f s t d) id = getNameById f id }.

Inductive ApplyStatus := Resolved | Ambiguous | InvalidTypes | Unknown.

(** [loadManifest] stands for the block service; [None] is a failed or empty load.
    The names are read from the store as it is when the call starts ([flow]); the
    result is written to the store as it is when the manifests have arrived
    ([later]), which other handlers may have changed meanwhile. *)
Definition resolveAndApply {F} `{FlowOps F} (loadManifest : string -> option BlockManifest)
    (flow later : F) (source target : string) : F * ApplyStatus :=
  match getNameById flow source, getNameById flow target with
  | Some upstreamName, Some downstreamName =>
      if truthy upstreamName && truthy downstreamName then
        match loadManifest upstreamName, loadManifest downstreamName with
        | Some upstream, Some downstream =>
            match resolveConnection upstream downstream [] with
            | RInvalid _ => (later, InvalidTypes)
            | RAmbiguous _ _ _ partial =>
                (setEdgeData later source target (mkEdgeData (Some partial) (Some true)), Ambiguous)
            | ROk bindings =>
                (setEdgeData later source target (mkEdgeData (Some bindings) (Some false)), Resolved)
            end
        | _, _ => (later, Unknown)
        end
      else (later, Unknown)
  | _, _ => (later, Unknown)
  end.

(** [hasUnresolvedEdges] and [listEdgeBindings] read the data of an edge. *)
Definition unresolved (d : option EdgeData) : bool :=
  match d with Some (mkEdgeData _ (Some b)) => b | _ => false end.
Definition hasUnresolvedEdges (edges : list (option EdgeData)) : bool := js_some unresolved edges.
Definition listEdgeBindings (d : option EdgeData) : EdgeBindings :=
  match d with Some (mkEdgeData (Some bs) _) => bs | _ => [] end.

(** ** What a set of bindings must satisfy *)

Definition well_typed_manifest (m : BlockManifest) : Prop :=
  NoDup (jm_keys (mf_inputs m ⁇ [])) /\ NoDup (jm_keys (mf_outputs m ⁇ [])).

(** The pair connects a declared output to a declared input of a compatible type. *)
Definition compatible_pair (outs ins : jsmap PortDecl) (b : Binding) : Prop :=
  exists out inp, jm_get (bd_output b) outs = Some out /\ jm_get (bd_input b) ins = Some inp /\
    portsCompatible out inp = true.

(** Every pair is compatible, and no output or input is used twice. *)
Record sound_bindings (outs ins : jsmap PortDecl) (bs : list Binding) : Prop := {
  sb_compatible : Forall (compatible_pair outs ins) bs;
  sb_outputs : NoDup (bd_output <$> bs);
  sb_inputs : NoDup (bd_input <$> bs) }.

(** The compatible outputs that no binding of [bs] uses. *)
Definition free_outputs (outs : jsmap PortDecl) (bs : list Binding) (inp : PortDecl) : list string :=
  fst <$> filter (fun e => portsCompatible e.2 inp = true)
    (filter (fun e => e.1 ∉ bd_output <$> bs) outs).

(** ** Lemmas on the pass *)

Section Pass.
Context (outs ins : jsmap PortDecl) (Houts : NoDup (jm_keys outs)) (Hins : NoDup (jm_keys ins)).

(** The maps hold exactly the ports no binding uses. *)
Record wiring_inv (w : wiring) : Prop := {
  wi_outputs : remainingOutputs w = filter (fun e => e.1 ∉ bd_output <$> bound w) outs;
  wi_inputs : remainingInputs w = filter (fun e => e.1 ∉ bd_input <$> bound w) ins;
  wi_sound : sound_bindings outs ins (bound w) }.

Lemma wiring_inv_initial : wiring_inv (mkWiring outs ins []).
Proof.
  split; simpl.
  - by rewrite filter_all by (intros; apply not_elem_of_nil).
  - by rewrite filter_all by (intros; apply not_elem_of_nil).
  - split; constructor.
Qed.

Lemma remaining_output w k out :
  wiring_inv w -> jm_get k (remainingOutputs w) = Some out <->
  jm_get k outs = Some out /\ k ∉ bd_output <$> bound w.
Proof.
  intros Hw. rewrite (wi_outputs w Hw). apply (jm_get_filter (fun k => k ∉ bd_output <$> bound w)).
Qed.

Lemma remaining_input w k inp :
  wiring_inv w -> jm_get k (remainingInputs w) = Some inp <->
  jm_get k ins = Some inp /\ k ∉ bd_input <$> bound w.
Proof.
  intros Hw. rewrite (wi_inputs w Hw). apply (jm_get_filter (fun k => k ∉ bd_input <$> bound w)).
Qed.

Lemma matches_free w inp : wiring_inv w -> matches w inp = free_outputs outs (bound w) inp.
Proof. intros Hw. unfold matches, free_outputs. by rewrite (wi_outputs w Hw). Qed.

Lemma filter_snoc_keys {V} (m : jsmap V) (l : list string) k :
  NoDup (jm_keys m) ->
  jm_delete k (filter (fun e => e.1 ∉ l) m) = filter (fun e => e.1 ∉ l ++ [k]) m.
Proof.
  intros Hnd. rewrite jm_delete_filter by auto with spade. rewrite list_filter_filter.
  apply list_filter_iff. intros [k' v]. simpl. set_solver.
Qed.

Lemma wiring_inv_bind b w out inp :
  wiring_inv w -> jm_get (bd_output b) (remainingOutputs w) = Some out ->
  jm_get (bd_input b) (remainingInputs w) = Some inp -> portsCompatible out inp = true ->
  wiring_inv (bind_pair b w).
Proof.
  intros Hw Ho Hi Hc. apply remaining_output in Ho as [Ho Hno]; [|done].
  apply remaining_input in Hi as [Hi Hni]; [|done]. destruct Hw as [Hwo Hwi [Hsc Hso Hsi]].
  split; unfold bind_pair; simpl.
  - rewrite Hwo, fmap_app. by apply filter_snoc_keys.
  - rewrite Hwi, fmap_app. by apply filter_snoc_keys.
  - split.
    + apply Forall_app. split; [done|]. constructor; [|constructor]. by exists out, inp.
    + rewrite fmap_app. apply NoDup_app. split_and!; [done|set_solver|apply NoDup_singleton].
    + rewrite fmap_app. apply NoDup_app. split_and!; [done|set_solver|apply NoDup_singleton].
Qed.

(** Step 1 accepts exactly the explicit bindings that are sound. *)
Lemma bind_explicit_ok up down explicit w :
  wiring_inv w -> sound_bindings outs ins (bound w ++ explicit) ->
  exists w', bind_explicit up down explicit w = Ok w' /\ wiring_inv w' /\ bound w' = bound w ++ explicit.
Proof.
  revert w. induction explicit as [|b explicit IH]; intros w Hw Hs; simpl.
  { exists w. by rewrite app_nil_r. }
  assert (exists out inp, jm_get (bd_output b) (remainingOutputs w) = Some out /\
    jm_get (bd_input b) (remainingInputs w) = Some inp /\ portsCompatible out inp = true)
    as (out & inp & Ho & Hi & Hc).
  { destruct Hs as [Hsc Hso Hsi]. rewrite Forall_app, Forall_cons in Hsc.
    destruct Hsc as (_ & (out & inp & Ho & Hi & Hc) & _).
    rewrite fmap_app, fmap_cons in Hso, Hsi.
    apply NoDup_app in Hso as (_ & Hso & _), Hsi as (_ & Hsi & _).
    exists out, inp. split_and!; [|..|done].
    - apply remaining_output; [done|]. split; [done|]. intros Hin. apply (Hso _ Hin). left.
    - apply remaining_input; [done|]. split; [done|]. intros Hin. apply (Hsi _ Hin). left. }
  rewrite Ho, Hi, Hc. simpl. destruct (IH (bind_pair b w)) as (w' & Hrun & Hw' & Hb).
  - by eapply wiring_inv_bind.
  - simpl. by rewrite <-app_assoc.
  - exists w'. split; [done|]. split; [done|]. rewrite Hb. simpl. by rewrite <-app_assoc.
Qed.

Lemma bind_explicit_inv up down explicit w w' :
  wiring_inv w -> bind_explicit up down explicit w = Ok w' ->
  wiring_inv w' /\ bound w' = bound w ++ explicit.
Proof.
  revert w. induction explicit as [|b explicit IH]; intros w Hw Hrun; simpl in Hrun.
  { simplify_eq. by rewrite app_nil_r. }
  destruct (jm_get (bd_output b) (remainingOutputs w)) as [out|] eqn:Ho; [|done].
  destruct (jm_get (bd_input b) (remainingInputs w)) as [inp|] eqn:Hi; [|done].
  destruct (portsCompatible out inp) eqn:Hc; [|done]. simpl in Hrun.
  apply IH in Hrun as [Hw' Hb]; [|by eapply wiring_inv_bind].
  split; [done|]. rewrite Hb. simpl. by rewrite <-app_assoc.
Qed.

(** Every automatic binding was the only choice for its input when it was made. *)
Definition forced (before auto : list Binding) : Prop :=
  forall l1 b l2, auto = l1 ++ b :: l2 ->
  exists inp, jm_get (bd_input b) ins = Some inp /\
    free_outputs outs (before ++ l1) inp = [bd_output b].

Lemma bind_unambiguous_step w name decl :
  wiring_inv w -> jm_get name (remainingInputs w) = Some decl ->
  let w' := bind_unambiguous w (name, decl) in
  wiring_inv w' /\
  (forall k, k <> name -> jm_get k (remainingInputs w') = jm_get k (remainingInputs w)) /\
  (w' = w \/ exists b, bound w' = bound w ++ [b] /\ jm_get (bd_input b) ins = Some decl /\
    free_outputs outs (bound w) decl = [bd_output b]).
Proof.
  intros Hw Hin. simpl. unfold bind_unambiguous. simpl.
  destruct (matches w decl) as [|o [|]] eqn:Hm; [by auto| |by auto].
  assert (o ∈ matches w decl) as Ho by (rewrite Hm; left).
  apply list_elem_of_fmap in Ho as ([o' out] & -> & [Hc Hel]%list_elem_of_filter). simpl in *.
  assert (jm_get o' (remainingOutputs w) = Some out) as Hget.
  { apply elem_jm_get; [|done]. rewrite (wi_outputs w Hw). auto with spade. }
  split; [by eapply wiring_inv_bind|]. split.
  - intros k Hk. by apply jm_get_delete_ne.
  - right. eexists. split; [done|]. simpl.
    split; [by apply remaining_input in Hin as [? _]|]. by rewrite <-matches_free.
Qed.

Lemma bind_fold w l :
  wiring_inv w -> NoDup (jm_keys l) ->
  (forall e, e ∈ l -> jm_get e.1 (remainingInputs w) = Some e.2) ->
  exists auto, wiring_inv (foldl bind_unambiguous w l) /\
    bound (foldl bind_unambiguous w l) = bound w ++ auto /\ forced (bound w) auto.
Proof.
  revert w. induction l as [|[name decl] l IH]; intros w Hw Hnd Hl.
  { exists []. split; [done|]. split; [by rewrite app_nil_r|]. by intros [|b0 l1] b l2 ?. }
  apply NoDup_fmap_cons_inv in Hnd as [Hname Hnd]. simpl in Hname. simpl foldl.
  destruct (bind_unambiguous_step w name decl) as (Hw' & Hkeep & Hstep); [done|by apply (Hl (name, decl)); left|].
  destruct (IH (bind_unambiguous w (name, decl))) as (auto & Hinv & Hb & Hforced); [done|done| |].
  { intros e He. rewrite Hkeep.
    - apply Hl. by right.
    - intros <-. apply Hname. by apply list_elem_of_fmap_2. }
  destruct Hstep as [Heq|(b & Hbd & Hdecl & Hfree)].
  { rewrite Heq in *. eauto. }
  exists (b :: auto). split; [done|]. rewrite Hb, Hbd, <-app_assoc. split; [done|].
  intros [|b' l1] b0 l2 Heq; simplify_eq/=.
  - exists decl. by rewrite app_nil_r.
  - destruct (Hforced l1 b0 l2) as (inp & ? & Hf); [done|]. exists inp. split; [done|].
    rewrite Hbd, <-app_assoc in Hf. done.
Qed.

Lemma bind_pass_correct w :
  wiring_inv w ->
  exists auto, wiring_inv (bind_pass w) /\ bound (bind_pass w) = bound w ++ auto /\ forced (bound w) auto.
Proof.
  intros Hw. apply bind_fold; [done| |].
  - rewrite (wi_inputs w Hw). auto with spade.
  - intros e He. apply elem_jm_get; [|by destruct e].
    rewrite (wi_inputs w Hw). auto with spade.
Qed.
End Pass.

(** ** Lemmas on the candidates *)

Definition candidate_entry (w : wiring) (e : string * PortDecl) : string * list string :=
  (e.1, matches w e.2).

Lemma scan_candidates_spec w l acc :
  NoDup (jm_keys (acc ++ (candidate_entry w <$> l))) ->
  match scan_candidates w l acc with
  | (false, _) => Forall (fun e => length (matches w e.2) <= 1) l
  | (true, candidates) => exists pre e post, l = pre ++ e :: post /\
      Forall (fun e => length (matches w e.2) <= 1) pre /\ 1 < length (matches w e.2) /\
      candidates = acc ++ (candidate_entry w <$> pre ++ [e])
  end.
Proof.
  revert acc. induction l as [|[name decl] l IH]; intros acc Hnd; simpl; [constructor|].
  rewrite jm_set_snoc.
  2:{ unfold jm_keys in *. rewrite fmap_app, fmap_cons in Hnd. apply NoDup_app in Hnd as (_ & Hnd & _).
      intros Hin. apply (Hnd name Hin). left. }
  case_bool_decide as Hlen.
  - exists [], (name, decl), l. split_and!; [done|constructor|done|done].
  - specialize (IH (acc ++ [(name, matches w decl)])). rewrite <-app_assoc in IH. specialize (IH Hnd).
    destruct (scan_candidates _ _ _) as [[|] cands].
    + destruct IH as (pre & e & post & -> & Hpre & He & ->). exists ((name, decl) :: pre), e, post.
      split_and!; [done| |done|by rewrite <-app_assoc]. constructor; [simpl; lia | done].
    + constructor; [simpl; lia | done].
Qed.

Lemma keys_candidate_entry w l : jm_keys (candidate_entry w <$> l) = jm_keys l.
Proof. unfold jm_keys. rewrite <-list_fmap_compose. by apply list_fmap_ext. Qed.

(** The state in which step 3 runs. *)
Lemma resolveConnection_run up down explicit :
  well_typed_manifest up -> well_typed_manifest down ->
  let outs := mf_outputs up ⁇ [] in
  let ins := mf_inputs down ⁇ [] in
  (exists reason, resolveConnection up down explicit = RInvalid reason /\
     ~ sound_bindings outs ins explicit) \/
  exists w auto, wiring_inv outs ins w /\ bound w = explicit ++ auto /\ forced outs ins explicit auto /\
    resolveConnection up down explicit =
      match scan_candidates w (remainingInputs w) [] with
      | (false, _) => ROk (bound w)
      | (true, candidates) =>
          RAmbiguous candidates (pickDescriptions (mf_inputs down)) (pickDescriptions (mf_outputs up))
            (bound w)
      end.
Proof.
  intros [_ Houts] [Hins _] outs ins. unfold resolveConnection. fold outs ins.
  pose proof (wiring_inv_initial outs ins) as Hw0.
  destruct (bind_explicit up down explicit _) as [w1|reason] eqn:Hrun.
  - right. apply (bind_explicit_inv outs ins Houts Hins) in Hrun as [Hw1 Hb1]; [|done].
    destruct (bind_pass_correct outs ins Houts Hins w1 Hw1) as (auto & Hw & Hb & Hf).
    exists (bind_pass w1), auto. simpl in Hb1. rewrite Hb1 in Hb, Hf. split_and!; [done|done|done|].
    by destruct (remainingInputs (bind_pass w1)).
  - left. exists reason. split; [done|]. intros Hs.
    destruct (bind_explicit_ok outs ins Houts Hins up down explicit _ Hw0 Hs) as (w' & Hrun' & _).
    congruence.
Qed.

(** ** Theorems *)

(** The outcome's bindings, shared by the theorems below. *)
Lemma resolveConnection_bindings up down explicit :
  well_typed_manifest up -> well_typed_manifest down ->
  let outs := mf_outputs up ⁇ [] in
  let ins := mf_inputs down ⁇ [] in
  match resolveConnection up down explicit with
  | RInvalid _ => ~ sound_bindings outs ins explicit
  | ROk bs | RAmbiguous _ _ _ bs =>
      sound_bindings outs ins bs /\ exists auto, bs = explicit ++ auto /\ forced outs ins explicit auto
  end.
Proof.
  intros Hup Hdown outs ins.
  destruct (resolveConnection_run up down explicit Hup Hdown) as [(reason & -> & Hs)|Hw]; [done|].
  destruct Hw as (w & auto & Hinv & Hb & Hf & ->).
  destruct (scan_candidates _ _ _) as [[|] cands]; (split; [by apply wi_sound | eauto]).
Qed.

(** C32. Whatever [resolveConnection] proposes is sound: the bindings of an [ok]
    outcome and the partial ones of an [ambiguous] outcome pair declared, type
    compatible ports, use no output and no input twice, start with the explicit
    bindings, and every further binding was the only compatible output left for
    its input when it was made.  The outcome is [invalid] exactly when the
    explicit bindings themselves are not sound. *)
Theorem resolveConnection_sound up down explicit :
  well_typed_manifest up -> well_typed_manifest down ->
  let outs := mf_outputs up ⁇ [] in
  let ins := mf_inputs down ⁇ [] in
  match resolveConnection up down explicit with
  | RInvalid _ => ~ sound_bindings outs ins explicit
  | ROk bs | RAmbiguous _ _ _ bs =>
      sound_bindings outs ins bs /\ exists auto, bs = explicit ++ auto /\ forced outs ins explicit auto
  end.
Proof. apply resolveConnection_bindings. Qed.

(** When the user is asked: [ambiguous] means that some input left unbound has
    at least two compatible outputs left, and [candidates] lists the unbound inputs
    up to and including the first such one, each with all its free compatible
    outputs; [ok] means that no unbound input has more than one. *)
Theorem resolveConnection_verdict up down explicit :
  well_typed_manifest up -> well_typed_manifest down ->
  let outs := mf_outputs up ⁇ [] in
  let ins := mf_inputs down ⁇ [] in
  match resolveConnection up down explicit with
  | ROk bs =>
      forall name decl, (name, decl) ∈ ins -> name ∉ bd_input <$> bs ->
      length (free_outputs outs bs decl) <= 1
  | RAmbiguous candidates _ _ bs =>
      exists pre e post, filter (fun e => e.1 ∉ bd_input <$> bs) ins = pre ++ e :: post /\
        Forall (fun e => length (free_outputs outs bs e.2) <= 1) pre /\
        1 < length (free_outputs outs bs e.2) /\
        candidates = (fun e => (e.1, free_outputs outs bs e.2)) <$> pre ++ [e]
  | RInvalid _ => True
  end.
Proof.
  intros Hup Hdown outs ins.
  destruct (resolveConnection_run up down explicit Hup Hdown) as [(reason & -> & Hs)|Hw]; [done|].
  destruct Hw as (w & auto & Hinv & Hb & Hf & ->). fold outs ins in Hinv.
  assert (forall e, matches w e = free_outputs outs (bound w) e) as Hm
    by (intros; by eapply matches_free).
  pose proof (scan_candidates_spec w (remainingInputs w) []) as Hscan.
  assert (NoDup (jm_keys ([] ++ (candidate_entry w <$> remainingInputs w)))) as Hnd.
  { simpl. rewrite keys_candidate_entry, (wi_inputs _ _ w Hinv). apply NoDup_filter_keys, Hdown. }
  specialize (Hscan Hnd). destruct (scan_candidates _ _ _) as [[|] cands].
  - destruct Hscan as (pre & e & post & Heq & Hpre & He & ->). exists pre, e, post.
    rewrite <-(wi_inputs _ _ w Hinv). split; [done|]. split; [|split].
    + eapply Forall_impl; [exact Hpre|]. intros x. simpl. by rewrite Hm.
    + by rewrite <-Hm.
    + simpl. apply list_fmap_ext. intros i x _. unfold candidate_entry. by rewrite Hm.
  - intros name decl Hin Hnot. rewrite <-Hm. rewrite Forall_forall in Hscan.
    apply (Hscan (name, decl)). rewrite (wi_inputs _ _ w Hinv). by apply list_elem_of_filter.
Qed.

(** With no explicit binding the outcome is never [invalid]. *)
Lemma resolveConnection_nil_not_invalid up down reason :
  well_typed_manifest up -> well_typed_manifest down ->
  resolveConnection up down [] <> RInvalid reason.
Proof.
  intros Hup Hdown Heq. pose proof (resolveConnection_bindings up down [] Hup Hdown) as H.
  rewrite Heq in H. apply H. split; constructor.
Qed.

(** ** Order of the inputs *)

Definition port (t : PortType) (item : option PortType) : PortDecl := mkPort t None None item.
Definition up_example : BlockManifest :=
  mkManifest "u" "1.0" Standard false None None None
    (Some [("a", port T_collection (Some T_file)); ("b", port T_collection (Some T_json))]).
Definition down_example (ins : jsmap PortDecl) : BlockManifest :=
  mkManifest "d" "1.0" Standard false None None (Some ins) None.
Definition ins_any_first : jsmap PortDecl :=
  [("x", port T_collection None); ("y", port T_collection (Some T_file))].
Definition ins_any_last : jsmap PortDecl :=
  [("y", port T_collection (Some T_file)); ("x", port T_collection None)].

(** The pass over the inputs runs once: an input skipped because it had two
    candidates is not looked at again when another input takes one of them.  For
    two manifests that declare the same inputs in different orders, one result
    binds both inputs; the other is also [ok] but leaves an input unbound that
    has exactly one compatible output left. *)
Theorem resolveConnection_order_dependent :
  exists up ins ins' bs bs' name decl,
    ins ≡ₚ ins' /\
    resolveConnection up (down_example ins) [] = ROk bs /\
    resolveConnection up (down_example ins') [] = ROk bs' /\
    (forall k, k ∈ jm_keys ins' -> k ∈ bd_input <$> bs') /\
    (name, decl) ∈ ins /\ name ∉ bd_input <$> bs /\
    length (free_outputs (mf_outputs up ⁇ []) bs decl) = 1.
Proof.
  exists up_example, ins_any_first, ins_any_last, [mkBinding "a" "y"],
    [mkBinding "a" "y"; mkBinding "b" "x"], "x", (port T_collection None).
  split; [apply Permutation_swap|]. split; [reflexivity|]. split; [reflexivity|].
  split; [|split; [left|split; [|reflexivity]]].
  - intros k. simpl. rewrite !elem_of_cons. tauto.
  - simpl. rewrite list_elem_of_singleton. discriminate.
Qed.

Lemma up_example_typed : well_typed_manifest up_example.
Proof.
  split; [constructor|]. refine (bool_decide_unpack _ _). vm_compute. exact I.
Qed.

Lemma down_example_typed : well_typed_manifest (down_example ins_any_last).
Proof.
  split; [|constructor]. refine (bool_decide_unpack _ _). vm_compute. exact I.
Qed.

Lemma resolveConnection_sound_witness :
  resolveConnection up_example (down_example ins_any_last) [mkBinding "b" "x"] =
    ROk [mkBinding "b" "x"; mkBinding "a" "y"] /\
  sound_bindings (mf_outputs up_example ⁇ []) ins_any_last [mkBinding "b" "x"; mkBinding "a" "y"].
Proof.
  assert (H : resolveConnection up_example (down_example ins_any_last) [mkBinding "b" "x"] =
    ROk [mkBinding "b" "x"; mkBinding "a" "y"]) by (vm_compute; reflexivity).
  split; [exact H|].
  pose proof (resolveConnection_sound up_example (down_example ins_any_last) [mkBinding "b" "x"]
    up_example_typed down_example_typed) as Hs.
  cbv zeta in Hs. rewrite H in Hs. exact (proj1 Hs).
Defined.

(** Two inputs that both accept two outputs: only the first is offered. *)
Definition ins_two_any : jsmap PortDecl :=
  [("x", port T_collection None); ("z", port T_collection None)].

Lemma down_two_any_typed : well_typed_manifest (down_example ins_two_any).
Proof.
  split; [|constructor]. refine (bool_decide_unpack _ _). vm_compute. exact I.
Qed.

Lemma resolveConnection_verdict_witness :
  exists candidates ds ds',
    resolveConnection up_example (down_example ins_two_any) [] = RAmbiguous candidates ds ds' [] /\
    candidates = [("x", ["a"; "b"])] /\
    exists pre e post, ins_two_any = pre ++ e :: post /\
      candidates = (fun e => (e.1, free_outputs (mf_outputs up_example ⁇ []) [] e.2)) <$> pre ++ [e].
Proof.
  pose proof (resolveConnection_verdict up_example (down_example ins_two_any) []
    up_example_typed down_two_any_typed) as Hv.
  cbv zeta in Hv.
  destruct (resolveConnection up_example (down_example ins_two_any) []) as [|cands ds ds' bs|] eqn:E;
    [vm_compute in E; discriminate | | vm_compute in E; discriminate].
  exists cands, ds, ds'. assert (bs = [] /\ cands = [("x", ["a"; "b"])]) as [-> Hc]
    by (vm_compute in E; injection E as <- <- <- <-; split; reflexivity).
  split; [reflexivity|]. split; [exact Hc|].
  destruct Hv as (pre & e & post & Hpre & _ & _ & Hcands). exists pre, e, post.
  split; [|exact Hcands]. rewrite <-Hpre. vm_compute. reflexivity.
Defined.

(** ** The editor glue *)

Section Apply.
Context `{FlowLaws F}.

(** [resolveAndApply] never reports incompatible types, since it passes no
    explicit binding; [Unknown] leaves the store alone; the other two statuses
    write sound bindings to the edge, marked unresolved exactly when the status
    is [Ambiguous]; no other edge and no name changes. *)
Theorem resolveAndApply_correct load (flow later flow' : F) source target status :
  (forall name m, load name = Some m -> well_typed_manifest m) ->
  is_Some (getEdgeData later source target) ->
  resolveAndApply load flow later source target = (flow', status) ->
  status <> InvalidTypes /\
  (status = Unknown -> flow' = later) /\
  (status <> Unknown -> exists upName downName up down bs,
     getNameById flow source = Some upName /\ getNameById flow target = Some downName /\
     load upName = Some up /\ load downName = Some down /\
     getEdgeData flow' source target = Some (mkEdgeData (Some bs) (Some (if status is Ambiguous then true else false))) /\
     sound_bindings (mf_outputs up ⁇ []) (mf_inputs down ⁇ []) bs) /\
  (forall s t, (source, target) <> (s, t) -> getEdgeData flow' s t = getEdgeData later s t) /\
  (forall id, getNameById flow' id = getNameById later id).
Proof.
  intros Hload Hedge. unfold resolveAndApply.
  destruct (getNameById flow source) as [un|]; [|naive_solver].
  destruct (getNameById flow target) as [dn|]; [|naive_solver].
  destruct (truthy un && truthy dn); [|naive_solver].
  destruct (load un) as [up|] eqn:Hup; [|naive_solver].
  destruct (load dn) as [down|] eqn:Hdown; [|naive_solver].
  pose proof (resolveConnection_bindings up down [] (Hload _ _ Hup) (Hload _ _ Hdown)) as Hs.
  pose proof (resolveConnection_nil_not_invalid up down) as Hni.
  destruct (resolveConnection up down []) as [bs|cands ds ds' bs|reason];
    [| |by destruct (Hni reason (Hload _ _ Hup) (Hload _ _ Hdown))].
  all: intros Heq; simplify_eq; destruct Hs as [Hs _]; split; [done|]; split; [done|]; split; [|split].
  all: try (intros; by apply set_edge_name).
  all: try (intros; by apply get_set_edge_ne).
  all: intros _; exists un, dn, up, down, bs; split_and!; try done; by apply get_set_edge.
Qed.
End Apply.
