(* ===== verification/Flow.v ===== *)
(** * The editor's store ([web_ui/composables/useFlow.ts])

    The store's refs are the fields of [FlowState]; each function of the store is a
    function on it.  [v7()] and [Math.random()] are arguments where the code calls
    them, and package [yaml] is the parameter [parse].  Coordinates are rationals. *)

From S2P Require Export Wiring Validate.
From Stdlib Require Import QArith.
Open Scope js_scope.
Open Scope nat_scope.

(** ** State *)

Record NodeData := mkNodeData {
  nd_label : option string;
  nd_name : option string;
  nd_args : option ArgKeyValueStore }.

Record Node := mkNode {
  n_id : string;
  n_type : string;
  n_position : Q * Q;
  n_data : option NodeData }.

Record Edge := mkEdge {
  e_id : string;
  e_source : string;
  e_target : string;
  e_data : option EdgeData }.

Record Meta := mkMeta { meta_name : string; meta_version : string; meta_description : option string }.

Record FlowState := mkFlow { nodes : list Node; edges : list Edge; pipelineMeta : Meta }.

Definition initial_flow : FlowState := mkFlow [] [] (mkMeta "untitled-pipeline" "0.1.0" None).

(** ** Operations *)

Definition clear (st : FlowState) : FlowState := mkFlow [] [] (pipelineMeta st).

(** The properties a partial [meta] has; one it lacks is [None]. *)
Record PartialMeta := mkPartialMeta {
  pm_name : option string; pm_version : option string; pm_description : option (option string) }.

Definition setMeta (meta : PartialMeta) (st : FlowState) : FlowState :=
  let old := pipelineMeta st in
  mkFlow (nodes st) (edges st)
    (mkMeta (pm_name meta ⁇ meta_name old) (pm_version meta ⁇ meta_version old)
       (pm_description meta ⁇ meta_description old)).

Record NodeOpts := mkNodeOpts {
  o_name : string; o_label : string; o_args : option ArgKeyValueStore;
  o_x : option Q; o_y : option Q; o_id : option string }.

(** [rx] and [ry] are what the two calls of [Math.random] give, when they happen. *)
Definition addNode (v7 : string) (rx ry : Q) (opts : NodeOpts) (st : FlowState) : FlowState * string :=
  let id := o_id opts ⁇ v7 in
  (mkFlow
     (nodes st ++
        [mkNode id "block"
           (o_x opts ⁇ (rx * 400)%Q, o_y opts ⁇ (100 + ry * 400)%Q)
           (Some (mkNodeData (Some (o_label opts)) (Some (o_name opts)) (Some (o_args opts ⁇ []))))])
     (edges st) (pipelineMeta st), id).

Definition removeNode (id : string) (st : FlowState) : FlowState :=
  mkFlow (js_filter (fun n => negb (n_id n === id)) (nodes st))
    (js_filter (fun e => negb (e_source e === id) && negb (e_target e === id)) (edges st))
    (pipelineMeta st).

Definition updateNode (id label name : string) (args : ArgKeyValueStore) (st : FlowState)
    : FlowState * bool :=
  match findIndex (fun n => n_id n === id) (nodes st) with
  | None => (st, false)
  | Some idx =>
      (mkFlow
         (alter (fun n => mkNode (n_id n) (n_type n) (n_position n)
                   (Some (mkNodeData (Some label) (Some name) (Some args)))) idx (nodes st))
         (edges st) (pipelineMeta st), true)
  end.

Definition findNode (st : FlowState) (id : string) : option Node :=
  js_find (fun n => n_id n === id) (nodes st).

Definition getArgsById (st : FlowState) (id : string) : option ArgKeyValueStore :=
  (findNode st id ≫= n_data) ≫= nd_args.

Definition nameById (st : FlowState) (id : string) : option string :=
  (findNode st id ≫= n_data) ≫= nd_name.

Definition edge_id (source target : string) : string := source +:+ "->" +:+ target.

Definition connect (source target : string) (st : FlowState) : FlowState :=
  let id := edge_id source target in
  if js_some (fun e => e_id e === id) (edges st) then st
  else mkFlow (nodes st)
         (edges st ++ [mkEdge id source target (Some (mkEdgeData None (Some false)))])
         (pipelineMeta st).

Definition disconnect (source target : string) (st : FlowState) : FlowState :=
  let id := edge_id source target in
  mkFlow (nodes st) (js_filter (fun e => negb (e_id e === id)) (edges st)) (pipelineMeta st).

Definition is_edge (source target : string) (e : Edge) : bool :=
  (e_source e === source) && (e_target e === target).

Definition with_data (data : EdgeData) (e : Edge) : Edge :=
  mkEdge (e_id e) (e_source e) (e_target e) (Some data).

Definition writeEdgeData (source target : string) (data : EdgeData) (st : FlowState) : FlowState :=
  match findIndex (is_edge source target) (edges st) with
  | None => st
  | Some idx => mkFlow (nodes st) (alter (with_data data) idx (edges st)) (pipelineMeta st)
  end.

Definition edgeData (st : FlowState) (source target : string) : option EdgeData :=
  js_find (is_edge source target) (edges st) ≫= e_data.

(** *** Import *)

Definition blockNode (i : nat) (b : Block) : Node :=
  mkNode (b_id b) "block"
    (inject_Z (80 + Z.of_nat (i `mod` 4) * 240), inject_Z (80 + Z.of_nat (i `div` 4) * 160))
    (Some (mkNodeData (Some (b_name b)) (Some (b_name b)) (Some (b_args b ⁇ [])))).

(** The references of one block: the set [bare] and the map [grouped]. *)
Definition group_ref (acc : list string * jsmap EdgeBindings) (r : InputRef)
    : list string * jsmap EdgeBindings :=
  match r with
  | Bare id => (js_add id acc.1, acc.2)
  | Explicit block output =>
      (acc.1, jm_set block ((jm_get block acc.2 ⁇ []) ++ [mkBinding output ""]) acc.2)
  end.

Definition group_refs (b : Block) : list string * jsmap EdgeBindings :=
  foldl group_ref ([], []) (b_inputs b ⁇ []).

Definition connectBlock (st : FlowState) (b : Block) : FlowState :=
  let '(bare, grouped) := group_refs b in
  let st1 := foldl (fun st upstream => connect upstream (b_id b) st) st bare in
  foldl (fun st e =>
           writeEdgeData e.1 (b_id b) (mkEdgeData (Some e.2) (Some false))
             (connect e.1 (b_id b) st)) st1 grouped.

Definition missing_blocks : string :=
  "Pipeline YAML must contain a `blocks` array.".

(** Replacing the editor's state by a parsed pipeline. *)
Definition importPipeline (pipe : Pipeline) (blocks : list Block) (st : FlowState) : FlowState :=
  let st1 := clear st in
  let st2 := mkFlow (nodes st1 ++ imap blockNode blocks) (edges st1)
    (mkMeta (p_name pipe ⁇ "untitled-pipeline") (p_version pipe ⁇ "0.1.0") (p_description pipe)) in
  foldl connectBlock st2 blocks.

(** [parse] throws, gives [null] or an empty value, or gives a document, whose
    [p_blocks] is [None] when [blocks] is not an array. *)
Definition yamlToNodes (parse : string -> result string (option Pipeline)) (pipelineYaml : string)
    : M FlowState string unit :=
  match parse pipelineYaml with
  | Throw e => throw e
  | Ok None => throw missing_blocks
  | Ok (Some pipe) =>
      match p_blocks pipe with
      | None => throw missing_blocks
      | Some blocks => modify (importPipeline pipe blocks)
      end
  end.

(** *** Export *)

Definition nodeBlock (n : Node) : Block :=
  mkBlock (n_id n)
    (match n_data n ≫= nd_name with Some s => s | None => (n_data n ≫= nd_label) ⁇ "" end)
    (Some []) (Some ((n_data n ≫= nd_args) ⁇ [])).

Definition push_inputs (refs : list InputRef) (b : Block) : Block :=
  mkBlock (b_id b) (b_name b) (Some ((b_inputs b ⁇ []) ++ refs)) (b_args b).

(** The references an edge stands for. *)
Definition edge_refs (e : Edge) : list InputRef :=
  match e_data e ≫= ed_bindings with
  | Some (b :: bs) => (fun b => Explicit (e_source e) (bd_output b)) <$> b :: bs
  | _ => [Bare (e_source e)]
  end.

(** [byId] maps an id to the block object in [blocks] (its index there), so
    pushing to what it holds updates the exported array. *)
Definition byId (blocks : list Block) : jsmap nat := jm_of_entries (imap (fun i b => (b_id b, i)) blocks).

Definition pushEdge (ids : jsmap nat) (blocks : list Block) (e : Edge) : list Block :=
  match jm_get (e_target e) ids with
  | None => blocks
  | Some i => alter (push_inputs (edge_refs e)) i blocks
  end.

Definition exportPipelineObject (v7 : string) (st : FlowState) : Pipeline :=
  let blocks := nodeBlock <$> nodes st in
  let meta := pipelineMeta st in
  mkPipeline (Some v7) (Some (meta_name meta)) (Some (meta_version meta)) (meta_description meta)
    (Some (foldl (pushEdge (byId blocks)) blocks (edges st))).

(** ** The store implements the interface of the wiring *)

#[export] Instance flow_ops : FlowOps FlowState := {
  getNameById := nameById; getEdgeData := edgeData;
  setEdgeData := fun st source target data => writeEdgeData source target data st }.

Lemma is_edge_true s t e : is_edge s t e = true <-> e_source e = s /\ e_target e = t.
Proof. unfold is_edge. rewrite andb_true_iff, !bool_decide_eq_true. done. Qed.

Lemma is_edge_with_data s t d e : is_edge s t (with_data d e) = is_edge s t e.
Proof. done. Qed.

(** Writing to the first element that satisfies [p], seen by a search for [q]. *)
Lemma js_find_alter_eq {A} (p : A -> bool) (g : A -> A) l i :
  (forall x, p (g x) = p x) -> findIndex p l = Some i ->
  js_find p (alter g i l) = g <$> js_find p l.
Proof.
  intros Hg. revert i. induction l as [|x l IH]; intros i Hi; simpl in *; [done|].
  destruct (p x) eqn:Hx; simplify_eq/=; [by rewrite Hg, Hx|].
  destruct (findIndex p l) as [j|]; simplify_eq/=. rewrite Hx. by apply IH.
Qed.

Lemma js_find_alter_ne {A} (p q : A -> bool) (g : A -> A) l i :
  (forall x, q (g x) = q x) -> (forall x, p x = true -> q x = false) -> findIndex p l = Some i ->
  js_find q (alter g i l) = js_find q l.
Proof.
  intros Hg Hpq. revert i. induction l as [|x l IH]; intros i Hi; simpl in *; [done|].
  destruct (p x) eqn:Hx; simplify_eq/=; [by rewrite Hg, (Hpq x Hx)|].
  destruct (findIndex p l) as [j|]; simplify_eq/=. by rewrite IH.
Qed.

Lemma findIndex_None {A} (p : A -> bool) l : findIndex p l = None <-> js_find p l = None.
Proof.
  induction l as [|x l IH]; simpl; [done|]. destruct (p x); [done|].
  rewrite fmap_None. exact IH.
Qed.

#[export] Instance flow_laws : FlowLaws FlowState.
Proof.
  split; simpl.
  - intros st s t d. unfold edgeData, writeEdgeData.
    destruct (findIndex (is_edge s t) (edges st)) as [i|] eqn:Hi; simpl.
    + intros _. rewrite (js_find_alter_eq _ _ _ i); [|done|done].
      destruct (js_find (is_edge s t) (edges st)) eqn:Hf; [done|].
      apply findIndex_None in Hf. congruence.
    + apply findIndex_None in Hi. rewrite Hi. by intros [? ?].
  - intros st s t s' t' d Hne. unfold edgeData, writeEdgeData.
    destruct (findIndex (is_edge s t) (edges st)) as [i|] eqn:Hi; simpl; [|done].
    rewrite (js_find_alter_ne (is_edge s t) _ _ _ i); [done|done| |done].
    intros e [??]%is_edge_true. apply not_true_iff_false. intros [??]%is_edge_true. naive_solver.
  - intros st s t d id. unfold nameById, findNode, writeEdgeData.
    by destruct (findIndex _ _).
Qed.

(** ** Consistency of the editor state *)

(** The node ids an edge may use. *)
Definition node_ids (st : FlowState) : list string := n_id <$> nodes st.

Record consistent (st : FlowState) : Prop := {
  cs_nodes : NoDup (node_ids st);
  cs_edges : NoDup (e_id <$> edges st);
  cs_edge_ids : Forall (fun e => e_id e = edge_id (e_source e) (e_target e)) (edges st);
  cs_ends : Forall (fun e => e_source e ∈ node_ids st /\ e_target e ∈ node_ids st) (edges st) }.

(** Edits that keep the state consistent: a picked block gets an id no node has, a drag
    connects two nodes of the graph, an imported document passes validation (the import
    dialog does not ask for that; what any import keeps is [edges_ok] below). *)
Inductive edit : FlowState -> FlowState -> Prop :=
  | edit_clear st : edit st (clear st)
  | edit_meta st meta : edit st (setMeta meta st)
  | edit_add st v7 rx ry opts :
      o_id opts ⁇ v7 ∉ node_ids st -> edit st (addNode v7 rx ry opts st).1
  | edit_remove st id : edit st (removeNode id st)
  | edit_update st id label name args : edit st (updateNode id label name args st).1
  | edit_connect st s t : s ∈ node_ids st -> t ∈ node_ids st -> edit st (connect s t st)
  | edit_disconnect st s t : edit st (disconnect s t st)
  | edit_data st s t data : edit st (writeEdgeData s t data st)
  | edit_import st st' parse yaml :
      (forall pipe, parse yaml = Ok (Some pipe) -> validatePipeline pipe None = Valid) ->
      yamlToNodes parse yaml st = (st', Ok tt) -> edit st st'.

Lemma consistent_initial : consistent initial_flow.
Proof. split; constructor. Qed.

Lemma consistent_incl st ns es m :
  consistent st -> n_id <$> ns = node_ids st ->
  es = edges st \/ (exists p, es = js_filter p (edges st)) ->
  consistent (mkFlow ns es m).
Proof.
  intros [H1 H2 H3 H4] Hns Hes. unfold node_ids in *.
  assert (Hsub : es `sublist_of` edges st).
  { destruct Hes as [->|[p ->]]; [done | apply sublist_filter]. }
  split; unfold node_ids; simpl; rewrite ?Hns; [done| | |].
  - eapply sublist_NoDup; [exact H2 | by apply fmap_sublist].
  - eapply Forall_sublist; [exact Hsub | done].
  - eapply Forall_sublist; [exact Hsub | done].
Qed.

Lemma consistent_connect st s t :
  consistent st -> s ∈ node_ids st -> t ∈ node_ids st -> consistent (connect s t st).
Proof.
  intros [H1 H2 H3 H4] Hs Ht. unfold connect. destruct (js_some _ _) eqn:E; [done|].
  rewrite js_some_false in E. split; simpl; [done| | |].
  - rewrite fmap_app. apply NoDup_app. split_and!; [done| |apply NoDup_singleton].
    intros id (e & -> & He)%list_elem_of_fmap Hid%list_elem_of_singleton.
    specialize (E e He). bool_prop. done.
  - apply Forall_app. split; [done|]. by constructor.
  - apply Forall_app. split; [done|]. by constructor.
Qed.

(** Writing the data of an edge keeps every edge's identity and ends. *)
Lemma edges_writeEdgeData {B} (f : Edge -> B) s t d st :
  (forall e, f (with_data d e) = f e) -> f <$> edges (writeEdgeData s t d st) = f <$> edges st.
Proof.
  intros Hf. unfold writeEdgeData. destruct (findIndex _ _) as [i|]; [|done]. simpl.
  apply list_eq. intros j. rewrite !list_lookup_fmap.
  destruct (decide (i = j)) as [->|Hne].
  - rewrite list_lookup_alter_eq. destruct (edges st !! j) as [e|]; [|done]. simpl. by rewrite Hf.
  - by rewrite list_lookup_alter_ne.
Qed.

Lemma Forall_edges_write (P : Edge -> Prop) s t d st :
  (forall e, P e -> P (with_data d e)) -> Forall P (edges st) -> Forall P (edges (writeEdgeData s t d st)).
Proof.
  intros HP Hall. unfold writeEdgeData. destruct (findIndex _ _) as [i|]; [|done]. simpl.
  apply Forall_alter; [done|]. auto.
Qed.

Lemma node_ids_write s t d st : node_ids (writeEdgeData s t d st) = node_ids st.
Proof. unfold writeEdgeData. by destruct (findIndex _ _). Qed.

Lemma node_ids_connect s t st : node_ids (connect s t st) = node_ids st.
Proof. unfold connect. by destruct (js_some _ _). Qed.

Lemma consistent_write s t d st : consistent st -> consistent (writeEdgeData s t d st).
Proof.
  intros [H1 H2 H3 H4]. split.
  - by rewrite node_ids_write.
  - by rewrite edges_writeEdgeData.
  - by apply Forall_edges_write.
  - rewrite node_ids_write. by apply Forall_edges_write.
Qed.

Lemma node_ids_connectBlock st b : node_ids (connectBlock st b) = node_ids st.
Proof.
  unfold connectBlock. destruct (group_refs b) as [bare grouped].
  transitivity (node_ids (foldl (fun st upstream => connect upstream (b_id b) st) st bare)).
  - generalize (foldl (fun st upstream => connect upstream (b_id b) st) st bare) as st1.
    induction grouped as [|e l IH]; intros st1; simpl; [done|].
    by rewrite IH, node_ids_write, node_ids_connect.
  - revert st. induction bare as [|u l IH]; intros st; simpl; [done|].
    by rewrite IH, node_ids_connect.
Qed.

(** The upstreams a block's references are grouped under. *)
Lemma group_refs_fold l acc u :
  (u ∈ (foldl group_ref acc l).1 <-> u ∈ acc.1 \/ Bare u ∈ l) /\
  (u ∈ jm_keys (foldl group_ref acc l).2 <-> u ∈ jm_keys acc.2 \/ exists o, Explicit u o ∈ l).
Proof.
  revert acc. induction l as [|r l IH]; intros [ba gr]; simpl.
  { split; (split; [by left | intros [?|H]; [done|]]).
    - by apply elem_of_nil in H.
    - destruct H as [o H]. by apply elem_of_nil in H. }
  destruct (IH (group_ref (ba, gr) r)) as [-> ->]. destruct r as [id|blk o]; simpl.
  - rewrite elem_js_add. split; [set_solver|].
    split; intros [?|[o Ho]]; [by left| |by left|]; right; exists o; set_solver.
  - rewrite elem_jm_keys_set. split; [set_solver|]. split.
    + intros [[->|?]|[o' Ho]]; [right; exists o; left|by left|right; exists o'; by right].
    + intros [?|[o' Ho]]; [by left; right|]. apply elem_of_cons in Ho as [Heq|Ho]; simplify_eq; [by left; left|].
      right. eauto.
Qed.

Lemma group_refs_ids b u :
  u ∈ (group_refs b).1 \/ u ∈ jm_keys (group_refs b).2 -> u ∈ refToId <$> (b_inputs b ⁇ []).
Proof.
  unfold group_refs. destruct (group_refs_fold (b_inputs b ⁇ []) ([], []) u) as [-> ->]. simpl.
  intros [[?%elem_of_nil|H]|[?%elem_of_nil|[o H]]]; try done.
  - by apply (list_elem_of_fmap_2 refToId) in H.
  - by apply (list_elem_of_fmap_2 refToId) in H.
Qed.

Lemma consistent_connectBlock st b :
  consistent st -> b_id b ∈ node_ids st ->
  (forall u, u ∈ refToId <$> (b_inputs b ⁇ []) -> u ∈ node_ids st) ->
  consistent (connectBlock st b).
Proof.
  intros Hst Hb Hrefs. unfold connectBlock. pose proof (group_refs_ids b) as Hids.
  destruct (group_refs b) as [bare grouped]. simpl in Hids.
  assert (Hbare : forall u, u ∈ bare -> u ∈ node_ids st) by (intros; apply Hrefs, Hids; by left).
  assert (Hgr : forall u, u ∈ jm_keys grouped -> u ∈ node_ids st) by (intros; apply Hrefs, Hids; by right).
  clear Hids Hrefs. revert st Hst Hb Hbare Hgr. induction bare as [|u bare IH]; intros st Hst Hb Hbare Hgr; simpl.
  - clear Hbare. revert st Hst Hb Hgr. induction grouped as [|[u d] l IH]; intros st Hst Hb Hgr; simpl; [done|].
    apply IH; rewrite ?node_ids_write, ?node_ids_connect; [|done|].
    + apply consistent_write, consistent_connect; [done| |done]. apply Hgr. left.
    + intros v Hv. apply Hgr. by right.
  - apply IH; rewrite ?node_ids_connect; [|done| |done].
    + apply consistent_connect; [done| |done]. apply Hbare. left.
    + intros v Hv. apply Hbare. by right.
Qed.

Lemma node_ids_blocks blocks : n_id <$> imap blockNode blocks = b_id <$> blocks.
Proof.
  apply list_eq. intros i. rewrite !list_lookup_fmap, list_lookup_imap.
  by destruct (blocks !! i).
Qed.

Lemma node_ids_import pipe blocks st : node_ids (importPipeline pipe blocks st) = b_id <$> blocks.
Proof.
  unfold importPipeline. cbv zeta. simpl nodes. simpl edges. rewrite app_nil_l.
  set (st2 := mkFlow _ _ _).
  assert (node_ids st2 = b_id <$> blocks) as <- by apply node_ids_blocks.
  generalize st2. clear st2. induction blocks as [|b l IH]; intros st2; simpl; [done|].
  by rewrite IH, node_ids_connectBlock.
Qed.

Lemma consistent_import pipe blocks st : WellFormed blocks -> consistent (importPipeline pipe blocks st).
Proof.
  intros [Hnd Hrefs _]. unfold importPipeline. cbv zeta. simpl nodes. simpl edges. rewrite app_nil_l.
  set (st2 := mkFlow _ _ _).
  assert (Hids : node_ids st2 = b_id <$> blocks) by apply node_ids_blocks.
  assert (Hst2 : consistent st2).
  { split; [by rewrite Hids | constructor | constructor | constructor]. }
  assert (Hall : forall b, b ∈ blocks -> b_id b ∈ node_ids st2 /\
    forall u, u ∈ refToId <$> (b_inputs b ⁇ []) -> u ∈ node_ids st2).
  { intros b Hb. rewrite Hids. split; [by apply list_elem_of_fmap_2|].
    intros u (r & -> & Hr)%list_elem_of_fmap. by eapply Hrefs. }
  clear Hids Hnd Hrefs. revert Hst2 Hall. generalize st2. clear st2.
  induction blocks as [|b l IH]; intros st2 Hst2 Hall; simpl; [done|].
  destruct (Hall b) as [Hb Hr]; [left|]. apply IH.
  - by apply consistent_connectBlock.
  - rewrite node_ids_connectBlock. intros b' Hb'. apply Hall. by right.
Qed.

(** *** What any document keeps *)

(** An edge carries the id composed of its ends, and no two edges carry the same. *)
Record edges_ok (st : FlowState) : Prop := {
  eo_ids : NoDup (e_id <$> edges st);
  eo_text : Forall (fun e => e_id e = edge_id (e_source e) (e_target e)) (edges st) }.

Lemma consistent_edges_ok st : consistent st -> edges_ok st.
Proof. by intros [_ ? ? _]. Qed.

(** The edges stay, or some go. *)
Lemma edges_ok_sublist st st' : edges st' `sublist_of` edges st -> edges_ok st -> edges_ok st'.
Proof.
  intros Hsub [Hnd Ht]. split; [|by eapply Forall_sublist].
  eapply sublist_NoDup; [exact Hnd|by apply fmap_sublist].
Qed.

Lemma edges_ok_connect st s t : edges_ok st -> edges_ok (connect s t st).
Proof.
  intros [Hnd Ht]. unfold connect. destruct (js_some _ _) eqn:E; [done|]. rewrite js_some_false in E. split; simpl.
  - rewrite fmap_app. apply NoDup_app. split_and!; [done| |apply NoDup_singleton].
    intros id (e & -> & He)%list_elem_of_fmap Hid%list_elem_of_singleton. specialize (E e He). bool_prop. done.
  - apply Forall_app. split; [done|]. by constructor.
Qed.

Lemma edges_ok_write s t d st : edges_ok st -> edges_ok (writeEdgeData s t d st).
Proof. intros [Hnd Ht]. split; [by rewrite edges_writeEdgeData|by apply Forall_edges_write]. Qed.

Lemma edges_ok_connectBlock st b : edges_ok st -> edges_ok (connectBlock st b).
Proof.
  unfold connectBlock. destruct (group_refs b) as [bare grouped]. intros Hst.
  assert (Hst1 : edges_ok (foldl (fun st upstream => connect upstream (b_id b) st) st bare)).
  { revert st Hst. induction bare as [|u l IH]; intros st Hst; [done|]. simpl. by apply IH, edges_ok_connect. }
  revert Hst1. generalize (foldl (fun st upstream => connect upstream (b_id b) st) st bare) as st1.
  induction grouped as [|e l IH]; intros st1 Hst1; simpl; [done|]. by apply IH, edges_ok_write, edges_ok_connect.
Qed.

(** Importing any document whatever. *)
Lemma edges_ok_import pipe blocks st : edges_ok (importPipeline pipe blocks st).
Proof.
  unfold importPipeline. cbv zeta. simpl nodes. simpl edges. rewrite app_nil_l.
  assert (Hst2 : edges_ok (mkFlow (imap blockNode blocks) []
    (mkMeta (p_name pipe ⁇ "untitled-pipeline") (p_version pipe ⁇ "0.1.0") (p_description pipe)))) by (split; constructor).
  revert Hst2. generalize (mkFlow (imap blockNode blocks) []
    (mkMeta (p_name pipe ⁇ "untitled-pipeline") (p_version pipe ⁇ "0.1.0") (p_description pipe))) as st2.
  induction blocks as [|b l IH]; intros st2 Hst2; simpl; [done|]. by apply IH, edges_ok_connectBlock.
Qed.

(** Two edges with the same ends are one. *)
Lemma edges_ok_unique st e1 e2 :
  edges_ok st -> e1 ∈ edges st -> e2 ∈ edges st ->
  e_source e1 = e_source e2 -> e_target e1 = e_target e2 -> e1 = e2.
Proof.
  intros [Hnd Ht] H1 H2 Hs Htg. rewrite Forall_forall in Ht. eapply (NoDup_fmap_eq e_id); [done..|].
  by rewrite (Ht _ H1), (Ht _ H2), Hs, Htg.
Qed.

Lemma consistent_remove st id : consistent st -> consistent (removeNode id st).
Proof.
  intros Hst. pose proof (consistent_incl st (nodes st) (edges (removeNode id st)) (pipelineMeta st) Hst
    eq_refl (or_intror (ex_intro _ _ eq_refl))) as [H1 H2 H3 H4].
  split; [|done|done|].
  - unfold node_ids. simpl. eapply sublist_NoDup; [apply (cs_nodes _ Hst)|].
    apply fmap_sublist, sublist_filter.
  - apply Forall_forall. intros e He. simpl in H4. rewrite Forall_forall in H4.
    apply H4 in He as Hends. apply elem_of_js_filter in He as [Hp _]. bool_prop.
    assert (Hin : forall x, x ∈ n_id <$> nodes st -> x <> id -> x ∈ node_ids (removeNode id st)).
    { intros x (n & -> & Hn)%list_elem_of_fmap Hne. apply list_elem_of_fmap_2, elem_of_js_filter.
      split; [|done]. by bool_prop. }
    split; apply Hin; try done; by apply Hends.
Qed.

Lemma node_ids_update st id label name args :
  node_ids (updateNode id label name args st).1 = node_ids st.
Proof.
  unfold updateNode. destruct (findIndex _ _) as [i|]; [|done]. unfold node_ids. simpl. apply list_eq. intros j.
  rewrite !list_lookup_fmap. destruct (decide (i = j)) as [->|Hne].
  - rewrite list_lookup_alter_eq. by destruct (nodes st !! j).
  - by rewrite list_lookup_alter_ne.
Qed.

Lemma consistent_update st id label name args :
  consistent st -> consistent (updateNode id label name args st).1.
Proof.
  intros Hst. pose proof (node_ids_update st id label name args) as Hids. unfold updateNode in *.
  destruct (findIndex _ _) as [i|]; [|done]. apply (consistent_incl st); [done|exact Hids|by left].
Qed.

Lemma edit_consistent st st' : consistent st -> edit st st' -> consistent st'.
Proof.
  intros Hst Hedit. destruct Hedit.
  - split; constructor.
  - apply (consistent_incl st); auto.
  - destruct Hst as [H1 H2 H3 H4]. split; simpl; [|done|done|].
    + unfold node_ids. simpl. rewrite fmap_app. apply NoDup_app.
      split_and!; [done| |apply NoDup_singleton].
      intros x Hx ->%list_elem_of_singleton. done.
    + eapply Forall_impl; [exact H4|]. unfold node_ids. simpl. intros e [? ?].
      rewrite fmap_app. set_solver.
  - by apply consistent_remove.
  - by apply consistent_update.
  - by apply consistent_connect.
  - apply (consistent_incl st); eauto.
  - by apply consistent_write.
  - unfold yamlToNodes in *. destruct (parse yaml) as [[pipe|]|]; [|done|done].
    destruct (p_blocks pipe) as [blocks|] eqn:Hb; [|done]. injection H0 as <-.
    apply consistent_import. specialize (H pipe eq_refl).
    apply validatePipeline_WellFormed in H. by rewrite Hb in H.
Qed.

(** ** Export *)

(** What the edges into a node contribute to its block, in the order of the edges. *)
Definition incoming_refs (es : list Edge) (id : string) : list InputRef :=
  js_filter (fun e => e_target e === id) es ≫= edge_refs.

Lemma byId_index blocks id :
  NoDup (b_id <$> blocks) ->
  match jm_get id (byId blocks) with
  | Some i => exists b, blocks !! i = Some b /\ b_id b = id
  | None => id ∉ b_id <$> blocks
  end.
Proof.
  intros Hnd. unfold byId.
  assert (Hk : jm_keys (imap (fun i b => (b_id b, i)) blocks) = b_id <$> blocks).
  { unfold jm_keys. apply list_eq. intros i. rewrite !list_lookup_fmap, list_lookup_imap.
    by destruct (blocks !! i). }
  rewrite jm_of_entries_NoDup by (by rewrite Hk).
  destruct (jm_get id _) as [i|] eqn:E.
  - apply jm_get_elem, elem_of_lookup_imap in E as (j & b & Heq & Hj). simplify_eq. eauto.
  - apply jm_get_None in E. by rewrite Hk in E.
Qed.

(** Updating the block that has an id is updating every block that has it. *)
Lemma alter_block f blocks i b :
  NoDup (b_id <$> blocks) -> blocks !! i = Some b ->
  alter f i blocks = (fun b' => if b_id b' === b_id b then f b' else b') <$> blocks.
Proof.
  intros Hnd Hi. apply list_eq. intros j. rewrite list_lookup_fmap.
  destruct (decide (i = j)) as [->|Hne].
  - rewrite list_lookup_alter_eq, Hi. simpl. by rewrite eqb_refl_js.
  - rewrite list_lookup_alter_ne by done. destruct (blocks !! j) as [b'|] eqn:Hj; [|done]. simpl.
    rewrite eqb_ne_js; [done|]. intros Heq. apply Hne. eapply NoDup_lookup; [exact Hnd| |];
      rewrite list_lookup_fmap; [by rewrite Hi | by rewrite Hj, <-Heq].
Qed.

(** Pushing the references of an edge to every block with its target's id. *)
Definition push_to (e : Edge) (b : Block) : Block :=
  if b_id b === e_target e then push_inputs (edge_refs e) b else b.

Lemma push_to_ids e (bs : list Block) : b_id <$> (push_to e <$> bs) = b_id <$> bs.
Proof.
  rewrite <-list_fmap_compose. apply list_fmap_ext. intros i b _. simpl. unfold push_to. by case_bool_decide.
Qed.

(** A loop whose body pushes each edge to its target collects the incoming
    references of every block. *)
Lemma fold_push (step : list Block -> Edge -> list Block) ids blocks es :
  (forall bs e, b_id <$> bs = ids -> step bs e = push_to e <$> bs) ->
  b_id <$> blocks = ids -> Forall (fun b => is_Some (b_inputs b)) blocks ->
  foldl step blocks es = (fun b => push_inputs (incoming_refs es (b_id b)) b) <$> blocks.
Proof.
  intros Hstep. revert blocks. induction es as [|e es IH]; intros blocks Hids Hin; simpl.
  { symmetry. apply list_fmap_fixed. rewrite Forall_forall in Hin. intros b Hb.
    destruct (Hin b Hb) as [l Hl]. destruct b as [i nm ins a]; simpl in *; subst.
    unfold push_inputs. simpl. by rewrite app_nil_r. }
  rewrite Hstep, IH by (done || by rewrite push_to_ids || (apply Forall_fmap;
    eapply Forall_impl; [exact Hin|]; intros b Hb; simpl; unfold push_to; by case_bool_decide)).
  rewrite <-list_fmap_compose. apply list_fmap_ext. intros i b Hb. simpl.
  unfold incoming_refs, js_filter, push_to. case_bool_decide as Ht; simpl.
  - rewrite filter_cons_True by (by rewrite Ht, eqb_refl_js). rewrite bind_cons.
    unfold push_inputs. simpl. by rewrite app_assoc.
  - rewrite filter_cons_False; [done|]. rewrite eqb_ne_js; [done|congruence].
Qed.

Lemma fold_pushEdge blocks es :
  NoDup (b_id <$> blocks) -> Forall (fun b => is_Some (b_inputs b)) blocks ->
  foldl (pushEdge (byId blocks)) blocks es =
    (fun b => push_inputs (incoming_refs es (b_id b)) b) <$> blocks.
Proof.
  intros Hnd Hin. apply (fold_push _ (b_id <$> blocks)); [|done|done]. intros bs e Hids.
  unfold pushEdge. pose proof (byId_index blocks (e_target e) Hnd) as Hget.
  destruct (jm_get _ _) as [i|].
  - destruct Hget as (b0 & Hb0 & Heq).
    assert (exists b, bs !! i = Some b /\ b_id b = e_target e) as (b & Hb & Hbe).
    { assert ((b_id <$> bs) !! i = Some (e_target e)) as H by (by rewrite Hids, list_lookup_fmap, Hb0, <-Heq).
      rewrite list_lookup_fmap in H. destruct (bs !! i); simplify_eq/=; eauto. }
    unfold push_to. rewrite <-Hbe. apply alter_block; [by rewrite Hids | done].
  - rewrite <-Hids in Hget. symmetry. apply list_fmap_fixed. intros b Hb. unfold push_to.
    rewrite eqb_ne_js; [done|]. intros Heq. apply Hget. rewrite <-Heq. by apply list_elem_of_fmap_2.
Qed.

(** The exported block of a node. *)
Definition exported_block (es : list Edge) (n : Node) : Block :=
  push_inputs (incoming_refs es (n_id n)) (nodeBlock n).

Lemma export_blocks v7 st :
  NoDup (node_ids st) ->
  p_blocks (exportPipelineObject v7 st) = Some (exported_block (edges st) <$> nodes st).
Proof.
  intros Hnd. unfold exportPipelineObject. simpl. f_equal.
  assert (Hids : b_id <$> (nodeBlock <$> nodes st) = node_ids st).
  { unfold node_ids. rewrite <-list_fmap_compose. by apply list_fmap_ext. }
  rewrite fold_pushEdge; [|by rewrite Hids|].
  - rewrite <-list_fmap_compose. by apply list_fmap_ext.
  - apply Forall_fmap, Forall_forall. intros n _. simpl. eauto.
Qed.

(** The graph the edges draw. *)
Definition draws (st : FlowState) (x y : string) : Prop :=
  exists e, e ∈ edges st /\ e_target e = x /\ e_source e = y.

Lemma edge_refs_source e r : r ∈ edge_refs e -> refToId r = e_source e.
Proof.
  unfold edge_refs. destruct (e_data e ≫= ed_bindings) as [[|b bs]|].
  - by intros ->%list_elem_of_singleton.
  - by intros (? & -> & _)%list_elem_of_fmap.
  - by intros ->%list_elem_of_singleton.
Qed.

Lemma edge_refs_ne e : exists r, r ∈ edge_refs e.
Proof.
  unfold edge_refs. destruct (e_data e ≫= ed_bindings) as [[|b bs]|]; eexists; left.
Qed.

Lemma elem_incoming_refs es id u :
  u ∈ refToId <$> incoming_refs es id <-> exists e, e ∈ es /\ e_target e = id /\ e_source e = u.
Proof.
  unfold incoming_refs. split.
  - intros (r & -> & (e & Hr & He)%list_elem_of_bind)%list_elem_of_fmap.
    apply elem_of_js_filter in He as [Ht He]. bool_prop. exists e. split; [done|]. split; [done|].
    symmetry. by apply edge_refs_source.
  - intros (e & He & <- & <-). destruct (edge_refs_ne e) as [r Hr].
    rewrite <-(edge_refs_source e r Hr). apply list_elem_of_fmap_2, list_elem_of_bind.
    exists e. split; [done|]. apply elem_of_js_filter. by rewrite eqb_refl_js.
Qed.

Lemma exported_ids es (ns : list Node) : b_id <$> (exported_block es <$> ns) = n_id <$> ns.
Proof. rewrite <-list_fmap_compose. by apply list_fmap_ext. Qed.

Lemma exported_depends st x y :
  consistent st -> depends (exported_block (edges st) <$> nodes st) x y <-> draws st x y.
Proof.
  intros [_ _ _ Hends]. rewrite Forall_forall in Hends. unfold depends. rewrite exported_ids. split.
  - intros (b & (n & -> & Hn)%list_elem_of_fmap & Hx & Hy & _). simpl in *. subst x.
    by apply elem_incoming_refs in Hy.
  - intros (e & He & <- & <-). destruct (Hends e He) as [Hs (n & Heq & Hn)%list_elem_of_fmap].
    exists (exported_block (edges st) n). rewrite Heq.
    split; [by apply list_elem_of_fmap_2|]. split; [done|]. split; [|done].
    apply elem_incoming_refs. eauto.
Qed.

(** ** Theorems *)

(** Editing keeps the graph consistent: in every state reached by the edits of
    the pages, node ids are distinct, every edge joins two nodes of the graph
    and carries the id composed of its ends, and two nodes are joined by at most
    one edge. *)
Theorem edit_invariant st :
  rtc edit initial_flow st ->
  consistent st /\
  (forall e1 e2, e1 ∈ edges st -> e2 ∈ edges st -> e_source e1 = e_source e2 ->
     e_target e1 = e_target e2 -> e1 = e2).
Proof.
  intros Hreach. assert (consistent st) as Hst.
  { pose proof consistent_initial as H0. induction Hreach as [|st1 st2 st3 Hstep _ IH]; [done|].
    apply IH. by eapply edit_consistent. }
  split; [done|]. destruct Hst as [_ Hnd Hid _]. rewrite Forall_forall in Hid.
  intros e1 e2 H1 H2 Hs Ht. eapply (NoDup_fmap_eq e_id); [done..|].
  by rewrite (Hid _ H1), (Hid _ H2), Hs, Ht.
Qed.

(** Export: when node ids are distinct, the exported pipeline has one block per
    node, in order, whose inputs are exactly what the edges into that node stand
    for, in the order of the edges; and the server accepts the pipeline exported
    from a consistent state exactly when the drawn graph has no cycle. *)
Theorem exportPipelineObject_spec v7 st :
  consistent st ->
  exportPipelineObject v7 st =
    mkPipeline (Some v7) (Some (meta_name (pipelineMeta st))) (Some (meta_version (pipelineMeta st)))
      (meta_description (pipelineMeta st)) (Some (exported_block (edges st) <$> nodes st)) /\
  (validatePipeline (exportPipelineObject v7 st) None = Valid <-> forall x, ~ tc (draws st) x x).
Proof.
  intros Hst. assert (Hb := export_blocks v7 st (cs_nodes st Hst)). split.
  { unfold exportPipelineObject in *. simpl in *. by injection Hb as ->. }
  rewrite validatePipeline_WellFormed, Hb. simpl. split.
  - intros [_ _ Hac] x Htc. apply (Hac x). eapply tc_ext; [|done].
    intros. symmetry. by apply exported_depends.
  - intros Hac. split.
    + rewrite exported_ids. apply (cs_nodes st Hst).
    + intros b r (n & -> & Hn)%list_elem_of_fmap Hr. rewrite exported_ids.
      apply (list_elem_of_fmap_2 refToId) in Hr. simpl in Hr. rewrite elem_incoming_refs in Hr.
      destruct Hr as (e & He & _ & <-). destruct Hst as [_ _ _ Hends].
      rewrite Forall_forall in Hends. by apply Hends.
    + intros x Htc. apply (Hac x). eapply tc_ext; [|done]. intros. by apply exported_depends.
Qed.

(** ** A concrete editing session *)

Definition pick (name : string) : NodeOpts := mkNodeOpts name name None (Some 0%Q) (Some 0%Q) None.
Definition session1 : FlowState := (addNode "a" 0 0 (pick "src") initial_flow).1.
Definition session2 : FlowState := (addNode "b" 0 0 (pick "dst") session1).1.
Definition session : FlowState := connect "a" "b" session2.

Lemma session_reached : rtc edit initial_flow session.
Proof.
  apply (rtc_l _ _ session1); [apply edit_add; vm_compute; intros H; by apply elem_of_nil in H|].
  apply (rtc_l _ _ session2); [apply edit_add; refine (bool_decide_unpack _ _); vm_compute; exact I|].
  apply rtc_once. apply edit_connect; refine (bool_decide_unpack _ _); vm_compute; exact I.
Defined.

Lemma edit_invariant_witness :
  rtc edit initial_flow session /\ edges session <> [] /\ consistent session.
Proof.
  split; [exact session_reached|]. split; [vm_compute; discriminate|].
  exact (proj1 (edit_invariant session session_reached)).
Defined.

Lemma session_consistent : consistent session.
Proof.
  assert (H : consistent session1) by (eapply edit_consistent; [apply consistent_initial | apply edit_add, not_elem_of_nil]).
  assert (H2 : consistent session2).
  { eapply edit_consistent; [exact H|]. apply edit_add. refine (bool_decide_unpack _ _). vm_compute. exact I. }
  apply consistent_connect; [exact H2|..]; refine (bool_decide_unpack _ _); vm_compute; exact I.
Defined.

Lemma exportPipelineObject_spec_witness :
  consistent session /\
  p_blocks (exportPipelineObject "p" session) =
    Some [mkBlock "a" "src" (Some []) (Some []); mkBlock "b" "dst" (Some [Bare "a"]) (Some [])] /\
  forall x, ~ tc (draws session) x x.
Proof.
  split; [exact session_consistent|].
  split; [vm_compute; reflexivity|].
  apply (exportPipelineObject_spec "p" session session_consistent). vm_compute. reflexivity.
Defined.

(** The wiring applied to the session's edge. *)
Definition example_manifests (name : string) : option BlockManifest :=
  if name === "src" then Some up_example
  else if name === "dst" then Some (down_example ins_any_last) else None.

Lemma example_manifests_typed name m : example_manifests name = Some m -> well_typed_manifest m.
Proof.
  unfold example_manifests. repeat case_bool_decide; intros; simplify_eq;
    [apply up_example_typed | apply down_example_typed].
Qed.

Lemma resolveAndApply_correct_witness :
  exists flow', resolveAndApply example_manifests session session "a" "b" = (flow', Resolved) /\
  exists bs, getEdgeData flow' "a" "b" = Some (mkEdgeData (Some bs) (Some false)).
Proof.
  eexists. split; [vm_compute; reflexivity|].
  match goal with |- exists bs, getEdgeData ?f _ _ = _ => set (flow' := f) end.
  assert (Hrun : resolveAndApply example_manifests session session "a" "b" = (flow', Resolved))
    by (vm_compute; reflexivity).
  assert (Hedge : is_Some (getEdgeData session "a" "b")) by (vm_compute; eauto).
  pose proof (resolveAndApply_correct example_manifests session session flow' "a" "b" Resolved
    example_manifests_typed Hedge Hrun) as (_ & _ & H & _).
  destruct H as (un & dn & up & down & bs & _ & _ & _ & _ & Hd & _); [discriminate|].
  exists bs. exact Hd.
Defined.
