(* ===== verification/Forms.v ===== *)
(** * Argument forms and the block editor

    ([web_ui/components/FormInput.vue], [FormArray.vue], [SchemaField.vue],
    [SchemaForm.vue] and [flow/BlockEditor.vue].)  The editor and the form pass
    argument objects by reference, and a form opened on a node works on the
    object in the store, so objects are references here: to the arguments of a
    node, or to an object of the form's own. *)

From S2P Require Export Flow.
From Stdlib Require Import QArith.
Open Scope js_scope.
Open Scope nat_scope.

(** ** Field schemas *)

Inductive FieldType := F_string | F_number | F_boolean | F_array | F_object.

#[export] Instance FieldType_eq_dec : EqDecision FieldType.
Proof. solve_decision. Defined.

Inductive FieldSchema :=
  Field (type : FieldType) (description : option string) (enum : option (list string))
    (items : option FieldSchema) (properties : list (string * FieldSchema)).

Definition f_type (s : FieldSchema) : FieldType := let 'Field t _ _ _ _ := s in t.
Definition f_enum (s : FieldSchema) : option (list string) := let 'Field _ _ e _ _ := s in e.
Definition f_items (s : FieldSchema) : option FieldSchema := let 'Field _ _ _ i _ := s in i.

Record FormSchema := mkFormSchema { fs_properties : jsmap FieldSchema; fs_required : list string }.

(** The form of a block: one field per scalar input ([manifestToFormSchema]). *)
Definition scalar_field (decl : PortDecl) : option FieldSchema :=
  match pt_type decl with
  | T_string => Some (Field F_string (pt_description decl) None None [])
  | T_number => Some (Field F_number (pt_description decl) None None [])
  | T_boolean => Some (Field F_boolean (pt_description decl) None None [])
  | _ => None
  end.

Definition add_field (s : FormSchema) (entry : string * PortDecl) : FormSchema :=
  match scalar_field entry.2 with
  | Some f => mkFormSchema (jm_set entry.1 f (fs_properties s)) (fs_required s ++ [entry.1])
  | None => s
  end.

Definition manifestToFormSchema (manifest : BlockManifest) : FormSchema :=
  foldl add_field (mkFormSchema [] []) (mf_inputs manifest ⁇ []).

(** ** Controls ([FormInput.vue]) *)

Inductive Control := NumberInput | TextArea | Select | Checkbox.

#[export] Instance Control_eq_dec : EqDecision Control.
Proof. solve_decision. Defined.

(** The controls the template renders for a field. *)
Definition controls (s : FieldSchema) : list Control :=
  (if f_type s === F_number then [NumberInput] else []) ++
  (if f_type s === F_string then [TextArea]
   else match f_enum s with Some _ => [Select] | None => [] end) ++
  (if f_type s === F_boolean then [Checkbox] else []).

(** [String(value)], which is what the DOM keeps of a bound [value]. *)
Fixpoint js_String (j : Json) : string :=
  match j with
  | JNull => "null"
  | JBool b => if b then "true" else "false"
  | JNum n => pretty n
  | JStr s => s
  | JArr l => js_join "," (map (fun x => match x with JNull => "" | _ => js_String x end) l)
  | JObj _ => "[object Object]"
  end.

(** [$event.target.value] of a check box whose [value] is bound to the model. *)
Definition checkbox_value (modelValue : option Json) : string :=
  match modelValue with
  | None | Some JNull => "on"
  | Some j => js_String j
  end.

(** What a control emits when the user changes it; [text] is what was typed. *)
Definition emitted (c : Control) (modelValue : option Json) (text : string) : Json :=
  match c with
  | Checkbox => JBool (checkbox_value modelValue === "false")
  | _ => JStr text
  end.

(** ** Arrays and objects ([FormArray.vue], [SchemaField.vue]) *)

Definition addItem (schema : FieldSchema) (modelValue : list Json) : list Json :=
  modelValue ++
    [match f_items schema with
     | Some items => if f_type items === F_object then JObj [] else JStr ""
     | None => JStr ""
     end].

Definition removeItem (index : nat) (modelValue : list Json) : list Json :=
  take index modelValue ++ drop (S index) modelValue.

(** An assignment past the end leaves holes, which print as [null]. *)
Definition updateItem (index : nat) (value : Json) (modelValue : list Json) : list Json :=
  if bool_decide (index < length modelValue) then <[index := value]> modelValue
  else modelValue ++ replicate (index - length modelValue) JNull ++ [value].

Definition isPrimitive (s : FieldSchema) : bool :=
  bool_decide (f_type s ∈ [F_string; F_number; F_boolean]).

Definition updateObjectField (key : string) (value : Json) (modelValue : jsmap Json) : jsmap Json :=
  jm_set key value modelValue.

Definition getDefaultValue (fieldSchema : FieldSchema) : Json :=
  if f_type fieldSchema === F_array then JArr []
  else if f_type fieldSchema === F_object then JObj [] else JStr "".

(** ** The block editor and its form *)

Inductive ObjRef := NodeArgs (id : string) | FormObj (n : nat).

#[export] Instance ObjRef_eq_dec : EqDecision ObjRef.
Proof. solve_decision. Defined.

(** [ed_objects] are the objects the two components made; [ed_formData] is the
    editor's [formData] and [ed_form] the form's ([None]: [null], or no form yet). *)
Record EditorState := mkEditor {
  ed_targetId : option string;
  ed_blocks : list BlockListItem;
  ed_selected : option BlockListItem;
  ed_schema : option FormSchema;
  ed_objects : list ArgKeyValueStore;
  ed_formData : ObjRef;
  ed_form : option ObjRef }.

Definition deref (st : FlowState) (ed : EditorState) (r : ObjRef) : option ArgKeyValueStore :=
  match r with
  | NodeArgs id => getArgsById st id
  | FormObj n => ed_objects ed !! n
  end.

(** Assigning a property of the arguments object of a node. *)
Definition set_arg (key : string) (value : Json) (n : Node) : Node :=
  mkNode (n_id n) (n_type n) (n_position n)
    ((fun d => mkNodeData (nd_label d) (nd_name d) (jm_set key value <$> nd_args d)) <$> n_data n).

Definition writeArg (id key : string) (value : Json) (st : FlowState) : FlowState :=
  match findIndex (fun n => n_id n === id) (nodes st) with
  | None => st
  | Some i => mkFlow (alter (set_arg key value) i (nodes st)) (edges st) (pipelineMeta st)
  end.

Definition with_objects (objects : list ArgKeyValueStore) (formData : ObjRef) (ed : EditorState) : EditorState :=
  mkEditor (ed_targetId ed) (ed_blocks ed) (ed_selected ed) (ed_schema ed) objects formData (ed_form ed).

(** [initializeFormData]: fresh defaults for a new block, the saved object of a node. *)
Definition default_data (schema : FormSchema) : ArgKeyValueStore :=
  foldl (fun data e => jm_set e.1 (getDefaultValue e.2) data) [] (fs_properties schema).

Definition initializeFormData (schema : FormSchema) (st : FlowState) (ed : EditorState)
    : list ArgKeyValueStore * option ObjRef :=
  match ed_targetId ed with
  | None => (ed_objects ed ++ [default_data schema], Some (FormObj (length (ed_objects ed))))
  | Some id =>
      (ed_objects ed, match getArgsById st id with Some _ => Some (NodeArgs id) | None => None end)
  end.

(** [updateField]: the assignment, and the event the editor handles with [handleUpdate]. *)
Definition updateField (key : string) (value : Json) (s : FlowState * EditorState)
    : FlowState * EditorState :=
  let '(st, ed) := s in
  match ed_form ed with
  | None => s
  | Some (NodeArgs id) => (writeArg id key value st, with_objects (ed_objects ed) (NodeArgs id) ed)
  | Some (FormObj n) => (st, with_objects (alter (jm_set key value) n (ed_objects ed)) (FormObj n) ed)
  end.

(** What happens while the editor is open: a block is picked, a manifest arrives and
    becomes the form's schema, a control of a field is changed, the form is
    submitted by the return key. *)
Inductive EdEvent :=
  | Pick (item : BlockListItem)
  | SchemaLoaded (manifest : BlockManifest)
  | Change (key : string) (c : Control) (text : string)
  | ReturnKey.

Definition ed_step (s : FlowState * EditorState) (ev : EdEvent) : FlowState * EditorState :=
  let '(st, ed) := s in
  match ev with
  | Pick item =>
      (st, mkEditor (ed_targetId ed) (ed_blocks ed) (Some item) (ed_schema ed) (ed_objects ed)
             (ed_formData ed) (ed_form ed))
  | SchemaLoaded manifest =>
      let schema := manifestToFormSchema manifest in
      let '(objects, form) := initializeFormData schema st ed in
      (st, mkEditor (ed_targetId ed) (ed_blocks ed) (ed_selected ed) (Some schema) objects
             (ed_formData ed) form)
  | Change key c text =>
      match (ed_schema ed ≫= fun sc => jm_get key (fs_properties sc)), ed_form ed with
      | Some field, Some r =>
          if bool_decide (c ∈ controls field)
          then updateField key (emitted c (deref st ed r ≫= jm_get key) text) s
          else s
      | _, _ => s
      end
  | ReturnKey =>
      match ed_form ed with
      | Some r => (st, with_objects (ed_objects ed) r ed)
      | None => s
      end
  end.

(** Opening the editor: setup, then [onMounted] ([blocks] is the fetched list). *)
Definition mountEditor (targetId : option string) (blocks : list BlockListItem) (st : FlowState)
    : EditorState :=
  let selected :=
    targetId ≫= fun id => nameById st id ≫= fun name =>
      if truthy name then js_find (fun b => bl_name b === name) blocks else None in
  let formData :=
    match targetId with
    | Some id => match getArgsById st id with Some _ => NodeArgs id | None => FormObj 0 end
    | None => FormObj 0
    end in
  mkEditor targetId blocks selected None [[]] formData None.

(** [handleSubmit]; [v7] is the id of a new block and [rx], [ry] its random place. *)
Definition handleSubmit (v7 : string) (rx ry : Q) (s : FlowState * EditorState) : FlowState :=
  let '(st, ed) := s in
  let label := (bl_label <$> ed_selected ed) ⁇ "" in
  let name := (bl_name <$> ed_selected ed) ⁇ "" in
  let formData := deref st ed (ed_formData ed) ⁇ [] in
  match ed_targetId ed with
  | Some id => (updateNode id label name formData st).1
  | None => (addNode v7 rx ry (mkNodeOpts name label (Some formData) None None (Some v7)) st).1
  end.

(** [handleCancel] only closes the editor. *)
Definition handleCancel (s : FlowState * EditorState) : FlowState := s.1.

(** ** What a form holds *)

Definition scalar_names (m : BlockManifest) : list string :=
  fst <$> js_filter (fun e : string * PortDecl => isScalar e.2) (mf_inputs m ⁇ []).

(** The values the control of a scalar input leaves: text for strings and for
    numbers, a boolean or the initial empty text for booleans. *)
Definition form_value (t : PortType) (v : Json) : Prop :=
  match t with
  | T_boolean => v = JStr "" \/ exists b, v = JBool b
  | _ => exists s, v = JStr s
  end.

(** One value for each scalar input, in the order of the manifest. *)
Definition form_typed (m : BlockManifest) (data : ArgKeyValueStore) : Prop :=
  jm_keys data = scalar_names m /\
  forall k v, jm_get k data = Some v ->
    exists decl, jm_get k (mf_inputs m ⁇ []) = Some decl /\ isScalar decl = true /\ form_value (pt_type decl) v.

(** The manifest whose form is shown after [tr], and the one whose form was shown
    when the user last changed something. *)
Definition shown_step (m : option BlockManifest) (ev : EdEvent) : option BlockManifest :=
  match ev with SchemaLoaded m' => Some m' | _ => m end.

Definition takes_change (m : BlockManifest) (key : string) (c : Control) : bool :=
  match jm_get key (mf_inputs m ⁇ []) ≫= scalar_field with
  | Some field => bool_decide (c ∈ controls field)
  | None => false
  end.

Definition touched_step (g : option BlockManifest * option BlockManifest) (ev : EdEvent)
    : option BlockManifest * option BlockManifest :=
  (shown_step g.1 ev,
   match ev, g.1 with
   | Change key c _, Some m => if takes_change m key c then Some m else g.2
   | ReturnKey, Some m => Some m
   | _, _ => g.2
   end).

Definition touched (tr : list EdEvent) : option BlockManifest :=
  (foldl touched_step (None, None) tr).2.

Definition picked_from (selected : option BlockListItem) (tr : list EdEvent) : option BlockListItem :=
  foldl (fun o ev => match ev with Pick item => Some item | _ => o end) selected tr.

Definition picked (tr : list EdEvent) : option BlockListItem := picked_from None tr.

Definition loads_typed (tr : list EdEvent) : Prop :=
  forall m, SchemaLoaded m ∈ tr -> NoDup (jm_keys (mf_inputs m ⁇ [])).

(** ** The schema of a manifest *)

Lemma isScalar_field decl : isScalar decl = true <-> is_Some (scalar_field decl).
Proof. unfold isScalar, scalar_field. destruct (pt_type decl); simpl;
    (split; [by eauto | done]) || (split; [done | by intros [? ?]]). Qed.

Lemma scalar_field_type decl f :
  scalar_field decl = Some f ->
  f_enum f = None /\ f_type f = match pt_type decl with
                              | T_number => F_number | T_boolean => F_boolean | _ => F_string end.
Proof. unfold scalar_field. destruct (pt_type decl); intros; simplify_eq; done. Qed.

(** The fields, as a function of the declared inputs. *)
Fixpoint fields_of (l : jsmap PortDecl) : jsmap FieldSchema :=
  match l with
  | [] => []
  | (k, d) :: l' => match scalar_field d with Some f => (k, f) :: fields_of l' | None => fields_of l' end
  end.

Lemma form_schema_fold entries s :
  NoDup (jm_keys (fs_properties s) ++ jm_keys entries) ->
  fs_properties (foldl add_field s entries) =
    fs_properties s ++ fields_of entries.
Proof.
  revert s. induction entries as [|[k d] entries IH]; intros s Hnd; [by rewrite app_nil_r|].
  simpl. unfold add_field at 2. simpl. destruct (scalar_field d) as [f|] eqn:Hf; simpl.
  - assert (k ∉ jm_keys (fs_properties s)) as Hk.
    { apply NoDup_app in Hnd as (_ & Hd & _). intros Hin. apply (Hd k Hin). left. }
    rewrite IH; simpl; rewrite jm_set_snoc by done; [by rewrite <-app_assoc|].
    unfold jm_keys in *. rewrite fmap_app, <-app_assoc. done.
  - apply IH. unfold jm_keys in *. rewrite fmap_cons in Hnd. eapply sublist_NoDup; [exact Hnd|].
    apply sublist_app; [done|]. by apply sublist_cons.
Qed.

Lemma form_schema_properties m :
  NoDup (jm_keys (mf_inputs m ⁇ [])) ->
  fs_properties (manifestToFormSchema m) = fields_of (mf_inputs m ⁇ []).
Proof. intros Hnd. unfold manifestToFormSchema. by rewrite form_schema_fold. Qed.

Lemma form_schema_keys m :
  NoDup (jm_keys (mf_inputs m ⁇ [])) -> jm_keys (fs_properties (manifestToFormSchema m)) = scalar_names m.
Proof.
  intros Hnd. rewrite form_schema_properties by done. unfold scalar_names, jm_keys. clear Hnd.
  induction (mf_inputs m ⁇ []) as [|[k d] l IH]; [done|]. rewrite js_filter_cons. simpl.
  pose proof (isScalar_field d) as Hs. destruct (scalar_field d) as [f|]; simpl.
  - rewrite (proj2 Hs) by eauto. rewrite !fmap_cons. simpl. f_equal. exact IH.
  - destruct (isScalar d); [by destruct (proj1 Hs)|]. done.
Qed.

Lemma form_schema_get m k :
  NoDup (jm_keys (mf_inputs m ⁇ [])) ->
  jm_get k (fs_properties (manifestToFormSchema m)) = jm_get k (mf_inputs m ⁇ []) ≫= scalar_field.
Proof.
  intros Hnd. rewrite form_schema_properties by done.
  induction (mf_inputs m ⁇ []) as [|[k' d] l IH]; [done|]. simpl.
  apply NoDup_fmap_cons_inv in Hnd as [Hk Hnd].
  destruct (scalar_field d) as [f|] eqn:Hf; simpl; case_bool_decide as Heq; simpl; rewrite ?Hf; auto.
  subst. rewrite IH by done. assert (jm_get k l = None) as -> by (by apply jm_get_None). done.
Qed.

Lemma fields_default l e : e ∈ fields_of l -> getDefaultValue e.2 = JStr "".
Proof.
  induction l as [|[k d] l IH]; simpl; [by intros ?%elem_of_nil|].
  destruct (scalar_field d) as [f|] eqn:Hf; [|done]. intros [->|He]%elem_of_cons; [|by apply IH].
  apply scalar_field_type in Hf as [_ Ht]. unfold getDefaultValue. simpl. rewrite Ht. by destruct (pt_type d).
Qed.

Lemma default_data_spec m :
  NoDup (jm_keys (mf_inputs m ⁇ [])) ->
  default_data (manifestToFormSchema m) = jm_tab (fun _ => JStr "") (scalar_names m).
Proof.
  intros Hnd. rewrite <-(form_schema_keys m Hnd). unfold default_data.
  assert (Hp : NoDup (jm_keys (fs_properties (manifestToFormSchema m))) /\
    forall e, e ∈ fs_properties (manifestToFormSchema m) -> getDefaultValue e.2 = JStr "").
  { split.
    - rewrite form_schema_keys by done. unfold scalar_names. by apply NoDup_filter_keys.
    - intros e He. rewrite form_schema_properties in He by done.
      by eapply fields_default. }
  destruct Hp as [Hk Hv]. revert Hk Hv. generalize (fs_properties (manifestToFormSchema m)). intros ps Hk Hv.
  change (@nil (string * Json)) with (jm_tab (fun _ : string => JStr "") []).
  change (jm_tab (fun _ => JStr "") (jm_keys ps)) with (jm_tab (fun _ => JStr "") ([] ++ jm_keys ps)).
  assert (Hd : NoDup ([] ++ jm_keys ps)) by done. revert Hd Hv. clear Hk. generalize (@nil string).
  induction ps as [|[k f] ps IH]; intros done Hd Hv; simpl; [by rewrite app_nil_r|].
  assert (getDefaultValue f = JStr "") as -> by (apply (Hv (k, f)); left).
  assert (Hs : jm_set k (JStr "") (jm_tab (fun _ => JStr "") done) = jm_tab (fun _ => JStr "") (done ++ [k])).
  { rewrite jm_set_snoc; [unfold jm_tab; by rewrite fmap_app|]. rewrite jm_keys_tab.
    apply NoDup_app in Hd as (_ & Hd & _). intros Hin. apply (Hd k Hin). left. }
  rewrite Hs, IH; [by rewrite <-app_assoc| by rewrite <-app_assoc|]. intros e He. apply Hv. by right.
Qed.

(** ** A form on a new block *)

Lemma form_typed_default m :
  NoDup (jm_keys (mf_inputs m ⁇ [])) -> form_typed m (default_data (manifestToFormSchema m)).
Proof.
  intros Hnd. rewrite default_data_spec by done. split; [by rewrite jm_keys_tab|].
  intros k v Hv. apply jm_get_elem in Hv. apply list_elem_of_fmap in Hv as (k' & Heq & Hk). simplify_eq.
  unfold scalar_names in Hk. apply list_elem_of_fmap in Hk as ([k d] & -> & Hk). simpl.
  apply elem_of_js_filter in Hk as [Hs Hin]. exists d. split; [by apply elem_jm_get|]. split; [done|].
  unfold form_value. destruct (pt_type d); eauto.
Qed.

Lemma form_typed_change m data key field c mv text :
  NoDup (jm_keys (mf_inputs m ⁇ [])) -> form_typed m data ->
  jm_get key (mf_inputs m ⁇ []) ≫= scalar_field = Some field -> c ∈ controls field ->
  form_typed m (jm_set key (emitted c mv text) data).
Proof.
  intros Hnd [Hk Hv] Hf Hc. apply bind_Some in Hf as (decl & Hd & Hf).
  assert (Hs : isScalar decl = true) by (apply isScalar_field; eauto).
  assert (Hin : key ∈ jm_keys data).
  { rewrite Hk. unfold scalar_names. apply list_elem_of_fmap. exists (key, decl). split; [done|].
    apply elem_of_js_filter. split; [done|]. by apply jm_get_elem. }
  split.
  - rewrite jm_keys_set, bool_decide_eq_true_2 by done. exact Hk.
  - intros k v. rewrite jm_get_set. case_bool_decide as Heq; [|apply Hv]. intros Hval. simplify_eq.
    exists decl. split; [done|]. split; [done|]. apply scalar_field_type in Hf as [He Ht].
    unfold controls in Hc. rewrite He, Ht in Hc. unfold form_value.
    destruct (pt_type decl) eqn:Htype; try done; simpl in Hc; apply list_elem_of_singleton in Hc as ->; simpl; eauto.
Qed.

(** The invariant of a form on a new block: the form's object and the object the
    editor will submit, each typed for its own manifest. *)
Record new_form_inv (ed : EditorState) (g : option BlockManifest * option BlockManifest) : Prop := {
  nf_target : ed_targetId ed = None;
  nf_first : ed_objects ed !! 0 = Some [];
  nf_shown : match g.1 with
             | None => ed_schema ed = None /\ ed_form ed = None
             | Some m => NoDup (jm_keys (mf_inputs m ⁇ [])) /\ ed_schema ed = Some (manifestToFormSchema m) /\
                 exists n data, ed_form ed = Some (FormObj (S n)) /\ ed_objects ed !! S n = Some data /\ form_typed m data
             end;
  nf_touched : match g.2 with
               | None => ed_formData ed = FormObj 0
               | Some m => NoDup (jm_keys (mf_inputs m ⁇ [])) /\ exists n data, ed_formData ed = FormObj (S n) /\ ed_objects ed !! S n = Some data /\
                   form_typed m data /\ (ed_form ed = Some (FormObj (S n)) -> g.1 = Some m)
               end }.

Lemma new_form_step st ed g ev :
  new_form_inv ed g -> loads_typed [ev] ->
  (ed_step (st, ed) ev).1 = st /\ new_form_inv (ed_step (st, ed) ev).2 (touched_step g ev).
Proof.
  intros [Ht H0 Hs Hd] Hload. destruct g as [shown last]. simpl in Hs, Hd. destruct ev as [item|m|key c text|]; simpl.
  - split; [done|]. by split.
  - unfold initializeFormData. rewrite Ht. simpl. split; [done|].
    assert (Hnd : NoDup (jm_keys (mf_inputs m ⁇ []))) by (apply Hload; left).
    split; simpl; [done| | |].
    + rewrite lookup_app_l; [done|]. by eapply lookup_lt_Some.
    + split; [done|]. split; [done|]. destruct (ed_objects ed) as [|o os] eqn:Ho; [done|]. simpl.
      exists (length os), (default_data (manifestToFormSchema m)). split; [done|].
      split; [|by apply form_typed_default]. rewrite lookup_app_r by done. by rewrite Nat.sub_diag.
    + destruct last as [m'|]; [|done]. destruct Hd as (Hnd' & n & data & Hfd & Hobj & Hty & _).
      split; [done|]. exists n, data. split; [done|]. split; [by apply lookup_app_l_Some|]. split; [done|].
      intros Heq. injection Heq as Heq. apply lookup_lt_Some in Hobj. lia.
  - destruct shown as [m|]; [|destruct Hs as [Hs1 Hs2]; rewrite Hs1; simpl; split; [done|]; by split].
    destruct Hs as (Hnd & Hsch & n & data & Hform & Hobj & Hty). rewrite Hsch. simpl.
    rewrite form_schema_get, Hform by done. pose proof (eq_refl (takes_change m key c)) as Htc.
    unfold takes_change at 2 in Htc.
    destruct (jm_get key (mf_inputs m ⁇ []) ≫= scalar_field) as [field|] eqn:Hf.
    2:{ split; [done|]. split; simpl; rewrite ?Htc; eauto 10. }
    case_bool_decide as Hc; simpl in Htc; rewrite ?bool_decide_eq_true_2, ?bool_decide_eq_false_2 in Htc by done.
    2:{ split; [done|]. split; simpl; rewrite ?Htc; eauto 10. }
    unfold updateField. rewrite ?Hform. split; [done|].
    set (v := emitted _ _ _).
    assert (Hnew : alter (jm_set key v) (S n) (ed_objects ed) !! S n = Some (jm_set key v data))
      by (by rewrite list_lookup_alter_eq, Hobj).
    assert (Hty' : form_typed m (jm_set key v data)) by (by eapply form_typed_change).
    split; simpl; [done| | |].
    + by rewrite list_lookup_alter_ne.
    + split; [done|]. split; [done|]. eauto.
    + rewrite Htc. eauto 10.
  - destruct shown as [m|]; [|destruct Hs as [Hsch Hf]; rewrite Hf; split; [done|]; by split].
    destruct Hs as (Hnd & Hsch & n & data & Hform & Hobj & Hty). rewrite Hform. split; [done|].
    split; simpl; [done|done| |]; eauto 10.
Qed.

Lemma new_form_run st ed g tr :
  new_form_inv ed g -> loads_typed tr ->
  let s := foldl ed_step (st, ed) tr in s.1 = st /\ new_form_inv s.2 (foldl touched_step g tr).
Proof.
  revert ed g. induction tr as [|ev tr IH]; intros ed g Hinv Hload; [done|].
  destruct (new_form_step st ed g ev Hinv) as [Hst Hinv'].
  { intros m Hm%list_elem_of_singleton. apply Hload. rewrite Hm. left. }
  cbn [foldl]. destruct (ed_step (st, ed) ev) as [st' ed']. cbn [fst snd] in Hst, Hinv'. subst st'.
  apply IH; [done|]. intros m Hm. apply Hload. by right.
Qed.

Lemma selected_step s ev :
  ed_targetId (ed_step s ev).2 = ed_targetId s.2 /\
  ed_selected (ed_step s ev).2 = match ev with Pick item => Some item | _ => ed_selected s.2 end.
Proof.
  destruct s as [st ed]. destruct ev as [item|m|key c text|]; simpl; try done.
  - unfold initializeFormData. by destruct (ed_targetId ed).
  - destruct (_ ≫= _) as [f|]; [|done]. destruct (ed_form ed) as [r|] eqn:Hr; [|done].
    case_bool_decide; [|done]. unfold updateField. rewrite ?Hr. by destruct r.
  - by destruct (ed_form ed).
Qed.

Lemma selected_run s tr :
  ed_targetId (foldl ed_step s tr).2 = ed_targetId s.2 /\
  ed_selected (foldl ed_step s tr).2 = picked_from (ed_selected s.2) tr.
Proof.
  unfold picked_from. revert s. induction tr as [|ev tr IH]; intros s; [done|]. cbn [foldl].
  destruct (IH (ed_step s ev)) as [-> ->]. by destruct (selected_step s ev) as [-> ->].
Qed.

(** Scalar arguments that are all present pass validation. *)
Lemma form_typed_checked m data id name :
  NoDup (jm_keys (mf_inputs m ⁇ [])) -> form_typed m data ->
  ((mf_inputs m ⁇ []) ≫= check_arg (mkBlock id name None (Some data))) = [].
Proof.
  intros Hnd [Hk _]. apply bind_nil_iff. intros [k d] Hin. unfold check_arg. simpl.
  destruct (isScalar d) eqn:Hs; [|done]. simpl. assert (js_in k data = true) as ->; [|done].
  unfold js_in. apply orb_true_iff. left. apply jm_has_true. rewrite Hk. unfold scalar_names.
  apply list_elem_of_fmap. exists (k, d). split; [done|]. by apply elem_of_js_filter.
Qed.

(** C19. A block added through the editor.  Whatever the user does in the form of a new
    block, submitting adds one node of the block picked last, and cancelling adds
    nothing.  If nothing was changed in the form the node has no arguments at all;
    otherwise it has exactly one for each scalar input of the manifest whose form was
    shown at the last change, text for strings and also for numbers, a boolean (or the
    initial empty text) for booleans, so the check for missing arguments passes; that
    manifest need not be the one of the block picked last. *)
Theorem new_block_arguments blocks st tr v7 rx ry :
  loads_typed tr ->
  let s := foldl ed_step (st, mountEditor None blocks st) tr in
  handleCancel s = st /\
  exists args,
    handleSubmit v7 rx ry s =
      mkFlow (nodes st ++ [mkNode v7 "block" (rx * 400, 100 + ry * 400)%Q
                (Some (mkNodeData (Some ((bl_label <$> picked tr) ⁇ "")) (Some ((bl_name <$> picked tr) ⁇ "")) (Some args)))])
        (edges st) (pipelineMeta st) /\
    match touched tr with
    | None => args = []
    | Some m => form_typed m args /\
        ((mf_inputs m ⁇ []) ≫= check_arg (mkBlock v7 ((bl_name <$> picked tr) ⁇ "") None (Some args))) = []
    end.
Proof.
  intros Hload s. set (ed0 := mountEditor None blocks st).
  assert (H0 : new_form_inv ed0 (None, None)) by (split; done).
  destruct (new_form_run st ed0 (None, None) tr H0 Hload) as [Hst [Ht Hfirst Hshown Htouched]].
  destruct (selected_run (st, ed0) tr) as [_ Hsel]. change (foldl ed_step (st, ed0) tr) with s in *.
  clearbody s. destruct s as [st1 ed]. cbn [fst snd] in *. subst st1. split; [done|].
  assert (picked tr = ed_selected ed) as -> by (by rewrite Hsel).
  unfold handleSubmit. rewrite Ht. unfold touched. destruct (foldl touched_step _ tr) as [g [m|]] eqn:Eg; cbn [fst snd] in *.
  - destruct Htouched as (Hnd & n & data & -> & Hobj & Hty & _). cbn [deref]. rewrite Hobj.
    exists data. split; [done|]. split; [done|]. by apply form_typed_checked.
  - rewrite Htouched. cbn [deref]. rewrite Hfirst. exists []. done.
Qed.

(** ** A form on a node of the graph *)

(** The node with other arguments. *)
Definition node_with (args : ArgKeyValueStore) (n : Node) : Node :=
  mkNode (n_id n) (n_type n) (n_position n)
    ((fun d => mkNodeData (nd_label d) (nd_name d) (Some args)) <$> n_data n).

Definition with_args (id : string) (args : ArgKeyValueStore) (st : FlowState) : FlowState :=
  match findIndex (fun n => n_id n === id) (nodes st) with
  | None => st
  | Some i => mkFlow (alter (node_with args) i (nodes st)) (edges st) (pipelineMeta st)
  end.

(** The arguments after the changes of [tr], as a fold. *)
Definition edit_step (g : option BlockManifest * ArgKeyValueStore) (ev : EdEvent)
    : option BlockManifest * ArgKeyValueStore :=
  (shown_step g.1 ev,
   match ev, g.1 with
   | Change key c text, Some m =>
       if takes_change m key c then jm_set key (emitted c (jm_get key g.2) text) g.2 else g.2
   | _, _ => g.2
   end).

Definition edited (args : ArgKeyValueStore) (tr : list EdEvent) : ArgKeyValueStore :=
  (foldl edit_step (None, args) tr).2.

Lemma findIndex_alter {A} (p : A -> bool) (g : A -> A) l i :
  (forall x, p (g x) = p x) -> findIndex p (alter g i l) = findIndex p l.
Proof.
  intros Hg. revert i. induction l as [|x l IH]; intros i; [done|].
  destruct i as [|i]; simpl; [by rewrite Hg|]. destruct (p x); [done|]. f_equal. apply IH.
Qed.

Lemma findIndex_lookup {A} (p : A -> bool) l i :
  findIndex p l = Some i -> exists x, l !! i = Some x /\ js_find p l = Some x.
Proof.
  revert i. induction l as [|x l IH]; intros i Hi; simpl in *; [done|].
  destruct (p x); simplify_eq/=; [eauto|]. destruct (findIndex p l) as [j|]; simplify_eq/=. by apply IH.
Qed.

Section SavedNode.
Context (st : FlowState) (id : string) (args0 : ArgKeyValueStore).
Context (Hargs : getArgsById st id = Some args0).

Lemma saved_node : exists i n d, findIndex (fun n => n_id n === id) (nodes st) = Some i /\
  nodes st !! i = Some n /\ n_data n = Some d /\ nd_args d = Some args0.
Proof.
  unfold getArgsById, findNode in Hargs. destruct (findIndex _ _) as [i|] eqn:Hi.
  - apply findIndex_lookup in Hi as (n & Hn & Hf). rewrite Hf in Hargs. simpl in Hargs.
    destruct (n_data n) as [d|] eqn:Hd; [|done]. eauto 10.
  - apply findIndex_None in Hi. by rewrite Hi in Hargs.
Qed.

Lemma with_args_self : with_args id args0 st = st.
Proof.
  destruct saved_node as (i & n & d & Hi & Hn & Hd & Ha). unfold with_args. rewrite Hi.
  destruct st as [ns es m]. simpl in *. f_equal. apply list_eq. intros j.
  destruct (decide (i = j)) as [<-|Hne]; [|by rewrite list_lookup_alter_ne].
  rewrite list_lookup_alter_eq, Hn. simpl. destruct n as [? ? ? data]. simpl in *. subst data.
  destruct d. simpl in *. by subst.
Qed.

Lemma get_with_args args : getArgsById (with_args id args st) id = Some args.
Proof.
  destruct saved_node as (i & n & d & Hi & Hn & Hd & Ha). unfold with_args, getArgsById, findNode.
  rewrite Hi. simpl. rewrite (js_find_alter_eq _ (node_with args) _ i) by done.
  apply findIndex_lookup in Hi as (n' & Hn' & ->). rewrite Hn in Hn'. simplify_eq. simpl. by rewrite Hd.
Qed.

Lemma alter_compose_here {A} (f g h : A -> A) (l : list A) i x :
  l !! i = Some x -> f (g x) = h x -> alter f i (alter g i l) = alter h i l.
Proof.
  intros Hx Hfg. apply list_eq. intros j. destruct (decide (i = j)) as [<-|Hne].
  - by rewrite !list_lookup_alter_eq, Hx; simpl; rewrite Hfg.
  - by rewrite !list_lookup_alter_ne.
Qed.

Lemma write_with_args key v args :
  writeArg id key v (with_args id args st) = with_args id (jm_set key v args) st.
Proof.
  destruct saved_node as (i & n & d & Hi & Hn & Hd & Ha). unfold writeArg, with_args. rewrite Hi. simpl.
  rewrite (findIndex_alter _ (node_with args)), Hi by done. f_equal.
  apply (alter_compose_here _ _ _ _ i n); [done|]. unfold set_arg, node_with. simpl. by rewrite Hd.
Qed.

Lemma update_with_args label name args args' :
  updateNode id label name args' (with_args id args st) = updateNode id label name args' st.
Proof.
  destruct saved_node as (i & n & d & Hi & Hn & Hd & Ha). unfold updateNode, with_args. rewrite Hi. simpl.
  rewrite (findIndex_alter _ (node_with args)), Hi by done. do 2 f_equal.
  by apply (alter_compose_here _ _ _ _ i n).
Qed.

(** The form's object and the editor's are the object in the store. *)
Record saved_form_inv (s : FlowState * EditorState) (g : option BlockManifest * ArgKeyValueStore) : Prop := {
  sf_target : ed_targetId s.2 = Some id;
  sf_store : s.1 = with_args id g.2 st;
  sf_data : ed_formData s.2 = NodeArgs id;
  sf_shown : match g.1 with
             | None => ed_schema s.2 = None /\ ed_form s.2 = None
             | Some m => NoDup (jm_keys (mf_inputs m ⁇ [])) /\ ed_schema s.2 = Some (manifestToFormSchema m) /\
                 ed_form s.2 = Some (NodeArgs id)
             end }.

Lemma saved_form_step s g ev :
  saved_form_inv s g -> loads_typed [ev] -> saved_form_inv (ed_step s ev) (edit_step g ev).
Proof.
  destruct s as [st' ed], g as [shown args]. intros [Ht Hst Hd Hs] Hload. cbn [fst snd] in *. subst st'.
  destruct ev as [item|m|key c text|]; simpl.
  - by split.
  - unfold initializeFormData. rewrite Ht, get_with_args. split; simpl; try done.
    split; [|done]. apply Hload. left.
  - destruct shown as [m|]; [|destruct Hs as [Hs1 Hs2]; rewrite Hs1; simpl; by split].
    destruct Hs as (Hnd & Hsch & Hform). rewrite Hsch. simpl. rewrite form_schema_get, Hform by done.
    pose proof (eq_refl (takes_change m key c)) as Htc. unfold takes_change at 2 in Htc.
    destruct (jm_get key (mf_inputs m ⁇ []) ≫= scalar_field) as [field|] eqn:Hf;
      [|split; simpl; rewrite ?Htc; auto].
    case_bool_decide as Hc; simpl in Htc; rewrite ?bool_decide_eq_true_2, ?bool_decide_eq_false_2 in Htc by done;
      [|split; simpl; rewrite ?Htc; auto].
    unfold updateField. rewrite ?Hform. cbn [deref]. rewrite get_with_args.
    split; simpl; rewrite ?Htc; [done| |done|done]. apply write_with_args.
  - destruct shown as [m|].
    + destruct Hs as (Hnd & Hsch & Hform). rewrite Hform. by split.
    + destruct Hs as [Hs1 Hs2]. rewrite Hs2. by split.
Qed.

Lemma saved_form_run s g tr :
  saved_form_inv s g -> loads_typed tr -> saved_form_inv (foldl ed_step s tr) (foldl edit_step g tr).
Proof.
  revert s g. induction tr as [|ev tr IH]; intros s g Hinv Hload; [done|]. cbn [foldl]. apply IH.
  - apply saved_form_step; [done|]. intros m Hm%list_elem_of_singleton. apply Hload. rewrite Hm. left.
  - intros m Hm. apply Hload. by right.
Qed.
End SavedNode.

(** Editing a node works on its arguments in place.  When the editor is opened on a
    node that has arguments, every change of a field is at once in the graph: after
    any sequence of changes, cancelling leaves the node with the changed arguments,
    the same ones submitting stores, and submitting only adds the name and label of
    the picked block. *)
Theorem edited_in_place blocks st id args0 tr v7 rx ry :
  getArgsById st id = Some args0 -> loads_typed tr ->
  let s := foldl ed_step (st, mountEditor (Some id) blocks st) tr in
  let args := edited args0 tr in
  handleCancel s = with_args id args st /\ getArgsById (handleCancel s) id = Some args /\
  let item := picked_from (ed_selected (mountEditor (Some id) blocks st)) tr in
  handleSubmit v7 rx ry s =
    (updateNode id ((bl_label <$> item) ⁇ "") ((bl_name <$> item) ⁇ "") args st).1.
Proof.
  intros Ha Hload s args.
  destruct (selected_run (st, mountEditor (Some id) blocks st) tr) as [_ Hsel].
  destruct (saved_form_run st id args0 Ha (st, mountEditor (Some id) blocks st) (None, args0) tr)
    as [Ht Hst Hd _]; [|done|].
  { split; simpl; [done|by rewrite with_args_self|by rewrite Ha|done]. }
  change (foldl ed_step (st, mountEditor (Some id) blocks st) tr) with s in Ht, Hst, Hd, Hsel. clearbody s.
  change ((foldl edit_step (None, args0) tr).2) with args in Hst. destruct s as [st' ed]. cbn [fst snd handleCancel] in *.
  subst st'. split; [done|]. split; [by eapply get_with_args|]. rewrite <-Hsel.
  unfold handleSubmit. rewrite Ht, Hd. cbn [deref]. rewrite (get_with_args st id args0 Ha). simpl.
  by rewrite (update_with_args st id args0 Ha).
Qed.

(** Clicking the check box of a boolean field that was not set: the first click
    emits [false], and from then on each click emits the negation. *)
Fixpoint clicks (n : nat) (v : Json) : Json :=
  match n with O => v | S n' => clicks n' (emitted Checkbox (Some v) "") end.

Lemma checkbox_clicks n : clicks (S n) (JStr "") = JBool (Nat.odd n).
Proof.
  assert (H : forall n b, clicks n (JBool b) = JBool (xorb b (Nat.odd n))).
  { clear n. induction n as [|n IH]; intros b; simpl; [by destruct b|].
    unfold emitted, checkbox_value, js_String. rewrite Nat.odd_succ, <-Nat.negb_odd.
    destruct b; vm_compute (bool_decide _); rewrite IH; by destruct (Nat.odd n). }
  simpl. change (emitted Checkbox (Some (JStr "")) "") with (JBool false). rewrite H. by destruct (Nat.odd n).
Qed.

(** ** A concrete form *)

Definition form_manifest : BlockManifest :=
  mkManifest "scale" "1.0.0" Standard false None None
    (Some [("image", port T_file None); ("factor", port T_number None); ("invert", port T_boolean None)]) None.

Definition form_item : BlockListItem := mkListItem "scale" "scale" "Scale" Standard false None.

Definition form_trace : list EdEvent :=
  [Pick form_item; SchemaLoaded form_manifest; Change "factor" NumberInput "2"; Change "invert" Checkbox ""].

Lemma form_trace_typed : loads_typed form_trace.
Proof.
  intros m Hm. unfold form_trace in Hm. rewrite !elem_of_cons in Hm.
  destruct Hm as [?|[Hm|[?|[?|Hm]]]]; try done; [|by apply elem_of_nil in Hm].
  injection Hm as ->. apply (bool_decide_unpack _). vm_compute. exact I.
Defined.

Lemma new_block_arguments_witness :
  loads_typed form_trace /\ touched form_trace = Some form_manifest /\
  exists args, form_typed form_manifest args /\
    nodes (handleSubmit "n1" 0 0 (foldl ed_step (initial_flow, mountEditor None [form_item] initial_flow) form_trace)) =
      [mkNode "n1" "block" (0 * 400, 100 + 0 * 400)%Q (Some (mkNodeData (Some "Scale") (Some "scale") (Some args)))].
Proof.
  split; [exact form_trace_typed|]. split; [reflexivity|].
  destruct (new_block_arguments [form_item] initial_flow form_trace "n1" 0 0 form_trace_typed)
    as (_ & args & Hsub & Hty & _).
  exists args. split; [exact Hty|]. rewrite Hsub. reflexivity.
Defined.

Definition form_session : FlowState :=
  (addNode "n1" 0 0 (mkNodeOpts "scale" "Scale" (Some [("factor", JStr "1")]) (Some 0%Q) (Some 0%Q) None) initial_flow).1.

Lemma edited_in_place_witness :
  getArgsById form_session "n1" = Some [("factor", JStr "1")] /\ loads_typed form_trace /\
  getArgsById (handleCancel (foldl ed_step (form_session, mountEditor (Some "n1") [form_item] form_session) form_trace)) "n1" =
    Some [("factor", JStr "2"); ("invert", JBool false)].
Proof.
  split; [reflexivity|]. split; [exact form_trace_typed|].
  destruct (edited_in_place [form_item] form_session "n1" [("factor", JStr "1")] form_trace "" 0 0 eq_refl form_trace_typed)
    as (_ & Hget & _).
  rewrite Hget. vm_compute. reflexivity.
Defined.
