(* ===== verification/FormTree.v ===== *)
(** * Nested fields of a form

    ([web_ui/components/SchemaField.vue] and [FormArray.vue], which render each other,
    under [SchemaForm.vue].)  A field of type array or object shows the fields of its
    rows or properties; a change in one of them is emitted to the enclosing component,
    which puts the new value into a copy of its own and emits that, up to the form. *)

From S2P Require Export Forms.

Definition f_properties (s : FieldSchema) : list (string * FieldSchema) := let 'Field _ _ _ _ p := s in p.

(** ** Positions *)

Inductive PathStep := Key (key : string) | Idx (index : nat).

#[export] Instance PathStep_eq_dec : EqDecision PathStep.
Proof. solve_decision. Defined.

(** The characters of a text, as [[...text]] gives them. *)
Fixpoint characters (s : string) : list Json :=
  match s with
  | EmptyString => []
  | String c s' => JStr (String c "") :: characters s'
  end.

(** [[...modelValue]]; an object, a number, a boolean or nothing is not iterable. *)
Definition spread_value (v : option Json) : option (list Json) :=
  match v with
  | Some (JArr l) => Some l
  | Some (JStr s) => Some (characters s)
  | _ => None
  end.

(** [{...modelValue}] and [modelValue[key]], on objects and on the empty text a new row
    may hold; the other values a field of type object does not come to hold. *)
Definition members (v : option Json) : option (jsmap Json) :=
  match v with
  | Some (JObj m) => Some m
  | Some (JStr EmptyString) => Some []
  | _ => None
  end.

Definition child (v : option Json) (p : PathStep) : option Json :=
  match p with
  | Key k => members v ≫= jm_get k
  | Idx i => spread_value v ≫= fun l => l !! i
  end.

Definition value_at (v : option Json) (path : list PathStep) : option Json := foldl child v path.

(** ** What the components emit *)

(** A control is changed, a row is added, a row is removed. *)
Inductive Action := Edit (c : Control) (text : string) | AddRow | RemoveRow (index : nat).

(** The [type] of an array's component: its own, not one of the primitive ones. *)
Definition is_array (s : FieldSchema) : bool := negb (isPrimitive s) && (f_type s === F_array).
Definition is_object (s : FieldSchema) : bool := negb (isPrimitive s) && (f_type s === F_object).

(** The value that a field of schema [s] with the value [v] emits when the user acts at
    [path] in it; [None] when there is no such control, or a handler throws. *)
Fixpoint emits (s : FieldSchema) (v : option Json) (path : list PathStep) (act : Action) : option Json :=
  match path with
  | [] =>
      match act with
      | Edit c text => if isPrimitive s && bool_decide (c ∈ controls s) then Some (emitted c v text) else None
      | AddRow =>
          if is_array s then items ← f_items s; l ← spread_value v; Some (JArr (addItem items l)) else None
      | RemoveRow i =>
          if is_array s then
            _ ← f_items s; l ← spread_value v;
            if bool_decide (i < length l) then Some (JArr (removeItem i l)) else None
          else None
      end
  | Idx i :: path' =>
      if is_array s then
        items ← f_items s; l ← spread_value v; item ← l !! i;
        val ← emits items (Some item) path' act;
        Some (JArr (updateItem i val l))
      else None
  | Key k :: path' =>
      if is_object s then
        sub ← jm_get k (f_properties s); m ← members v;
        val ← emits sub (jm_get k m) path' act;
        Some (JObj (updateObjectField k val m))
      else None
  end.

(** ** A change is a change at one position *)

(** Neither position lies in the other. *)
Definition apart (p q : list PathStep) : Prop := ~ p `prefix_of` q /\ ~ q `prefix_of` p.

Lemma apart_cons x p q : apart (x :: p) (x :: q) -> apart p q.
Proof. intros [H1 H2]. split; intros Hp; [apply H1|apply H2]; by apply prefix_cons. Qed.

Lemma update_in_range i val (l : list Json) : i < length l -> updateItem i val l = <[i := val]> l.
Proof. intros Hi. unfold updateItem. by rewrite bool_decide_true. Qed.

Lemma child_update i val l p :
  i < length l ->
  child (Some (JArr (updateItem i val l))) p = if bool_decide (p = Idx i) then Some val else child (Some (JArr l)) p.
Proof.
  intros Hi. rewrite update_in_range by done. destruct p as [k|j]; simpl; [done|].
  case_bool_decide as Hj; [injection Hj as ->; by apply list_lookup_insert_eq|].
  apply list_lookup_insert_ne. congruence.
Qed.

Lemma child_set k val m p :
  child (Some (JObj (updateObjectField k val m))) p = if bool_decide (p = Key k) then Some val else child (Some (JObj m)) p.
Proof.
  destruct p as [k'|j]; simpl; [|done]. unfold updateObjectField. rewrite jm_get_set.
  repeat case_bool_decide; congruence.
Qed.

(** The children of a value are those of its copy. *)
Lemma child_spread v l p : spread_value v = Some l -> child v p = child (Some (JArr l)) p.
Proof.
  destruct v as [[| | |t|l'|]|]; simpl; try done; intros Hl; injection Hl as <-; destruct p as [k|j]; try done.
  by destruct t.
Qed.

Lemma child_members v m p : members v = Some m -> child v p = child (Some (JObj m)) p.
Proof.
  destruct v as [[| | |[|]| |m']|]; simpl; try done; intros Hm; injection Hm as <-; by destruct p.
Qed.

(** The schema of the field at a position. *)
Definition sub_schema (s : FieldSchema) (p : PathStep) : option FieldSchema :=
  match p with
  | Key k => if is_object s then jm_get k (f_properties s) else None
  | Idx _ => if is_array s then f_items s else None
  end.

Fixpoint schema_at (s : FieldSchema) (path : list PathStep) : option FieldSchema :=
  match path with
  | [] => Some s
  | p :: path' => sub_schema s p ≫= fun s' => schema_at s' path'
  end.

(** One level: the field inside emits, and its value takes the place of the old one. *)
Lemma emits_cons s v p path act v' :
  emits s v (p :: path) act = Some v' ->
  exists s' val, sub_schema s p = Some s' /\ emits s' (child v p) path act = Some val /\
    child (Some v') p = Some val /\ (forall p', p' <> p -> child (Some v') p' = child v p').
Proof.
  destruct p as [k|i]; simpl.
  - destruct (is_object s); [|done]. destruct (jm_get k (f_properties s)) as [sub|]; simpl; [|done].
    destruct (members v) as [m|] eqn:Hm; simpl; [|done].
    destruct (emits sub (jm_get k m) path act) as [val|] eqn:He; simpl; [|done]. intros [= <-].
    exists sub, val. split; [done|]. split; [done|]. split.
    + pose proof (child_set k val m (Key k)) as Hc. by rewrite bool_decide_true in Hc.
    + intros p' Hp. rewrite child_set, bool_decide_false by done. symmetry. by apply child_members.
  - destruct (is_array s); [|done]. destruct (f_items s) as [items|]; simpl; [|done].
    destruct (spread_value v) as [l|] eqn:Hl; simpl; [|done]. destruct (l !! i) as [item|] eqn:Hi; simpl; [|done].
    destruct (emits items (Some item) path act) as [val|] eqn:He; simpl; [|done]. intros [= <-].
    apply lookup_lt_Some in Hi as Hlt. exists items, val. split; [done|]. split; [done|]. split.
    + pose proof (child_update i val l (Idx i) Hlt) as Hc. by rewrite bool_decide_true in Hc.
    + intros p' Hp. rewrite child_update, bool_decide_false by done. symmetry. by apply child_spread.
Qed.

(** Acting on a nested field changes the value at its position, as the component there says, and at
    no position apart from it. *)
Theorem nested_change s v path act v' :
  emits s v path act = Some v' ->
  exists s' w, schema_at s path = Some s' /\ emits s' (value_at v path) [] act = Some w /\
    value_at (Some v') path = Some w /\ (forall q, apart path q -> value_at (Some v') q = value_at v q).
Proof.
  revert s v v'. induction path as [|p path IH]; intros s v v' Hrun.
  - exists s, v'. do 3 (split; [done|]). intros q [Hq _]. destruct Hq. apply prefix_nil.
  - apply emits_cons in Hrun as (s1 & val & Hs1 & Hin & Hval & Hother).
    destruct (IH s1 (child v p) val Hin) as (s' & w & Hs' & Hw & Hat & Hapart). exists s', w.
    simpl. rewrite Hs1, Hval. do 3 (split; [done|]). intros [|p' q] Hq.
    + destruct Hq as [_ Hq]. destruct Hq. apply prefix_nil.
    + unfold value_at. simpl. destruct (decide (p' = p)) as [->|Hne].
      * rewrite Hval. by apply Hapart, (apart_cons p).
      * by rewrite Hother.
Qed.

(** The form puts the new value of a property into its data ([SchemaForm.vue], [updateField]). *)
Definition form_change (schema : FormSchema) (data : ArgKeyValueStore) (key : string) (path : list PathStep)
    (act : Action) : option ArgKeyValueStore :=
  s ← jm_get key (fs_properties schema);
  val ← emits s (jm_get key data) path act;
  Some (jm_set key val data).

(** On the scalar fields of a block's form this is the change of a control. *)
Lemma form_change_scalar schema data key s c text :
  jm_get key (fs_properties schema) = Some s -> isPrimitive s = true -> c ∈ controls s ->
  form_change schema data key [] (Edit c text) = Some (jm_set key (emitted c (jm_get key data) text) data).
Proof. intros Hs Hp Hc. unfold form_change. rewrite Hs. simpl. by rewrite Hp, bool_decide_true. Qed.

(** ** The row an array adds *)

Definition plain_field (t : FieldType) (items : option FieldSchema) : FieldSchema := Field t None None items [].
Definition array_of (items : FieldSchema) : FieldSchema := plain_field F_array (Some items).

(** The component of an array gets the schema of the rows, and looks at the [items] of
    that: a row of objects starts as a text, and one of arrays of objects as an object, on
    which every further row throws. *)
Theorem added_rows properties l :
  let object := Field F_object None None None properties in
  emits (array_of object) (Some (JArr l)) [] AddRow = Some (JArr (l ++ [JStr ""])) /\
  emits (array_of (array_of object)) (Some (JArr l)) [] AddRow = Some (JArr (l ++ [JObj []])) /\
  emits (array_of (array_of object)) (Some (JArr (l ++ [JObj []]))) [Idx (length l)] AddRow = None.
Proof.
  simpl. split; [done|]. split; [done|]. rewrite lookup_app_r by done. rewrite Nat.sub_diag. done.
Qed.
