(* ===== verification/ImportExport.v ===== *)
(** * Importing a pipeline and exporting it again ([web_ui/composables/useFlow.ts])

    The editor draws one edge per pair of blocks, so the references of a block are
    regrouped on import; [canonical_inputs] says how, without the maps, the sets and
    the edges, and the round trip is proved against it. *)

From S2P Require Export Flow Regex.

(** ** The canonical form of a block's references *)

Definition bare_ref (r : InputRef) : option string := match r with Bare u => Some u | _ => None end.
Definition explicit_ref (r : InputRef) : option string :=
  match r with Explicit u _ => Some u | _ => None end.
Definition output_of (u : string) (r : InputRef) : option string :=
  match r with Explicit u' o => if u' === u then Some o else None | _ => None end.

Definition refs (b : Block) : list InputRef := b_inputs b ⁇ [].
Definition bares (l : list InputRef) : list string := js_set_of (omap bare_ref l).
Definition uppers (l : list InputRef) : list string := js_set_of (omap explicit_ref l).
Definition outputs (l : list InputRef) (u : string) : list string := omap (output_of u) l.

(** The references to [u]: its named outputs in order, or [u] itself when none is named. *)
Definition refs_to (l : list InputRef) (u : string) : list InputRef :=
  match outputs l u with [] => [Bare u] | os => Explicit u <$> os end.

Definition canonical_inputs (l : list InputRef) : list InputRef :=
  (bares l ++ filter (fun u => u ∉ bares l) (uppers l)) ≫= refs_to l.

Definition canonical_block (b : Block) : Block :=
  mkBlock (b_id b) (b_name b) (Some (canonical_inputs (refs b))) (Some (b_args b ⁇ [])).

(** ** What the import builds *)

Definition binding (o : string) : Binding := mkBinding o "".

Lemma outputs_nil l u : u ∉ uppers l -> outputs l u = [].
Proof.
  intros Hu. unfold outputs. destruct (omap (output_of u) l) as [|o' os] eqn:E; [done|]. destruct Hu.
  assert (o' ∈ omap (output_of u) l) as Ho by (rewrite E; left).
  apply list_elem_of_omap in Ho as ([|u' o''] & Hr & Ho); simpl in Ho; [done|].
  case_bool_decide; simplify_eq. unfold uppers. rewrite elem_js_set_of.
  apply list_elem_of_omap. eexists. split; [exact Hr | done].
Qed.

Lemma outputs_snoc l r u :
  outputs (l ++ [r]) u = outputs l u ++ match output_of u r with Some o => [o] | None => [] end.
Proof. unfold outputs. rewrite omap_app. simpl. by destruct (output_of u r). Qed.

Lemma group_refs_spec l :
  foldl group_ref ([], []) l = (bares l, jm_tab (fun u => binding <$> outputs l u) (uppers l)).
Proof.
  induction l as [|r l IH] using rev_ind; [done|]. rewrite foldl_app, IH. simpl.
  unfold bares, uppers. rewrite !omap_app. destruct r as [u|u o]; simpl.
  - rewrite app_nil_r, js_set_of_snoc. f_equal. apply jm_tab_ext. intros v _.
    rewrite outputs_snoc. simpl. by rewrite app_nil_r.
  - rewrite app_nil_r, js_set_of_snoc. fold (uppers l). f_equal.
    rewrite jm_set_tab by (unfold uppers; auto with spade). apply jm_tab_ext. intros v _.
    rewrite outputs_snoc, jm_get_tab. simpl. rewrite fmap_app.
    destruct (decide (v = u)) as [->|Hv].
    + rewrite !eqb_refl_js. simpl. case_bool_decide as Hu; [done|]. by rewrite outputs_nil.
    + rewrite !eqb_ne_js by congruence. simpl. by rewrite app_nil_r.
Qed.

(** ** The edges of one block *)

Definition drawn (f : string -> EdgeData) (id u : string) : Edge := mkEdge (edge_id u id) u id (Some (f u)).

Definition no_bindings : EdgeData := mkEdgeData None (Some false).
Definition group_data (l : list InputRef) (u : string) : EdgeData :=
  if bool_decide (u ∈ uppers l) then mkEdgeData (Some (binding <$> outputs l u)) (Some false)
  else no_bindings.

Definition block_edges (b : Block) : list Edge :=
  drawn (group_data (refs b)) (b_id b) <$>
    bares (refs b) ++ filter (fun u => u ∉ bares (refs b)) (uppers (refs b)).

Lemma edge_id_source u v id : edge_id u id = edge_id v id -> u = v.
Proof. unfold edge_id. apply string_app_inj_r. Qed.

(** The edges already there are not to this block. *)
Section OneBlock.
Context (id : string) (old : list Edge).
Context (Hold : forall e, e ∈ old -> e_id e = edge_id (e_source e) (e_target e)).
Context (ok : string -> Prop).
Context (Hne : forall e u, e ∈ old -> ok u -> e_id e <> edge_id u id).

Definition with_edges (ns : list Node) (m : Meta) (us : list string) (f : string -> EdgeData) : FlowState :=
  mkFlow ns (old ++ (drawn f id <$> us)) m.

Lemma connect_drawn ns m us f u :
  ok u -> f u = no_bindings \/ u ∈ us ->
  connect u id (with_edges ns m us f) = with_edges ns m (js_add u us) f.
Proof.
  intros Hok Hf. unfold connect, with_edges, js_add. simpl. case_bool_decide as Hu.
  - assert (js_some (fun e => e_id e === edge_id u id) (old ++ (drawn f id <$> us)) = true) as ->; [|done].
    apply js_some_true. exists (drawn f id u). split; [|by bool_prop].
    apply elem_of_app. right. by apply list_elem_of_fmap_2.
  - assert (js_some (fun e => e_id e === edge_id u id) (old ++ (drawn f id <$> us)) = false) as ->.
    { apply js_some_false. intros e [He|He]%elem_of_app; bool_prop; [by apply Hne|].
      apply list_elem_of_fmap in He as (v & -> & Hv). simpl. intros Heq%edge_id_source. by subst. }
    rewrite fmap_app, app_assoc. destruct Hf as [Hf|]; [|done]. simpl. unfold drawn at 3. by rewrite Hf.
Qed.

Lemma connect_all ns m us us' f :
  (forall u, f u = no_bindings) -> (forall u, u ∈ us' -> ok u) ->
  foldl (fun st u => connect u id st) (with_edges ns m us f) us' =
    with_edges ns m (foldl (fun s x => js_add x s) us us') f.
Proof.
  intros Hf. revert us. induction us' as [|u us' IH]; intros us Hok; simpl; [done|].
  rewrite connect_drawn; [|apply Hok; left|by left]. apply IH. intros v Hv. apply Hok. by right.
Qed.

(** Writing the first element that satisfies [p] is writing all of them when
    only one can. *)
Lemma alter_unique {A} (p : A -> bool) (g : A -> A) l i :
  findIndex p l = Some i -> (forall j k x y, l !! j = Some x -> l !! k = Some y -> p x = true -> p y = true -> j = k) ->
  alter g i l = (fun x => if p x then g x else x) <$> l.
Proof.
  revert i. induction l as [|x l IH]; intros i Hi Hu; simpl in *; [done|].
  destruct (p x) eqn:Hp; simplify_eq/=.
  - f_equal. symmetry. apply list_fmap_fixed. intros y Hy. apply list_elem_of_lookup in Hy as [k Hk].
    destruct (p y) eqn:Hpy; [|done]. by specialize (Hu 0 (S k) x y eq_refl Hk Hp Hpy).
  - destruct (findIndex p l) as [j|]; simplify_eq/=. f_equal. apply IH; [done|].
    intros j' k y z Hj Hk Hy Hz. specialize (Hu (S j') (S k) y z Hj Hk Hy Hz). lia.
Qed.

Lemma write_drawn ns m us f u d :
  NoDup us -> u ∈ us -> ok u ->
  writeEdgeData u id d (with_edges ns m us f) =
    with_edges ns m us (fun v => if v === u then d else f v).
Proof.
  intros Hnd Hu Hok. unfold writeEdgeData, with_edges. simpl.
  assert (Hp_old : forall e, e ∈ old -> is_edge u id e = false).
  { intros e He. apply not_true_iff_false. intros [Hs Ht]%is_edge_true.
    apply (Hne e u He Hok). by rewrite (Hold e He), Hs, Ht. }
  destruct (findIndex _ _) as [i|] eqn:Hi.
  - rewrite (alter_unique (is_edge u id)); [|done|].
    + rewrite fmap_app. do 2 f_equal.
      * apply list_fmap_fixed. intros e He. by rewrite Hp_old.
      * rewrite <-list_fmap_compose. apply list_fmap_ext. intros k v _. unfold drawn, is_edge. simpl.
        rewrite eqb_refl_js, andb_true_r. by case_bool_decide.
    + assert (Hpos : forall j e, (old ++ (drawn f id <$> us)) !! j = Some e -> is_edge u id e = true ->
        length old <= j /\ us !! (j - length old) = Some u).
      { intros j e Hj Hp. apply lookup_app_Some in Hj as [Hj|[Hlen Hj]].
        - apply list_elem_of_lookup_2 in Hj. rewrite Hp_old in Hp; done.
        - rewrite list_lookup_fmap in Hj. destruct (us !! (j - length old)) as [v|]; simplify_eq/=.
          apply is_edge_true in Hp as [Hp _]. simpl in Hp. by subst. }
      intros j k x y Hj Hk Hx Hy. destruct (Hpos j x Hj Hx) as [? H1], (Hpos k y Hk Hy) as [? H2].
      pose proof (NoDup_lookup us _ _ u Hnd H1 H2). lia.
  - apply findIndex_None in Hi. rewrite js_find_None in Hi.
    specialize (Hi (drawn f id u)). unfold is_edge in Hi. simpl in Hi.
    rewrite !eqb_refl_js in Hi. discriminate Hi. apply elem_of_app. right.
    by apply list_elem_of_fmap_2.
Qed.

(** The grouped references, one after the other. *)
Lemma connect_groups ns m us f groups :
  NoDup us -> NoDup (jm_keys groups) ->
  (forall u, u ∉ us -> f u = no_bindings) -> (forall u, u ∈ jm_keys groups -> ok u) ->
  foldl (fun st e => writeEdgeData e.1 id (mkEdgeData (Some e.2) (Some false)) (connect e.1 id st))
      (with_edges ns m us f) groups =
    with_edges ns m (foldl (fun s x => js_add x s) us (jm_keys groups))
      (fun u => match jm_get u groups with
                | Some bs => mkEdgeData (Some bs) (Some false)
                | None => f u
                end).
Proof.
  revert us f. induction groups as [|[u bs] groups IH]; intros us f Hnd Hk Hf Hok; [done|].
  apply NoDup_fmap_cons_inv in Hk as [Hu Hk]. simpl in Hu. simpl foldl.
  assert (Hoku : ok u) by (apply Hok; left).
  rewrite connect_drawn; [|done|].
  2:{ destruct (decide (u ∈ us)); [by right | left; auto]. }
  rewrite write_drawn; [|by apply NoDup_js_add|apply elem_js_add; by left|done].
  rewrite IH; [|by apply NoDup_js_add|done| |intros v Hv; apply Hok; by right].
  - unfold with_edges. do 2 f_equal. apply list_fmap_ext. intros i v _. unfold drawn. do 2 f_equal.
    destruct (decide (u = v)) as [->|Huv].
    + rewrite !eqb_refl_js. apply jm_get_None in Hu. unfold jm_keys in *. simpl.
      rewrite eqb_refl_js. by rewrite Hu.
    + simpl. rewrite (eqb_ne_js u v), (eqb_ne_js v u) by congruence. done.
  - intros v Hv. rewrite elem_js_add in Hv. rewrite eqb_ne_js by tauto. apply Hf. tauto.
Qed.

(** Importing one block adds its edges after those already there. *)
Lemma connectBlock_edges ns m b :
  b_id b = id -> (forall u, u ∈ bares (refs b) \/ u ∈ uppers (refs b) -> ok u) ->
  connectBlock (mkFlow ns old m) b = mkFlow ns (old ++ block_edges b) m.
Proof.
  intros Hid Hok. unfold connectBlock, group_refs. fold (refs b). rewrite group_refs_spec, Hid.
  assert (mkFlow ns old m = with_edges ns m [] (fun _ => no_bindings)) as ->
    by (unfold with_edges; by rewrite app_nil_r).
  rewrite connect_all; [|done|auto].
  assert (Hnb : NoDup (bares (refs b))) by (unfold bares; auto with spade).
  assert (Hnu : NoDup (uppers (refs b))) by (unfold uppers; auto with spade).
  rewrite (foldl_js_add (bares (refs b)) []) by done. simpl.
  rewrite (filter_all (fun x => x ∉ [])) by (intros; apply not_elem_of_nil).
  rewrite connect_groups; [|done|by rewrite jm_keys_tab|done|rewrite jm_keys_tab; auto].
  rewrite jm_keys_tab, foldl_js_add by done.
  unfold with_edges, block_edges. do 2 f_equal. rewrite Hid. apply list_fmap_ext. intros i u _.
  unfold drawn, group_data. do 2 f_equal. rewrite jm_get_tab. by case_bool_decide.
Qed.
End OneBlock.

(** ** The whole import *)

(** An id without the character that ends the arrow in an edge id. *)
Definition plain (s : string) : bool := char_free (Ascii.ascii_of_nat 62) s.

Lemma edge_id_inj s t u v :
  plain s = true -> plain u = true -> edge_id s t = edge_id u v -> s = u /\ t = v.
Proof.
  unfold plain, edge_id. intros Hs Hu Heq.
  assert (forall x y, x +:+ "->" +:+ y = (x +:+ "-") +:+ String (Ascii.ascii_of_nat 62) y) as Hsep
    by (intros; by rewrite <-string_app_assoc).
  rewrite !Hsep in Heq. apply split_char_inj in Heq as [Heq ->].
  - apply string_app_inj_r in Heq. done.
  - unfold char_free in *. rewrite all_chars_app, Hs. done.
  - unfold char_free in *. rewrite all_chars_app, Hu. done.
Qed.

Definition plain_refs (blocks : list Block) : Prop :=
  forall b r, b ∈ blocks -> r ∈ refs b -> plain (refToId r) = true.

Lemma elem_bares l u : u ∈ bares l <-> Bare u ∈ l.
Proof.
  unfold bares. rewrite elem_js_set_of, list_elem_of_omap. split.
  - intros ([|] & Hr & Heq); simplify_eq/=. done.
  - intros Hr. by exists (Bare u).
Qed.

Lemma elem_uppers l u : u ∈ uppers l <-> exists o, Explicit u o ∈ l.
Proof.
  unfold uppers. rewrite elem_js_set_of, list_elem_of_omap. split.
  - intros ([|u' o] & Hr & Heq); simplify_eq/=. eauto.
  - intros [o Hr]. by exists (Explicit u o).
Qed.

Lemma elem_block_edges b e :
  e ∈ block_edges b ->
  e_id e = edge_id (e_source e) (e_target e) /\ e_target e = b_id b /\
  exists r, r ∈ refs b /\ e_source e = refToId r.
Proof.
  intros (u & -> & Hu)%list_elem_of_fmap. simpl. split; [done|]. split; [done|].
  apply elem_of_app in Hu as [Hu|Hu].
  - apply elem_bares in Hu. by exists (Bare u).
  - apply list_elem_of_filter in Hu as [_ Hu]. apply elem_uppers in Hu as [o Hu]. by exists (Explicit u o).
Qed.

Lemma connectBlocks_edges ns m blocks old :
  NoDup (b_id <$> blocks) -> plain_refs blocks ->
  (forall e, e ∈ old -> e_id e = edge_id (e_source e) (e_target e) /\ plain (e_source e) = true /\
     e_target e ∉ b_id <$> blocks) ->
  foldl connectBlock (mkFlow ns old m) blocks = mkFlow ns (old ++ (blocks ≫= block_edges)) m.
Proof.
  revert old. induction blocks as [|b blocks IH]; intros old Hnd Hplain Hold; simpl.
  { by rewrite app_nil_r. }
  apply NoDup_fmap_cons_inv in Hnd as [Hb Hnd].
  assert (Hpb : forall r, r ∈ refs b -> plain (refToId r) = true) by (intros r; apply Hplain; left).
  rewrite connectBlock_edges with (id := b_id b) (ok := fun u : string => plain u = true).
  - rewrite IH; [by rewrite <-app_assoc|done|intros b' r Hb'; apply Hplain; by right|].
    intros e [He|He]%elem_of_app.
    + destruct (Hold e He) as (? & ? & Ht). split_and!; [done|done|]. set_solver.
    + apply elem_block_edges in He as (-> & -> & r & Hr & ->). auto.
  - intros e He. by apply Hold.
  - intros e u He Hu Heq. destruct (Hold e He) as (Hid & Hp & Ht). rewrite Hid in Heq.
    apply edge_id_inj in Heq as [_ Heq]; [|done|done]. set_solver.
  - done.
  - intros u [Hu%elem_bares|[o Hu]%elem_uppers].
    + by apply (Hpb (Bare u)).
    + by apply (Hpb (Explicit u o)).
Qed.

Lemma importPipeline_edges pipe blocks st :
  NoDup (b_id <$> blocks) -> plain_refs blocks ->
  importPipeline pipe blocks st =
    mkFlow (imap blockNode blocks) (blocks ≫= block_edges)
      (mkMeta (p_name pipe ⁇ "untitled-pipeline") (p_version pipe ⁇ "0.1.0") (p_description pipe)).
Proof.
  intros Hnd Hplain. unfold importPipeline. simpl. rewrite connectBlocks_edges; [done|done|done|].
  by intros e ?%elem_of_nil.
Qed.

(** ** The export of what was imported *)

Lemma edge_refs_drawn l id u :
  u ∈ bares l \/ u ∈ uppers l -> edge_refs (drawn (group_data l) id u) = refs_to l u.
Proof.
  intros Hu. unfold edge_refs, drawn, group_data, refs_to. simpl. case_bool_decide as Hup; simpl.
  - destruct (outputs l u) as [|o os] eqn:Ho; [done|]. simpl. f_equal.
    rewrite <-list_fmap_compose. by apply list_fmap_ext.
  - by rewrite outputs_nil.
Qed.

Lemma incoming_block_edges b : incoming_refs (block_edges b) (b_id b) = canonical_inputs (refs b).
Proof.
  unfold incoming_refs. rewrite js_filter_all.
  - unfold block_edges, canonical_inputs. rewrite list_fmap_bind. apply Forall_bind_ext.
    apply Forall_forall. intros u Hu. apply edge_refs_drawn. apply elem_of_app in Hu as [?|Hu]; [by left|].
    right. by apply list_elem_of_filter in Hu as [_ ?].
  - apply Forall_forall. intros e (_ & He & _)%elem_block_edges. by bool_prop.
Qed.

Lemma incoming_other_edges b id : b_id b <> id -> js_filter (fun e => e_target e === id) (block_edges b) = [].
Proof.
  intros Hne. apply js_filter_none, Forall_forall. intros e (_ & -> & _)%elem_block_edges. by bool_prop.
Qed.

Lemma incoming_all_edges blocks b :
  NoDup (b_id <$> blocks) -> b ∈ blocks ->
  incoming_refs (blocks ≫= block_edges) (b_id b) = canonical_inputs (refs b).
Proof.
  intros Hnd Hb. rewrite <-incoming_block_edges. unfold incoming_refs. f_equal.
  apply list_elem_of_split in Hb as (l1 & l2 & ->).
  rewrite fmap_app, fmap_cons in Hnd. apply NoDup_app in Hnd as (_ & Hnd1 & Hnd2).
  apply NoDup_cons in Hnd2 as [Hnd2 _].
  assert (Hnone : forall l, b_id b ∉ b_id <$> l ->
    js_filter (fun e => e_target e === b_id b) (l ≫= block_edges) = []).
  { induction l as [|b' l IH]; intros Hl; [done|]. rewrite bind_cons. unfold js_filter in *.
    rewrite filter_app, IH by set_solver.
    pose proof (incoming_other_edges b' (b_id b)) as H. unfold js_filter in H. rewrite H; [done|]. set_solver. }
  rewrite bind_app, bind_cons. unfold js_filter in *. rewrite !filter_app, (Hnone l2) by done.
  rewrite (Hnone l1); [by rewrite app_nil_r|]. intros Hin. apply (Hnd1 _ Hin). left.
Qed.

(** Import then export, used by the pages. *)
Lemma import_then_export parse yaml pipe blocks v7 st :
  parse yaml = Ok (Some pipe) -> p_blocks pipe = Some blocks ->
  NoDup (b_id <$> blocks) -> plain_refs blocks ->
  exists st', yamlToNodes parse yaml st = (st', Ok tt) /\
    exportPipelineObject v7 st' =
      mkPipeline (Some v7) (Some (p_name pipe ⁇ "untitled-pipeline")) (Some (p_version pipe ⁇ "0.1.0"))
        (p_description pipe) (Some (canonical_block <$> blocks)).
Proof.
  intros Hparse Hblocks Hnd Hplain. eexists. split.
  { unfold yamlToNodes. rewrite Hparse, Hblocks. reflexivity. }
  rewrite importPipeline_edges by done.
  match goal with |- exportPipelineObject _ ?st = _ =>
    assert (Hb : p_blocks (exportPipelineObject v7 st) =
      Some (exported_block (edges st) <$> nodes st)) end.
  { apply export_blocks. unfold node_ids. simpl. by rewrite node_ids_blocks. }
  unfold exportPipelineObject in *. simpl in *. injection Hb as ->. do 2 f_equal.
  apply list_eq. intros i. rewrite !list_lookup_fmap, list_lookup_imap.
  destruct (blocks !! i) as [b|] eqn:Hi; [|done]. simpl. f_equal.
  unfold exported_block, canonical_block, push_inputs, nodeBlock. simpl. f_equal.
  rewrite incoming_all_edges; [done|done|]. by eapply list_elem_of_lookup_2.
Qed.

(** C37. Import then export: a pipeline with distinct block ids, none of whose
    references holds the arrow's last character, is drawn and exported again with
    the same blocks in the same order, each with its name, its arguments and the
    canonical form of its references, under the new pipeline id and the
    document's metadata. *)
Theorem import_export parse yaml pipe blocks v7 st :
  parse yaml = Ok (Some pipe) -> p_blocks pipe = Some blocks ->
  NoDup (b_id <$> blocks) -> plain_refs blocks ->
  exists st', yamlToNodes parse yaml st = (st', Ok tt) /\
    exportPipelineObject v7 st' =
      mkPipeline (Some v7) (Some (p_name pipe ⁇ "untitled-pipeline")) (Some (p_version pipe ⁇ "0.1.0"))
        (p_description pipe) (Some (canonical_block <$> blocks)).
Proof. apply import_then_export. Qed.

(** ** When nothing is lost *)

Lemma outputs_elem l u o : o ∈ outputs l u <-> Explicit u o ∈ l.
Proof.
  unfold outputs. rewrite list_elem_of_omap. split.
  - intros ([|u' o'] & Hr & Heq); simpl in Heq; [done|]. case_bool_decide; by simplify_eq.
  - intros Hr. exists (Explicit u o). simpl. by rewrite eqb_refl_js.
Qed.

(** Grouping the elements of a list by key is a permutation. *)
Lemma group_Permutation {A} (key : A -> option string) (l : list A) ks :
  NoDup ks -> (forall x, x ∈ l -> exists k, key x = Some k /\ k ∈ ks) ->
  (ks ≫= fun k => js_filter (fun x => key x === Some k) l) ≡ₚ l.
Proof.
  intros Hnd. induction l as [|x l IH]; intros Hks.
  { clear. by induction ks. }
  destruct (Hks x) as (k & Hk & Hin); [left|].
  apply list_elem_of_split in Hin as (k1 & k2 & ->).
  pose proof (IH (fun y Hy => Hks y (list_elem_of_further y x l Hy))) as Hperm. clear IH.
  apply NoDup_app in Hnd as (_ & Hnd1 & Hnd2). apply NoDup_cons in Hnd2 as [Hnd2 _].
  set (g := fun l k => js_filter (fun x => key x === Some k) l).
  assert (Hother : forall k', k' <> k -> g (x :: l) k' = g l k').
  { intros k' Hne. unfold g, js_filter. rewrite filter_cons_False; [done|].
    intros H. bool_prop. congruence. }
  assert (Hsame : g (x :: l) k = x :: g l k).
  { unfold g, js_filter. rewrite filter_cons_True; [done|]. by bool_prop. }
  change ((k1 ++ k :: k2) ≫= g l ≡ₚ l) in Hperm. change ((k1 ++ k :: k2) ≫= g (x :: l) ≡ₚ x :: l).
  transitivity (x :: ((k1 ++ k :: k2) ≫= g l)); [|by apply perm_skip].
  rewrite !bind_app, !bind_cons, Hsame.
  assert (k1 ≫= g (x :: l) = k1 ≫= g l) as ->.
  { apply Forall_bind_ext, Forall_forall. intros k' Hk'. apply Hother. intros ->.
    apply (Hnd1 _ Hk'). left. }
  assert (k2 ≫= g (x :: l) = k2 ≫= g l) as ->.
  { apply Forall_bind_ext, Forall_forall. intros k' Hk'. apply Hother. by intros ->. }
  rewrite <-app_comm_cons. symmetry. apply Permutation_middle.
Qed.

Definition is_bare (r : InputRef) : bool := match r with Bare _ => true | _ => false end.

Lemma split_refs l : l ≡ₚ js_filter is_bare l ++ js_filter (fun r => negb (is_bare r)) l.
Proof.
  induction l as [|r l IH]; [done|]. unfold js_filter in *. destruct r as [u|u o].
  - rewrite filter_cons_True, filter_cons_False by done. simpl. by rewrite <-IH.
  - rewrite filter_cons_False, filter_cons_True by done. rewrite <-Permutation_middle. by rewrite <-IH.
Qed.

Lemma bare_part l : js_filter is_bare l = Bare <$> omap bare_ref l.
Proof.
  induction l as [|r l IH]; [done|]. unfold js_filter in *. destruct r as [u|u o].
  - rewrite filter_cons_True by done. simpl. by rewrite IH.
  - rewrite filter_cons_False by done. simpl. by rewrite IH.
Qed.

Lemma outputs_part l u :
  Explicit u <$> outputs l u =
    js_filter (fun r => explicit_ref r === Some u) (js_filter (fun r => negb (is_bare r)) l).
Proof.
  unfold outputs, js_filter. rewrite list_filter_filter.
  induction l as [|r l IH]; [done|]. destruct r as [u'|u' o]; simpl.
  - rewrite filter_cons_False by (by intros [_ ?]). exact IH.
  - case_bool_decide as Heq.
    + subst. rewrite filter_cons_True by (split; [by bool_prop | done]).
      rewrite <-IH. reflexivity.
    + rewrite filter_cons_False; [exact IH|]. simpl. intros [H _]. bool_prop. congruence.
Qed.

Lemma elem_canonical_bare l u : Bare u ∈ canonical_inputs l -> outputs l u = [].
Proof.
  unfold canonical_inputs, refs_to. intros (v & Hr & _)%list_elem_of_bind.
  destruct (outputs l v) as [|o os] eqn:Ho.
  - apply list_elem_of_singleton in Hr. by simplify_eq.
  - by apply list_elem_of_fmap in Hr as (? & ? & _).
Qed.

Lemma canonical_bares l : omap bare_ref (canonical_inputs l) `sublist_of`
  bares l ++ filter (fun u => u ∉ bares l) (uppers l).
Proof.
  unfold canonical_inputs. set (us := bares l ++ _). clearbody us.
  induction us as [|u us IH]; [done|]. rewrite bind_cons, omap_app. unfold refs_to at 1.
  destruct (outputs l u) as [|o os].
  - by constructor.
  - assert (omap bare_ref (Explicit u <$> o :: os) = []) as ->; [|by apply sublist_cons].
    generalize (o :: os). by induction l0.
Qed.

(** When the canonical form is a permutation. *)
Lemma canonical_permutation l :
  canonical_inputs l ≡ₚ l <->
  NoDup (omap bare_ref l) /\ (forall u o, Bare u ∈ l -> Explicit u o ∉ l).
Proof.
  assert (Hnb : NoDup (bares l)) by (unfold bares; auto with spade).
  assert (Hnu : NoDup (uppers l)) by (unfold uppers; auto with spade).
  split.
  - intros Hperm. split.
    + rewrite <-Hperm. eapply sublist_NoDup; [|apply canonical_bares].
      apply NoDup_app. split_and!; [done| |by apply NoDup_filter].
      intros u Hu [Hu' _]%list_elem_of_filter. done.
    + intros u o Hb He. rewrite <-Hperm in Hb. apply elem_canonical_bare in Hb.
      apply outputs_elem in He. rewrite Hb in He. by apply elem_of_nil in He.
  - intros [Hnd Hsep]. unfold canonical_inputs.
    assert (Hbares : bares l ≡ₚ omap bare_ref l).
    { apply NoDup_Permutation; [done|done|]. intros u. unfold bares. by rewrite elem_js_set_of. }
    rewrite filter_all.
    2:{ intros u Hu Hb. apply elem_bares in Hb. apply elem_uppers in Hu as [o Ho]. by apply (Hsep u o). }
    rewrite bind_app. etransitivity; [|symmetry; apply split_refs]. apply Permutation_app.
    + rewrite bare_part. etransitivity; [|by apply fmap_Permutation].
      rewrite (Forall_bind_ext _ (fun u => [Bare u])).
      { generalize (bares l). induction l0 as [|u us IH]; [done|]. rewrite bind_cons, fmap_cons. simpl. by rewrite IH. }
      apply Forall_forall. intros u Hu%elem_bares. unfold refs_to.
      destruct (outputs l u) as [|o os] eqn:Ho; [done|]. destruct (Hsep u o Hu).
      apply outputs_elem. rewrite Ho. left.
    + rewrite (Forall_bind_ext _ (fun u => Explicit u <$> outputs l u)).
      2:{ apply Forall_forall. intros u Hu%elem_uppers. unfold refs_to. destruct Hu as [o Hu].
          apply outputs_elem in Hu. destruct (outputs l u); [by apply elem_of_nil in Hu | done]. }
      erewrite list_bind_ext; [apply (group_Permutation explicit_ref); [exact Hnu|]|..|done].
      * intros [u|u o] [Hr Hin]%elem_of_js_filter; [done|]. exists u. split; [done|].
        apply elem_uppers. eauto.
      * intros u. apply outputs_part.
Qed.

(** The round trip through the editor keeps all the references of a block, up
    to their order, exactly when no block is referenced twice by its bare id
    and none is referenced both by its bare id and by a named output. *)
Theorem canonical_inputs_lossless l :
  canonical_inputs l ≡ₚ l <->
  NoDup (omap bare_ref l) /\ (forall u o, Bare u ∈ l -> Explicit u o ∉ l).
Proof. apply canonical_permutation. Qed.

(** ** A concrete document *)

Definition import_example : Pipeline :=
  mkPipeline None (Some "demo") None None
    (Some [mkBlock "a" "src" None None;
           mkBlock "b" "dst" (Some [Explicit "a" "x"; Bare "a"; Explicit "a" "y"]) None]).

Lemma import_example_plain : plain_refs (p_blocks import_example ⁇ []).
Proof.
  intros b r Hb Hr. simpl in Hb. apply elem_of_cons in Hb as [->|Hb].
  { by apply elem_of_nil in Hr. }
  apply list_elem_of_singleton in Hb as ->.
  assert (Forall (fun r => plain (refToId r) = true) [Explicit "a" "x"; Bare "a"; Explicit "a" "y"]) as H
    by (repeat constructor).
  rewrite Forall_forall in H. by apply H.
Qed.

Lemma import_export_witness :
  exists st', yamlToNodes (fun _ => Ok (Some import_example)) "doc" initial_flow = (st', Ok tt) /\
    p_blocks (exportPipelineObject "p" st') =
      Some [mkBlock "a" "src" (Some []) (Some []);
            mkBlock "b" "dst" (Some [Explicit "a" "x"; Explicit "a" "y"]) (Some [])].
Proof.
  destruct (import_export (fun _ => Ok (Some import_example)) "doc" import_example
    (p_blocks import_example ⁇ []) "p" initial_flow) as (st' & Hrun & Hexp).
  - reflexivity.
  - reflexivity.
  - refine (bool_decide_unpack _ _). vm_compute. exact I.
  - exact import_example_plain.
  - exists st'. split; [exact Hrun|]. rewrite Hexp. vm_compute. reflexivity.
Defined.
