(* ===== verification/FlowGraph.v ===== *)
(** * The editor's store as a graph

    The store ([web_ui/composables/useFlow.ts], [Flow]) keeps its nodes and edges in
    arrays and names an edge by the text [source->target].  What it stands for is a
    finite map from node ids to the data of nodes and a finite map from pairs of node
    ids to the data of edges.  [abs] reads that graph off the arrays; every operation of
    the store is the operation on maps that its name says, and every question the pages
    ask the store has the answer the graph gives.  The text of an edge determines the
    pair when the ids are plain, which the ids the pages make are. *)

From S2P Require Export ImportExport.
From Stdlib Require Import QArith.
Open Scope js_scope.
Open Scope nat_scope.

(** ** Graphs *)

Record Graph := mkGraph {
  g_nodes : gmap string (option NodeData);
  g_edges : gmap (string * string) (option EdgeData);
  g_meta : Meta }.

Definition ends (e : Edge) : string * string := (e_source e, e_target e).

(** A list read as a map, each element under its key. *)
Definition table {K A B} `{Countable K} (key : A -> K) (val : A -> B) (l : list A) : gmap K B :=
  list_to_map ((fun x => (key x, val x)) <$> l).

Definition abs (st : FlowState) : Graph :=
  mkGraph (table n_id n_data (nodes st)) (table ends e_data (edges st)) (pipelineMeta st).

Definition empty_graph : Graph := mkGraph ∅ ∅ (pipelineMeta initial_flow).

(** The graph a document describes: an edge for every pair with a reference, with the
    named outputs of that pair. *)
Definition pipeline_graph (pipe : Pipeline) (blocks : list Block) : Graph :=
  mkGraph (table b_id (fun b => Some (mkNodeData (Some (b_name b)) (Some (b_name b)) (Some (b_args b ⁇ [])))) blocks)
    (table (fun br => (refToId br.2, b_id br.1)) (fun br => Some (group_data (refs br.1) (refToId br.2)))
       (blocks ≫= fun b => (fun r => (b, r)) <$> refs b))
    (mkMeta (p_name pipe ⁇ "untitled-pipeline") (p_version pipe ⁇ "0.1.0") (p_description pipe)).

(** ** The operations of the store *)

Inductive flow_op :=
  | Clear
  | SetMeta (meta : PartialMeta)
  | AddNode (v7 : string) (rx ry : Q) (opts : NodeOpts)
  | RemoveNode (id : string)
  | UpdateNode (id label name : string) (args : ArgKeyValueStore)
  | Connect (source target : string)
  | Disconnect (source target : string)
  | SetEdgeData (source target : string) (data : EdgeData)
  | YamlToNodes (yaml : string).

Section Store.
Context (parse : string -> result string (option Pipeline)).

(** What a call does to the store. *)
Definition run_op (st : FlowState) (o : flow_op) : FlowState :=
  match o with
  | Clear => clear st
  | SetMeta meta => setMeta meta st
  | AddNode v7 rx ry opts => (addNode v7 rx ry opts st).1
  | RemoveNode id => removeNode id st
  | UpdateNode id label name args => (updateNode id label name args st).1
  | Connect s t => connect s t st
  | Disconnect s t => disconnect s t st
  | SetEdgeData s t data => writeEdgeData s t data st
  | YamlToNodes yaml => (yamlToNodes parse yaml st).1
  end.

(** What it means. *)
Definition graph_op (g : Graph) (o : flow_op) : Graph :=
  match o with
  | Clear => mkGraph ∅ ∅ (g_meta g)
  | SetMeta meta => mkGraph (g_nodes g) (g_edges g)
      (mkMeta (pm_name meta ⁇ meta_name (g_meta g)) (pm_version meta ⁇ meta_version (g_meta g))
         (pm_description meta ⁇ meta_description (g_meta g)))
  | AddNode v7 _ _ opts =>
      mkGraph (<[o_id opts ⁇ v7 := Some (mkNodeData (Some (o_label opts)) (Some (o_name opts)) (Some (o_args opts ⁇ [])))]>
                 (g_nodes g)) (g_edges g) (g_meta g)
  | RemoveNode id =>
      mkGraph (delete id (g_nodes g))
        (filter (fun kv => kv.1.1 <> id /\ kv.1.2 <> id) (g_edges g)) (g_meta g)
  | UpdateNode id label name args =>
      mkGraph (alter (fun _ => Some (mkNodeData (Some label) (Some name) (Some args))) id (g_nodes g))
        (g_edges g) (g_meta g)
  | Connect s t =>
      mkGraph (g_nodes g)
        (match g_edges g !! (s, t) with
         | Some _ => g_edges g
         | None => <[(s, t) := Some no_bindings]> (g_edges g)
         end) (g_meta g)
  | Disconnect s t => mkGraph (g_nodes g) (delete (s, t) (g_edges g)) (g_meta g)
  | SetEdgeData s t data => mkGraph (g_nodes g) (alter (fun _ => Some data) (s, t) (g_edges g)) (g_meta g)
  | YamlToNodes yaml =>
      match parse yaml with
      | Ok (Some pipe) => match p_blocks pipe with Some blocks => pipeline_graph pipe blocks | None => g end
      | _ => g
      end
  end.

(** A new block gets an id no node has (the pages use a fresh one); the ids of the nodes
    added, joined or imported are plain; and the blocks of a document have distinct ids.
    Nothing else is asked of a document: its references may name no block of it. *)
Definition legal_op (g : Graph) (o : flow_op) : Prop :=
  match o with
  | AddNode v7 _ _ opts => plain (o_id opts ⁇ v7) = true /\ g_nodes g !! (o_id opts ⁇ v7) = None
  | Connect s t => plain s = true /\ plain t = true
  | YamlToNodes yaml => forall pipe, parse yaml = Ok (Some pipe) ->
      let blocks := p_blocks pipe ⁇ [] in
      NoDup (b_id <$> blocks) /\ Forall (fun b => plain (b_id b) = true) blocks /\ plain_refs blocks
  | _ => True
  end.

(** A connection joins two drawn nodes, and the references of a document name blocks of it. *)
Definition joining_op (g : Graph) (o : flow_op) : Prop :=
  match o with
  | Connect s t => is_Some (g_nodes g !! s) /\ is_Some (g_nodes g !! t)
  | YamlToNodes yaml => forall pipe, parse yaml = Ok (Some pipe) ->
      let blocks := p_blocks pipe ⁇ [] in
      forall b r, b ∈ blocks -> r ∈ refs b -> refToId r ∈ b_id <$> blocks
  | _ => True
  end.

(** The condition holds of every operation at the graph it is applied to. *)
Fixpoint along (P : Graph -> flow_op -> Prop) (g : Graph) (ops : list flow_op) : Prop :=
  match ops with
  | [] => True
  | o :: ops => P g o /\ along P (graph_op g o) ops
  end.

Definition legal : Graph -> list flow_op -> Prop := along legal_op.
Definition joining : Graph -> list flow_op -> Prop := along joining_op.
End Store.

(** ** Tables *)

Section Tables.
Context {K A B : Type} `{Countable K}.
Implicit Types (key : A -> K) (val : A -> B).

(** With distinct keys, or with equal values under equal keys, a table holds exactly
    the elements of its list. *)
Lemma lookup_table_functional key val l k y :
  (forall x x', x ∈ l -> x' ∈ l -> key x = key x' -> val x = val x') ->
  table key val l !! k = Some y <-> exists x, x ∈ l /\ key x = k /\ val x = y.
Proof.
  intros Hf. unfold table. split.
  - intros Hk%elem_of_list_to_map_2. apply list_elem_of_fmap in Hk as (x & Heq & Hx). simplify_eq. eauto.
  - intros (x & Hx & <- & <-). apply elem_of_list_to_map_1'.
    + intros y (x' & Heq & Hx')%list_elem_of_fmap. simplify_eq. by apply Hf.
    + apply list_elem_of_fmap. eauto.
Qed.

Lemma lookup_table key val l k y :
  NoDup (key <$> l) -> table key val l !! k = Some y <-> exists x, x ∈ l /\ key x = k /\ val x = y.
Proof.
  intros Hnd. apply lookup_table_functional. intros x x' Hx Hx' Heq.
  by rewrite (NoDup_fmap_eq key l x x').
Qed.

Lemma lookup_table_None key val l k : table key val l !! k = None <-> k ∉ key <$> l.
Proof.
  unfold table. rewrite <-not_elem_of_list_to_map, <-list_fmap_compose. done.
Qed.

Lemma table_alter key val l (p : A -> bool) (g : A -> A) i k y :
  NoDup (key <$> l) -> findIndex p l = Some i -> (forall x, p x = true <-> key x = k) ->
  (forall x, key (g x) = key x) -> (forall x, val (g x) = y) ->
  table key val (alter g i l) = alter (fun _ => y) k (table key val l).
Proof.
  intros Hnd Hi Hp Hkey Hval. rewrite (alter_unique p g l i Hi).
  2:{ intros j j' x x' Hj Hj' Hx%Hp Hx'%Hp. eapply (NoDup_lookup (key <$> l)); [done| |];
      rewrite list_lookup_fmap; [by rewrite Hj | by rewrite Hj'; simpl; rewrite Hx, Hx']. }
  assert (Hnd' : NoDup (key <$> ((fun x => if p x then g x else x) <$> l))).
  { rewrite <-list_fmap_compose. rewrite (list_fmap_ext _ key); [done|]. intros j x _. simpl.
    destruct (p x); [by rewrite Hkey | done]. }
  apply map_eq. intros k'. apply option_eq. intros z. rewrite lookup_table by done.
  destruct (decide (k = k')) as [->|Hk].
  - rewrite lookup_alter_eq, fmap_Some. setoid_rewrite (lookup_table key val l k'); [|done]. split.
    + intros (x & (x0 & -> & Hx0)%list_elem_of_fmap & Hk & <-). destruct (p x0) eqn:Hp0.
      * rewrite Hkey in Hk. exists (val x0). split; [eauto | by rewrite Hval].
      * by apply not_true_iff_false in Hp0; rewrite Hp in Hp0.
    + intros (v & (x & Hx & Hk & _) & ->). exists (g x). split_and!; [|by rewrite Hkey|done].
      apply list_elem_of_fmap. exists x. split; [|done]. by rewrite (proj2 (Hp x) Hk).
  - rewrite lookup_alter_ne by done. rewrite lookup_table by done. split.
    + intros (x & (x0 & -> & Hx0)%list_elem_of_fmap & Hk' & <-). destruct (p x0) eqn:Hp0; [|eauto].
      apply Hp in Hp0. rewrite Hkey in Hk'. congruence.
    + intros (x & Hx & Hk' & <-). exists x. split_and!; [|done|done]. apply list_elem_of_fmap.
      exists x. split; [|done]. destruct (p x) eqn:Hp0; [|done]. apply Hp in Hp0. congruence.
Qed.

Lemma table_alter_None key val l k f :
  k ∉ key <$> l -> alter f k (table key val l) = table key val l.
Proof. intros Hk. apply alter_id. intros y Hy. apply lookup_table_None with (val := val) in Hk. congruence. Qed.

(** Looking an element up in the list or in the table. *)
Lemma js_find_table key val l (p : A -> bool) k :
  NoDup (key <$> l) -> (forall x, p x = true <-> key x = k) ->
  val <$> js_find p l = table key val l !! k.
Proof.
  intros Hnd Hp. symmetry. destruct (js_find p l) as [x|] eqn:E; simpl.
  - apply js_find_Some in E as [Hx Hin]. apply Hp in Hx. apply lookup_table; eauto.
  - rewrite js_find_None in E. apply lookup_table_None. intros (x & Hk & Hx)%list_elem_of_fmap.
    specialize (E x Hx). by rewrite (proj2 (Hp x) (eq_sym Hk)) in E.
Qed.

Lemma table_snoc key val l x :
  key x ∉ key <$> l -> table key val (l ++ [x]) = <[key x := val x]> (table key val l).
Proof.
  intros Hx. unfold table. rewrite fmap_app. simpl. rewrite list_to_map_snoc; [done|].
  by rewrite <-list_fmap_compose.
Qed.

Lemma table_filter key val l (p : A -> bool) (P : K * B -> Prop) `{!forall kv, Decision (P kv)} :
  NoDup (key <$> l) -> (forall x, x ∈ l -> p x = true <-> P (key x, val x)) ->
  table key val (js_filter p l) = filter P (table key val l).
Proof.
  intros Hnd HP. apply map_eq. intros k. apply option_eq. intros y.
  rewrite map_lookup_filter_Some, !lookup_table; [|done|].
  - setoid_rewrite elem_of_js_filter. split.
    + intros (x & [Hp Hx] & <- & <-). split; [eauto | by apply HP].
    + intros [(x & Hx & <- & <-) Hp]. exists x. by rewrite HP.
  - eapply sublist_NoDup; [exact Hnd | apply fmap_sublist, sublist_filter].
Qed.
End Tables.

(** ** The text of an edge *)

Lemma char_free_split c s : char_free c s = false -> exists s1 s2, s = s1 +:+ String c s2 /\ char_free c s1 = true.
Proof.
  unfold char_free. induction s as [|d s IH]; [done|]. simpl. case_bool_decide as Hd; simpl.
  - intros _. exists "", s. by subst.
  - intros (s1 & s2 & -> & Hs1)%IH. exists (String d s1), s2. split; [done|]. simpl.
    by rewrite (bool_decide_eq_false_2 _ Hd).
Qed.

Lemma edge_id_arrow s t : edge_id s t = (s +:+ "-") +:+ String (Ascii.ascii_of_nat 62) t.
Proof. unfold edge_id. by rewrite <-string_app_assoc. Qed.

Lemma plain_app s t : plain (s +:+ t) = plain s && plain t.
Proof. apply all_chars_app. Qed.

(** The text of an edge between plain ids is the text of no other pair. *)
Lemma edge_id_plain s t u v :
  plain u = true -> plain v = true -> edge_id s t = edge_id u v -> s = u /\ t = v.
Proof.
  intros Hu Hv Heq. destruct (plain s) eqn:Hs; [by apply edge_id_inj|]. exfalso.
  apply char_free_split in Hs as (s1 & s2 & -> & Hs1). rewrite !edge_id_arrow, <-!string_app_assoc in Heq.
  rewrite string_app_cons, (string_app_assoc u) in Heq. apply split_char_inj in Heq as [_ <-]; [|done|].
  - rewrite !plain_app in Hv. simpl in Hv. by rewrite andb_comm in Hv.
  - change (plain (u +:+ "-") = true). by rewrite plain_app, Hu.
Qed.

(** ** Drawings with plain ids *)

Record drawable (st : FlowState) : Prop := {
  dr_nodes : NoDup (node_ids st);
  dr_edges : edges_ok st;
  dr_plain : Forall (fun s => plain s = true) (node_ids st);
  dr_ends : Forall (fun e => plain (e_source e) = true /\ plain (e_target e) = true) (edges st) }.

Lemma drawable_initial : drawable initial_flow.
Proof. split; repeat constructor. Qed.

Section Drawable.
Context (st : FlowState) (Hst : drawable st).

Lemma nodes_NoDup : NoDup (n_id <$> nodes st).
Proof. apply Hst. Qed.

Lemma edge_text e : e ∈ edges st -> e_id e = edge_id (e_source e) (e_target e).
Proof. destruct Hst as [_ [_ He] _ _]. rewrite Forall_forall in He. apply He. Qed.

Lemma ends_NoDup : NoDup (ends <$> edges st).
Proof.
  apply (NoDup_fmap_1 (fun p => edge_id p.1 p.2)). rewrite <-list_fmap_compose.
  rewrite (list_fmap_ext _ e_id); [apply Hst|]. intros i e He. symmetry. apply edge_text.
  by eapply list_elem_of_lookup_2.
Qed.

(** An edge is found by its text exactly when it is found by its ends. *)
Lemma edge_named e s t : e ∈ edges st -> e_id e = edge_id s t <-> ends e = (s, t).
Proof.
  intros He. rewrite (edge_text e He). unfold ends. split; [|by intros; simplify_eq].
  pose proof (dr_ends _ Hst) as Hp. rewrite Forall_forall in Hp. destruct (Hp e He) as [Hs Ht].
  intros Heq. symmetry in Heq. by apply edge_id_plain in Heq as [-> ->].
Qed.

Lemma is_edge_ends s t e : is_edge s t e = true <-> ends e = (s, t).
Proof. rewrite is_edge_true. unfold ends. split; [by intros [-> ->] | intros; by simplify_eq]. Qed.

Lemma abs_node id : is_Some (g_nodes (abs st) !! id) <-> id ∈ node_ids st.
Proof.
  rewrite <-not_eq_None_Some. simpl. rewrite lookup_table_None. split; [|by intros ? ?].
  intros ?. by apply dec_stable.
Qed.
End Drawable.

(** ** Each operation *)

Section Operations.
Context (parse : string -> result string (option Pipeline)).
Context (st : FlowState) (Hst : drawable st).

Lemma abs_add v7 rx ry opts :
  g_nodes (abs st) !! (o_id opts ⁇ v7) = None ->
  abs (addNode v7 rx ry opts st).1 = graph_op parse (abs st) (AddNode v7 rx ry opts).
Proof.
  simpl. intros Hid%lookup_table_None. unfold abs. simpl. f_equal. by rewrite table_snoc.
Qed.

Lemma abs_remove id : abs (removeNode id st) = graph_op parse (abs st) (RemoveNode id).
Proof.
  unfold abs. simpl. f_equal.
  - rewrite (table_filter _ _ _ _ (fun kv => kv.1 <> id)).
    + apply map_eq. intros k. apply option_eq. intros y.
      rewrite map_lookup_filter_Some, lookup_delete_Some. simpl. naive_solver.
    + by apply nodes_NoDup.
    + intros n _. simpl. by rewrite negb_true_iff, bool_decide_eq_false.
  - apply table_filter; [by apply ends_NoDup|]. intros e _. simpl.
    by rewrite andb_true_iff, !negb_true_iff, !bool_decide_eq_false.
Qed.

Lemma abs_update id label name args :
  abs (updateNode id label name args st).1 = graph_op parse (abs st) (UpdateNode id label name args).
Proof.
  unfold updateNode. destruct (findIndex _ _) as [i|] eqn:Hi; unfold abs; simpl; f_equal.
  - apply (table_alter n_id n_data _ (fun n => n_id n === id) _ i); try done.
    + by apply nodes_NoDup.
    + intros n. by rewrite bool_decide_eq_true.
  - symmetry. apply table_alter_None. apply findIndex_None in Hi.
    rewrite js_find_None in Hi. intros (n & -> & Hn)%list_elem_of_fmap.
    specialize (Hi n Hn). by rewrite eqb_refl_js in Hi.
Qed.

Lemma abs_connect s t :
  abs (connect s t st) = graph_op parse (abs st) (Connect s t).
Proof.
  unfold connect. destruct (js_some _ _) eqn:E; unfold abs; simpl; f_equal.
  - apply js_some_true in E as (e & He & Heq). bool_prop. apply (edge_named st Hst) in Heq; [|done].
    by rewrite (proj2 (lookup_table ends e_data (edges st) (s, t) (e_data e) (ends_NoDup st Hst))) by eauto.
  - rewrite js_some_false in E. assert ((s, t) ∉ ends <$> edges st) as Hst'.
    { intros (e & Heq & He)%list_elem_of_fmap. specialize (E e He). bool_prop. apply E.
      by apply (edge_named st Hst). }
    rewrite (proj2 (lookup_table_None ends e_data (edges st) (s, t))) by done. by rewrite table_snoc.
Qed.

Lemma abs_disconnect s t : abs (disconnect s t st) = graph_op parse (abs st) (Disconnect s t).
Proof.
  unfold abs. simpl. f_equal. rewrite (table_filter _ _ _ _ (fun kv => kv.1 <> (s, t))).
  - apply map_eq. intros k. apply option_eq. intros y.
    rewrite map_lookup_filter_Some, lookup_delete_Some. simpl. naive_solver.
  - by apply ends_NoDup.
  - intros e He. simpl. rewrite negb_true_iff, bool_decide_eq_false. by rewrite (edge_named st Hst).
Qed.

Lemma abs_write s t d : abs (writeEdgeData s t d st) = graph_op parse (abs st) (SetEdgeData s t d).
Proof.
  unfold writeEdgeData. destruct (findIndex _ _) as [i|] eqn:Hi; unfold abs; simpl; f_equal.
  - apply (table_alter ends e_data _ (is_edge s t) _ i); try done.
    + by apply ends_NoDup.
    + intros e. apply is_edge_ends.
  - symmetry. apply table_alter_None. apply findIndex_None in Hi.
    rewrite js_find_None in Hi. intros (e & Heq & He)%list_elem_of_fmap.
    specialize (Hi e He). apply not_true_iff_false in Hi. apply Hi. by apply is_edge_ends.
Qed.
End Operations.

(** ** Importing a document *)

(** A block is drawn with an edge from every block it references. *)
Lemma elem_block_edges_iff b e :
  e ∈ block_edges b <->
  exists r, r ∈ refs b /\ e = drawn (group_data (refs b)) (b_id b) (refToId r).
Proof.
  unfold block_edges. rewrite list_elem_of_fmap. split.
  - intros (u & -> & Hu). apply elem_of_app in Hu as [Hu|Hu].
    + apply elem_bares in Hu. by exists (Bare u).
    + apply list_elem_of_filter in Hu as [_ Hu]. apply elem_uppers in Hu as [o Hu]. by exists (Explicit u o).
  - intros (r & Hr & ->). exists (refToId r). split; [done|]. apply elem_of_app.
    destruct r as [u|u o]; simpl; [left; by apply elem_bares|].
    destruct (decide (u ∈ bares (refs b))); [by left | right]. apply list_elem_of_filter.
    split; [done|]. apply elem_uppers. eauto.
Qed.

Lemma drawable_import pipe blocks st :
  NoDup (b_id <$> blocks) -> Forall (fun b => plain (b_id b) = true) blocks -> plain_refs blocks ->
  drawable (importPipeline pipe blocks st).
Proof.
  intros Hnd Hp Hpr. split.
  - by rewrite node_ids_import.
  - apply edges_ok_import.
  - rewrite node_ids_import. by apply Forall_fmap.
  - rewrite importPipeline_edges by done. apply Forall_forall. rewrite Forall_forall in Hp.
    intros e (b & He & Hb)%list_elem_of_bind. apply elem_block_edges_iff in He as (r & Hr & ->). simpl.
    split; [by apply (Hpr b)|by apply Hp].
Qed.

Lemma abs_import pipe blocks st :
  NoDup (b_id <$> blocks) -> Forall (fun b => plain (b_id b) = true) blocks -> plain_refs blocks ->
  abs (importPipeline pipe blocks st) = pipeline_graph pipe blocks.
Proof.
  intros Hnd Hp Hpr. pose proof (ends_NoDup _ (drawable_import pipe blocks st Hnd Hp Hpr)) as Hends.
  rewrite importPipeline_edges in * by done. unfold abs, pipeline_graph. simpl in *.
  f_equal.
  - unfold table. f_equal. apply list_eq. intros i. rewrite !list_lookup_fmap, list_lookup_imap.
    by destruct (blocks !! i).
  - apply map_eq. intros [u v]. apply option_eq. intros y. rewrite lookup_table by done.
    rewrite lookup_table_functional.
    2:{ intros br br' (b & Hbr & Hb)%list_elem_of_bind (b' & Hbr' & Hb')%list_elem_of_bind.
        apply list_elem_of_fmap in Hbr as (r & -> & Hr), Hbr' as (r' & -> & Hr'). simpl. intros [= Hu Hv].
        rewrite Hu. by rewrite (NoDup_fmap_eq b_id blocks b b' Hnd Hb Hb' Hv). }
    split.
    + intros (e & (b & He & Hb)%list_elem_of_bind & Hk & <-).
      apply elem_block_edges_iff in He as (r & Hr & ->). exists (b, r). split_and!; [|done|done].
      apply list_elem_of_bind. exists b. split; [by apply list_elem_of_fmap_2 | done].
    + intros (br & (b & Hbr & Hb)%list_elem_of_bind & Hk & <-).
      apply list_elem_of_fmap in Hbr as (r & -> & Hr). simpl in *.
      exists (drawn (group_data (refs b)) (b_id b) (refToId r)). split_and!; [|done|done].
      apply list_elem_of_bind. exists b. split; [|done]. apply elem_block_edges_iff. eauto.
Qed.

(** ** Sequences of operations *)

Section Sequences.
Context (parse : string -> result string (option Pipeline)).

Lemma import_run yaml st :
  run_op parse st (YamlToNodes yaml) =
    match parse yaml with
    | Ok (Some pipe) => match p_blocks pipe with Some blocks => importPipeline pipe blocks st | None => st end
    | _ => st
    end.
Proof. simpl. unfold yamlToNodes. destruct (parse yaml) as [[pipe|]|]; try done. by destruct (p_blocks pipe). Qed.

Lemma import_legal yaml g pipe blocks :
  legal_op parse g (YamlToNodes yaml) -> parse yaml = Ok (Some pipe) -> p_blocks pipe = Some blocks ->
  NoDup (b_id <$> blocks) /\ Forall (fun b => plain (b_id b) = true) blocks /\ plain_refs blocks.
Proof. intros Hl Hparse Hb. specialize (Hl pipe Hparse). by rewrite Hb in Hl. Qed.

(** One operation: it is the graph's, and the drawing stays one the graph can be read from. *)
Lemma abs_op st o :
  drawable st -> legal_op parse (abs st) o -> abs (run_op parse st o) = graph_op parse (abs st) o.
Proof.
  intros Hst Hl. destruct o as [| | v7 rx ry opts | id | id label name args | s t | s t | s t d | yaml].
  - done.
  - done.
  - by apply abs_add, Hl.
  - by apply abs_remove.
  - by apply abs_update.
  - by apply abs_connect.
  - by apply abs_disconnect.
  - by apply abs_write.
  - rewrite import_run. simpl. destruct (parse yaml) as [[pipe|]|] eqn:Hparse; try done.
    destruct (p_blocks pipe) as [blocks|] eqn:Hb; [|done].
    destruct (import_legal _ _ _ _ Hl Hparse Hb) as (? & ? & ?). by apply abs_import.
Qed.

Lemma drawable_op st o :
  drawable st -> legal_op parse (abs st) o -> drawable (run_op parse st o).
Proof.
  intros Hst Hl. pose proof Hst as [Hnd He Hp Hends].
  destruct o as [| | v7 rx ry opts | id | id label name args | s t | s t | s t d | yaml].
  - split; repeat constructor.
  - split; [done|by apply (edges_ok_sublist st)|done|done].
  - destruct Hl as [Hpl Hn]. apply lookup_table_None in Hn.
    split; unfold node_ids in *; simpl; rewrite ?fmap_app; [| |apply Forall_app; split; [done|by constructor]|done].
    + apply NoDup_app. split_and!; [done| |apply NoDup_singleton]. by intros x Hx ->%list_elem_of_singleton.
    + by apply (edges_ok_sublist st).
  - split; simpl.
    + eapply sublist_NoDup; [exact Hnd|apply fmap_sublist, sublist_filter].
    + apply (edges_ok_sublist st); [apply sublist_filter|done].
    + eapply Forall_sublist; [|exact Hp]. apply fmap_sublist, sublist_filter.
    + eapply Forall_sublist; [apply sublist_filter|done].
  - assert (Hids : node_ids (updateNode id label name args st).1 = node_ids st) by apply node_ids_update.
    split; simpl; rewrite ?Hids; [done| |done|].
    + apply (edges_ok_sublist st); [|done]. unfold updateNode. by destruct (findIndex _ _).
    + unfold updateNode. by destruct (findIndex _ _).
  - destruct Hl as [Hs Ht]. split; simpl; rewrite ?node_ids_connect; [done|by apply edges_ok_connect|done|].
    unfold connect. destruct (js_some _ _); [done|]. simpl. apply Forall_app. split; [done|]. by constructor.
  - split; [done| |done|].
    + apply (edges_ok_sublist st); [apply sublist_filter|done].
    + eapply Forall_sublist; [apply sublist_filter|done].
  - split; simpl; rewrite ?node_ids_write; [done|by apply edges_ok_write|done|by apply Forall_edges_write].
  - rewrite import_run. destruct (parse yaml) as [[pipe|]|] eqn:Hparse; try done.
    destruct (p_blocks pipe) as [blocks|] eqn:Hb; [|done].
    destruct (import_legal _ _ _ _ Hl Hparse Hb) as (? & ? & ?). by apply drawable_import.
Qed.

Lemma abs_ops ops st :
  drawable st -> legal parse (abs st) ops ->
  drawable (foldl (run_op parse) st ops) /\
  abs (foldl (run_op parse) st ops) = foldl (graph_op parse) (abs st) ops.
Proof.
  revert st. induction ops as [|o ops IH]; intros st Hst Hl; [done|]. destruct Hl as [Ho Hl]. simpl.
  rewrite <-(abs_op st o Hst Ho) in *. apply IH; [by apply drawable_op | exact Hl].
Qed.
End Sequences.

(** ** What the pages see *)

Section Observers.
Context (st : FlowState) (Hst : drawable st).

Lemma abs_findNode id : n_data <$> findNode st id = g_nodes (abs st) !! id.
Proof.
  apply js_find_table; [by apply nodes_NoDup|]. intros n. by rewrite bool_decide_eq_true.
Qed.

Lemma abs_nameById id : nameById st id = mjoin (g_nodes (abs st) !! id) ≫= nd_name.
Proof. rewrite <-abs_findNode. unfold nameById. by destruct (findNode st id). Qed.

Lemma abs_getArgsById id : getArgsById st id = mjoin (g_nodes (abs st) !! id) ≫= nd_args.
Proof. rewrite <-abs_findNode. unfold getArgsById. by destruct (findNode st id). Qed.

Lemma abs_edgeData s t : edgeData st s t = mjoin (g_edges (abs st) !! (s, t)).
Proof.
  unfold edgeData. simpl. rewrite <-(js_find_table ends e_data (edges st) (is_edge s t) (s, t)).
  - by destruct (js_find _ _).
  - by apply ends_NoDup.
  - apply is_edge_ends.
Qed.

Lemma abs_edge s t d : g_edges (abs st) !! (s, t) = Some d <-> exists e, e ∈ edges st /\ ends e = (s, t) /\ e_data e = d.
Proof. by apply lookup_table, ends_NoDup. Qed.

Lemma abs_unresolved :
  hasUnresolvedEdges (e_data <$> edges st) = true <->
  exists k d, g_edges (abs st) !! k = Some d /\ unresolved d = true.
Proof.
  unfold hasUnresolvedEdges. rewrite js_some_true. split.
  - intros (d & (e & -> & He)%list_elem_of_fmap & Hu). exists (ends e), (e_data e).
    split; [|done]. apply abs_edge. by exists e.
  - intros ([s t] & d & (e & He & _ & <-)%abs_edge & Hu). exists (e_data e).
    split; [by apply list_elem_of_fmap_2 | done].
Qed.

(** The references the data of an edge from [u] stands for. *)
Definition data_refs (u : string) (d : option EdgeData) : list InputRef :=
  match d ≫= ed_bindings with
  | Some (b :: bs) => (fun b => Explicit u (bd_output b)) <$> b :: bs
  | _ => [Bare u]
  end.

(** A block of the export shows its node and the edges into it. *)
Definition shows_node (g : Graph) (b : Block) : Prop :=
  exists data, g_nodes g !! b_id b = Some data /\
    b_name b = match data ≫= nd_name with Some s => s | None => (data ≫= nd_label) ⁇ "" end /\
    b_args b = Some ((data ≫= nd_args) ⁇ []) /\
    forall r, r ∈ refs b <-> exists u d, g_edges g !! (u, b_id b) = Some d /\ r ∈ data_refs u d.

Lemma abs_export v7 :
  exists blocks, p_blocks (exportPipelineObject v7 st) = Some blocks /\
    NoDup (b_id <$> blocks) /\
    (forall id, id ∈ b_id <$> blocks <-> is_Some (g_nodes (abs st) !! id)) /\
    Forall (shows_node (abs st)) blocks.
Proof.
  eexists. split; [by apply export_blocks, Hst|]. rewrite exported_ids.
  split_and!; [by apply nodes_NoDup | intros id; by rewrite abs_node|].
  apply Forall_fmap, Forall_forall. intros n Hn. exists (n_data n). split_and!; [|done..|].
  - apply lookup_table; [by apply nodes_NoDup | by exists n].
  - intros r. unfold refs, exported_block. simpl. unfold incoming_refs. rewrite list_elem_of_bind. split.
    + intros (e & Hr & He). apply elem_of_js_filter in He as [Ht He]. bool_prop.
      exists (e_source e), (e_data e). split; [|done]. apply abs_edge. exists e.
      split_and!; [done| |done]. unfold ends. by rewrite Ht.
    + intros (u & d & (e & He & Hends & <-)%abs_edge & Hr). unfold ends in Hends. simplify_eq. exists e.
      split; [done|]. apply elem_of_js_filter. split; [by bool_prop | done].
Qed.
End Observers.

(** Every edge joins two nodes. *)
Definition graph_ok (g : Graph) : Prop :=
  forall s t, is_Some (g_edges g !! (s, t)) -> is_Some (g_nodes g !! s) /\ is_Some (g_nodes g !! t).

Lemma graph_ok_op parse g o : graph_ok g -> joining_op parse g o -> graph_ok (graph_op parse g o).
Proof.
  intros Hg Ho. destruct o as [| | v7 rx ry opts | id | id label name args | s t | s t | s t d | yaml]; simpl.
  - by intros s t [x Hx].
  - done.
  - intros u v Hin. destruct (Hg u v Hin). simpl. rewrite !lookup_insert_is_Some'. by split; right.
  - intros u v [x Hx]. apply map_lookup_filter_Some in Hx as [Hx [Hu Hv]]. simpl in *. destruct (Hg u v) as [? ?]; [eauto|].
    by rewrite !lookup_delete_ne by done.
  - intros u v Hin. destruct (Hg u v Hin). simpl. by rewrite !lookup_alter_is_Some.
  - intros u v Hin. simpl in *. destruct (g_edges g !! (s, t)) eqn:Hst; [by apply Hg|].
    apply lookup_insert_is_Some' in Hin as [Heq|Hin]; [|by apply Hg]. injection Heq as <- <-. exact Ho.
  - intros u v [x Hx]. cbn [g_edges] in Hx. apply lookup_delete_Some in Hx as [_ Hx]. apply Hg. eauto.
  - intros u v Hin. simpl in *. rewrite lookup_alter_is_Some in Hin. by apply Hg.
  - destruct (parse yaml) as [[pipe|]|] eqn:Hparse; try done. destruct (p_blocks pipe) as [blocks|] eqn:Hb; [|done].
    specialize (Ho pipe Hparse). rewrite Hb in Ho. simpl in Ho.
    intros u v [x Hx]. apply elem_of_list_to_map_2, list_elem_of_fmap in Hx as (br & Heq & Hin). injection Heq as -> -> ->.
    apply list_elem_of_bind in Hin as (b & Hbr & Hin). apply list_elem_of_fmap in Hbr as (r & -> & Hr). simpl.
    rewrite <-!not_eq_None_Some, !lookup_table_None.
    split; intros Hno; apply Hno; [by eapply Ho|by apply list_elem_of_fmap_2].
Qed.

Lemma graph_ok_ops parse ops g : graph_ok g -> joining parse g ops -> graph_ok (foldl (graph_op parse) g ops).
Proof.
  revert g. induction ops as [|o ops IH]; intros g Hg Hj; [done|]. destruct Hj as [Ho Hj].
  apply IH; [by apply graph_ok_op|done].
Qed.

(** C9. The store is a graph.  Run any sequence of its operations in which the ids added,
    connected, imported or referenced in a document hold no ">", an added id is new and
    the blocks of a document have distinct ids; a document need not be valid otherwise.
    Then the arrays of the store stand for the graph that the same operations build on
    two finite maps; that graph's edges join its nodes when the connections and the
    documents' references do; the store's answers about a block, about a connection and
    about unresolved connections are those of the graph; and an exported document has
    exactly one block per node, with the node's name and arguments and with the
    references of exactly the edges into it. *)
Theorem flow_refines_graph parse ops :
  legal parse empty_graph ops ->
  let st := foldl (run_op parse) initial_flow ops in
  let g := foldl (graph_op parse) empty_graph ops in
  abs st = g /\ (joining parse empty_graph ops -> graph_ok g) /\
  (forall id, nameById st id = mjoin (g_nodes g !! id) ≫= nd_name /\
     getArgsById st id = mjoin (g_nodes g !! id) ≫= nd_args) /\
  (forall s t, edgeData st s t = mjoin (g_edges g !! (s, t))) /\
  (hasUnresolvedEdges (e_data <$> edges st) = true <->
     exists k d, g_edges g !! k = Some d /\ unresolved d = true) /\
  (forall v7, exists blocks, p_blocks (exportPipelineObject v7 st) = Some blocks /\
     NoDup (b_id <$> blocks) /\ (forall id, id ∈ b_id <$> blocks <-> is_Some (g_nodes g !! id)) /\
     Forall (shows_node g) blocks).
Proof.
  intros Hl st g. destruct (abs_ops parse ops initial_flow drawable_initial Hl) as [Hst Habs].
  fold st in Hst, Habs. assert (Hg : abs st = g) by exact Habs.
  split; [done|]. split; [intros Hj; apply graph_ok_ops; [by intros ? ? []|done]|]. rewrite <-Hg.
  split_and!; [ | intros; by apply abs_edgeData | by apply abs_unresolved | intros; by apply abs_export].
  intros id. split; [by apply abs_nameById | by apply abs_getArgsById].
Qed.

(** Ids that hold the arrow are another matter, and an imported document may have
    them: the second connection has the text of the first and is not drawn.  Nor does
    the import look for an id that is used twice: both blocks are drawn. *)
Example arrow_ids :
  let st := mkFlow (imap blockNode ((fun id => mkBlock id "b" None None) <$> ["a"; "a->b"; "c"; "b->c"])) []
              (pipelineMeta initial_flow) in
  ends <$> edges (connect "a" "b->c" (connect "a->b" "c" st)) = [("a->b", "c")].
Proof. vm_compute. reflexivity. Qed.

Example repeated_ids pipe st :
  node_ids (importPipeline pipe [mkBlock "a" "b" None None; mkBlock "a" "c" None None] st) = ["a"; "a"].
Proof. reflexivity. Qed.

(** ** A concrete sequence *)

Definition block_opts (id name : string) : NodeOpts := mkNodeOpts name name None None None (Some id).

(** A document with a cycle, which validation refuses and the import takes. *)
Definition cyclic_doc : Pipeline :=
  mkPipeline (Some "p") (Some "cycle") None None
    (Some [mkBlock "x" "load" (Some [Bare "y"]) None; mkBlock "y" "save" (Some [Explicit "x" "o"]) None]).

Definition demo_parse (yaml : string) : result string (option Pipeline) :=
  if yaml === "doc" then Ok (Some cyclic_doc) else Throw "syntax".

Definition demo_ops : list flow_op :=
  [YamlToNodes "doc"; AddNode "v" 0 0 (block_opts "a" "load"); AddNode "v" 0 0 (block_opts "b" "slope");
   AddNode "v" 0 0 (block_opts "c" "save"); Connect "a" "b"; Connect "b" "c"; Connect "a" "b";
   SetEdgeData "a" "b" (mkEdgeData (Some [mkBinding "dem" "raster"]) (Some false));
   UpdateNode "b" "Slope" "slope" []; RemoveNode "c"; YamlToNodes "broken"].

Lemma demo_legal : legal demo_parse empty_graph demo_ops.
Proof.
  split; [|repeat (split; [first [done | split; by vm_compute]|]); done].
  intros pipe Heq. injection Heq as <-. split; [apply (bool_decide_unpack _); by vm_compute|].
  split; [by repeat constructor|].
  intros b r Hb Hr. apply elem_of_cons in Hb as [->|Hb%list_elem_of_singleton]; [|subst b]; cbn in Hr;
    by apply list_elem_of_singleton in Hr as ->.
Qed.

Lemma demo_joining : joining demo_parse empty_graph demo_ops.
Proof.
  split; [|repeat (split; [first [done | split; eexists; vm_compute; reflexivity]|]); done].
  intros pipe Heq blocks b r Hb Hr. injection Heq as <-. cbn in Hb.
  apply elem_of_cons in Hb as [->|Hb%list_elem_of_singleton]; [|subst b]; cbn in Hr;
    apply list_elem_of_singleton in Hr as ->; cbn; set_solver.
Qed.

Lemma flow_refines_graph_witness :
  let st := foldl (run_op demo_parse) initial_flow demo_ops in
  validatePipeline cyclic_doc None <> Valid /\
  nameById st "b" = Some "slope" /\ edgeData st "b" "c" = None /\
  edgeData st "x" "y" = Some (mkEdgeData (Some [mkBinding "o" ""]) (Some false)) /\
  edgeData st "a" "b" = Some (mkEdgeData (Some [mkBinding "dem" "raster"]) (Some false)) /\
  graph_ok (abs st).
Proof.
  destruct (flow_refines_graph demo_parse demo_ops demo_legal) as (Habs & Hok & Hn & He & _). split_and!.
  - vm_compute. discriminate.
  - rewrite (proj1 (Hn _)). vm_compute. reflexivity.
  - rewrite He. vm_compute. reflexivity.
  - rewrite He. vm_compute. reflexivity.
  - rewrite He. vm_compute. reflexivity.
  - rewrite Habs. exact (Hok demo_joining).
Defined.
