(* ===== verification/PipelineBuilder.v ===== *)
(** * Building a pipeline from nodes and edges ([web_ui/utils/pipeline.ts])

    The class [PipelineBuilder] is the record [Builder]; its methods are functions
    on it.  The pages that save, submit and check a pipeline feed it the nodes and
    then the edges of the editor's store ([buildFrom]). *)

From S2P Require Export Flow Regex.
From Stdlib Require Import Ascii.

Record Builder := mkBuilder { blocks : list Block; metadata : PipelineMetadata }.

Record PartialPipelineMetadata := mkPartialPipelineMetadata {
  pp_id : option string; pp_name : option string; pp_version : option string;
  pp_description : option string }.

(** [new PipelineBuilder(metadata)]; [v7] is the value [v7()] gives if it is called. *)
Definition newBuilder (v7 : string) (m : option PartialPipelineMetadata) : Builder :=
  mkBuilder []
    (mkPipelineMetadata ((m ≫= pp_id) ⁇ v7) ((m ≫= pp_name) ⁇ "untitled-pipeline")
       ((m ≫= pp_version) ⁇ "0.1.0") (m ≫= pp_description)).

Definition addBlockFromNode (node : Node) (b : Builder) : Builder :=
  mkBuilder
    (blocks b ++
       [mkBlock (n_id node)
          (match n_data node ≫= nd_name with
           | Some s => s
           | None => (n_data node ≫= nd_label) ⁇ ""
           end) (Some []) (Some ((n_data node ≫= nd_args) ⁇ []))]) (metadata b).

Definition parseEdge (edge : Edge) (b : Builder) : Builder :=
  match findIndex (fun blk => b_id blk === e_target edge) (blocks b) with
  | None => b
  | Some i =>
      let pushed :=
        match e_data edge ≫= ed_bindings with
        | Some (x :: xs) =>
            (fun binding => Explicit (e_source edge) (bd_output binding)) <$> x :: xs
        | _ => [Bare (e_source edge)]
        end in
      mkBuilder (alter (push_inputs pushed) i (blocks b)) (metadata b)
  end.

Definition setName (name : string) (b : Builder) : Builder :=
  let m := metadata b in
  mkBuilder (blocks b) (mkPipelineMetadata (m_id m) name (m_version m) (m_description m)).
Definition setDescription (desc : string) (b : Builder) : Builder :=
  let m := metadata b in
  mkBuilder (blocks b) (mkPipelineMetadata (m_id m) (m_name m) (m_version m) (Some desc)).
Definition setVersion (version : string) (b : Builder) : Builder :=
  let m := metadata b in
  mkBuilder (blocks b) (mkPipelineMetadata (m_id m) (m_name m) version (m_description m)).
Definition freshSubmissionId (v7 : string) (b : Builder) : Builder :=
  let m := metadata b in
  mkBuilder (blocks b) (mkPipelineMetadata v7 (m_name m) (m_version m) (m_description m)).

(** The two sets and the output array of [dedupeInputs]. *)
Record dedupe_state := mkDedupe {
  seenBare : list string; seenExplicit : list string; out : list InputRef }.

Definition explicit_key (block output : string) : string := block +:+ "::" +:+ output.

Definition dedupe_step (st : dedupe_state) (ref : InputRef) : dedupe_state :=
  match ref with
  | Bare id =>
      if js_mem id (seenBare st) then st
      else mkDedupe (js_add id (seenBare st)) (seenExplicit st) (out st ++ [ref])
  | Explicit block output =>
      let key := explicit_key block output in
      if js_mem key (seenExplicit st) then st
      else mkDedupe (seenBare st) (js_add key (seenExplicit st)) (out st ++ [ref])
  end.

Definition dedupeInputs (inputs : list InputRef) : list InputRef :=
  out (foldl dedupe_step (mkDedupe [] [] []) inputs).

Definition exportPipeline (b : Builder) : Pipeline :=
  let m := metadata b in
  mkPipeline (Some (m_id m)) (Some (m_name m)) (Some (m_version m)) (m_description m)
    (Some ((fun blk => mkBlock (b_id blk) (b_name blk)
                         (Some (dedupeInputs (b_inputs blk ⁇ []))) (Some (b_args blk ⁇ [])))
             <$> blocks b)).

(** What the pages do with it. *)
Definition buildFrom (v7 : string) (m : option PartialPipelineMetadata) (st : FlowState) : Builder :=
  foldl (fun b e => parseEdge e b)
    (foldl (fun b n => addBlockFromNode n b) (newBuilder v7 m) (nodes st)) (edges st).

(** ** [dedupeInputs] *)

(** What two references must share to be taken for the same. *)
Definition ref_key (r : InputRef) : string + string :=
  match r with Bare id => inl id | Explicit block output => inr (explicit_key block output) end.

(** The sets hold the keys of the references kept so far. *)
Record dedupe_inv (l : list InputRef) (st : dedupe_state) : Prop := {
  di_bare : forall id, id ∈ seenBare st <-> inl id ∈ ref_key <$> out st;
  di_explicit : forall k, k ∈ seenExplicit st <-> inr k ∈ ref_key <$> out st;
  di_sub : out st `sublist_of` l;
  di_nodup : NoDup (ref_key <$> out st);
  di_all : forall r, r ∈ l -> ref_key r ∈ ref_key <$> out st }.

(** One step keeps the reference exactly when its key is new. *)
Lemma dedupe_step_cases l st r :
  dedupe_inv l st ->
  (ref_key r ∈ ref_key <$> out st /\ dedupe_step st r = st) \/
  (ref_key r ∉ ref_key <$> out st /\ out (dedupe_step st r) = out st ++ [r] /\
   (forall id, id ∈ seenBare (dedupe_step st r) <-> id ∈ seenBare st \/ inl id = ref_key r) /\
   (forall k, k ∈ seenExplicit (dedupe_step st r) <-> k ∈ seenExplicit st \/ inr k = ref_key r)).
Proof.
  intros [Hb He _ _ _]. destruct r as [id|blk o]; simpl; unfold js_mem; case_bool_decide as Hin.
  - left. by rewrite <-Hb.
  - right. rewrite <-Hb. split; [done|]. simpl. split; [done|]. split; intros k.
    + rewrite elem_js_add. naive_solver.
    + naive_solver.
  - left. by rewrite <-He.
  - right. rewrite <-He. split; [done|]. simpl. split; [done|]. split; intros k.
    + naive_solver.
    + rewrite elem_js_add. naive_solver.
Qed.

Lemma dedupe_step_inv l st r : dedupe_inv l st -> dedupe_inv (l ++ [r]) (dedupe_step st r).
Proof.
  intros Hinv. destruct (dedupe_step_cases l st r Hinv) as [[Hin ->]|(Hnew & Hout & Hb' & He')].
  - destruct Hinv as [Hb He Hs Hn Ha]. split; [done|done|by apply sublist_inserts_r|done|].
    intros r' [Hr'|Hr'%list_elem_of_singleton]%elem_of_app; [by apply Ha | by subst].
  - destruct Hinv as [Hb He Hs Hn Ha]. split; try rewrite !Hout; rewrite ?fmap_app.
    + intros id. rewrite Hb', Hb, elem_of_app, fmap_cons. set_solver.
    + intros k. rewrite He', He, elem_of_app, fmap_cons. set_solver.
    + by apply sublist_app.
    + apply NoDup_app. split_and!; [done| |apply NoDup_singleton]. intros x Hx ->%list_elem_of_singleton. done.
    + intros r' [Hr'|Hr'%list_elem_of_singleton]%elem_of_app; apply elem_of_app; [by left; apply Ha|].
      right. subst. left.
Qed.

Lemma dedupe_inv_all l : dedupe_inv l (foldl dedupe_step (mkDedupe [] [] []) l).
Proof.
  induction l as [|r l IH] using rev_ind.
  - split; simpl; [set_solver|set_solver|done|constructor|by intros r ?%elem_of_nil].
  - rewrite foldl_app. simpl. by apply dedupe_step_inv.
Qed.

(** Block ids without the separator's character. *)
Definition separable (l : list InputRef) : Prop :=
  forall b o, Explicit b o ∈ l -> char_free ":"%char b = true.

Lemma ref_key_inj l r1 r2 :
  separable l -> r1 ∈ l -> r2 ∈ l -> ref_key r1 = ref_key r2 -> r1 = r2.
Proof.
  intros Hl H1 H2 Heq. destruct r1 as [i1|b1 o1], r2 as [i2|b2 o2]; simplify_eq/=; [done|].
  unfold explicit_key in *. rewrite !(string_app_cons ":"%char) in Heq.
  apply split_char_inj in Heq as [-> Ho]; [|by eapply Hl..].
  rewrite !string_app_nil_l in Ho. by simplify_eq.
Qed.

Lemma dedupe_separable l :
  separable l -> NoDup (dedupeInputs l) /\ forall r, r ∈ dedupeInputs l <-> r ∈ l.
Proof.
  intros Hl. destruct (dedupe_inv_all l) as [_ _ Hs Hn Ha]. unfold dedupeInputs. split.
  { by eapply NoDup_fmap_1. }
  intros r. split; intros Hr.
  - by eapply elem_of_sublist.
  - apply Ha in Hr as Hk. apply list_elem_of_fmap in Hk as (r' & Heq & Hr').
    rewrite (ref_key_inj l r r'); [done|done|done| |done]. by eapply elem_of_sublist.
Qed.

(** [dedupeInputs] keeps a subsequence of the references that has exactly one
    reference per key; when no block id contains a colon, that is every reference
    once.  Without that condition two references with the same key lose one. *)
Theorem dedupeInputs_spec l :
  dedupeInputs l `sublist_of` l /\
  NoDup (ref_key <$> dedupeInputs l) /\
  (forall r, r ∈ l -> ref_key r ∈ ref_key <$> dedupeInputs l) /\
  (separable l -> NoDup (dedupeInputs l) /\ forall r, r ∈ dedupeInputs l <-> r ∈ l) /\
  dedupeInputs [Explicit "a" "b::c"; Explicit "a::b" "c"] = [Explicit "a" "b::c"].
Proof.
  destruct (dedupe_inv_all l) as [_ _ Hs Hn Ha]. split_and!; [done|done|done| |reflexivity].
  apply dedupe_separable.
Qed.

(** ** The builder and the store's own export *)

Lemma addBlocks_fold ns b :
  foldl (fun b n => addBlockFromNode n b) b ns = mkBuilder (blocks b ++ (nodeBlock <$> ns)) (metadata b).
Proof.
  revert b. induction ns as [|n ns IH]; intros b; simpl.
  - rewrite app_nil_r. by destruct b.
  - rewrite IH. unfold addBlockFromNode. simpl. by rewrite <-app_assoc.
Qed.

Lemma findIndex_Some {A} (p : A -> bool) l i :
  findIndex p l = Some i -> exists x, l !! i = Some x /\ p x = true.
Proof.
  revert i. induction l as [|x l IH]; intros i Hi; simpl in *; [done|].
  destruct (p x) eqn:Hp; simplify_eq/=; [eauto|].
  destruct (findIndex p l) as [j|]; simplify_eq/=. by apply IH.
Qed.

Lemma parseEdge_blocks e b :
  NoDup (b_id <$> blocks b) -> parseEdge e b = mkBuilder (push_to e <$> blocks b) (metadata b).
Proof.
  intros Hnd. unfold parseEdge. destruct (findIndex _ _) as [i|] eqn:Hi.
  - apply findIndex_Some in Hi as (blk & Hi & Hp). bool_prop.
    f_equal. rewrite (alter_block _ _ _ blk) by done. unfold push_to. by rewrite Hp.
  - apply findIndex_None in Hi. rewrite js_find_None in Hi.
    rewrite list_fmap_fixed; [by destruct b|]. intros blk Hblk. unfold push_to. by rewrite Hi.
Qed.

Lemma parseEdges_fold es b :
  NoDup (b_id <$> blocks b) -> Forall (fun b => is_Some (b_inputs b)) (blocks b) ->
  foldl (fun b e => parseEdge e b) b es =
    mkBuilder ((fun b => push_inputs (incoming_refs es (b_id b)) b) <$> blocks b) (metadata b).
Proof.
  intros Hnd Hin. rewrite <-(fold_push (fun bs e => push_to e <$> bs) (b_id <$> blocks b) (blocks b) es) by done.
  clear Hin. revert b Hnd. induction es as [|e es IH]; intros b Hnd; simpl; [by destruct b|].
  rewrite parseEdge_blocks, IH by (simpl; by rewrite ?push_to_ids). done.
Qed.

Definition dedupe_block (b : Block) : Block :=
  mkBlock (b_id b) (b_name b) (Some (dedupeInputs (b_inputs b ⁇ []))) (b_args b).

(** The builder's export, used by the pages. *)
Lemma builder_export v7 m st :
  NoDup (node_ids st) ->
  exportPipeline (buildFrom v7 m st) =
    mkPipeline (Some ((m ≫= pp_id) ⁇ v7)) (Some ((m ≫= pp_name) ⁇ "untitled-pipeline"))
      (Some ((m ≫= pp_version) ⁇ "0.1.0")) (m ≫= pp_description)
      ((fun bs : list Block => dedupe_block <$> bs) <$> p_blocks (exportPipelineObject v7 st)).
Proof.
  intros Hnd. rewrite export_blocks by done. unfold buildFrom. rewrite addBlocks_fold.
  assert (Hids : b_id <$> (nodeBlock <$> nodes st) = node_ids st).
  { unfold node_ids. rewrite <-list_fmap_compose. by apply list_fmap_ext. }
  rewrite parseEdges_fold; simpl.
  - unfold exportPipeline. simpl. do 2 f_equal. rewrite <-!list_fmap_compose.
    apply list_fmap_ext. by intros i n _.
  - by rewrite Hids.
  - apply Forall_fmap, Forall_forall. intros n _. simpl. eauto.
Qed.

(** What the pages submit is what the editor draws: for a state with distinct
    node ids, the builder fed with its nodes and edges exports, under the
    given metadata, the blocks of the store's own export with the duplicate
    references dropped. *)
Theorem exportPipeline_spec v7 m st :
  NoDup (node_ids st) ->
  exportPipeline (buildFrom v7 m st) =
    mkPipeline (Some ((m ≫= pp_id) ⁇ v7)) (Some ((m ≫= pp_name) ⁇ "untitled-pipeline"))
      (Some ((m ≫= pp_version) ⁇ "0.1.0")) (m ≫= pp_description)
      ((fun bs : list Block => dedupe_block <$> bs) <$> p_blocks (exportPipelineObject v7 st)).
Proof. apply builder_export. Qed.

Lemma exportPipeline_spec_witness :
  NoDup (node_ids session) /\
  p_blocks (exportPipeline (buildFrom "p" None session)) =
    Some [mkBlock "a" "src" (Some []) (Some []); mkBlock "b" "dst" (Some [Bare "a"]) (Some [])].
Proof.
  assert (H : NoDup (node_ids session)) by (refine (bool_decide_unpack _ _); vm_compute; exact I).
  split; [exact H|]. rewrite (exportPipeline_spec "p" None session H). vm_compute. reflexivity.
Defined.
