(* ===== verification/MapContext.v ===== *)
(** * Map contexts of a pipeline graph ([web_ui/utils/mapContext.ts])

    [computeMapContext] sorts the graph (Kahn's algorithm) and gives every block
    the stack of maps open at its input and at its outputs. *)

From S2P Require Export Types Flow.
From Stdlib Require Import ZArith.
Open Scope js_scope.

(** ** The code *)

Record MapGraphNode := mkGraphNode { g_id : string; g_kind : BlockKind; g_deps : list string }.

Record MapContextResult := mkContext {
  incoming : jsmap (list string);
  outgoing : jsmap (list string);
  inContext : list string;
  nestedMaps : list string }.

Definition graph_byId (ns : list MapGraphNode) : jsmap MapGraphNode :=
  jm_of_entries ((fun n => (g_id n, n)) <$> ns).

(** The two maps of the sort. *)
Record links := mkLinks { indeg : jsmap Z; children : jsmap (list string) }.

Definition declare (ls : links) (n : MapGraphNode) : links :=
  mkLinks (jm_set (g_id n) 0%Z (indeg ls)) (jm_set (g_id n) [] (children ls)).

Definition link (ids : jsmap MapGraphNode) (id : string) (ls : links) (d : string) : links :=
  if negb (jm_has d ids) then ls
  else mkLinks (jm_set id ((jm_get id (indeg ls) ⁇ 0) + 1)%Z (indeg ls))
         (jm_set d ((jm_get d (children ls) ⁇ []) ++ [id]) (children ls)).

Definition build_links (ns : list MapGraphNode) : links :=
  foldl (fun ls n => foldl (link (graph_byId ns) (g_id n)) ls (g_deps n))
    (foldl declare (mkLinks [] []) ns) ns.

(** The state of the [while] loop. *)
Record kahn := mkKahn { k_indeg : jsmap Z; queue : list string; order : list string }.

(** The body of [for (const c of children.get(id) ?? [])]. *)
Definition release (st : kahn) (c : string) : kahn :=
  let v := ((jm_get c (k_indeg st) ⁇ 0) - 1)%Z in
  mkKahn (jm_set c v (k_indeg st)) (if v === 0%Z then queue st ++ [c] else queue st) (order st).

(** [while (queue.length)], with a bound on the number of turns. *)
Fixpoint sort_loop (fuel : nat) (ch : jsmap (list string)) (st : kahn) : option kahn :=
  match queue st with
  | [] => Some st
  | id :: rest =>
      match fuel with
      | O => None
      | S fuel' =>
          sort_loop fuel' ch
            (foldl release (mkKahn (k_indeg st) rest (order st ++ [id])) (jm_get id ch ⁇ []))
      end
  end.

Definition initial_kahn (ns : list MapGraphNode) (ls : links) : kahn :=
  mkKahn (indeg ls) (g_id <$> js_filter (fun n => (jm_get (g_id n) (indeg ls) ⁇ 0%Z) === 0%Z) ns) [].

(** The blocks a cycle left out are appended. *)
Definition append_rest (ns : list MapGraphNode) (order : list string) : list string :=
  order ++ js_filter (fun id => negb (js_mem id order)) (g_id <$> ns).

(** [2 * length ns] turns are always enough ([sort_order_total]). *)
Definition sort_order (ns : list MapGraphNode) : option (list string) :=
  let ls := build_links ns in
  (fun st => append_rest ns (order st)) <$>
    sort_loop (2 * length ns) (children ls) (initial_kahn ns ls).

(** The deepest stack among the outputs of the dependencies seen so far. *)
Definition deepest (out : string -> option (list string)) (deps : list string) : list string :=
  foldl (fun inc d =>
           match out d with
           | Some o => if bool_decide (length inc < length o) then o else inc
           | None => inc
           end) [] deps.

Record analysis := mkAnalysis {
  a_incoming : jsmap (list string);
  a_outgoing : jsmap (list string);
  a_nested : list string }.

(** [inc.slice(0, -1)] *)
Definition drop_last (l : list string) : list string := take (length l - 1) l.

Definition analyse_node (st : analysis) (id : string) (node : MapGraphNode) : analysis :=
  let inc := deepest (fun d => jm_get d (a_outgoing st)) (g_deps node) in
  let out :=
    match g_kind node with
    | MapKind => inc ++ [id]
    | ReduceKind => drop_last inc
    | Standard => inc
    end in
  let nested :=
    match g_kind node, inc with
    | MapKind, _ :: _ => a_nested st ++ [id]
    | _, _ => a_nested st
    end in
  mkAnalysis (jm_set id inc (a_incoming st)) (jm_set id out (a_outgoing st)) nested.

(** [None] is the exception of reading a property of [undefined]. *)
Fixpoint analyse (ids : jsmap MapGraphNode) (l : list string) (st : analysis) : option analysis :=
  match l with
  | [] => Some st
  | id :: l' =>
      match jm_get id ids with
      | None => None
      | Some node => analyse ids l' (analyse_node st id node)
      end
  end.

Definition collect_inContext (inc : jsmap (list string)) : list string :=
  foldl (fun s e => match e.2 with [] => s | _ => js_add e.1 s end) [] inc.

Definition computeMapContext (ns : list MapGraphNode) : option MapContextResult :=
  l ← sort_order ns;
  st ← analyse (graph_byId ns) l (mkAnalysis [] [] []);
  Some (mkContext (a_incoming st) (a_outgoing st) (collect_inContext (a_incoming st)) (a_nested st)).

Definition activeMapFor (r : MapContextResult) (id : string) : option string :=
  match jm_get id (incoming r) with
  | Some inc => last inc
  | None => None
  end.

Definition isBroadcastEdge (r : MapContextResult) (source target : string) : bool :=
  match jm_get target (incoming r) with
  | Some inc =>
      match last inc with
      | Some activeMap =>
          if source === activeMap then false
          else negb (js_mem activeMap (jm_get source (outgoing r) ⁇ []))
      | None => false
      end
  | None => false
  end.

(** *** The editor's use of it ([web_ui/composables/useMapContext.ts])

    [catalogue] is the lookup of the block catalogue. *)
Definition flowGraph (catalogue : string -> option BlockListItem) (st : FlowState) : list MapGraphNode :=
  (fun node : Node =>
     let name := match n_data node ≫= nd_name with
                 | Some s => s
                 | None => (n_data node ≫= nd_label) ⁇ ""
                 end in
     mkGraphNode (n_id node) (match catalogue name with Some item => bl_kind item | None => Standard end)
       (e_source <$> js_filter (fun e => e_target e === n_id node) (edges st))) <$> nodes st.

Definition useMapContext (catalogue : string -> option BlockListItem) (st : FlowState)
    : option MapContextResult :=
  computeMapContext (flowGraph catalogue st).
