(* ===== verification/MapSort.v ===== *)
(** * The topological sort of [computeMapContext]

    Termination of the loop on every graph, and what the order is: every block
    once, and after its dependencies when there is no cycle. *)

From S2P Require Export MapContext.
From Stdlib Require Import ZArith.
Open Scope js_scope.

(** ** Termination, on every input *)

(** The blocks that still wait for a dependency. *)
Definition waiting (m : jsmap Z) : nat := length (filter (fun e => (0 < e.2)%Z) m).

Lemma waiting_set c v m :
  let old := (jm_get c m ⁇ 0)%Z in
  v = (old - 1)%Z ->
  waiting (jm_set c v m) + (if v === 0%Z then 1 else 0) <= waiting m.
Proof.
  unfold waiting. simpl. intros Hv. induction m as [|[c' v'] m IH]; simpl in *.
  - subst v. rewrite filter_cons_False by (cbn; lia). done.
  - destruct (decide (c' = c)) as [->|Hc]; [rewrite eqb_refl_js in * | rewrite !eqb_ne_js in * by done].
    + change (default 0%Z (Some v')) with v' in Hv. clear IH. case_bool_decide as Hz.
      * rewrite filter_cons_False, filter_cons_True by (cbn [fst snd]; lia). simpl. lia.
      * destruct (decide (0 < v)%Z).
        -- rewrite !filter_cons_True by (cbn [fst snd]; lia). simpl. lia.
        -- rewrite filter_cons_False by (cbn [fst snd]; lia). destruct (decide (0 < v')%Z).
           ++ rewrite filter_cons_True by (cbn [fst snd]; lia). simpl. lia.
           ++ rewrite filter_cons_False by (cbn [fst snd]; lia). lia.
    + specialize (IH Hv). destruct (decide (0 < v')%Z).
      * rewrite !filter_cons_True by (cbn [fst snd]; lia). simpl. lia.
      * rewrite !filter_cons_False by (cbn [fst snd]; lia). lia.
Qed.

Definition work (st : kahn) : nat := length (queue st) + waiting (k_indeg st).

Lemma work_release st c : work (release st c) <= work st.
Proof.
  unfold work, release. simpl.
  pose proof (waiting_set c _ (k_indeg st) eq_refl) as H. simpl in H.
  case_bool_decide; rewrite ?length_app in *; simpl in *; lia.
Qed.

Lemma work_releases cs st : work (foldl release st cs) <= work st.
Proof.
  revert st. induction cs as [|c cs IH]; intros st; simpl; [done|].
  etransitivity; [apply IH | apply work_release].
Qed.

Lemma sort_loop_total fuel ch st : work st <= fuel -> is_Some (sort_loop fuel ch st).
Proof.
  revert st. induction fuel as [|fuel IH]; intros st Hw; simpl;
    destruct (queue st) as [|id rest] eqn:Hq; [by eauto| |by eauto|].
  - unfold work in Hw. rewrite Hq in Hw. simpl in Hw. lia.
  - apply IH. etransitivity; [apply work_releases|]. unfold work in *. rewrite Hq in Hw. simpl in *. lia.
Qed.

(** ** The links *)

(** The dependencies of the graph, one pair per occurrence. *)
Definition all_deps (ns : list MapGraphNode) : list (string * string) :=
  ns ≫= fun n => (fun d => (g_id n, d)) <$> g_deps n.

Definition ids (ns : list MapGraphNode) : list string := g_id <$> ns.

(** Those whose upstream is a block of the graph. *)
Definition real_deps (ns : list MapGraphNode) : list (string * string) :=
  js_filter (fun p => js_mem p.2 (ids ns)) (all_deps ns).

Lemma elem_real_deps ns c d :
  (c, d) ∈ real_deps ns <-> (exists n, n ∈ ns /\ g_id n = c /\ d ∈ g_deps n) /\ d ∈ ids ns.
Proof.
  unfold real_deps, all_deps. rewrite elem_of_js_filter. simpl. unfold js_mem.
  rewrite bool_decide_eq_true, list_elem_of_bind. split.
  - intros [Hd (n & Hin & Hn)]. apply list_elem_of_fmap in Hin as (d' & Heq & Hd'). simplify_eq. eauto 6.
  - intros [(n & Hn & <- & Hin) Hd]. split; [done|]. exists n. split; [|done].
    by apply (list_elem_of_fmap_2 (fun d => (g_id n, d))).
Qed.

Lemma graph_byId_keys ns id : jm_has id (graph_byId ns) = true <-> id ∈ ids ns.
Proof.
  rewrite jm_has_true. unfold graph_byId, jm_of_entries, ids.
  assert (H : forall l m, id ∈ jm_keys (foldl (fun (m : jsmap MapGraphNode) e => jm_set e.1 e.2 m) m l) <->
    id ∈ jm_keys m \/ id ∈ jm_keys l).
  { induction l as [|e l IH]; intros m; simpl; [set_solver|]. rewrite IH, elem_jm_keys_set. set_solver. }
  rewrite H. unfold jm_keys. rewrite <-list_fmap_compose. set_solver.
Qed.

Lemma graph_byId_get ns n : NoDup (ids ns) -> n ∈ ns -> jm_get (g_id n) (graph_byId ns) = Some n.
Proof.
  intros Hnd Hn. unfold graph_byId.
  assert (Hk : jm_keys ((fun n => (g_id n, n)) <$> ns) = ids ns).
  { unfold jm_keys, ids. rewrite <-list_fmap_compose. by apply list_fmap_ext. }
  rewrite jm_of_entries_NoDup by (by rewrite Hk). apply elem_jm_get; [by rewrite Hk|].
  by apply (list_elem_of_fmap_2 (fun n => (g_id n, n))).
Qed.

Lemma graph_byId_total ns id : id ∈ ids ns -> is_Some (jm_get id (graph_byId ns)).
Proof. intros H. apply jm_get_is_Some, jm_has_true. by apply graph_byId_keys. Qed.

(** Linking one pair, seen as a function of the pair. *)
Definition link_pair (ls : links) (p : string * string) : links :=
  mkLinks (jm_set p.1 ((jm_get p.1 (indeg ls) ⁇ 0) + 1)%Z (indeg ls))
    (jm_set p.2 ((jm_get p.2 (children ls) ⁇ []) ++ [p.1]) (children ls)).

Lemma build_links_pairs ns :
  build_links ns = foldl link_pair (foldl declare (mkLinks [] []) ns) (real_deps ns).
Proof.
  unfold build_links. generalize (foldl declare (mkLinks [] []) ns).
  assert (Hmem : forall d, js_mem d (ids ns) = jm_has d (graph_byId ns)).
  { intros d. apply eq_true_iff_eq. rewrite graph_byId_keys. unfold js_mem. by rewrite bool_decide_eq_true. }
  unfold real_deps, all_deps, js_filter.
  assert (H : forall l ls, foldl (fun ls n => foldl (link (graph_byId ns) (g_id n)) ls (g_deps n)) ls l =
    foldl link_pair ls (filter (fun p => js_mem p.2 (ids ns) = true)
      (l ≫= fun n => (fun d => (g_id n, d)) <$> g_deps n))).
  { induction l as [|n l IH]; intros ls; [done|]. rewrite bind_cons, filter_app, foldl_app. simpl foldl at 1.
    rewrite IH. f_equal. generalize (g_deps n) as deps. intros deps. revert ls.
    induction deps as [|d deps IHd]; intros ls; [done|]. simpl. rewrite IHd. unfold link.
    rewrite <-Hmem. destruct (js_mem d (ids ns)) eqn:E; simpl.
    - by rewrite filter_cons_True.
    - rewrite filter_cons_False; [done|]. simpl. congruence. }
  apply H.
Qed.

Definition count_deps (P : string * string -> bool) (E : list (string * string)) : Z :=
  Z.of_nat (length (js_filter P E)).

Lemma link_pairs_indeg E ls c :
  (jm_get c (indeg (foldl link_pair ls E)) ⁇ 0)%Z =
    ((jm_get c (indeg ls) ⁇ 0) + count_deps (fun p => p.1 === c) E)%Z.
Proof.
  revert ls. induction E as [|p E IH]; intros ls; simpl; [unfold count_deps; simpl; lia|].
  rewrite IH. simpl. rewrite jm_get_set. unfold count_deps, js_filter.
  destruct (decide (p.1 = c)) as [Hc|Hc].
  - rewrite Hc, eqb_refl_js, filter_cons_True by (by bool_prop). simpl. lia.
  - rewrite eqb_ne_js, filter_cons_False by (done || intros H; bool_prop; done). done.
Qed.

Lemma link_pairs_children E ls d :
  jm_get d (children (foldl link_pair ls E)) ⁇ [] =
    (jm_get d (children ls) ⁇ []) ++ (fst <$> js_filter (fun p => p.2 === d) E).
Proof.
  revert ls. induction E as [|p E IH]; intros ls; simpl; [by rewrite app_nil_r|].
  rewrite IH. simpl. rewrite jm_get_set. unfold js_filter.
  destruct (decide (p.2 = d)) as [Hd|Hd].
  - rewrite Hd, eqb_refl_js, filter_cons_True by (by bool_prop). simpl. by rewrite <-app_assoc.
  - rewrite eqb_ne_js, filter_cons_False by (done || intros H; bool_prop; done). done.
Qed.

Lemma declare_all ns ls :
  (forall c, (jm_get c (indeg ls) ⁇ 0)%Z = 0%Z) -> (forall d, jm_get d (children ls) ⁇ [] = []) ->
  let ls' := foldl declare ls ns in
  (forall c, (jm_get c (indeg ls') ⁇ 0)%Z = 0%Z) /\ (forall d, jm_get d (children ls') ⁇ [] = []).
Proof.
  revert ls. induction ns as [|n ns IH]; intros ls Hi Hc; simpl; [done|].
  apply IH; intros x; simpl; rewrite jm_get_set; case_bool_decide; auto.
Qed.

Lemma build_links_indeg ns c :
  (jm_get c (indeg (build_links ns)) ⁇ 0)%Z = count_deps (fun p => p.1 === c) (real_deps ns).
Proof.
  rewrite build_links_pairs, link_pairs_indeg.
  destruct (declare_all ns (mkLinks [] [])) as [H _]; [done..|]. rewrite H. lia.
Qed.

Lemma build_links_children ns d :
  jm_get d (children (build_links ns)) ⁇ [] = fst <$> js_filter (fun p => p.2 === d) (real_deps ns).
Proof.
  rewrite build_links_pairs, link_pairs_children.
  destruct (declare_all ns (mkLinks [] [])) as [_ H]; [done..|]. by rewrite H.
Qed.

(** ** The loop, when no two blocks share an id *)

Definition cnt (c : string) (cs : list string) : Z := Z.of_nat (length (js_filter (fun x => x === c) cs)).

Lemma cnt_cons_eq c cs : cnt c (c :: cs) = (1 + cnt c cs)%Z.
Proof. unfold cnt. rewrite js_filter_cons, eqb_refl_js. simpl. lia. Qed.

Lemma cnt_cons_ne c x cs : x <> c -> cnt c (x :: cs) = cnt c cs.
Proof. intros H. unfold cnt. by rewrite js_filter_cons, eqb_ne_js. Qed.

Lemma cnt_nonneg c cs : (0 <= cnt c cs)%Z.
Proof. unfold cnt. lia. Qed.

Lemma cnt_elem c cs : (0 < cnt c cs)%Z <-> c ∈ cs.
Proof.
  induction cs as [|x cs IH]; [split; [done | by intros ?%elem_of_nil]|].
  rewrite elem_of_cons, <-IH. pose proof (cnt_nonneg c cs).
  destruct (decide (x = c)) as [->|Hx].
  - rewrite cnt_cons_eq. split; [by left | lia].
  - rewrite cnt_cons_ne by done. split; [by right | intros [->|?]; done].
Qed.

Definition deg (st : kahn) (c : string) : Z := (jm_get c (k_indeg st) ⁇ 0)%Z.

Lemma deg_release st c x : deg (release st c) x = (deg st x - if c === x then 1 else 0)%Z.
Proof.
  unfold deg, release. simpl. rewrite jm_get_set. case_bool_decide; subst; simpl; lia.
Qed.

(** Releasing the children of a block enqueues those that wait for nothing else. *)
Lemma releases_spec cs st :
  (forall c, (cnt c cs <= deg st c)%Z \/ c ∉ cs) ->
  let st' := foldl release st cs in
  order st' = order st /\ (forall c, deg st' c = (deg st c - cnt c cs)%Z) /\
  exists new, queue st' = queue st ++ new /\ NoDup new /\
    forall c, c ∈ new <-> c ∈ cs /\ deg st c = cnt c cs.
Proof.
  revert st. induction cs as [|c0 cs IH]; intros st Hle; simpl.
  { split; [done|]. split; [intros c; unfold cnt; simpl; lia|]. exists [].
    rewrite app_nil_r. split; [done|]. split; [constructor|]. set_solver. }
  assert (H0 : (1 + cnt c0 cs <= deg st c0)%Z).
  { destruct (Hle c0) as [H|H]; [by rewrite cnt_cons_eq in H | set_solver]. }
  destruct (IH (release st c0)) as (Ho & Hd & new & Hq & Hnd & Hnew).
  { intros c. rewrite deg_release. destruct (decide (c0 = c)) as [->|Hne].
    - rewrite eqb_refl_js. left. lia.
    - rewrite eqb_ne_js by done. destruct (Hle c) as [H|H]; [left|right; set_solver].
      rewrite cnt_cons_ne in H by done. lia. }
  split; [done|]. split.
  { intros c. rewrite Hd, deg_release. destruct (decide (c0 = c)) as [->|Hne].
    - rewrite eqb_refl_js, cnt_cons_eq. lia.
    - rewrite eqb_ne_js, cnt_cons_ne by done. lia. }
  assert (Hne : forall c, c <> c0 -> (c ∈ new <-> c ∈ c0 :: cs /\ deg st c = cnt c (c0 :: cs))).
  { intros c Hc. rewrite Hnew, deg_release, eqb_ne_js, cnt_cons_ne by congruence.
    rewrite Z.sub_0_r. set_solver. }
  assert (Hc0 : c0 ∈ new <-> c0 ∈ cs /\ deg st c0 = cnt c0 (c0 :: cs)).
  { rewrite Hnew, deg_release, eqb_refl_js, cnt_cons_eq. naive_solver lia. }
  rewrite Hq. unfold release. simpl. fold (deg st c0). case_bool_decide as Hz.
  - assert (c0 ∉ new). { rewrite Hc0, <-cnt_elem, cnt_cons_eq. lia. }
    exists (c0 :: new). rewrite <-app_assoc. split; [done|]. split; [by constructor|].
    intros c. destruct (decide (c = c0)) as [->|Hc].
    + split; [|intros _; left]. intros _. split; [left|]. rewrite cnt_cons_eq. pose proof (cnt_nonneg c0 cs). lia.
    + rewrite <-Hne by done. set_solver.
  - exists new. split; [done|]. split; [done|]. intros c. destruct (decide (c = c0)) as [->|Hc].
    + rewrite Hc0. split; [intros [??]; split; [left|done]|]. intros [_ Heq]. split; [|done].
      rewrite cnt_cons_eq in Heq. pose proof (cnt_nonneg c0 cs). apply cnt_elem. lia.
    + by apply Hne.
Qed.

Section Sort.
Context (ns : list MapGraphNode) (Hids : NoDup (ids ns)).

(** The dependencies of [c] that are still to be placed. *)
Definition pending (placed : list string) (c : string) : Z :=
  count_deps (fun p => (p.1 === c) && negb (js_mem p.2 placed)) (real_deps ns).

Lemma pending_zero placed c :
  pending placed c = 0%Z <-> forall d, (c, d) ∈ real_deps ns -> d ∈ placed.
Proof.
  unfold pending, count_deps. split.
  - intros H d Hd. destruct (decide (d ∈ placed)) as [|Hn]; [done|].
    assert ((c, d) ∈ js_filter (fun p => (p.1 === c) && negb (js_mem p.2 placed)) (real_deps ns)) as Hin.
    { apply elem_of_js_filter. split; [|done]. simpl. unfold js_mem. by bool_prop. }
    destruct (js_filter _ _); [by apply elem_of_nil in Hin | simpl in H; lia].
  - intros H. rewrite js_filter_none; [done|]. apply Forall_forall. intros [c' d] Hp. simpl.
    case_bool_decide as Hc; [|done]. subst. simpl. unfold js_mem.
    by rewrite bool_decide_eq_true_2 by (by apply H).
Qed.

Lemma pending_nonneg placed c : (0 <= pending placed c)%Z.
Proof. unfold pending, count_deps. lia. Qed.

(** Placing one more block releases its children. *)
Lemma pending_place placed id c :
  id ∉ placed ->
  pending placed c =
    (pending (placed ++ [id]) c + cnt c (fst <$> js_filter (fun p => p.2 === id) (real_deps ns)))%Z.
Proof.
  intros Hid. unfold pending, count_deps, cnt.
  induction (real_deps ns) as [|[c' d] E IH]; [done|]. rewrite !js_filter_cons. simpl.
  assert (Hd : js_mem d (placed ++ [id]) = (d === id) || js_mem d placed).
  { unfold js_mem. rewrite <-bool_decide_or. apply bool_decide_ext. set_solver. }
  rewrite Hd. case_bool_decide as Heq; csimpl.
  - subst d. assert (js_mem id placed = false) as -> by (by apply bool_decide_eq_false).
    rewrite andb_true_r, andb_false_r. rewrite js_filter_cons. case_bool_decide; csimpl; lia.
  - destruct (_ && _); simpl; lia.
Qed.

(** ** The invariant of the loop *)

Definition dep_order (l : list string) : Prop :=
  forall l1 c l2, l = l1 ++ c :: l2 -> forall d, (c, d) ∈ real_deps ns -> d ∈ l1.

Record kahn_inv (st : kahn) : Prop := {
  ki_nodup : NoDup (order st ++ queue st);
  ki_ids : order st ++ queue st ⊆ ids ns;
  ki_deg : forall c, deg st c = pending (order st) c;
  ki_zero : forall c, c ∈ ids ns -> deg st c = 0%Z <-> c ∈ order st ++ queue st;
  ki_topo : dep_order (order st) }.

Lemma real_dep_ids c d : (c, d) ∈ real_deps ns -> c ∈ ids ns /\ d ∈ ids ns.
Proof.
  intros [(n & Hn & <- & _) Hd]%elem_real_deps. split; [|done]. by apply list_elem_of_fmap_2.
Qed.

Lemma kahn_inv_initial : kahn_inv (initial_kahn ns (build_links ns)).
Proof.
  assert (Hdeg : forall c, deg (initial_kahn ns (build_links ns)) c = pending [] c).
  { intros c. unfold deg, pending. simpl. rewrite build_links_indeg. unfold count_deps. do 2 f_equal.
    unfold js_filter. apply list_filter_iff. intros p. simpl. by rewrite andb_true_r. }
  split; simpl.
  - unfold ids in Hids. eapply sublist_NoDup; [exact Hids|]. apply fmap_sublist, sublist_filter.
  - intros c (n & -> & Hn)%list_elem_of_fmap. apply elem_of_js_filter in Hn as [_ Hn]. by apply list_elem_of_fmap_2.
  - exact Hdeg.
  - intros c Hc. apply list_elem_of_fmap in Hc as (n & -> & Hn). split.
    + intros H. apply list_elem_of_fmap_2, elem_of_js_filter. split; [by bool_prop | done].
    + intros (n' & Heq & [Hz _]%elem_of_js_filter)%list_elem_of_fmap. rewrite Heq. bool_prop. exact Hz.
  - intros [|] c l2 Heq; done.
Qed.

Lemma kahn_inv_step st id rest :
  kahn_inv st -> queue st = id :: rest ->
  kahn_inv (foldl release (mkKahn (k_indeg st) rest (order st ++ [id]))
    (jm_get id (children (build_links ns)) ⁇ [])).
Proof.
  intros [Hnd Hsub Hdeg Hzero Htopo] Hq. rewrite build_links_children. rewrite Hq in Hnd, Hsub, Hzero.
  set (cs := fst <$> js_filter (fun p => p.2 === id) (real_deps ns)).
  assert (Hid : id ∉ order st).
  { apply NoDup_app in Hnd as (_ & Hnd & _). intros H. apply (Hnd id H). left. }
  assert (Hcs : forall c, c ∈ cs -> c ∈ ids ns).
  { intros c ([c' d] & -> & [_ Hp]%elem_of_js_filter)%list_elem_of_fmap. by apply real_dep_ids in Hp as [? _]. }
  assert (Hsplit : forall c, pending (order st) c = (pending (order st ++ [id]) c + cnt c cs)%Z)
    by (intros; by apply pending_place).
  destruct (releases_spec cs (mkKahn (k_indeg st) rest (order st ++ [id]))) as (Ho & Hd & new & Hqn & Hnn & Hnew).
  { intros c. left. change (cnt c cs <= deg st c)%Z. rewrite Hdeg, Hsplit.
    pose proof (pending_nonneg (order st ++ [id]) c). lia. }
  simpl in Ho, Hqn. change (deg (mkKahn (k_indeg st) rest (order st ++ [id]))) with (deg st) in Hd, Hnew.
  assert (Hfresh : forall c, c ∈ new -> c ∈ ids ns /\ c ∉ order st ++ id :: rest).
  { intros c [Hc Heq]%Hnew. split; [by apply Hcs|]. rewrite <-Hzero by (by apply Hcs).
    apply cnt_elem in Hc. lia. }
  assert (Heql : (order st ++ [id]) ++ rest ++ new = (order st ++ id :: rest) ++ new) by (by rewrite <-!app_assoc).
  split; rewrite ?Ho, ?Hqn, ?Heql.
  - apply NoDup_app. split_and!; [done| |done]. intros c Hc Hc'. by apply Hfresh in Hc' as [_ ?].
  - intros c [Hc|Hc]%elem_of_app; [by apply Hsub | by apply Hfresh].
  - intros c. rewrite Hd, Hdeg, Hsplit. lia.
  - intros c Hc. rewrite Hd, elem_of_app, Hnew, <-Hzero by done.
    pose proof (cnt_nonneg c cs) as H1. pose proof (pending_nonneg (order st ++ [id]) c) as H2.
    pose proof (cnt_elem c cs) as H3. specialize (Hsplit c). rewrite <-Hdeg in Hsplit. split.
    + intros H. destruct (decide (deg st c = 0%Z)); [by left | right]. split; [apply H3|]; lia.
    + intros [?|[? ?]]; lia.
  - intros l1 c l2 Heq d Hcd. destruct l2 as [|x l2 _] using rev_ind.
    + apply app_inj_tail in Heq as [<- <-].
      assert (Hz : deg st id = 0%Z) by (apply Hzero; [apply Hsub; set_solver | set_solver]).
      rewrite Hdeg, pending_zero in Hz. by apply Hz.
    + rewrite app_comm_cons, app_assoc in Heq. apply app_inj_tail in Heq as [Heq _].
      by eapply Htopo.
Qed.

Lemma sort_loop_inv fuel st st' :
  kahn_inv st -> sort_loop fuel (children (build_links ns)) st = Some st' ->
  kahn_inv st' /\ queue st' = [].
Proof.
  revert st. induction fuel as [|fuel IH]; intros st Hst Hrun; simpl in Hrun;
    destruct (queue st) as [|id rest] eqn:Hq; simplify_eq; [done|done|].
  eapply IH; [|exact Hrun]. by apply kahn_inv_step.
Qed.
End Sort.

(** ** The order *)

(** [c] depends on [d]. *)
Definition depends_on (ns : list MapGraphNode) (c d : string) : Prop := (c, d) ∈ real_deps ns.

Definition acyclic_graph (ns : list MapGraphNode) : Prop := forall x, ~ tc (depends_on ns) x x.

(** Descending along the dependencies of an acyclic graph comes to an end. *)
Lemma depends_sn ns x : acyclic_graph ns -> sn (depends_on ns) x.
Proof.
  intros Hac. apply tc_finite_sn; [exact Hac|]. exists (ids ns). intros y Hy.
  induction Hy as [x y H|x y z _ _ IH]; [|done]. unfold depends_on in H. by apply real_dep_ids in H as [_ ?].
Qed.

(** The in-degrees are kept for the blocks of the graph, once each. *)
Definition good_keys (ns : list MapGraphNode) (m : jsmap Z) : Prop :=
  NoDup (jm_keys m) /\ forall c, c ∈ jm_keys m -> c ∈ ids ns.

Lemma good_keys_set ns c v m : good_keys ns m -> c ∈ ids ns -> good_keys ns (jm_set c v m).
Proof.
  intros [Hnd Hin] Hc. split; [by apply NoDup_jm_set|].
  intros x [->|Hx]%elem_jm_keys_set; auto.
Qed.

Lemma good_keys_links ns : good_keys ns (indeg (build_links ns)).
Proof.
  rewrite build_links_pairs.
  assert (H0 : good_keys ns (indeg (foldl declare (mkLinks [] []) ns))).
  { assert (H : forall l ls, (forall n, n ∈ l -> n ∈ ns) -> good_keys ns (indeg ls) ->
      good_keys ns (indeg (foldl declare ls l))).
    { induction l as [|n l IH]; intros ls Hl Hls; simpl; [done|]. apply IH; [intros; apply Hl; by right|].
      apply good_keys_set; [done|]. apply (list_elem_of_fmap_2 g_id), Hl. left. }
    apply H; [done|]. split; [constructor | by intros c ?%elem_of_nil]. }
  assert (H : forall E ls, (forall p, p ∈ E -> p.1 ∈ ids ns) -> good_keys ns (indeg ls) ->
    good_keys ns (indeg (foldl link_pair ls E))).
  { induction E as [|p E IH]; intros ls HE Hls; simpl; [done|]. apply IH; [intros; apply HE; by right|].
    apply good_keys_set; [done|]. apply HE. left. }
  apply H; [|done]. intros [c d] Hp. by apply real_dep_ids in Hp as [? _].
Qed.

(** The loop always ends within the bound. *)
Lemma sort_order_total ns : exists l, sort_order ns = Some l.
Proof.
  unfold sort_order. destruct (sort_loop_total (2 * length ns) (children (build_links ns))
    (initial_kahn ns (build_links ns))) as [st ->]; [|simpl; eauto].
  unfold work, initial_kahn. cbn [queue k_indeg].
  assert (Hq : length (g_id <$> js_filter (fun n => (jm_get (g_id n) (indeg (build_links ns)) ⁇ 0%Z) === 0%Z) ns)
    <= length ns) by (rewrite length_fmap; apply length_filter).
  assert (Hw : waiting (indeg (build_links ns)) <= length ns); [|lia].
  etransitivity; [apply length_filter|]. destruct (good_keys_links ns) as [Hnd Hin].
  assert (length (jm_keys (indeg (build_links ns))) <= length (ids ns)) as H.
  { apply submseteq_length. by apply NoDup_submseteq. }
  unfold jm_keys, ids in H. by rewrite !length_fmap in H.
Qed.

(** Without repeated ids the order holds every block once, and without a cycle
    every block comes after what it depends on. *)
Lemma sort_order_correct ns :
  NoDup (ids ns) ->
  exists l, sort_order ns = Some l /\ NoDup l /\ (forall c, c ∈ l <-> c ∈ ids ns) /\
    (acyclic_graph ns -> dep_order ns l).
Proof.
  intros Hnd. destruct (sort_order_total ns) as [l Hl]. exists l. split; [done|].
  unfold sort_order in Hl. destruct (sort_loop _ _ _) as [st|] eqn:Hrun; simplify_eq/=.
  apply (sort_loop_inv ns) in Hrun as [[Hn Hs Hd Hz Ht] Hq]; [|done|by apply kahn_inv_initial].
  rewrite Hq, app_nil_r in *. unfold append_rest. split; [|split].
  - apply NoDup_app. split_and!; [done| |by apply NoDup_filter].
    intros c Hc [Hm _]%elem_of_js_filter. unfold js_mem in Hm. by bool_prop.
  - intros c. rewrite elem_of_app, elem_of_js_filter. unfold js_mem. split.
    + intros [Hc|[_ Hc]]; [by apply Hs | done].
    + intros Hc. destruct (decide (c ∈ order st)); [by left | right]. split; [by bool_prop | done].
  - intros Hac. rewrite js_filter_none; [by rewrite app_nil_r|]. apply Forall_forall. intros c Hc.
    apply negb_false_iff. apply bool_decide_eq_true.
    induction (depends_sn ns c Hac) as [c _ IH]. apply Hz; [done|]. rewrite Hd.
    apply pending_zero. intros d Hcd. apply IH; [exact Hcd|]. by apply real_dep_ids in Hcd as [_ ?].
Qed.
