(* ===== verification/MapSpec.v ===== *)
(** * What [computeMapContext] computes

    Totality, the equations of the stacks, and what the stacks mean in the graph. *)

From S2P Require Export MapSort.
Open Scope js_scope.
Open Scope nat_scope.

(** ** Totality *)

Definition placed_in (ns : list MapGraphNode) (st : kahn) : Prop :=
  forall c, c ∈ order st \/ c ∈ queue st -> c ∈ ids ns.

Lemma placed_in_releases ns cs st :
  placed_in ns st -> (forall c, c ∈ cs -> c ∈ ids ns) -> placed_in ns (foldl release st cs).
Proof.
  revert st. induction cs as [|c cs IH]; intros st Hst Hcs; simpl; [done|].
  apply IH; [|intros; apply Hcs; by right]. intros x [Hx|Hx]; unfold release in Hx; simpl in Hx.
  - apply Hst. by left.
  - case_bool_decide.
    + apply elem_of_app in Hx as [Hx| ->%list_elem_of_singleton]; [apply Hst; by right | apply Hcs; left].
    + apply Hst. by right.
Qed.

Lemma placed_in_loop ns fuel st st' :
  placed_in ns st -> sort_loop fuel (children (build_links ns)) st = Some st' -> placed_in ns st'.
Proof.
  revert st. induction fuel as [|fuel IH]; intros st Hst Hrun; simpl in Hrun;
    destruct (queue st) as [|id rest] eqn:Hq; simplify_eq; [done|done|].
  eapply IH; [|exact Hrun]. apply placed_in_releases.
  - intros x [Hx|Hx]; simpl in Hx; apply Hst; rewrite Hq; set_solver.
  - rewrite build_links_children. intros c ([c' d] & -> & [_ Hp]%elem_of_js_filter)%list_elem_of_fmap.
    by apply real_dep_ids in Hp as [? _].
Qed.

Lemma sort_order_ids ns l c : sort_order ns = Some l -> c ∈ l -> c ∈ ids ns.
Proof.
  unfold sort_order. destruct (sort_loop _ _ _) as [st|] eqn:Hrun; intros Hl Hc; simplify_eq/=.
  apply placed_in_loop in Hrun.
  - apply elem_of_app in Hc as [Hc|[_ Hc]%elem_of_js_filter]; [|done]. apply Hrun. by left.
  - intros x [Hx|Hx]; simpl in Hx; [by apply elem_of_nil in Hx|].
    apply list_elem_of_fmap in Hx as (n & -> & [_ Hn]%elem_of_js_filter). by apply list_elem_of_fmap_2.
Qed.

Lemma analyse_total ns l st :
  (forall c, c ∈ l -> c ∈ ids ns) -> exists st', analyse (graph_byId ns) l st = Some st'.
Proof.
  revert st. induction l as [|c l IH]; intros st Hl; simpl; [eauto|].
  destruct (graph_byId_total ns c) as [n ->]; [apply Hl; left|]. apply IH. intros; apply Hl; by right.
Qed.

(** ** The stacks *)

Definition outgoing_of (kind : BlockKind) (id : string) (inc : list string) : list string :=
  match kind with MapKind => inc ++ [id] | ReduceKind => drop_last inc | Standard => inc end.

Lemma deepest_ext f g deps : (forall d, d ∈ deps -> f d = g d) -> deepest f deps = deepest g deps.
Proof.
  unfold deepest. generalize (@nil string). induction deps as [|d deps IH]; intros inc Hfg; simpl; [done|].
  rewrite Hfg by left. apply IH. intros; apply Hfg; by right.
Qed.

Section Analysis.
Context (ns : list MapGraphNode) (Hids : NoDup (ids ns)).

(** What is known after the blocks of [l] have been processed. *)
Record analysed (l : list string) (st : analysis) : Prop := {
  an_todo_in : forall c, c ∉ l -> jm_get c (a_incoming st) = None;
  an_todo : forall c, c ∉ l -> jm_get c (a_outgoing st) = None;
  an_keys : NoDup (jm_keys (a_incoming st));
  an_eqn : forall n, n ∈ ns -> g_id n ∈ l -> dep_order ns l ->
    let inc := deepest (fun d => jm_get d (a_outgoing st)) (g_deps n) in
    jm_get (g_id n) (a_incoming st) = Some inc /\
    jm_get (g_id n) (a_outgoing st) = Some (outgoing_of (g_kind n) (g_id n) inc);
  an_nested : forall n, n ∈ ns -> g_id n ∈ a_nested st <->
    g_kind n = MapKind /\ exists m s, jm_get (g_id n) (a_incoming st) = Some (m :: s) }.

Lemma node_unique n n' : n ∈ ns -> n' ∈ ns -> g_id n = g_id n' -> n = n'.
Proof. intros. by eapply (NoDup_fmap_eq g_id). Qed.

Lemma analysed_step l st n :
  analysed l st -> n ∈ ns -> g_id n ∉ l -> analysed (l ++ [g_id n]) (analyse_node st (g_id n) n).
Proof.
  intros [Hti Hto Hk He Hn] Hin Hl. unfold analyse_node.
  set (inc := deepest _ (g_deps n)).
  change (match g_kind n with MapKind => inc ++ [g_id n] | ReduceKind => drop_last inc | Standard => inc end)
    with (outgoing_of (g_kind n) (g_id n) inc).
  split; simpl.
  - intros c Hc. rewrite jm_get_set_ne by set_solver. apply Hti. set_solver.
  - intros c Hc. rewrite jm_get_set_ne by set_solver. apply Hto. set_solver.
  - by apply NoDup_jm_set.
  - intros n' Hn' Hin' Hord.
    assert (Hord' : dep_order ns l).
    { intros l1 c l2 -> d Hd. eapply (Hord l1 c (l2 ++ [g_id n])); [by rewrite <-app_assoc | done]. }
    (* no processed block, nor the new one, depends on the new one *)
    assert (Hnew : g_id n ∉ g_deps n').
    { intros Hd. assert (Hdep : depends_on ns (g_id n') (g_id n)).
      { apply elem_real_deps. split; [eauto|]. by apply list_elem_of_fmap_2. }
      apply elem_of_app in Hin' as [Hin'|Heq%list_elem_of_singleton].
      - apply list_elem_of_split in Hin' as (l1 & l2 & ->). apply Hl.
        apply elem_of_app. left. by apply (Hord' l1 (g_id n') l2).
      - apply Hl. apply (Hord l (g_id n) []); [done|]. by rewrite <-Heq at 1. }
    rewrite (deepest_ext _ (fun d => jm_get d (a_outgoing st))) by
      (intros d Hd; apply jm_get_set_ne; congruence).
    destruct (decide (g_id n' = g_id n)) as [Heq|Hne].
    + apply node_unique in Heq as ->; [|done|done]. by rewrite !jm_get_set_eq.
    + rewrite !jm_get_set_ne by congruence. apply He; [done| |done].
      apply elem_of_app in Hin' as [?|?%list_elem_of_singleton]; [done|congruence].
  - intros n' Hn'. destruct (decide (g_id n' = g_id n)) as [Heq|Hne].
    + apply node_unique in Heq as ->; [|done|done]. rewrite jm_get_set_eq.
      assert (Hnot : g_id n ∉ a_nested st).
      { rewrite Hn by done. rewrite Hti by done. intros (_ & m & s & ?). done. }
      destruct (g_kind n) eqn:Hkind; [naive_solver| |naive_solver]. destruct inc as [|m s]; [naive_solver|].
      rewrite elem_of_app, list_elem_of_singleton. naive_solver.
    + rewrite jm_get_set_ne by congruence. rewrite <-Hn by done.
      destruct (g_kind n), inc; try done. rewrite elem_of_app, list_elem_of_singleton. naive_solver.
Qed.

Lemma analyse_correct l l0 st st' :
  analysed l0 st -> NoDup (l0 ++ l) -> (forall c, c ∈ l -> c ∈ ids ns) ->
  analyse (graph_byId ns) l st = Some st' -> analysed (l0 ++ l) st'.
Proof.
  revert l0 st. induction l as [|c l IH]; intros l0 st Hst Hnd Hl Hrun; simpl in Hrun.
  { simplify_eq. by rewrite app_nil_r. }
  assert (c ∈ ids ns) as (n & -> & Hn)%list_elem_of_fmap by (apply Hl; left).
  rewrite graph_byId_get in Hrun by done. rewrite cons_middle, app_assoc in *.
  eapply IH; [|done|intros; apply Hl; by right|done]. apply analysed_step; [done|done|].
  rewrite <-app_assoc in Hnd. apply NoDup_app in Hnd as (_ & Hnd & _). intros H. apply (Hnd _ H). left.
Qed.

Lemma analysed_initial : analysed [] (mkAnalysis [] [] []).
Proof.
  split; simpl; [done|done|constructor|by intros n _ ?%elem_of_nil|].
  intros n _. split; [by intros ?%elem_of_nil | intros (_ & m & s & ?); done].
Qed.

Lemma computeMapContext_run :
  exists l st, computeMapContext ns =
      Some (mkContext (a_incoming st) (a_outgoing st) (collect_inContext (a_incoming st)) (a_nested st)) /\
    analysed l st /\ (forall c, c ∈ l <-> c ∈ ids ns) /\ (acyclic_graph ns -> dep_order ns l).
Proof.
  destruct (sort_order_correct ns Hids) as (l & Hl & Hnd & Hin & Htopo).
  destruct (analyse_total ns l (mkAnalysis [] [] [])) as [st Hst]; [intros; by apply Hin|].
  exists l, st. split.
  { unfold computeMapContext. rewrite Hl. simpl. rewrite Hst. done. }
  split; [|done]. apply (analyse_correct l [] _ _ analysed_initial); [done|intros; by apply Hin|done].
Qed.
End Analysis.

Lemma elem_inContext inc id :
  NoDup (jm_keys inc) ->
  id ∈ collect_inContext inc <-> exists m s, jm_get id inc = Some (m :: s).
Proof.
  intros Hnd. assert (H : forall l s, id ∈ foldl (fun s e => match e.2 with [] => s | _ => js_add e.1 s end) s l <->
    id ∈ s \/ exists m t, (id, m :: t) ∈ (l : jsmap (list string))).
  { induction l as [|[k v] l IH]; intros s; simpl.
    - split; [by left | intros [?|(? & ? & ?%elem_of_nil)]; done].
    - rewrite IH. destruct v as [|m t]; [|rewrite elem_js_add].
      + split; (intros [?|(m & t & Hm)]; [by left|right]); [exists m, t; by right|].
        apply elem_of_cons in Hm as [?|?]; [done|eauto].
      + split.
        * intros [[->|?]|(m' & t' & ?)]; [right; eexists _, _; left|by left|right; eexists _, _; by right].
        * intros [?|(m' & t' & [?|?]%elem_of_cons)]; simplify_eq; [by left; right|by left; left|right; eauto]. }
  unfold collect_inContext. rewrite H. split.
  - intros [?%elem_of_nil|(m & s & Hm)]; [done|]. exists m, s. by apply elem_jm_get.
  - intros (m & s & Hm). right. exists m, s. by apply jm_get_elem.
Qed.

Lemma deepest_cases f deps :
  (deepest f deps = [] \/ exists d, d ∈ deps /\ f d = Some (deepest f deps)) /\
  forall d o, d ∈ deps -> f d = Some o -> length o <= length (deepest f deps).
Proof.
  induction deps as [|d deps IH] using rev_ind.
  { split; [by left | by intros d o ?%elem_of_nil]. }
  unfold deepest in *. rewrite foldl_app. simpl.
  set (inc := foldl _ [] deps) in *. destruct IH as [IH1 IH2].
  assert (Hkeep : inc = [] \/ exists d', d' ∈ deps ++ [d] /\ f d' = Some inc).
  { destruct IH1 as [?|(d' & ? & ?)]; [by left | right]. exists d'. set_solver. }
  destruct (f d) as [o|] eqn:Hd; [case_bool_decide as Hlt|].
  - split; [right; exists d; set_solver|]. intros d' o' [Hd'|Hd'%list_elem_of_singleton]%elem_of_app Ho'.
    + pose proof (IH2 d' o' Hd' Ho'). lia.
    + simplify_eq. lia.
  - split; [done|]. intros d' o' [Hd'|Hd'%list_elem_of_singleton]%elem_of_app Ho'; [by eapply IH2|].
    simplify_eq. lia.
  - split; [done|]. intros d' o' [Hd'|Hd'%list_elem_of_singleton]%elem_of_app Ho'; [by eapply IH2|].
    by simplify_eq.
Qed.

(** The equations the two maps satisfy. *)
Definition stack_equations (ns : list MapGraphNode) (r : MapContextResult) : Prop :=
  forall n, n ∈ ns ->
  let inc := deepest (fun d => jm_get d (outgoing r)) (g_deps n) in
  jm_get (g_id n) (incoming r) = Some inc /\
  jm_get (g_id n) (outgoing r) = Some (outgoing_of (g_kind n) (g_id n) inc).

Lemma computeMapContext_equations ns :
  NoDup (ids ns) -> acyclic_graph ns ->
  exists r, computeMapContext ns = Some r /\ stack_equations ns r /\
    (forall c, c ∉ ids ns -> jm_get c (outgoing r) = None) /\
    (forall id, id ∈ inContext r <-> exists m s, jm_get id (incoming r) = Some (m :: s)) /\
    (forall n, n ∈ ns -> g_id n ∈ nestedMaps r <->
       g_kind n = MapKind /\ exists m s, jm_get (g_id n) (incoming r) = Some (m :: s)).
Proof.
  intros Hids Hac. destruct (computeMapContext_run ns Hids) as (l & st & Hrun & [Hti Hto Hk He Hn] & Hl & Ht).
  eexists. split; [exact Hrun|]. simpl. split_and!.
  - intros n Hin. apply He; [done| |by apply Ht]. apply Hl. by apply list_elem_of_fmap_2.
  - intros c Hc. apply Hto. by rewrite Hl.
  - intros id. by apply elem_inContext.
  - done.
Qed.

(** The stacks of a block hold maps it depends on, once each. *)
Definition stack_of (ns : list MapGraphNode) (R : string -> string -> Prop) (c : string) (s : list string) : Prop :=
  NoDup s /\ forall m, m ∈ s -> R c m /\ exists n, n ∈ ns /\ g_id n = m /\ g_kind n = MapKind.

Lemma drop_last_prefix l : exists s, l = drop_last l ++ s.
Proof. exists (drop (length l - 1) l). unfold drop_last. by rewrite take_drop. Qed.

Lemma stacks_sound ns r :
  acyclic_graph ns -> stack_equations ns r -> (forall c, c ∉ ids ns -> jm_get c (outgoing r) = None) ->
  forall c, sn (depends_on ns) c -> forall n, n ∈ ns -> g_id n = c ->
  exists inc out, jm_get c (incoming r) = Some inc /\ jm_get c (outgoing r) = Some out /\
    stack_of ns (tc (depends_on ns)) c inc /\ stack_of ns (rtc (depends_on ns)) c out.
Proof.
  intros Hac Heq Hout c Hsn. induction Hsn as [c _ IH]. intros n Hn <-.
  destruct (Heq n Hn) as [Hi Ho]. set (inc := deepest _ _) in *.
  exists inc, (outgoing_of (g_kind n) (g_id n) inc). split; [done|]. split; [done|].
  assert (Hinc : stack_of ns (tc (depends_on ns)) (g_id n) inc).
  { destruct (deepest_cases (fun d => jm_get d (outgoing r)) (g_deps n)) as [[H|(d & Hd & Hget)] _].
    - unfold inc. rewrite H. split; [constructor | by intros m ?%elem_of_nil].
    - fold inc in Hget. assert (Hdi : d ∈ ids ns).
      { destruct (decide (d ∈ ids ns)) as [|Hnot]; [done|]. rewrite Hout in Hget; done. }
      assert (Hdep : depends_on ns (g_id n) d) by (apply elem_real_deps; eauto).
      apply list_elem_of_fmap in Hdi as (nd & -> & Hnd).
      destruct (IH (g_id nd) Hdep nd Hnd eq_refl) as (i' & o' & _ & Ho' & _ & [Hnd' Hm]).
      rewrite Hget in Ho'. simplify_eq. split; [done|]. intros m Hin. destruct (Hm m Hin) as [Hr ?].
      split; [by eapply tc_rtc_r; [apply tc_once|]|done]. }
  split; [done|]. destruct Hinc as [Hnd Hm].
  assert (Hinc' : stack_of ns (rtc (depends_on ns)) (g_id n) inc).
  { split; [done|]. intros m Hin. destruct (Hm m Hin). split; [by apply tc_rtc | done]. }
  unfold outgoing_of. destruct (g_kind n) eqn:Hkind; [done| |].
  - split.
    + apply NoDup_app. split_and!; [done| |apply NoDup_singleton].
      intros m Hin ->%list_elem_of_singleton. destruct (Hm _ Hin) as [Htc _]. by apply (Hac (g_id n)).
    + intros m [Hin|Hin%list_elem_of_singleton]%elem_of_app; [by apply Hinc'|].
      subst. split; [done|]. eauto.
  - destruct (drop_last_prefix inc) as [s Hs]. destruct Hinc' as [H1 H2]. rewrite Hs in H1, H2. split.
    + by apply NoDup_app in H1 as (? & _).
    + intros m Hin. apply H2. apply elem_of_app. by left.
Qed.

(** ** Theorems *)

(** C38. [computeMapContext] gives a result on every list of nodes, cyclic graphs
    and repeated ids included: the sort's loop ends and no property of [undefined]
    is read. *)
Theorem computeMapContext_total ns : exists r, computeMapContext ns = Some r.
Proof.
  destruct (sort_order_total ns) as [l Hl]. unfold computeMapContext. rewrite Hl. simpl.
  destruct (analyse_total ns l (mkAnalysis [] [] [])) as [st ->]; [|simpl; eauto].
  intros c. by apply sort_order_ids.
Qed.

(** C39. On a graph with distinct ids and no cycle the result satisfies the
    equations of the analysis: a block's incoming stack is the deepest outgoing
    stack among its dependencies, a map adds itself, a reduce closes the
    innermost map; a block is in context exactly when its incoming stack is not
    empty, and the nested maps are the maps in context. *)
Theorem computeMapContext_spec ns :
  NoDup (ids ns) -> acyclic_graph ns ->
  exists r, computeMapContext ns = Some r /\ stack_equations ns r /\
    (forall n, n ∈ ns -> g_id n ∈ inContext r <->
       exists d o, d ∈ g_deps n /\ jm_get d (outgoing r) = Some o /\ o <> []) /\
    (forall n, n ∈ ns -> g_id n ∈ nestedMaps r <-> g_kind n = MapKind /\ g_id n ∈ inContext r).
Proof.
  intros Hids Hac. destruct (computeMapContext_equations ns Hids Hac) as (r & Hr & Heq & _ & Hc & Hn).
  exists r. split; [done|]. split; [done|]. split; intros n Hin.
  - rewrite Hc. destruct (Heq n Hin) as [-> _].
    destruct (deepest_cases (fun d => jm_get d (outgoing r)) (g_deps n)) as [Hcase Hle].
    split.
    + intros (m & s & Hs). destruct Hcase as [H|(d & Hd & Hget)]; [by rewrite H in Hs|].
      exists d, (m :: s). injection Hs as Hs. by rewrite Hs in Hget.
    + intros (d & o & Hd & Hget & Hne). specialize (Hle d o Hd Hget).
      destruct (deepest _ _) as [|m s]; [destruct o; simpl in Hle; [done|lia]|]. eauto.
  - by rewrite Hn, Hc.
Qed.

(** C40. What a stack means: in an acyclic graph the maps on the incoming stack of
    a block are distinct map blocks it depends on, directly or not, the active map is the
    top of that stack, and a block in a context always has a dependency whose edge is
    not a broadcast. *)
Theorem context_stack_sound ns n :
  NoDup (ids ns) -> acyclic_graph ns -> n ∈ ns ->
  exists r inc, computeMapContext ns = Some r /\ jm_get (g_id n) (incoming r) = Some inc /\
    NoDup inc /\
    (forall m, m ∈ inc -> tc (depends_on ns) (g_id n) m /\ exists nm, nm ∈ ns /\ g_id nm = m /\ g_kind nm = MapKind) /\
    activeMapFor r (g_id n) = last inc /\
    (inc <> [] -> exists d, d ∈ g_deps n /\ isBroadcastEdge r d (g_id n) = false).
Proof.
  intros Hids Hac Hin. destruct (computeMapContext_equations ns Hids Hac) as (r & Hr & Heq & Hout & _ & _).
  destruct (stacks_sound ns r Hac Heq Hout (g_id n) (depends_sn ns _ Hac) n Hin eq_refl)
    as (inc & out & Hi & _ & [Hnd Hm] & _).
  exists r, inc. split_and!; [done|done|done|done|by unfold activeMapFor; rewrite Hi|]. intros Hne.
  destruct (Heq n Hin) as [Hi' _]. rewrite Hi in Hi'. injection Hi' as Hi'.
  destruct (deepest_cases (fun d => jm_get d (outgoing r)) (g_deps n)) as [[H|(d & Hd & Hget)] _]; [congruence|].
  rewrite <-Hi' in Hget. exists d. split; [done|]. unfold isBroadcastEdge. rewrite Hi, Hget.
  destruct (last inc) as [a|] eqn:Ha; [|done]. case_bool_decide; [done|]. simpl. apply negb_false_iff.
  apply bool_decide_eq_true. by apply last_Some_elem_of.
Qed.

(** ** A concrete graph: a map, a block in its context fed by a broadcast, a reduce *)

Lemma acyclic_by_rank ns (rank : string -> nat) :
  Forall (fun p => rank p.2 < rank p.1) (real_deps ns) -> acyclic_graph ns.
Proof.
  rewrite Forall_forall. intros H x Htc.
  assert (forall y z, tc (depends_on ns) y z -> rank z < rank y) as Hlt; [|specialize (Hlt x x Htc); lia].
  intros y z Hyz. induction Hyz as [y z Hd|y z w Hd _ IH]; [by apply (H (y, z))|].
  specialize (H (y, z) Hd). simpl in H. lia.
Qed.

Definition graph_example : list MapGraphNode :=
  [mkGraphNode "r" ReduceKind ["a"]; mkGraphNode "a" Standard ["x"; "m"];
   mkGraphNode "m" MapKind []; mkGraphNode "x" Standard []].

Definition example_rank (s : string) : nat :=
  if s === "r" then 2 else if s === "a" then 1 else 0.

Lemma graph_example_ids : NoDup (ids graph_example).
Proof. refine (bool_decide_unpack _ _). vm_compute. exact I. Defined.

Lemma graph_example_acyclic : acyclic_graph graph_example.
Proof. apply (acyclic_by_rank _ example_rank). refine (bool_decide_unpack _ _). vm_compute. exact I. Defined.

Lemma computeMapContext_spec_witness :
  exists r, computeMapContext graph_example = Some r /\
    jm_get "r" (incoming r) = Some ["m"] /\ jm_get "r" (outgoing r) = Some [] /\
    isBroadcastEdge r "x" "a" = true /\ stack_equations graph_example r.
Proof.
  destruct (computeMapContext_spec graph_example graph_example_ids graph_example_acyclic)
    as (r & Hr & Heq & _ & _).
  exists r. split; [exact Hr|]. vm_compute in Hr. injection Hr as <-.
  split; [vm_compute; reflexivity|]. split; [vm_compute; reflexivity|].
  split; [vm_compute; reflexivity | exact Heq].
Defined.

Lemma context_stack_sound_witness :
  exists r, computeMapContext graph_example = Some r /\ activeMapFor r "a" = Some "m" /\
    exists d, d ∈ ["x"; "m"] /\ isBroadcastEdge r d "a" = false.
Proof.
  assert (Hin : mkGraphNode "a" Standard ["x"; "m"] ∈ graph_example) by (right; left).
  destruct (context_stack_sound graph_example (mkGraphNode "a" Standard ["x"; "m"])
    graph_example_ids graph_example_acyclic Hin) as (r & inc & Hr & Hi & _ & _ & Ha & Hd).
  exists r. split; [exact Hr|]. split.
  - vm_compute in Hr. injection Hr as <-. vm_compute. reflexivity.
  - apply Hd. vm_compute in Hr. injection Hr as <-. vm_compute in Hi. injection Hi as <-. discriminate.
Defined.
