(* ===== verification/Schema.v ===== *)
(** * The database schema ([web_ui/server/db/schema])

    One record per table, with the columns as fields, and what the schema declares:
    primary keys and unique columns ([conflict]), foreign keys ([refs_ok]) and
    their delete actions ([cascade]).  Timestamps are integers. *)

From S2P Require Export Types.

Inductive Visibility := Private | Shared | Public.
Inductive Permission := View | Edit.
Inductive RunStatus := Queued | Running | Succeeded | Failed | Canceled.

#[export] Instance Visibility_eq_dec : EqDecision Visibility.
Proof. solve_decision. Defined.
#[export] Instance RunStatus_eq_dec : EqDecision RunStatus.
Proof. solve_decision. Defined.

(** ** Rows *)

Record UserRow := mkUser {
  us_id : string; us_email : string; us_emailVerified : bool; us_name : option string;
  us_image : option string; us_role : string; us_createdAt : Z; us_updatedAt : Z }.

Record PipelineRow := mkPipelineRow {
  pl_id : string; pl_ownerId : string; pl_name : string; pl_description : option string;
  pl_version : string; pl_yaml : string; pl_visibility : Visibility;
  pl_createdAt : Z; pl_updatedAt : Z }.

(** The three share tables have the same columns; [sh_resource] is the shared row's id. *)
Record ShareRow := mkShare {
  sh_resource : string; sh_userId : string; sh_permission : Permission; sh_createdAt : Z }.

Definition PipelineShareRow := ShareRow.
Definition RunShareRow := ShareRow.
Definition DataFileShareRow := ShareRow.

Record RunRow := mkRun {
  rn_id : string; rn_pipelineId : option string; rn_ownerId : string; rn_name : option string;
  rn_yaml : string; rn_status : RunStatus; rn_error : option string; rn_visibility : Visibility;
  rn_startedAt : option Z; rn_finishedAt : option Z; rn_createdAt : Z; rn_updatedAt : Z }.

Record RunFileRow := mkRunFile {
  rf_id : string; rf_runId : string; rf_blockId : option string; rf_name : string;
  rf_mimeType : option string; rf_sizeBytes : option Z; rf_s3Key : string; rf_createdAt : Z }.

Record RunLogRow := mkRunLog {
  rl_id : string; rl_runId : string; rl_blockId : option string; rl_stdout : option string;
  rl_stderr : option string; rl_createdAt : Z }.

Record DataFileRow := mkDataFile {
  df_id : string; df_ownerId : string; df_name : string; df_sizeBytes : Z; df_mimeType : string;
  df_s3Key : string; df_visibility : Visibility; df_createdAt : Z; df_updatedAt : Z }.

Record BlockRow := mkBlockRow {
  bk_id : string; bk_name : string; bk_label : string; bk_version : string;
  bk_manifest : BlockManifest; bk_createdAt : Z; bk_updatedAt : Z }.

(** ** Tables *)

Inductive table :=
  | TUsers | TPipelines | TPipelineShares | TRuns | TRunFiles | TRunLogs | TRunShares
  | TDataFiles | TDataFileShares | TBlocks.

#[export] Instance table_eq_dec : EqDecision table.
Proof. solve_decision. Defined.

Definition row (t : table) : Type :=
  match t with
  | TUsers => UserRow
  | TPipelines => PipelineRow
  | TPipelineShares => PipelineShareRow
  | TRuns => RunRow
  | TRunFiles => RunFileRow
  | TRunLogs => RunLogRow
  | TRunShares => RunShareRow
  | TDataFiles => DataFileRow
  | TDataFileShares => DataFileShareRow
  | TBlocks => BlockRow
  end.

Record contents := mkContents {
  c_users : list UserRow; c_pipelines : list PipelineRow; c_pipelineShares : list ShareRow;
  c_runs : list RunRow; c_runFiles : list RunFileRow; c_runLogs : list RunLogRow;
  c_runShares : list ShareRow; c_dataFiles : list DataFileRow; c_dataFileShares : list ShareRow;
  c_blocks : list BlockRow }.

Definition rows (c : contents) (t : table) : list (row t) :=
  match t with
  | TUsers => c_users c
  | TPipelines => c_pipelines c
  | TPipelineShares => c_pipelineShares c
  | TRuns => c_runs c
  | TRunFiles => c_runFiles c
  | TRunLogs => c_runLogs c
  | TRunShares => c_runShares c
  | TDataFiles => c_dataFiles c
  | TDataFileShares => c_dataFileShares c
  | TBlocks => c_blocks c
  end.

Definition set_rows (t : table) (c : contents) : list (row t) -> contents :=
  let '(mkContents us pl ps rn rf rl rs df ds bk) := c in
  match t return list (row t) -> contents with
  | TUsers => fun l => mkContents l pl ps rn rf rl rs df ds bk
  | TPipelines => fun l => mkContents us l ps rn rf rl rs df ds bk
  | TPipelineShares => fun l => mkContents us pl l rn rf rl rs df ds bk
  | TRuns => fun l => mkContents us pl ps l rf rl rs df ds bk
  | TRunFiles => fun l => mkContents us pl ps rn l rl rs df ds bk
  | TRunLogs => fun l => mkContents us pl ps rn rf l rs df ds bk
  | TRunShares => fun l => mkContents us pl ps rn rf rl l df ds bk
  | TDataFiles => fun l => mkContents us pl ps rn rf rl rs l ds bk
  | TDataFileShares => fun l => mkContents us pl ps rn rf rl rs df l bk
  | TBlocks => fun l => mkContents us pl ps rn rf rl rs df ds l
  end.

(** ** Constraints *)

Definition share_conflict (a b : ShareRow) : bool :=
  (sh_resource a === sh_resource b) && (sh_userId a === sh_userId b).

(** Two rows that may not be in the table together: primary key or unique column. *)
Definition conflict (t : table) : row t -> row t -> bool :=
  match t return row t -> row t -> bool with
  | TUsers => fun a b => (us_id a === us_id b) || (us_email a === us_email b)
  | TPipelines => fun a b => pl_id a === pl_id b
  | TPipelineShares => share_conflict
  | TRuns => fun a b => rn_id a === rn_id b
  | TRunFiles => fun a b => rf_id a === rf_id b
  | TRunLogs => fun a b => rl_id a === rl_id b
  | TRunShares => share_conflict
  | TDataFiles => fun a b => df_id a === df_id b
  | TDataFileShares => share_conflict
  | TBlocks => fun a b => (bk_id a === bk_id b) || (bk_name a === bk_name b)
  end.

Definition has_user (c : contents) (id : string) : bool := js_some (fun u => us_id u === id) (c_users c).
Definition has_pipeline (c : contents) (id : string) : bool := js_some (fun p => pl_id p === id) (c_pipelines c).
Definition has_run (c : contents) (id : string) : bool := js_some (fun r => rn_id r === id) (c_runs c).
Definition has_dataFile (c : contents) (id : string) : bool := js_some (fun d => df_id d === id) (c_dataFiles c).

(** The rows that the foreign keys of a row name exist. *)
Definition refs_ok (c : contents) (t : table) : row t -> bool :=
  match t return row t -> bool with
  | TUsers | TBlocks => fun _ => true
  | TPipelines => fun r => has_user c (pl_ownerId r)
  | TPipelineShares => fun s => has_pipeline c (sh_resource s) && has_user c (sh_userId s)
  | TRuns => fun r =>
      has_user c (rn_ownerId r) &&
      match rn_pipelineId r with Some id => has_pipeline c id | None => true end
  | TRunFiles => fun r => has_run c (rf_runId r)
  | TRunLogs => fun r => has_run c (rl_runId r)
  | TRunShares => fun s => has_run c (sh_resource s) && has_user c (sh_userId s)
  | TDataFiles => fun r => has_user c (df_ownerId r)
  | TDataFileShares => fun s => has_dataFile c (sh_resource s) && has_user c (sh_userId s)
  end.

(** The new row has the key, unique and foreign key columns of the old one. *)
Definition same_keys (t : table) : row t -> row t -> Prop :=
  match t return row t -> row t -> Prop with
  | TUsers => fun a b => us_id a = us_id b /\ us_email a = us_email b
  | TPipelines => fun a b => pl_id a = pl_id b /\ pl_ownerId a = pl_ownerId b
  | TPipelineShares | TRunShares | TDataFileShares => fun a b =>
      sh_resource a = sh_resource b /\ sh_userId a = sh_userId b
  | TRuns => fun a b =>
      rn_id a = rn_id b /\ rn_ownerId a = rn_ownerId b /\ rn_pipelineId a = rn_pipelineId b
  | TRunFiles => fun a b => rf_id a = rf_id b /\ rf_runId a = rf_runId b
  | TRunLogs => fun a b => rl_id a = rl_id b /\ rl_runId a = rl_runId b
  | TDataFiles => fun a b => df_id a = df_id b /\ df_ownerId a = df_ownerId b
  | TBlocks => fun a b => bk_id a = bk_id b /\ bk_name a = bk_name b
  end.

Definition shares_kept (deleted : string -> bool) (l : list ShareRow) : list ShareRow :=
  js_filter (fun s => negb (deleted (sh_resource s))) l.

Definition unlink_run (deleted : string -> bool) (r : RunRow) : RunRow :=
  match rn_pipelineId r with
  | Some id =>
      if deleted id then
        mkRun (rn_id r) None (rn_ownerId r) (rn_name r) (rn_yaml r) (rn_status r) (rn_error r)
          (rn_visibility r) (rn_startedAt r) (rn_finishedAt r) (rn_createdAt r) (rn_updatedAt r)
      else r
  | None => r
  end.

(** What deleting rows of a table does to the tables that reference it
    ([onDelete: "cascade"] and ["set null"]).  No operation of the program deletes users. *)
Definition cascade (t : table) (c : contents) : list (row t) -> contents :=
  match t return list (row t) -> contents with
  | TPipelines => fun gone =>
      let deleted id := js_some (fun p => pl_id p === id) gone in
      set_rows TRuns (set_rows TPipelineShares c (shares_kept deleted (rows c TPipelineShares)))
        (unlink_run deleted <$> rows c TRuns)
  | TRuns => fun gone =>
      let deleted id := js_some (fun r => rn_id r === id) gone in
      set_rows TRunFiles
        (set_rows TRunLogs
           (set_rows TRunShares c (shares_kept deleted (rows c TRunShares)))
           (js_filter (fun l => negb (deleted (rl_runId l))) (rows c TRunLogs)))
        (js_filter (fun f => negb (deleted (rf_runId f))) (rows c TRunFiles))
  | TDataFiles => fun gone =>
      let deleted id := js_some (fun d => df_id d === id) gone in
      set_rows TDataFileShares c (shares_kept deleted (rows c TDataFileShares))
  | _ => fun _ => c
  end.

(** ** Lemmas *)

Lemma rows_set_eq t c l : rows (set_rows t c l) t = l.
Proof. by destruct c, t. Qed.

Lemma rows_set_ne t t' c l : t <> t' -> rows (set_rows t c l) t' = rows c t'.
Proof. intros Hne. destruct c, t, t'; done. Qed.

Lemma conflict_refl t r : conflict t r r = true.
Proof. destruct t; simpl; unfold share_conflict; by rewrite !bool_decide_eq_true_2. Qed.

Lemma bool_decide_eq_sym {A} `{EqDecision A} (x y : A) : (x === y) = (y === x).
Proof. apply bool_decide_ext. split; congruence. Qed.

Lemma conflict_sym t a b : conflict t a b = conflict t b a.
Proof.
  destruct t; simpl; unfold share_conflict;
    first [apply bool_decide_eq_sym | apply f_equal2; apply bool_decide_eq_sym].
Qed.

Lemma conflict_same_keys t a a' b : same_keys t a' a -> conflict t a' b = conflict t a b.
Proof.
  destruct t; simpl; unfold share_conflict; intros H; repeat (destruct H as [? H]);
    repeat match goal with E : _ a' = _ a |- _ => rewrite ?E; clear E end; reflexivity.
Qed.
