(* ===== verification/Sql.v ===== *)
(** * The database, as the repositories use it

    Package [drizzle-orm] and PostgreSQL are not part of the repository: the class
    [Sql] names the statements the repositories run and [SqlLaws] states what SQL
    promises about them, in terms of the rows each table holds.  A state that keeps
    every table as a list ([list_sql]) shows that the laws can hold, and runs the
    witnesses. *)

From S2P Require Export Schema Monad.

(** ** Statements *)

Class Sql (DB : Type) := {
  db_rows : DB -> contents;
  (** [select().from(t).where(p)] *)
  sql_select (t : table) : (row t -> bool) -> DB -> list (row t);
  (** the same with [orderBy]; [before a b] when [a] may come before [b] *)
  sql_select_ordered (t : table) : (row t -> bool) -> (row t -> row t -> bool) -> DB -> list (row t);
  (** [insert(t).values(r).returning()] *)
  sql_insert (t : table) : row t -> DB -> DB * result string (row t);
  (** the same with [onConflictDoUpdate]: target columns and the row after [set] *)
  sql_upsert (t : table) :
    (row t -> row t -> bool) -> row t -> (row t -> row t) -> DB -> DB * result string (row t);
  (** [update(t).set(f).where(p).returning()] *)
  sql_update (t : table) : (row t -> bool) -> (row t -> row t) -> DB -> DB * result string (list (row t));
  (** [delete(t).where(p).returning()] *)
  sql_delete (t : table) : (row t -> bool) -> DB -> DB * result string (list (row t)) }.

(** ** Equality of tables up to the order of their rows *)

Definition same_rows (c1 c2 : contents) : Prop := forall t, rows c1 t ≡ₚ rows c2 t.

#[export] Instance same_rows_equiv : Equivalence same_rows.
Proof.
  split.
  - by intros c t.
  - intros c1 c2 Heq t. symmetry. apply Heq.
  - intros c1 c2 c3 H1 H2 t. etransitivity; [apply H1 | apply H2].
Qed.

#[export] Instance set_rows_proper t : Proper (same_rows ==> (≡ₚ) ==> same_rows) (set_rows t).
Proof.
  intros c1 c2 Hc l1 l2 Hl t'. destruct (decide (t = t')) as [->|Hne].
  - by rewrite !rows_set_eq.
  - by rewrite !rows_set_ne.
Qed.

(** No two rows of the list exclude each other. *)
Fixpoint distinct {A} (R : A -> A -> bool) (l : list A) : bool :=
  match l with
  | [] => true
  | x :: l' => negb (js_some (R x) l') && distinct R l'
  end.

(** The primary keys and unique columns hold in every table. *)
Definition keys_ok (c : contents) : Prop := forall t, distinct (conflict t) (rows c t) = true.

Lemma distinct_elem {A} (R : A -> A -> bool) l x y :
  (forall a b, R a b = R b a) -> distinct R l = true -> x ∈ l -> y ∈ l -> R x y = true -> x = y.
Proof.
  intros Hsym. induction l as [|z l IH]; intros Hd Hx Hy HR; [by apply elem_of_nil in Hx|].
  simpl in Hd. apply andb_true_iff in Hd as [Hz Hd]. apply negb_true_iff in Hz.
  rewrite js_some_false in Hz. apply elem_of_cons in Hx. apply elem_of_cons in Hy.
  destruct Hx as [Hx|Hx], Hy as [Hy|Hy].
  - congruence.
  - subst. rewrite Hz in HR; done.
  - subst. rewrite Hsym, Hz in HR; done.
  - by apply IH.
Qed.

Lemma distinct_sublist {A} (R : A -> A -> bool) l1 l2 :
  l1 `sublist_of` l2 -> distinct R l2 = true -> distinct R l1 = true.
Proof.
  induction 1 as [|x l1 l2 Hs IH|x l1 l2 Hs IH]; intros Hd; [done| |]; simpl in *;
    apply andb_true_iff in Hd as [Hx Hd]; [|by apply IH].
  apply andb_true_iff. split; [|by apply IH]. apply negb_true_iff in Hx. apply negb_true_iff.
  apply js_some_false. intros y Hy. rewrite js_some_false in Hx. apply Hx. by eapply elem_of_sublist.
Qed.

Lemma distinct_map {A} (R : A -> A -> bool) (f : A -> A) l :
  (forall a b, a ∈ l -> b ∈ l -> R (f a) (f b) = R a b) -> distinct R l = true -> distinct R (f <$> l) = true.
Proof.
  induction l as [|x l IH]; intros Hf Hd; [done|]. simpl in *.
  apply andb_true_iff in Hd as [Hx Hd]. apply negb_true_iff in Hx. rewrite js_some_false in Hx.
  apply andb_true_iff. split; [|apply IH; [intros; apply Hf; by right | done]].
  apply negb_true_iff, js_some_false. intros y (z & -> & Hz)%list_elem_of_fmap.
  rewrite Hf; [auto|left|by right].
Qed.

Lemma distinct_snoc {A} (R : A -> A -> bool) l x :
  (forall a b, R a b = R b a) -> distinct R (l ++ [x]) = distinct R l && negb (js_some (R x) l).
Proof.
  intros Hsym. induction l as [|y l IH]; simpl; [done|]. rewrite IH. unfold js_some.
  rewrite existsb_app. simpl. rewrite orb_false_r, (Hsym x y).
  destruct (existsb (R y) l), (distinct R l), (R y x), (existsb (R x) l); done.
Qed.

Lemma distinct_perm {A} (R : A -> A -> bool) l1 l2 :
  (forall a b, R a b = R b a) -> l1 ≡ₚ l2 -> distinct R l1 = distinct R l2.
Proof.
  intros Hsym. assert (Hsome : forall x l l', l ≡ₚ l' -> js_some (R x) l = js_some (R x) l').
  { intros x l l' Hp. apply eq_true_iff_eq. rewrite !js_some_true. by setoid_rewrite Hp. }
  induction 1 as [|x l1 l2 Hp IH|x y l|l1 l2 l3 _ IH1 _ IH2]; simpl; [done| | |congruence].
  - by rewrite IH, (Hsome x l1 l2).
  - rewrite (Hsym x y). destruct (R y x), (js_some (R x) l), (js_some (R y) l), (distinct R l); done.
Qed.

Lemma keys_ok_same c c' : same_rows c c' -> keys_ok c -> keys_ok c'.
Proof. intros Hs Hk t. rewrite <-(distinct_perm _ _ _ (conflict_sym t) (Hs t)). apply Hk. Qed.

Lemma keys_ok_set t c l : keys_ok c -> distinct (conflict t) l = true -> keys_ok (set_rows t c l).
Proof.
  intros Hk Hd t'. destruct (decide (t = t')) as [->|Hne].
  - by rewrite rows_set_eq.
  - rewrite rows_set_ne by done. apply Hk.
Qed.

(** Inserting a row that conflicts with none keeps the keys distinct. *)
Lemma keys_ok_insert t r c :
  keys_ok c -> js_some (conflict t r) (rows c t) = false -> keys_ok (set_rows t c (rows c t ++ [r])).
Proof.
  intros Hk Hr. apply keys_ok_set; [done|].
  rewrite distinct_snoc by apply conflict_sym. by rewrite (Hk t), Hr.
Qed.

Lemma js_filter_sublist {A} (p : A -> bool) l : js_filter p l `sublist_of` l.
Proof. induction l as [|x l IH]; [constructor|]. rewrite js_filter_cons. destruct (p x); by constructor. Qed.

Lemma keys_ok_filter t (p : row t -> bool) c :
  keys_ok c -> keys_ok (set_rows t c (js_filter p (rows c t))).
Proof. intros Hk. apply keys_ok_set; [done|]. eapply distinct_sublist; [apply js_filter_sublist|apply Hk]. Qed.

(** Deleting rows keeps the keys of every table. *)
Lemma keys_ok_cascade t c gone : keys_ok c -> keys_ok (cascade t c gone).
Proof.
  intros Hk. destruct t; try exact Hk; cbn [cascade].
  - apply keys_ok_set; [apply (keys_ok_filter TPipelineShares _ c Hk)|].
    apply (distinct_map (conflict TRuns)); [|apply Hk]. intros a b _ _. simpl.
    assert (Hid : forall d r, rn_id (unlink_run d r) = rn_id r).
    { intros d r. unfold unlink_run. by repeat case_match. }
    by rewrite !Hid.
  - set (d := fun id => js_some (fun r : row TRuns => rn_id r === id) gone).
    pose proof (keys_ok_filter TRunShares (fun s => negb (d (sh_resource s))) c Hk) as Hk1.
    pose proof (keys_ok_filter TRunLogs (fun l => negb (d (rl_runId l))) _ Hk1) as Hk2.
    destruct c. exact (keys_ok_filter TRunFiles (fun f => negb (d (rf_runId f))) _ Hk2).
  - apply (keys_ok_filter TDataFileShares _ c Hk).
Qed.

(** ** Laws *)

Class SqlLaws (DB : Type) `{Sql DB} : Prop := {
  law_select t p db : sql_select t p db ≡ₚ js_filter p (rows (db_rows db) t);
  law_ordered t p before db :
    (forall a b, before a b = true \/ before b a = true) ->
    (forall a b d, before a b = true -> before b d = true -> before a d = true) ->
    sql_select_ordered t p before db ≡ₚ js_filter p (rows (db_rows db) t) /\
    StronglySorted (fun a b => before a b = true) (sql_select_ordered t p before db);
  law_insert_ok t r db :
    js_some (conflict t r) (rows (db_rows db) t) = false -> refs_ok (db_rows db) t r = true ->
    exists db', sql_insert t r db = (db', Ok r) /\
      same_rows (db_rows db') (set_rows t (db_rows db) (rows (db_rows db) t ++ [r]));
  law_insert_error t r db :
    js_some (conflict t r) (rows (db_rows db) t) = true \/ refs_ok (db_rows db) t r = false ->
    exists e, sql_insert t r db = (db, Throw e);
  law_upsert_update t target r f db old :
    keys_ok (db_rows db) ->
    (forall a b, target a r = true -> target b r = true -> conflict t a b = true) ->
    (forall x, same_keys t (f x) x) ->
    old ∈ rows (db_rows db) t -> target old r = true ->
    exists db', sql_upsert t target r f db = (db', Ok (f old)) /\
      same_rows (db_rows db')
        (set_rows t (db_rows db) ((fun x => if target x r then f x else x) <$> rows (db_rows db) t));
  law_upsert_insert t target r f db :
    js_some (fun x => target x r) (rows (db_rows db) t) = false ->
    sql_upsert t target r f db = sql_insert t r db;
  law_update t p f db :
    match sql_update t p f db with
    | (db', Ok out) =>
        out ≡ₚ f <$> js_filter p (rows (db_rows db) t) /\
        same_rows (db_rows db')
          (set_rows t (db_rows db) ((fun x => if p x then f x else x) <$> rows (db_rows db) t))
    | (db', Throw _) => db' = db
    end;
  law_update_ok t p f db :
    keys_ok (db_rows db) -> (forall x, x ∈ rows (db_rows db) t -> p x = true -> same_keys t (f x) x) ->
    exists db' out, sql_update t p f db = (db', Ok out);
  law_update_refs t p f db :
    keys_ok (db_rows db) ->
    (forall x, x ∈ rows (db_rows db) t -> p x = true ->
       (forall y, conflict t (f x) y = conflict t x y) /\ refs_ok (db_rows db) t (f x) = true) ->
    exists db' out, sql_update t p f db = (db', Ok out);
  law_update_keys t p f db :
    keys_ok (db_rows db) -> keys_ok (db_rows (sql_update t p f db).1);
  law_upsert_keys t target r f db :
    keys_ok (db_rows db) -> keys_ok (db_rows (sql_upsert t target r f db).1);
  law_delete t p db :
    t <> TUsers ->
    exists db' out, sql_delete t p db = (db', Ok out) /\
      out ≡ₚ js_filter p (rows (db_rows db) t) /\
      same_rows (db_rows db')
        (cascade t (set_rows t (db_rows db) (js_filter (fun x => negb (p x)) (rows (db_rows db) t)))
           (js_filter p (rows (db_rows db) t))) }.

(** ** Tables as lists *)

Section ListSql.

Definition comes_before {A} (before : A -> A -> bool) (a b : A) : Prop := before a b = true.

#[local] Instance comes_before_dec {A} (before : A -> A -> bool) : RelDecision (comes_before before).
Proof. intros a b. unfold comes_before. apply _. Defined.

Definition sort_rows {A} (before : A -> A -> bool) (l : list A) : list A :=
  merge_sort (comes_before before) l.

Definition list_insert (t : table) (r : row t) (c : contents) : contents * result string (row t) :=
  if negb (js_some (conflict t r) (rows c t)) && refs_ok c t r
  then (set_rows t c (rows c t ++ [r]), Ok r)
  else (c, Throw "constraint violation").

Definition list_upsert (t : table) (target : row t -> row t -> bool) (r : row t) (f : row t -> row t)
    (c : contents) : contents * result string (row t) :=
  match js_find (fun x => target x r) (rows c t) with
  | Some old =>
      let l := (fun x => if target x r then f x else x) <$> rows c t in
      if distinct (conflict t) l then (set_rows t c l, Ok (f old)) else (c, Throw "constraint violation")
  | None => list_insert t r c
  end.

Definition list_update (t : table) (p : row t -> bool) (f : row t -> row t) (c : contents)
    : contents * result string (list (row t)) :=
  let l := (fun x => if p x then f x else x) <$> rows c t in
  if distinct (conflict t) l then (set_rows t c l, Ok (f <$> js_filter p (rows c t)))
  else (c, Throw "constraint violation").

Definition list_delete (t : table) (p : row t -> bool) (c : contents)
    : contents * result string (list (row t)) :=
  let gone := js_filter p (rows c t) in
  (cascade t (set_rows t c (js_filter (fun x => negb (p x)) (rows c t))) gone, Ok gone).

#[export] Instance list_sql : Sql contents := {
  db_rows := fun c => c;
  sql_select t p c := js_filter p (rows c t);
  sql_select_ordered t p before c := sort_rows before (js_filter p (rows c t));
  sql_insert := list_insert;
  sql_upsert := list_upsert;
  sql_update := list_update;
  sql_delete := list_delete }.
End ListSql.

(** Updating rows without touching their unique columns keeps the keys distinct. *)
Lemma distinct_update_unique t (p : row t -> bool) (f : row t -> row t) l :
  (forall x, x ∈ l -> p x = true -> forall y, conflict t (f x) y = conflict t x y) ->
  distinct (conflict t) l = true -> distinct (conflict t) ((fun x => if p x then f x else x) <$> l) = true.
Proof.
  intros Hf. apply distinct_map. intros a b Ha Hb.
  assert (H : forall x y, x ∈ l -> conflict t (if p x then f x else x) y = conflict t x y).
  { intros x y Hx. destruct (p x) eqn:Hp; [|done]. by apply Hf. }
  rewrite H by done. rewrite conflict_sym, H by done. apply conflict_sym.
Qed.

Lemma distinct_update t (p : row t -> bool) (f : row t -> row t) l :
  (forall x, x ∈ l -> p x = true -> same_keys t (f x) x) -> distinct (conflict t) l = true ->
  distinct (conflict t) ((fun x => if p x then f x else x) <$> l) = true.
Proof. intros Hf. apply distinct_update_unique. intros x Hx Hp y. by apply conflict_same_keys, Hf. Qed.

#[export] Instance list_sql_laws : SqlLaws contents.
Proof.
  split; simpl.
  - done.
  - intros t p before c Htot Htrans.
    split; [apply merge_sort_Permutation|].
    assert (Transitive (comes_before before)) by (intros a b d; apply Htrans).
    assert (Total (comes_before before)) by (intros a b; apply Htot).
    apply (StronglySorted_merge_sort (comes_before before)).
  - intros t r c Hc Hr. unfold list_insert. rewrite Hc, Hr. eexists. split; reflexivity.
  - intros t r c Hor. unfold list_insert. destruct Hor as [Hc|Hr].
    + rewrite Hc. eauto.
    + rewrite Hr, andb_false_r. eauto.
  - intros t target r f c old Hk Ht Hf Hold Hmatch. unfold list_upsert.
    destruct (js_find _ _) as [old'|] eqn:Hfind.
    + apply js_find_Some in Hfind as [Hmatch' Hold'].
      assert (old' = old) as ->.
      { apply (distinct_elem (conflict t) (rows c t)); [apply conflict_sym|apply Hk|done|done|by apply Ht]. }
      rewrite (distinct_update t (fun x => target x r) f) by (done || apply Hk).
      eexists. split; reflexivity.
    + rewrite js_find_None in Hfind. rewrite Hfind in Hmatch; done.
  - intros t target r f c Hnone. unfold list_upsert.
    rewrite js_some_false in Hnone. apply js_find_None in Hnone. by rewrite Hnone.
  - intros t p f c. unfold list_update. destruct (distinct _ _); done.
  - intros t p f c Hk Hf. unfold list_update. rewrite distinct_update by (done || apply Hk). eauto.
  - intros t p f c Hk Hf. unfold list_update.
    rewrite distinct_update_unique by ((intros; by apply Hf) || apply Hk). eauto.
  - intros t p f c Hk. unfold list_update. destruct (distinct _ _) eqn:Hd; [|done].
    by apply keys_ok_set.
  - intros t target r f c Hk. unfold list_upsert, list_insert.
    destruct (js_find _ _) as [old|]; [destruct (distinct _ _) eqn:Hd; [by apply keys_ok_set|done]|].
    destruct (js_some _ _) eqn:Hc; [done|]. destruct (refs_ok c t r); [by apply keys_ok_insert|done].
  - intros t p c _. unfold list_delete. eexists _, _. split; [reflexivity|]. split; reflexivity.
Qed.
