(* ===== verification/Acl.v ===== *)
(** * The access model shared by pipelines, data files and runs

    The three repositories have the same owner / shared / public access control.
    [Resource] says which tables and columns one of them uses, the [acl_*]
    functions are the access control written once, [can_view] is its
    specification, and the repositories are proved to be instances. *)

From S2P Require Export Sql.

(** ** Time and order *)

(** [orderBy(desc(key))] *)
Definition newest_first {A} (key : A -> Z) (a b : A) : bool := (key b <=? key a)%Z.

Lemma newest_first_total {A} (key : A -> Z) a b :
  newest_first key a b = true \/ newest_first key b a = true.
Proof. unfold newest_first. rewrite !Z.leb_le. lia. Qed.

Lemma newest_first_trans {A} (key : A -> Z) a b d :
  newest_first key a b = true -> newest_first key b d = true -> newest_first key a d = true.
Proof. unfold newest_first. rewrite !Z.leb_le. lia. Qed.

(** [.limit(1)] and then the element 0. *)
Definition first_row {A} (l : list A) : option A := head (take 1 l).

(** ** Resources *)

Class Resource := mkResource {
  r_table : table;
  r_shares : table;
  r_id : row r_table -> string;
  r_owner : row r_table -> string;
  r_visibility : row r_table -> Visibility;
  r_sort : row r_table -> Z;
  r_of_share : ShareRow -> row r_shares;
  r_to_share : row r_shares -> ShareRow }.

(** What the schema says about these tables. *)
Class ResourceLaws (R : Resource) : Prop := {
  r_tables_differ : r_table <> r_shares;
  r_share_inv s : r_of_share (r_to_share s) = s;
  r_share_inv' s : r_to_share (r_of_share s) = s;
  r_key a b : conflict r_table a b = (r_id a === r_id b);
  r_share_key a b : conflict r_shares a b = share_conflict (r_to_share a) (r_to_share b);
  r_share_same a b :
    same_keys r_shares a b <->
    sh_resource (r_to_share a) = sh_resource (r_to_share b) /\
    sh_userId (r_to_share a) = sh_userId (r_to_share b);
  r_share_refs c s :
    refs_ok c r_shares s =
      js_some (fun x => r_id x === sh_resource (r_to_share s)) (rows c r_table) &&
      has_user c (sh_userId (r_to_share s)) }.

Section Acl.
Context {DB : Type} `{SqlLaws DB} {R : Resource} {RL : ResourceLaws R}.

(** ** The operations, written once *)

Definition acl_listOwnedBy (userId : string) (db : DB) : list (row r_table) :=
  sql_select_ordered r_table (fun r => r_owner r === userId) (newest_first r_sort) db.

Definition acl_listSharedWith (userId : string) (db : DB) : list (row r_table) :=
  let shares := sql_select r_shares (fun s => sh_userId (r_to_share s) === userId) db in
  let ids := (fun s => sh_resource (r_to_share s)) <$> shares in
  match ids with
  | [] => []
  | _ => sql_select_ordered r_table (fun r => js_mem (r_id r) ids) (newest_first r_sort) db
  end.

Definition acl_listPublic (db : DB) : list (row r_table) :=
  sql_select_ordered r_table (fun r => r_visibility r === Public) (newest_first r_sort) db.

Definition acl_getByIdForUser (id userId : string) (db : DB) : option (row r_table) :=
  match first_row (sql_select r_table (fun r => r_id r === id) db) with
  | None => None
  | Some r =>
      if (r_owner r === userId) || (r_visibility r === Public) then Some r
      else match first_row (sql_select r_shares
                   (fun s => (sh_resource (r_to_share s) === id) &&
                             (sh_userId (r_to_share s) === userId)) db) with
           | Some _ => Some r
           | None => None
           end
  end.

Definition owned_by (id ownerId : string) (r : row r_table) : bool :=
  (r_id r === id) && (r_owner r === ownerId).

Definition share_target (a b : row r_shares) : bool :=
  share_conflict (r_to_share a) (r_to_share b).

Definition set_permission (p : Permission) (s : row r_shares) : row r_shares :=
  let s' := r_to_share s in
  r_of_share (mkShare (sh_resource s') (sh_userId s') p (sh_createdAt s')).

(** [now] is what [defaultNow()] gives. *)
Definition acl_share (now : Z) (id ownerId shareWithUserId : string) (permission : Permission) (db : DB)
    : DB * result string bool :=
  match take 1 (sql_select r_table (owned_by id ownerId) db) with
  | [] => (db, Ok false)
  | _ =>
      match sql_upsert r_shares share_target (r_of_share (mkShare id shareWithUserId permission now))
              (set_permission permission) db with
      | (db', Ok _) => (db', Ok true)
      | (db', Throw e) => (db', Throw e)
      end
  end.

Definition acl_unshare (id ownerId userId : string) (db : DB) : DB * result string bool :=
  match take 1 (sql_select r_table (owned_by id ownerId) db) with
  | [] => (db, Ok false)
  | _ =>
      match sql_delete r_shares
              (fun s => (sh_resource (r_to_share s) === id) && (sh_userId (r_to_share s) === userId)) db with
      | (db', Ok _) => (db', Ok true)
      | (db', Throw e) => (db', Throw e)
      end
  end.

(** ** Specification *)

Definition shared_with (c : contents) (id userId : string) : Prop :=
  exists s, s ∈ rows c r_shares /\ sh_resource (r_to_share s) = id /\ sh_userId (r_to_share s) = userId.

(** Who may see a row. *)
Definition can_view (c : contents) (userId : string) (r : row r_table) : Prop :=
  r_owner r = userId \/ r_visibility r = Public \/ shared_with c (r_id r) userId.

(** Who may change it. *)
Definition owns (c : contents) (userId id : string) : Prop :=
  exists r, r ∈ rows c r_table /\ r_id r = id /\ r_owner r = userId.

(** ** Reading *)

Lemma elem_select t p db x : x ∈ sql_select t p db <-> p x = true /\ x ∈ rows (db_rows db) t.
Proof. by rewrite law_select, elem_of_js_filter. Qed.

Lemma first_row_None {A} (l : list A) : first_row l = None <-> l = [].
Proof. by destruct l. Qed.

Lemma first_row_Some {A} (l : list A) x : first_row l = Some x -> x ∈ l.
Proof. unfold first_row. destruct l; simpl; intros; simplify_eq. left. Qed.

Lemma first_row_select_None t p db :
  first_row (sql_select t p db) = None <-> forall x, x ∈ rows (db_rows db) t -> p x = false.
Proof.
  rewrite first_row_None. split.
  - intros Hnil x Hx. destruct (p x) eqn:Hp; [|done].
    assert (x ∈ sql_select t p db) as Hin by (by apply elem_select). rewrite Hnil in Hin. by apply elem_of_nil in Hin.
  - intros Hall. destruct (sql_select t p db) as [|x l] eqn:E; [done|].
    assert (x ∈ sql_select t p db) as [Hp Hx]%elem_select by (rewrite E; left). by rewrite Hall in Hp.
Qed.

Lemma row_unique db a b :
  keys_ok (db_rows db) -> a ∈ rows (db_rows db) r_table -> b ∈ rows (db_rows db) r_table ->
  r_id a = r_id b -> a = b.
Proof.
  intros Hk Ha Hb Hid. apply (distinct_elem (conflict r_table) (rows (db_rows db) r_table));
    [apply conflict_sym|apply Hk|done|done|]. rewrite r_key. by bool_prop.
Qed.

Lemma shared_query db id userId :
  first_row (sql_select r_shares
    (fun s => (sh_resource (r_to_share s) === id) && (sh_userId (r_to_share s) === userId)) db) <> None <->
  shared_with (db_rows db) id userId.
Proof.
  rewrite first_row_select_None. unfold shared_with. split.
  - intros Hn. destruct (js_some (fun s => (sh_resource (r_to_share s) === id) &&
      (sh_userId (r_to_share s) === userId)) (rows (db_rows db) r_shares)) eqn:E.
    + apply js_some_true in E as (s & Hs & Hp). bool_prop. eauto.
    + destruct Hn. by apply js_some_false.
  - intros (s & Hs & <- & <-) Hall. specialize (Hall s Hs). by rewrite !eqb_refl_js in Hall.
Qed.

(** The read of one row, as a relation. *)
Lemma acl_get_spec db id userId r :
  keys_ok (db_rows db) ->
  acl_getByIdForUser id userId db = Some r <->
  r ∈ rows (db_rows db) r_table /\ r_id r = id /\ can_view (db_rows db) userId r.
Proof.
  intros Hk. unfold acl_getByIdForUser, can_view.
  destruct (first_row (sql_select r_table _ db)) as [r0|] eqn:E.
  - apply first_row_Some, elem_select in E as [Hid Hr0]. bool_prop.
    assert (Hsame : forall x, x ∈ rows (db_rows db) r_table -> r_id x = id -> x = r0)
      by (intros; eapply row_unique; [done..|congruence]).
    pose proof (shared_query db id userId) as Hq.
    destruct ((r_owner r0 === userId) || (r_visibility r0 === Public)) eqn:Hown.
    + apply orb_true_iff in Hown. rewrite !bool_decide_eq_true in Hown. split; [intros [= <-]; tauto|].
      intros (Hr & Hri & _). f_equal. symmetry. auto.
    + apply orb_false_iff in Hown as [Ho Hv]. rewrite bool_decide_eq_false in Ho, Hv.
      destruct (first_row (sql_select r_shares _ db)) as [s|] eqn:Hs.
      * assert (shared_with (db_rows db) id userId) as Hsh by (apply Hq; by rewrite ?Hs).
        split; [intros [= <-]; rewrite Hid; tauto|]. intros (Hr & Hri & _). f_equal. symmetry. auto.
      * split; [done|]. intros (Hr & Hri & [?|[?|Hsh]]); apply Hsame in Hri as Heq; subst; try done.
        apply Hq in Hsh. by rewrite ?Hs in Hsh.
  - rewrite first_row_select_None in E. split; [done|]. intros (Hr & Hid & _).
    specialize (E r Hr). by bool_prop.
Qed.

Lemma elem_select_ordered t p (key : row t -> Z) db x :
  x ∈ sql_select_ordered t p (newest_first key) db <-> p x = true /\ x ∈ rows (db_rows db) t.
Proof.
  destruct (law_ordered t p (newest_first key) db (newest_first_total key) (newest_first_trans key)) as [Hp _].
  by rewrite Hp, elem_of_js_filter.
Qed.

Lemma select_ordered_sorted t p (key : row t -> Z) db :
  StronglySorted (fun a b => (key b <= key a)%Z) (sql_select_ordered t p (newest_first key) db).
Proof.
  destruct (law_ordered t p (newest_first key) db (newest_first_total key) (newest_first_trans key)) as [_ Hs].
  induction Hs as [|a l Hs IH Ha]; [constructor|]. constructor; [done|].
  eapply Forall_impl; [exact Ha|]. intros b Hb. by apply Z.leb_le.
Qed.

(** ** Listing *)

Lemma elem_shared_ids db userId id :
  id ∈ (fun s => sh_resource (r_to_share s)) <$>
    sql_select r_shares (fun s => sh_userId (r_to_share s) === userId) db <->
  shared_with (db_rows db) id userId.
Proof.
  rewrite list_elem_of_fmap. unfold shared_with. split.
  - intros (s & -> & [Hu Hs]%elem_select). bool_prop. eauto.
  - intros (s & Hs & <- & Hu). exists s. split; [done|]. apply elem_select. split; [by bool_prop | done].
Qed.

Lemma elem_listOwnedBy db userId r :
  r ∈ acl_listOwnedBy userId db <-> r ∈ rows (db_rows db) r_table /\ r_owner r = userId.
Proof. unfold acl_listOwnedBy. rewrite elem_select_ordered, bool_decide_eq_true. tauto. Qed.

Lemma elem_listPublic db r :
  r ∈ acl_listPublic db <-> r ∈ rows (db_rows db) r_table /\ r_visibility r = Public.
Proof. unfold acl_listPublic. rewrite elem_select_ordered, bool_decide_eq_true. tauto. Qed.

Lemma elem_listSharedWith db userId r :
  r ∈ acl_listSharedWith userId db <->
  r ∈ rows (db_rows db) r_table /\ shared_with (db_rows db) (r_id r) userId.
Proof.
  unfold acl_listSharedWith. rewrite <-elem_shared_ids.
  destruct (_ <$> sql_select r_shares _ db) as [|id ids].
  - split; [by intros ?%elem_of_nil | by intros [_ ?%elem_of_nil]].
  - rewrite elem_select_ordered. unfold js_mem. rewrite bool_decide_eq_true. tauto.
Qed.

(** ** Writing *)

Lemma owned_query db id ownerId :
  take 1 (sql_select r_table (owned_by id ownerId) db) <> [] <-> owns (db_rows db) ownerId id.
Proof.
  unfold owns, owned_by. split.
  - intros Hn. destruct (sql_select r_table _ db) as [|r l] eqn:E; [done|].
    assert (r ∈ sql_select r_table (fun r => (r_id r === id) && (r_owner r === ownerId)) db) as [Hp Hr]%elem_select.
    { rewrite E. left. }
    bool_prop. eauto.
  - intros (r & Hr & <- & <-) Hnil.
    assert (r ∈ sql_select r_table (fun x => (r_id x === r_id r) && (r_owner x === r_owner r)) db) as Hin.
    { apply elem_select. by rewrite !eqb_refl_js. }
    destruct (sql_select r_table _ db); [by apply elem_of_nil in Hin | done].
Qed.

(** What a statement that only touches the shares leaves alone. *)
Definition only_shares (c c' : contents) : Prop := forall t, t <> r_shares -> rows c' t ≡ₚ rows c t.

Lemma only_shares_set c c' l : same_rows c' (set_rows r_shares c l) -> only_shares c c'.
Proof. intros Hs t Ht. rewrite (Hs t). by rewrite rows_set_ne. Qed.

Lemma share_target_sym a b s : share_target a s = true -> share_target b s = true -> conflict r_shares a b = true.
Proof.
  unfold share_target. rewrite r_share_key. unfold share_conflict. intros Ha Hb. bool_prop; congruence.
Qed.

Lemma set_permission_key p s :
  sh_resource (r_to_share (set_permission p s)) = sh_resource (r_to_share s) /\
  sh_userId (r_to_share (set_permission p s)) = sh_userId (r_to_share s).
Proof. unfold set_permission. by rewrite !r_share_inv'. Qed.

(** The shares after an upsert, by resource and user. *)
Lemma shared_with_upsert db db' now id u perm v id' :
  keys_ok (db_rows db) -> has_user (db_rows db) u = true ->
  js_some (fun x => r_id x === id) (rows (db_rows db) r_table) = true ->
  sql_upsert r_shares share_target (r_of_share (mkShare id u perm now)) (set_permission perm) db = db' ->
  exists db1 s, db' = (db1, Ok s) /\ only_shares (db_rows db) (db_rows db1) /\
    (shared_with (db_rows db1) id' v <-> shared_with (db_rows db) id' v \/ id' = id /\ v = u).
Proof.
  intros Hk Hu Hr <-. set (new := r_of_share (mkShare id u perm now)).
  assert (Hnew : r_to_share new = mkShare id u perm now) by apply r_share_inv'.
  destruct (js_some (fun x => share_target x new) (rows (db_rows db) r_shares)) eqn:E.
  - apply js_some_true in E as (old & Hold & Hm).
    destruct (law_upsert_update r_shares share_target new (set_permission perm) db old) as (db1 & Hrun & Hs);
      [done|intros; by eapply share_target_sym|intros x; apply r_share_same, set_permission_key|done|done|].
    exists db1, (set_permission perm old). split; [done|]. split; [by eapply only_shares_set|].
    unfold shared_with. setoid_rewrite (Hs r_shares). rewrite rows_set_eq. split.
    + intros (s & (s0 & -> & Hs0)%list_elem_of_fmap & <- & <-). left. exists s0.
      destruct (share_target s0 new); [|done]. destruct (set_permission_key perm s0) as [-> ->]. done.
    + assert (Hkeep : forall s, s ∈ rows (db_rows db) r_shares -> exists s',
        s' ∈ (fun x => if share_target x new then set_permission perm x else x) <$> rows (db_rows db) r_shares /\
        sh_resource (r_to_share s') = sh_resource (r_to_share s) /\
        sh_userId (r_to_share s') = sh_userId (r_to_share s)).
      { intros s Hin. exists (if share_target s new then set_permission perm s else s). split.
        - by apply (list_elem_of_fmap_2 (fun x => if share_target x new then set_permission perm x else x)).
        - destruct (share_target s new); [apply set_permission_key | done]. }
      intros [(s & Hin & <- & <-)|[-> ->]]; [by apply Hkeep|].
      unfold share_target, share_conflict in Hm. rewrite Hnew in Hm. simpl in Hm. bool_prop. subst.
      destruct (Hkeep old Hold) as (s' & Hin' & Hr' & Hu'). exists s'. by rewrite Hr', Hu'.
  - rewrite law_upsert_insert by done.
    destruct (law_insert_ok r_shares new db) as (db1 & Hrun & Hs).
    + rewrite js_some_false in E. apply js_some_false. intros x Hx. rewrite conflict_sym, r_share_key. by apply E.
    + rewrite r_share_refs, Hnew. simpl. by rewrite Hr, Hu.
    + exists db1, new. split; [done|]. split; [by eapply only_shares_set|].
      unfold shared_with. setoid_rewrite (Hs r_shares). rewrite rows_set_eq. split.
      * intros (s & [Hin|Hin%list_elem_of_singleton]%elem_of_app & <- & <-); [left; eauto|].
        subst s. rewrite Hnew. by right.
      * intros [(s & Hin & <- & <-)|[-> ->]]; [exists s; set_solver|].
        exists new. rewrite Hnew. set_solver.
Qed.

(** What [share] does: nothing unless the caller owns the row; otherwise it adds
    exactly the given user to those who may see that row. *)
Lemma acl_share_spec db now id ownerId u perm :
  keys_ok (db_rows db) -> has_user (db_rows db) u = true ->
  exists db', (acl_share now id ownerId u perm db = (db', Ok true) /\ owns (db_rows db) ownerId id /\
      only_shares (db_rows db) (db_rows db') /\
      forall id' v, shared_with (db_rows db') id' v <-> shared_with (db_rows db) id' v \/ id' = id /\ v = u) \/
    (acl_share now id ownerId u perm db = (db, Ok false) /\ ~ owns (db_rows db) ownerId id).
Proof.
  intros Hk Hu. unfold acl_share. pose proof (owned_query db id ownerId) as Hq.
  destruct (take 1 _) as [|r l].
  { exists db. right. split; [done|]. intros Ho. apply Hq in Ho. done. }
  assert (Hown : owns (db_rows db) ownerId id) by (by apply Hq).
  assert (Hex : js_some (fun x => r_id x === id) (rows (db_rows db) r_table) = true).
  { destruct Hown as (x & Hx & Hid & _). apply js_some_true. exists x. split; [done|]. by bool_prop. }
  destruct (sql_upsert _ _ _ _ db) as [db1 res] eqn:E.
  destruct (shared_with_upsert db (db1, res) now id u perm u id Hk Hu Hex E) as (db2 & s & Heq & Honly & _).
  injection Heq as -> ->. exists db2. left. split_and!; [done|done|done|]. intros id' v.
  destruct (shared_with_upsert db (db2, Ok s) now id u perm v id' Hk Hu Hex E) as (db3 & s' & Heq & _ & Hv).
  by injection Heq as -> _.
Qed.

(** What [unshare] does: the owner takes one user off, nobody else is affected.
    The share tables have no rows that reference them. *)
Lemma acl_unshare_spec db id ownerId u :
  (forall c l, cascade r_shares c l = c) -> r_shares <> TUsers ->
  exists db', (acl_unshare id ownerId u db = (db', Ok true) /\ owns (db_rows db) ownerId id /\
      only_shares (db_rows db) (db_rows db') /\
      forall id' v, shared_with (db_rows db') id' v <-> shared_with (db_rows db) id' v /\ ~ (id' = id /\ v = u)) \/
    (acl_unshare id ownerId u db = (db, Ok false) /\ ~ owns (db_rows db) ownerId id).
Proof.
  intros Hcas Htab. unfold acl_unshare. pose proof (owned_query db id ownerId) as Hq.
  destruct (take 1 _) as [|r l].
  { exists db. right. split; [done|]. intros Ho. apply Hq in Ho. done. }
  assert (Hown : owns (db_rows db) ownerId id) by (by apply Hq).
  set (p := fun s => (sh_resource (r_to_share s) === id) && (sh_userId (r_to_share s) === u)).
  destruct (law_delete r_shares p db Htab) as (db' & out & -> & _ & Hs). exists db'. left.
  rewrite Hcas in Hs. split_and!; [done|done|by eapply only_shares_set|].
  intros id' v. unfold shared_with. setoid_rewrite (Hs r_shares). rewrite rows_set_eq.
  setoid_rewrite elem_of_js_filter. split.
  - intros (s & [Hp Hin] & <- & <-). split; [eauto|]. unfold p in Hp. intros [Hr Hu].
    rewrite Hr, Hu, !eqb_refl_js in Hp. done.
  - intros [(s & Hin & <- & <-) Hne]. exists s. split_and!; [|done|done|done].
    unfold p. apply negb_true_iff, andb_false_iff. rewrite !bool_decide_eq_false.
    destruct (decide (sh_resource (r_to_share s) = id)); [right; tauto | by left].
Qed.

(** Whatever the outcome, [share] and [unshare] leave the other tables and the
    shares of other rows alone, and do nothing for a caller who is not the owner. *)
Definition shares_of_owned_only (db db' : DB) (ownerId : string) : Prop :=
  only_shares (db_rows db) (db_rows db') /\
  forall s, ~ owns (db_rows db) ownerId (sh_resource (r_to_share s)) ->
    s ∈ rows (db_rows db') r_shares <-> s ∈ rows (db_rows db) r_shares.

Lemma shares_of_owned_refl db ownerId : shares_of_owned_only db db ownerId.
Proof. split; [by intros t _|done]. Qed.

Lemma acl_share_foreign now id ownerId u perm db db' res :
  keys_ok (db_rows db) -> acl_share now id ownerId u perm db = (db', res) ->
  shares_of_owned_only db db' ownerId.
Proof.
  intros Hk. unfold acl_share. pose proof (owned_query db id ownerId) as Hq.
  destruct (take 1 _) as [|r l]; [intros Heq; simplify_eq; apply shares_of_owned_refl|].
  assert (Hown : owns (db_rows db) ownerId id) by (by apply Hq).
  set (new := r_of_share (mkShare id u perm now)).
  assert (Hnew : r_to_share new = mkShare id u perm now) by apply r_share_inv'.
  destruct (js_some (fun x => share_target x new) (rows (db_rows db) r_shares)) eqn:E.
  - apply js_some_true in E as (old & Hold & Hm).
    destruct (law_upsert_update r_shares share_target new (set_permission perm) db old) as (db1 & -> & Hs);
      [done|intros; by eapply share_target_sym|intros x; apply r_share_same, set_permission_key|done|done|].
    intros Heq. simplify_eq. split; [by eapply only_shares_set|]. intros s Hs'.
    rewrite (Hs r_shares), rows_set_eq, list_elem_of_fmap.
    assert (Hres : forall x, share_target x new = true -> sh_resource (r_to_share x) = id).
    { intros x Hx. unfold share_target, share_conflict in Hx. rewrite Hnew in Hx. by bool_prop. }
    split.
    + intros (x & -> & Hx). destruct (share_target x new) eqn:Ht; [|done]. destruct Hs'.
      destruct (set_permission_key perm x) as [-> _]. by rewrite (Hres x Ht).
    + intros Hin. exists s. split; [|done]. destruct (share_target s new) eqn:Ht; [|done].
      destruct Hs'. by rewrite (Hres s Ht).
  - rewrite law_upsert_insert by done.
    destruct (js_some (conflict r_shares new) (rows (db_rows db) r_shares)) eqn:Hc.
    { destruct (law_insert_error r_shares new db) as [e ->]; [by left|]. intros Heq. simplify_eq.
      apply shares_of_owned_refl. }
    destruct (refs_ok (db_rows db) r_shares new) eqn:Hr.
    2:{ destruct (law_insert_error r_shares new db) as [e ->]; [by right|]. intros Heq. simplify_eq.
        apply shares_of_owned_refl. }
    destruct (law_insert_ok r_shares new db) as (db1 & -> & Hs); [done|done|].
    intros Heq. simplify_eq. split; [by eapply only_shares_set|]. intros s Hs'.
    rewrite (Hs r_shares), rows_set_eq, elem_of_app, list_elem_of_singleton. split; [|by left].
    intros [?| ->]; [done|]. destruct Hs'. by rewrite Hnew.
Qed.

Lemma acl_unshare_foreign id ownerId u db db' res :
  (forall c l, cascade r_shares c l = c) -> r_shares <> TUsers ->
  acl_unshare id ownerId u db = (db', res) -> shares_of_owned_only db db' ownerId.
Proof.
  intros Hcas Htab. unfold acl_unshare. pose proof (owned_query db id ownerId) as Hq.
  destruct (take 1 _) as [|r l]; [intros Heq; simplify_eq; apply shares_of_owned_refl|].
  assert (Hown : owns (db_rows db) ownerId id) by (by apply Hq).
  set (p := fun s => (sh_resource (r_to_share s) === id) && (sh_userId (r_to_share s) === u)).
  destruct (law_delete r_shares p db Htab) as (db1 & out & -> & _ & Hs). rewrite Hcas in Hs.
  intros Heq. simplify_eq. split; [by eapply only_shares_set|]. intros s Hs'.
  rewrite (Hs r_shares), rows_set_eq, elem_of_js_filter. split; [tauto|]. intros Hin. split; [|done].
  apply negb_true_iff, andb_false_iff. left. apply bool_decide_eq_false. intros Heq. by rewrite Heq in Hs'.
Qed.

(** ** The contract of a repository *)

(** Reads: a row is returned exactly to those who may see it, and the three lists
    together hold exactly the rows a user may see, newest first. *)
Record reads_spec (db : DB)
    (getByIdForUser : string -> string -> DB -> option (row r_table))
    (listOwnedBy listSharedWith : string -> DB -> list (row r_table))
    (listPublic : DB -> list (row r_table)) : Prop := {
  rs_get id userId r :
    getByIdForUser id userId db = Some r <->
    r ∈ rows (db_rows db) r_table /\ r_id r = id /\ can_view (db_rows db) userId r;
  rs_owned userId r :
    r ∈ listOwnedBy userId db <-> r ∈ rows (db_rows db) r_table /\ r_owner r = userId;
  rs_view userId r :
    r ∈ listOwnedBy userId db \/ r ∈ listSharedWith userId db \/ r ∈ listPublic db <->
    r ∈ rows (db_rows db) r_table /\ can_view (db_rows db) userId r;
  rs_sorted userId :
    StronglySorted (fun a b => (r_sort b <= r_sort a)%Z) (listOwnedBy userId db) /\
    StronglySorted (fun a b => (r_sort b <= r_sort a)%Z) (listSharedWith userId db) /\
    StronglySorted (fun a b => (r_sort b <= r_sort a)%Z) (listPublic db) }.

Lemma acl_reads db :
  keys_ok (db_rows db) ->
  reads_spec db acl_getByIdForUser acl_listOwnedBy acl_listSharedWith acl_listPublic.
Proof.
  intros Hk. split.
  - intros. by apply acl_get_spec.
  - intros. by apply elem_listOwnedBy.
  - intros u r. rewrite elem_listOwnedBy, elem_listSharedWith, elem_listPublic. unfold can_view. tauto.
  - intros u. split_and!; try apply select_ordered_sorted. unfold acl_listSharedWith.
    destruct (_ <$> _); [constructor | apply select_ordered_sorted].
Qed.

(** Sharing: only the owner changes who sees a row, by exactly one user. *)
Record share_spec (db : DB)
    (share : Z -> string -> string -> string -> Permission -> DB -> DB * result string bool) : Prop := {
  ss_refused now id ownerId u perm :
    ~ owns (db_rows db) ownerId id -> share now id ownerId u perm db = (db, Ok false);
  ss_granted now id ownerId u perm :
    owns (db_rows db) ownerId id -> has_user (db_rows db) u = true ->
    exists db', share now id ownerId u perm db = (db', Ok true) /\
      only_shares (db_rows db) (db_rows db') /\
      forall id' v, shared_with (db_rows db') id' v <-> shared_with (db_rows db) id' v \/ id' = id /\ v = u }.

Lemma acl_share_refused now id ownerId u perm db :
  ~ owns (db_rows db) ownerId id -> acl_share now id ownerId u perm db = (db, Ok false).
Proof.
  intros Hn. unfold acl_share. pose proof (owned_query db id ownerId) as Hq.
  destruct (take 1 _); [done|]. destruct Hn. by apply Hq.
Qed.

Lemma acl_shares db : keys_ok (db_rows db) -> share_spec db acl_share.
Proof.
  intros Hk. split.
  - intros. by apply acl_share_refused.
  - intros now id ownerId u perm Ho Hu.
    destruct (acl_share_spec db now id ownerId u perm Hk Hu) as (db' & [(? & _ & ? & ?)|[_ ?]]); [|done]. eauto.
Qed.

Record unshare_spec (db : DB)
    (unshare : string -> string -> string -> DB -> DB * result string bool) : Prop := {
  us_refused id ownerId u :
    ~ owns (db_rows db) ownerId id -> unshare id ownerId u db = (db, Ok false);
  us_done id ownerId u :
    owns (db_rows db) ownerId id ->
    exists db', unshare id ownerId u db = (db', Ok true) /\
      only_shares (db_rows db) (db_rows db') /\
      forall id' v, shared_with (db_rows db') id' v <-> shared_with (db_rows db) id' v /\ ~ (id' = id /\ v = u) }.

Lemma acl_unshares db :
  (forall c l, cascade r_shares c l = c) -> r_shares <> TUsers -> unshare_spec db acl_unshare.
Proof.
  intros Hc Ht. split; intros id ownerId u Ho;
    destruct (acl_unshare_spec db id ownerId u Hc Ht) as (db' & [(? & ? & ? & ?)|[? ?]]); try done. eauto.
Qed.
End Acl.
