(* ===== verification/PipelineRepo.v ===== *)
(** * Pipeline repository ([web_ui/server/db/repositories/pipelines.ts])

    [now] is the value of [new Date()] or of the column default at the call. *)

From S2P Require Export Acl.

Section Repo.
Context {DB : Type} `{Sql DB}.

Definition listOwnedBy (userId : string) (db : DB) : list PipelineRow :=
  sql_select_ordered TPipelines (fun p => pl_ownerId p === userId) (newest_first pl_updatedAt) db.

Definition listSharedWith (userId : string) (db : DB) : list PipelineRow :=
  let shareRows := sql_select TPipelineShares (fun s => sh_userId s === userId) db in
  let ids := sh_resource <$> shareRows in
  match ids with
  | [] => []
  | _ => sql_select_ordered TPipelines (fun p => js_mem (pl_id p) ids) (newest_first pl_updatedAt) db
  end.

Definition listPublic (db : DB) : list PipelineRow :=
  sql_select_ordered TPipelines (fun p => pl_visibility p === Public) (newest_first pl_updatedAt) db.

Definition getByIdForUser (id userId : string) (db : DB) : option PipelineRow :=
  match first_row (sql_select TPipelines (fun p => pl_id p === id) db) with
  | None => None
  | Some row =>
      if (pl_ownerId row === userId) || (pl_visibility row === Public) then Some row
      else match first_row (sql_select TPipelineShares
                   (fun s => (sh_resource s === id) && (sh_userId s === userId)) db) with
           | Some _ => Some row
           | None => None
           end
  end.

Record NewPipeline := mkNewPipeline {
  np_id : string; np_ownerId : string; np_name : string; np_description : option string;
  np_version : string; np_yaml : string; np_visibility : Visibility }.

Definition create (now : Z) (input : NewPipeline) (db : DB) : DB * result string PipelineRow :=
  sql_insert TPipelines
    (mkPipelineRow (np_id input) (np_ownerId input) (np_name input) (np_description input)
       (np_version input) (np_yaml input) (np_visibility input) now now) db.

(** [Partial<NewPipeline>]: a property that is absent or undefined is not set;
    [description] may be set to null. *)
Record PipelinePatch := mkPipelinePatch {
  pt_id : option string; pt_ownerId : option string; pt_name : option string;
  pt_description : option (option string); pt_version : option string; pt_yaml : option string;
  pt_visibility : option Visibility; pt_createdAt : option Z }.

(** [{ ...patch, updatedAt: new Date() }] *)
Definition apply_patch (now : Z) (patch : PipelinePatch) (p : PipelineRow) : PipelineRow :=
  mkPipelineRow (pt_id patch ⁇ pl_id p) (pt_ownerId patch ⁇ pl_ownerId p) (pt_name patch ⁇ pl_name p)
    (pt_description patch ⁇ pl_description p) (pt_version patch ⁇ pl_version p)
    (pt_yaml patch ⁇ pl_yaml p) (pt_visibility patch ⁇ pl_visibility p)
    (pt_createdAt patch ⁇ pl_createdAt p) now.

Definition update (now : Z) (id ownerId : string) (patch : PipelinePatch) (db : DB)
    : DB * result string (option PipelineRow) :=
  match sql_update TPipelines (fun p => (pl_id p === id) && (pl_ownerId p === ownerId))
          (apply_patch now patch) db with
  | (db', Ok out) => (db', Ok (head out))
  | (db', Throw e) => (db', Throw e)
  end.

Definition delete (id ownerId : string) (db : DB) : DB * result string bool :=
  match sql_delete TPipelines (fun p => (pl_id p === id) && (pl_ownerId p === ownerId)) db with
  | (db', Ok out) => (db', Ok (bool_decide (0 < length out)))
  | (db', Throw e) => (db', Throw e)
  end.

Definition with_permission (permission : Permission) (s : ShareRow) : ShareRow :=
  mkShare (sh_resource s) (sh_userId s) permission (sh_createdAt s).

Definition share (now : Z) (pipelineId ownerId shareWithUserId : string) (permission : Permission)
    (db : DB) : DB * result string bool :=
  match take 1 (sql_select TPipelines (fun p => (pl_id p === pipelineId) && (pl_ownerId p === ownerId)) db) with
  | [] => (db, Ok false)
  | _ =>
      match sql_upsert TPipelineShares share_conflict (mkShare pipelineId shareWithUserId permission now)
              (with_permission permission) db with
      | (db', Ok _) => (db', Ok true)
      | (db', Throw e) => (db', Throw e)
      end
  end.

Definition unshare (pipelineId ownerId userId : string) (db : DB) : DB * result string bool :=
  match take 1 (sql_select TPipelines (fun p => (pl_id p === pipelineId) && (pl_ownerId p === ownerId)) db) with
  | [] => (db, Ok false)
  | _ =>
      match sql_delete TPipelineShares
              (fun s => (sh_resource s === pipelineId) && (sh_userId s === userId)) db with
      | (db', Ok _) => (db', Ok true)
      | (db', Throw e) => (db', Throw e)
      end
  end.
End Repo.

(** ** The repository has the shared access control *)

Definition pipeline_resource : Resource := {|
  r_table := TPipelines; r_shares := TPipelineShares; r_id := pl_id; r_owner := pl_ownerId;
  r_visibility := pl_visibility; r_sort := pl_updatedAt;
  r_of_share := fun s => s; r_to_share := fun s => s |}.

#[export] Instance pipeline_resource_laws : ResourceLaws pipeline_resource.
Proof. by split. Qed.

Section Correctness.
Context {DB : Type} `{SqlLaws DB}.

Lemma pipeline_reads db :
  keys_ok (db_rows db) ->
  reads_spec (R := pipeline_resource) db getByIdForUser listOwnedBy listSharedWith listPublic.
Proof. exact (acl_reads (R := pipeline_resource) db). Qed.

Lemma pipeline_shares db : keys_ok (db_rows db) -> share_spec (R := pipeline_resource) db share.
Proof. exact (acl_shares (R := pipeline_resource) db). Qed.

Lemma pipeline_unshares db : unshare_spec (R := pipeline_resource) db unshare.
Proof. by apply (acl_unshares (R := pipeline_resource) db). Qed.
End Correctness.
