(* ===== verification/DataFileRepo.v ===== *)
(** * Data file repository ([web_ui/server/db/repositories/dataFiles.ts])

    [now] is the value of the column default [defaultNow()] at the call. *)

From S2P Require Export Acl.

Section Repo.
Context {DB : Type} `{Sql DB}.

Definition listOwnedBy (userId : string) (db : DB) : list DataFileRow :=
  sql_select_ordered TDataFiles (fun d => df_ownerId d === userId) (newest_first df_createdAt) db.

Definition listSharedWith (userId : string) (db : DB) : list DataFileRow :=
  let shares := sql_select TDataFileShares (fun s => sh_userId s === userId) db in
  let ids := sh_resource <$> shares in
  match ids with
  | [] => []
  | _ => sql_select_ordered TDataFiles (fun d => js_mem (df_id d) ids) (newest_first df_createdAt) db
  end.

Definition listPublic (db : DB) : list DataFileRow :=
  sql_select_ordered TDataFiles (fun d => df_visibility d === Public) (newest_first df_createdAt) db.

Definition getByIdForUser (id userId : string) (db : DB) : option DataFileRow :=
  match first_row (sql_select TDataFiles (fun d => df_id d === id) db) with
  | None => None
  | Some row =>
      if (df_ownerId row === userId) || (df_visibility row === Public) then Some row
      else match first_row (sql_select TDataFileShares
                   (fun s => (sh_resource s === id) && (sh_userId s === userId)) db) with
           | Some _ => Some row
           | None => None
           end
  end.

Record NewDataFile := mkNewDataFile {
  nd_id : string; nd_ownerId : string; nd_fileName : string; nd_sizeBytes : Z; nd_mimeType : string;
  nd_s3Key : string; nd_visibility : Visibility }.

Definition create (now : Z) (input : NewDataFile) (db : DB) : DB * result string DataFileRow :=
  sql_insert TDataFiles
    (mkDataFile (nd_id input) (nd_ownerId input) (nd_fileName input) (nd_sizeBytes input)
       (nd_mimeType input) (nd_s3Key input) (nd_visibility input) now now) db.

Definition delete (id ownerId : string) (db : DB) : DB * result string (option DataFileRow) :=
  match sql_delete TDataFiles (fun d => (df_id d === id) && (df_ownerId d === ownerId)) db with
  | (db', Ok out) => (db', Ok (head out))
  | (db', Throw e) => (db', Throw e)
  end.

Definition with_permission (permission : Permission) (s : ShareRow) : ShareRow :=
  mkShare (sh_resource s) (sh_userId s) permission (sh_createdAt s).

Definition share (now : Z) (dataFileId ownerId shareWithUserId : string) (permission : Permission)
    (db : DB) : DB * result string bool :=
  match take 1 (sql_select TDataFiles (fun d => (df_id d === dataFileId) && (df_ownerId d === ownerId)) db) with
  | [] => (db, Ok false)
  | _ =>
      match sql_upsert TDataFileShares share_conflict (mkShare dataFileId shareWithUserId permission now)
              (with_permission permission) db with
      | (db', Ok _) => (db', Ok true)
      | (db', Throw e) => (db', Throw e)
      end
  end.
End Repo.

(** ** The repository has the shared access control *)

Definition dataFile_resource : Resource := {|
  r_table := TDataFiles; r_shares := TDataFileShares; r_id := df_id; r_owner := df_ownerId;
  r_visibility := df_visibility; r_sort := df_createdAt;
  r_of_share := fun s => s; r_to_share := fun s => s |}.

#[export] Instance dataFile_resource_laws : ResourceLaws dataFile_resource.
Proof. by split. Qed.

Section Correctness.
Context {DB : Type} `{SqlLaws DB}.

Lemma dataFile_reads db :
  keys_ok (db_rows db) ->
  reads_spec (R := dataFile_resource) db getByIdForUser listOwnedBy listSharedWith listPublic.
Proof. exact (acl_reads (R := dataFile_resource) db). Qed.

Lemma dataFile_shares db : keys_ok (db_rows db) -> share_spec (R := dataFile_resource) db share.
Proof. exact (acl_shares (R := dataFile_resource) db). Qed.
End Correctness.
