(* ===== verification/RunRepo.v ===== *)
(** * Run repository ([web_ui/server/db/repositories/runs.ts])

    [now] is the value of [new Date()] or of a column default at the call; [v7] is
    the value [v7()] gives if it is called; [text_le] is the order of [orderBy] on
    text columns, which depends on the database's collation. *)

From S2P Require Export Acl.

Section Repo.
Context {DB : Type} `{Sql DB}.

Record NewRun := mkNewRun {
  nr_id : string; nr_pipelineId : option string; nr_ownerId : string; nr_name : option string;
  nr_yaml : string; nr_status : RunStatus; nr_visibility : Visibility }.

Definition create (now : Z) (input : NewRun) (db : DB) : DB * result string RunRow :=
  sql_insert TRuns
    (mkRun (nr_id input) (nr_pipelineId input) (nr_ownerId input) (nr_name input) (nr_yaml input)
       (nr_status input) None (nr_visibility input) None None now now) db.

Definition listOwnedBy (userId : string) (db : DB) : list RunRow :=
  sql_select_ordered TRuns (fun r => rn_ownerId r === userId) (newest_first rn_createdAt) db.

Definition listSharedWith (userId : string) (db : DB) : list RunRow :=
  let shareRows := sql_select TRunShares (fun s => sh_userId s === userId) db in
  let ids := sh_resource <$> shareRows in
  match ids with
  | [] => []
  | _ => sql_select_ordered TRuns (fun r => js_mem (rn_id r) ids) (newest_first rn_createdAt) db
  end.

Definition listPublic (db : DB) : list RunRow :=
  sql_select_ordered TRuns (fun r => rn_visibility r === Public) (newest_first rn_createdAt) db.

Definition getByIdForUser (id userId : string) (db : DB) : option RunRow :=
  match first_row (sql_select TRuns (fun r => rn_id r === id) db) with
  | None => None
  | Some row =>
      if (rn_ownerId row === userId) || (rn_visibility row === Public) then Some row
      else match first_row (sql_select TRunShares
                   (fun s => (sh_resource s === id) && (sh_userId s === userId)) db) with
           | Some _ => Some row
           | None => None
           end
  end.

Record RunWithDetails := mkDetails { run : RunRow; files : list RunFileRow; logs : list RunLogRow }.

(** [orderBy(asc(key))] *)
Definition oldest_first {A} (key : A -> Z) (a b : A) : bool := (key a <=? key b)%Z.

Definition getWithDetails (text_le : string -> string -> bool) (id userId : string) (db : DB)
    : option RunWithDetails :=
  match getByIdForUser id userId db with
  | None => None
  | Some run =>
      Some (mkDetails run
              (sql_select_ordered TRunFiles (fun f => rf_runId f === id)
                 (fun a b => text_le (rf_name a) (rf_name b)) db)
              (sql_select_ordered TRunLogs (fun l => rl_runId l === id) (oldest_first rl_createdAt) db))
  end.

Definition getById (id : string) (db : DB) : option RunRow :=
  first_row (sql_select TRuns (fun r => rn_id r === id) db).

Definition getFile (runId name : string) (db : DB) : option RunFileRow :=
  first_row (sql_select TRunFiles (fun f => (rf_runId f === runId) && (rf_name f === name)) db).

Record NewRunFile := mkNewRunFile {
  nf_id : option string; nf_runId : string; nf_blockId : option string; nf_name : string;
  nf_mimeType : option string; nf_sizeBytes : option Z; nf_s3Key : string }.

Definition appendFile (now : Z) (v7 : string) (input : NewRunFile) (db : DB) : DB * result string RunFileRow :=
  sql_insert TRunFiles
    (mkRunFile (nf_id input ⁇ v7) (nf_runId input) (nf_blockId input) (nf_name input)
       (nf_mimeType input) (nf_sizeBytes input) (nf_s3Key input) now) db.

Record NewRunLog := mkNewRunLog {
  nl_id : option string; nl_runId : string; nl_blockId : option string;
  nl_stdout : option string; nl_stderr : option string }.

Definition appendLog (now : Z) (v7 : string) (input : NewRunLog) (db : DB) : DB * result string RunLogRow :=
  sql_insert TRunLogs
    (mkRunLog (nl_id input ⁇ v7) (nl_runId input) (nl_blockId input) (nl_stdout input)
       (nl_stderr input) now) db.

Definition finished (status : RunStatus) : bool :=
  (status === Succeeded) || (status === Failed) || (status === Canceled).

(** The patch of [updateStatus]; [error] is [opts.error], [None] when undefined.
    The three calls of [new Date()] are [t0], [t1] and [t2]. *)
Definition status_patch (t0 t1 t2 : Z) (status : RunStatus) (error : option (option string))
    (r : RunRow) : RunRow :=
  mkRun (rn_id r) (rn_pipelineId r) (rn_ownerId r) (rn_name r) (rn_yaml r) status
    (error ⁇ rn_error r) (rn_visibility r)
    (if status === Running then Some t1 else rn_startedAt r)
    (if finished status then Some t2 else rn_finishedAt r)
    (rn_createdAt r) t0.

Definition updateStatus (t0 t1 t2 : Z) (id : string) (status : RunStatus) (error : option (option string))
    (db : DB) : DB * result string (option RunRow) :=
  match sql_update TRuns (fun r => rn_id r === id) (status_patch t0 t1 t2 status error) db with
  | (db', Ok out) => (db', Ok (head out))
  | (db', Throw e) => (db', Throw e)
  end.

Definition visibility_patch (now : Z) (visibility : Visibility) (r : RunRow) : RunRow :=
  mkRun (rn_id r) (rn_pipelineId r) (rn_ownerId r) (rn_name r) (rn_yaml r) (rn_status r)
    (rn_error r) visibility (rn_startedAt r) (rn_finishedAt r) (rn_createdAt r) now.

Definition setVisibility (now : Z) (id ownerId : string) (visibility : Visibility) (db : DB)
    : DB * result string (option RunRow) :=
  match sql_update TRuns (fun r => (rn_id r === id) && (rn_ownerId r === ownerId))
          (visibility_patch now visibility) db with
  | (db', Ok out) => (db', Ok (head out))
  | (db', Throw e) => (db', Throw e)
  end.

Definition with_permission (permission : Permission) (s : ShareRow) : ShareRow :=
  mkShare (sh_resource s) (sh_userId s) permission (sh_createdAt s).

Definition share (now : Z) (runId ownerId shareWithUserId : string) (permission : Permission)
    (db : DB) : DB * result string bool :=
  match take 1 (sql_select TRuns (fun r => (rn_id r === runId) && (rn_ownerId r === ownerId)) db) with
  | [] => (db, Ok false)
  | _ =>
      match sql_upsert TRunShares share_conflict (mkShare runId shareWithUserId permission now)
              (with_permission permission) db with
      | (db', Ok _) => (db', Ok true)
      | (db', Throw e) => (db', Throw e)
      end
  end.

Definition unshare (runId ownerId userId : string) (db : DB) : DB * result string bool :=
  match take 1 (sql_select TRuns (fun r => (rn_id r === runId) && (rn_ownerId r === ownerId)) db) with
  | [] => (db, Ok false)
  | _ =>
      match sql_delete TRunShares (fun s => (sh_resource s === runId) && (sh_userId s === userId)) db with
      | (db', Ok _) => (db', Ok true)
      | (db', Throw e) => (db', Throw e)
      end
  end.
End Repo.

(** ** The repository has the shared access control *)

Definition run_resource : Resource := {|
  r_table := TRuns; r_shares := TRunShares; r_id := rn_id; r_owner := rn_ownerId;
  r_visibility := rn_visibility; r_sort := rn_createdAt;
  r_of_share := fun s => s; r_to_share := fun s => s |}.

#[export] Instance run_resource_laws : ResourceLaws run_resource.
Proof. by split. Qed.

Section Correctness.
Context {DB : Type} `{SqlLaws DB}.

Lemma run_reads db :
  keys_ok (db_rows db) ->
  reads_spec (R := run_resource) db getByIdForUser listOwnedBy listSharedWith listPublic.
Proof. exact (acl_reads (R := run_resource) db). Qed.

Lemma run_shares db : keys_ok (db_rows db) -> share_spec (R := run_resource) db share.
Proof. exact (acl_shares (R := run_resource) db). Qed.

Lemma run_unshares db : unshare_spec (R := run_resource) db unshare.
Proof. by apply (acl_unshares (R := run_resource) db). Qed.
End Correctness.

(** ** The life of a run *)

Section Lifecycle.
Context {DB : Type} `{SqlLaws DB}.

(** A status is written whatever the status before: [running] reopens a finished run,
    which keeps the time it finished at and gets a new time it started at. *)
Theorem status_reopens t0 t1 t2 e (db : DB) r :
  keys_ok (db_rows db) -> r ∈ rows (db_rows db) TRuns ->
  exists db' r', updateStatus t0 t1 t2 (rn_id r) Running e db = (db', Ok (Some r')) /\
    rn_id r' = rn_id r /\ rn_status r' = Running /\ rn_finishedAt r' = rn_finishedAt r /\ rn_startedAt r' = Some t1.
Proof.
  intros Hk Hr. unfold updateStatus.
  destruct (law_update_ok TRuns (fun x => rn_id x === rn_id r) (status_patch t0 t1 t2 Running e) db) as (db' & out & Hrun);
    [done|by intros|].
  pose proof (law_update TRuns (fun x => rn_id x === rn_id r) (status_patch t0 t1 t2 Running e) db) as Hl.
  rewrite Hrun in *. destruct Hl as [Hout _].
  assert (Hall : forall x, x ∈ out -> x = status_patch t0 t1 t2 Running e r).
  { intros x. rewrite Hout. intros (y & -> & [Hid Hy]%elem_of_js_filter)%list_elem_of_fmap. f_equal.
    apply (row_unique (R := run_resource) db); [done..|]. by bool_prop. }
  destruct out as [|x out].
  - assert (Hin : status_patch t0 t1 t2 Running e r ∈ @nil RunRow); [|by apply elem_of_nil in Hin].
    rewrite Hout. apply list_elem_of_fmap_2, elem_of_js_filter. by rewrite eqb_refl_js.
  - exists db', x. rewrite (Hall x) by left. done.
Qed.
End Lifecycle.
