(* ===== verification/BlockRepo.v ===== *)
(** * Block registry ([web_ui/server/db/repositories/blocks.ts])

    [now] is the value of [new Date()], which the column defaults also get. *)

From S2P Require Export Acl.

Section Repo.
Context {DB : Type} `{Sql DB}.

(** [text_le] is the database's order on text. *)
Definition listAll (text_le : string -> string -> bool) (db : DB) : list BlockRow :=
  sql_select_ordered TBlocks (fun _ => true) (fun a b => text_le (bk_name a) (bk_name b)) db.

Definition getByName (name : string) (db : DB) : option BlockRow :=
  first_row (sql_select TBlocks (fun b => bk_name b === name) db).

Definition getById (id : string) (db : DB) : option BlockRow :=
  first_row (sql_select TBlocks (fun b => bk_id b === id) db).

(** The row of [upsert] and what [set] writes to the row it replaces; [t0] is
    [new Date()], [t1] the default of [createdAt]. *)
Definition new_block (t0 t1 : Z) (label : string) (manifest : BlockManifest) : BlockRow :=
  mkBlockRow (mf_id manifest) (mf_id manifest) label (mf_version manifest) manifest t1 t0.

Definition replace_block (r old : BlockRow) : BlockRow :=
  mkBlockRow (bk_id old) (bk_name old) (bk_label r) (bk_version r) (bk_manifest r)
    (bk_createdAt old) (bk_updatedAt r).

Definition upsert (t0 t1 : Z) (label : string) (manifest : BlockManifest) (db : DB)
    : DB * result string BlockRow :=
  let row := new_block t0 t1 label manifest in
  sql_upsert TBlocks (fun a b => bk_name a === bk_name b) row (replace_block row) db.

Definition delete (name : string) (db : DB) : DB * result string unit :=
  match sql_delete TBlocks (fun b => bk_name b === name) db with
  | (db', Ok _) => (db', Ok tt)
  | (db', Throw e) => (db', Throw e)
  end.
End Repo.
