(* ===== verification/Repositories.v ===== *)
(** * What the repositories promise

    The access control of the three resources, and the writes of each repository,
    for every database that satisfies the laws of [Sql]. *)

From S2P Require Export PipelineRepo DataFileRepo RunRepo BlockRepo.

Section Theorems.
Context {DB : Type} `{SqlLaws DB}.
Implicit Types db : DB.

(** C6. Access control of reads, for the three repositories: a single row is
    returned exactly to its owner, to everybody when it is public and to those it
    is shared with; the three lists together hold exactly the rows the user may
    see, and each is sorted newest first. *)
Theorem repository_reads db :
  keys_ok (db_rows db) ->
  reads_spec (R := pipeline_resource) db PipelineRepo.getByIdForUser PipelineRepo.listOwnedBy
    PipelineRepo.listSharedWith PipelineRepo.listPublic /\
  reads_spec (R := dataFile_resource) db DataFileRepo.getByIdForUser DataFileRepo.listOwnedBy
    DataFileRepo.listSharedWith DataFileRepo.listPublic /\
  reads_spec (R := run_resource) db RunRepo.getByIdForUser RunRepo.listOwnedBy
    RunRepo.listSharedWith RunRepo.listPublic.
Proof. intros Hk. split_and!; [by apply pipeline_reads|by apply dataFile_reads|by apply run_reads]. Qed.

(** Sharing: only the owner of a row changes who may see it; [share] adds
    exactly one user (repeated calls keep one row), [unshare] takes exactly one
    off, and neither touches another table.  Anyone else's call returns [false]
    and leaves the database as it is. *)
Theorem repository_shares db :
  keys_ok (db_rows db) ->
  share_spec (R := pipeline_resource) db PipelineRepo.share /\
  share_spec (R := dataFile_resource) db DataFileRepo.share /\
  share_spec (R := run_resource) db RunRepo.share /\
  unshare_spec (R := pipeline_resource) db PipelineRepo.unshare /\
  unshare_spec (R := run_resource) db RunRepo.unshare.
Proof.
  intros Hk. split_and!; [by apply pipeline_shares|by apply dataFile_shares|by apply run_shares|..];
    [apply pipeline_unshares | apply run_unshares].
Qed.

(** ** Updates and deletions *)

(** At most one row is updated when the condition pins the primary key. *)
Lemma update_none t p f db :
  (forall x, x ∈ rows (db_rows db) t -> p x = false) ->
  match sql_update t p f db with
  | (db', Ok out) => out = [] /\ same_rows (db_rows db') (db_rows db)
  | (db', Throw _) => db' = db
  end.
Proof.
  intros Hnone. pose proof (law_update t p f db) as Hl.
  destruct (sql_update t p f db) as [db' [out|e]]; [|done]. destruct Hl as [Hout Hs].
  rewrite js_filter_none in Hout by (by apply Forall_forall). split; [by apply Permutation_nil_r in Hout|].
  rewrite Hs. intros t'. destruct (decide (t = t')) as [->|Hne]; [|by rewrite rows_set_ne].
  rewrite rows_set_eq, list_fmap_fixed; [done|]. intros x Hx. by rewrite Hnone.
Qed.

Lemma filter_one {A} (p : A -> bool) l x :
  x ∈ l -> p x = true -> (forall y, y ∈ l -> p y = true -> y = x) -> NoDup l -> js_filter p l = [x].
Proof.
  intros Hx Hp Hu Hnd. apply list_elem_of_split in Hx as (l1 & l2 & ->).
  apply NoDup_app in Hnd as (_ & Hd1 & Hnd). apply NoDup_cons in Hnd as [Hd2 _].
  unfold js_filter. rewrite filter_app, filter_cons_True by done.
  assert (Hnone : forall l, (forall y, y ∈ l -> y ∈ l1 ++ x :: l2) -> x ∉ l ->
    filter (fun y => p y = true) l = []).
  { intros l Hl Hxl. apply (js_filter_none p), Forall_forall. intros y Hy.
    apply not_true_iff_false. intros Hpy. apply Hxl. rewrite <-(Hu y); [done|by apply Hl|done]. }
  rewrite !Hnone; [done|..].
  - intros y Hy. apply elem_of_app. right. by right.
  - done.
  - intros y Hy. apply elem_of_app. by left.
  - intros Hin. apply (Hd1 x Hin). left.
Qed.

Lemma distinct_NoDup {A} (R : A -> A -> bool) (l : list A) :
  (forall x, R x x = true) -> distinct R l = true -> NoDup l.
Proof.
  intros Hr. induction l as [|x l IH]; intros Hd; [constructor|]. simpl in Hd.
  apply andb_true_iff in Hd as [Hx Hd]. apply negb_true_iff in Hx. rewrite js_some_false in Hx.
  constructor; [|auto]. intros Hin. specialize (Hx x Hin). by rewrite Hr in Hx.
Qed.

Lemma update_one t p f db x :
  keys_ok (db_rows db) -> x ∈ rows (db_rows db) t -> p x = true -> same_keys t (f x) x ->
  (forall y, y ∈ rows (db_rows db) t -> p y = true -> y = x) ->
  exists db', sql_update t p f db = (db', Ok [f x]) /\
    same_rows (db_rows db')
      (set_rows t (db_rows db) ((fun y => if p y then f y else y) <$> rows (db_rows db) t)).
Proof.
  intros Hk Hx Hp Hf Hu. destruct (law_update_ok t p f db Hk) as (db' & out & Hrun).
  { intros y Hy Hpy. by rewrite (Hu y). }
  pose proof (law_update t p f db) as Hl. rewrite Hrun in Hl. destruct Hl as [Hout Hs].
  exists db'. split; [|done]. rewrite Hrun. do 2 f_equal.
  rewrite (filter_one p _ x) in Hout; [|done|done|done|].
  - by apply Permutation_singleton_r in Hout.
  - eapply distinct_NoDup; [apply conflict_refl|apply Hk].
Qed.

(** Worker status updates: [updateStatus] finds the run by id or changes
    nothing; it sets the status and the error (kept when not given), stamps
    [updatedAt] always, [startedAt] on running and [finishedAt] on the three final
    states, and keeps every other column, every other run and every other table. *)
Theorem updateStatus_spec db t0 t1 t2 id status error :
  keys_ok (db_rows db) ->
  (forall r, r ∈ rows (db_rows db) TRuns -> rn_id r = id ->
     exists db' r', updateStatus t0 t1 t2 id status error db = (db', Ok (Some r')) /\
       same_rows (db_rows db')
         (set_rows TRuns (db_rows db)
            ((fun y => if rn_id y === id then r' else y) <$> rows (db_rows db) TRuns)) /\
       rn_status r' = status /\ rn_error r' = error ⁇ rn_error r /\ rn_updatedAt r' = t0 /\
       rn_startedAt r' = (if status is Running then Some t1 else rn_startedAt r) /\
       rn_finishedAt r' = (match status with Queued | Running => rn_finishedAt r | _ => Some t2 end) /\
       (rn_id r', rn_pipelineId r', rn_ownerId r', rn_name r', rn_yaml r', rn_visibility r', rn_createdAt r') =
       (rn_id r, rn_pipelineId r, rn_ownerId r, rn_name r, rn_yaml r, rn_visibility r, rn_createdAt r)) /\
  ((forall r, r ∈ rows (db_rows db) TRuns -> rn_id r <> id) ->
     exists db', updateStatus t0 t1 t2 id status error db = (db', Ok None) /\
       same_rows (db_rows db') (db_rows db)).
Proof.
  intros Hk. unfold updateStatus. split.
  - intros r Hr Hid.
    assert (Hu : forall y, y ∈ rows (db_rows db) TRuns -> (rn_id y === id) = true -> y = r).
    { intros y Hy Hp. bool_prop. apply (row_unique (R := run_resource) db); [done..|]. simpl. congruence. }
    destruct (update_one TRuns (fun r => rn_id r === id) (status_patch t0 t1 t2 status error) db r)
      as (db' & -> & Hs); [done|done|by bool_prop|done|done|].
    exists db', (status_patch t0 t1 t2 status error r). split; [done|]. split.
    { rewrite Hs. apply set_rows_proper; [done|]. apply reflexive_eq, list_fmap_ext. intros i y Hy.
      case_bool_decide as Hyid; [|done]. rewrite (Hu y); [done|by eapply list_elem_of_lookup_2|by bool_prop]. }
    simpl. split_and!; try done; destruct status; done.
  - intros Hnone. pose proof (update_none TRuns (fun r => rn_id r === id) (status_patch t0 t1 t2 status error) db) as Hun.
    destruct (law_update_ok TRuns (fun r => rn_id r === id) (status_patch t0 t1 t2 status error) db Hk)
      as (db' & out & Hrun); [done|].
    rewrite Hrun in *. destruct Hun as [-> Hs]; [|eauto].
    intros x Hx. apply bool_decide_eq_false. by apply Hnone.
Qed.

(** Deleting no row has no effect on the tables that reference it. *)
Lemma shares_kept_none l : shares_kept (fun _ => false) l = l.
Proof. unfold shares_kept. apply js_filter_all. by apply Forall_forall. Qed.

Lemma unlink_run_none r : unlink_run (fun _ => false) r = r.
Proof. unfold unlink_run. by destruct (rn_pipelineId r). Qed.

Lemma cascade_nil t c : cascade t c [] = c.
Proof.
  destruct t; try done; destruct c; simpl; rewrite shares_kept_none; [|by rewrite !js_filter_all by (by apply Forall_forall)|done].
  rewrite list_fmap_fixed; [done|]. intros r _. apply unlink_run_none.
Qed.

Lemma delete_none t p db :
  t <> TUsers -> (forall x, x ∈ rows (db_rows db) t -> p x = false) ->
  exists db', sql_delete t p db = (db', Ok []) /\ same_rows (db_rows db') (db_rows db).
Proof.
  intros Ht Hnone. destruct (law_delete t p db Ht) as (db' & out & Hrun & Hout & Hs).
  rewrite (js_filter_none p) in Hout, Hs by (by apply Forall_forall).
  rewrite cascade_nil, js_filter_all in Hs.
  2:{ apply Forall_forall. intros x Hx. by rewrite Hnone. }
  apply Permutation_nil_r in Hout as ->. exists db'. split; [done|]. rewrite Hs. intros t'.
  destruct (decide (t = t')) as [->|Hne]; [by rewrite rows_set_eq | by rewrite rows_set_ne].
Qed.

Definition owns_pipeline (db : DB) (userId id : string) : Prop :=
  owns (R := pipeline_resource) (db_rows db) userId id.

(** No row has the id and the owner when the user does not own the id. *)
Lemma not_owned (R : Resource) db id userId x :
  ~ owns (db_rows db) userId id -> x ∈ rows (db_rows db) r_table ->
  (r_id x === id) && (r_owner x === userId) = false.
Proof.
  intros Hn Hx. apply not_true_iff_false. intros Hp. bool_prop. apply Hn. by exists x.
Qed.

(** The visibility of a run: the owner's call succeeds, any other one changes nothing. *)
Lemma setVisibility_refused db now id userId vis :
  keys_ok (db_rows db) -> ~ owns (R := run_resource) (db_rows db) userId id ->
  exists db', setVisibility now id userId vis db = (db', Ok None) /\ same_rows (db_rows db') (db_rows db).
Proof.
  intros Hk Hn. pose proof (fun x => not_owned run_resource db id userId x Hn) as Hnone. simpl in Hnone.
  unfold setVisibility. set (q := fun r : row TRuns => (rn_id r === id) && (rn_ownerId r === userId)) in *.
  destruct (law_update_ok TRuns q (visibility_patch now vis) db Hk) as (db' & out & Hrun).
  { intros x Hx Hp. unfold q in Hp. by rewrite Hnone in Hp. }
  pose proof (update_none TRuns q (visibility_patch now vis) db Hnone) as Hun.
  rewrite Hrun in *. destruct Hun as [-> Hs]. eauto.
Qed.

Lemma setVisibility_owned db now userId vis r :
  keys_ok (db_rows db) -> r ∈ rows (db_rows db) TRuns -> rn_ownerId r = userId ->
  exists db', setVisibility now (rn_id r) userId vis db = (db', Ok (Some (visibility_patch now vis r))) /\
    same_rows (db_rows db') (set_rows TRuns (db_rows db)
      ((fun y => if (rn_id y === rn_id r) && (rn_ownerId y === userId) then visibility_patch now vis y else y)
         <$> rows (db_rows db) TRuns)).
Proof.
  intros Hk Hr Ho. unfold setVisibility.
  set (q := fun y : row TRuns => (rn_id y === rn_id r) && (rn_ownerId y === userId)).
  destruct (update_one TRuns q (visibility_patch now vis) db r) as (db' & Hrun & Hs); [done|done| |done| |].
  - unfold q. by rewrite Ho, !eqb_refl_js.
  - intros y Hy Hq. unfold q in Hq. bool_prop. by apply (row_unique (R := run_resource) db).
  - rewrite Hrun. eauto.
Qed.

(** The owner's [delete] of a pipeline. *)
Lemma pipeline_delete_owned db p :
  keys_ok (db_rows db) -> p ∈ rows (db_rows db) TPipelines ->
  exists db', PipelineRepo.delete (pl_id p) (pl_ownerId p) db = (db', Ok true) /\
    (forall y, y ∈ rows (db_rows db') TPipelines <-> y ∈ rows (db_rows db) TPipelines /\ pl_id y <> pl_id p) /\
    (forall s, s ∈ rows (db_rows db') TPipelineShares <->
       s ∈ rows (db_rows db) TPipelineShares /\ sh_resource s <> pl_id p) /\
    rows (db_rows db') TRuns ≡ₚ unlink_run (fun x => pl_id p === x) <$> rows (db_rows db) TRuns.
Proof.
  intros Hk Hp. set (q := fun y : row TPipelines => (pl_id y === pl_id p) && (pl_ownerId y === pl_ownerId p)).
  assert (Hqp : q p = true) by (unfold q; by rewrite !eqb_refl_js).
  assert (Hu : forall y, y ∈ rows (db_rows db) TPipelines -> q y = true -> y = p).
  { intros y Hy Hq. unfold q in Hq. bool_prop. by apply (row_unique (R := pipeline_resource) db). }
  unfold PipelineRepo.delete. fold q. destruct (law_delete TPipelines q db) as (db' & out & Hrun & Hout & Hs); [done|].
  rewrite Hrun. exists db'. rewrite (filter_one q _ p) in Hout, Hs by
    (done || (eapply distinct_NoDup; [apply (conflict_refl TPipelines)|apply (Hk TPipelines)])).
  apply Permutation_singleton_r in Hout as ->. split; [done|].
  assert (Hdel : forall x, js_some (fun p0 => pl_id p0 === x) [p] = (pl_id p === x))
    by (intros x; simpl; by rewrite orb_false_r).
  split_and!.
  - intros y. rewrite (Hs TPipelines). cbn [cascade].
    rewrite rows_set_ne, rows_set_ne, rows_set_eq by done. rewrite elem_of_js_filter. split.
    + intros [Hq Hy]. split; [done|]. intros Heq.
      assert (y = p) as -> by (by apply (row_unique (R := pipeline_resource) db)). by rewrite Hqp in Hq.
    + intros [Hy Hne]. split; [|done]. unfold q. by rewrite eqb_ne_js.
  - intros s. rewrite (Hs TPipelineShares). cbn [cascade]. rewrite rows_set_ne, rows_set_eq by done.
    unfold shares_kept. rewrite elem_of_js_filter, Hdel, negb_true_iff, bool_decide_eq_false.
    rewrite (rows_set_ne TPipelines TPipelineShares) by done. naive_solver.
  - rewrite (Hs TRuns). cbn [cascade]. rewrite rows_set_eq.
    rewrite (rows_set_ne TPipelines TRuns) by done. apply reflexive_eq, list_fmap_ext. intros i r _.
    unfold unlink_run. destruct (rn_pipelineId r); [|done]. by rewrite Hdel.
Qed.

(** Owner-only writes: [update], [delete] of a pipeline and [setVisibility] of a
    run by anybody but the owner report failure and change no row.  The owner's
    [delete] removes exactly the pipeline, its shares and the links of its runs;
    an [update] that sets neither [id] nor [ownerId] changes exactly the patched
    columns of that row and [updatedAt]. *)
Theorem owner_only_writes db now id userId patch vis :
  keys_ok (db_rows db) ->
  (~ owns_pipeline db userId id ->
     (exists db', PipelineRepo.update now id userId patch db = (db', Ok None) /\ same_rows (db_rows db') (db_rows db)) /\
     (exists db', PipelineRepo.delete id userId db = (db', Ok false) /\ same_rows (db_rows db') (db_rows db))) /\
  (~ owns (R := run_resource) (db_rows db) userId id ->
     exists db', setVisibility now id userId vis db = (db', Ok None) /\ same_rows (db_rows db') (db_rows db)) /\
  (forall p, p ∈ rows (db_rows db) TPipelines -> pl_id p = id -> pl_ownerId p = userId ->
     (pt_id patch = None -> pt_ownerId patch = None ->
      exists db', PipelineRepo.update now id userId patch db = (db', Ok (Some (apply_patch now patch p))) /\
        same_rows (db_rows db') (set_rows TPipelines (db_rows db)
          ((fun y => if (pl_id y === id) && (pl_ownerId y === userId) then apply_patch now patch y else y)
             <$> rows (db_rows db) TPipelines))) /\
     exists db', PipelineRepo.delete id userId db = (db', Ok true) /\
       (forall y, y ∈ rows (db_rows db') TPipelines <-> y ∈ rows (db_rows db) TPipelines /\ pl_id y <> id) /\
       (forall s, s ∈ rows (db_rows db') TPipelineShares <->
          s ∈ rows (db_rows db) TPipelineShares /\ sh_resource s <> id) /\
       rows (db_rows db') TRuns ≡ₚ unlink_run (fun x => id === x) <$> rows (db_rows db) TRuns).
Proof.
  intros Hk. split; [|split].
  - intros Hn. pose proof (fun x => not_owned pipeline_resource db id userId x Hn) as Hnone. simpl in Hnone. split.
    + unfold PipelineRepo.update.
      destruct (law_update_ok TPipelines (fun p => (pl_id p === id) && (pl_ownerId p === userId))
        (apply_patch now patch) db Hk) as (db' & out & Hrun).
      { intros x Hx Hp. by rewrite Hnone in Hp. }
      pose proof (update_none TPipelines (fun p => (pl_id p === id) && (pl_ownerId p === userId))
        (apply_patch now patch) db Hnone) as Hun.
      rewrite Hrun in *. destruct Hun as [-> Hs]. eauto.
    + unfold PipelineRepo.delete. destruct (delete_none TPipelines
        (fun p => (pl_id p === id) && (pl_ownerId p === userId)) db ltac:(done) Hnone) as (db' & Hrun & Hs).
      rewrite Hrun. eauto.
  - intros Hn. by apply setVisibility_refused.
  - intros p Hp <- <-. split; [|by apply pipeline_delete_owned]. intros Hpi Hpo. unfold PipelineRepo.update.
    set (q := fun y : row TPipelines => (pl_id y === pl_id p) && (pl_ownerId y === pl_ownerId p)).
    destruct (update_one TPipelines q (apply_patch now patch) db p) as (db' & Hrun & Hs); [done|done| | | |].
    + unfold q. by rewrite !eqb_refl_js.
    + simpl. by rewrite Hpi, Hpo.
    + intros y Hy Hq. unfold q in Hq. bool_prop. by apply (row_unique (R := pipeline_resource) db).
    + fold q. rewrite Hrun. eauto.
Qed.

(** ** The block registry *)

(** The rows the registry writes have their manifest's id in both key columns. *)
Definition registered (db : DB) : Prop :=
  forall b, b ∈ rows (db_rows db) TBlocks -> bk_id b = bk_name b.

Lemma getByName_unique db name b :
  b ∈ rows (db_rows db) TBlocks -> bk_name b = name ->
  (forall x, x ∈ rows (db_rows db) TBlocks -> bk_name x = name -> x = b) ->
  getByName name db = Some b.
Proof.
  intros Hb Hname Hu. unfold getByName.
  destruct (first_row _) as [x|] eqn:E.
  - apply first_row_Some in E. rewrite elem_select in E. destruct E as [Hx Hin]. bool_prop. f_equal. by apply Hu.
  - rewrite first_row_select_None in E. specialize (E b Hb). simpl in E. by rewrite Hname, eqb_refl_js in E.
Qed.

Lemma block_by_name db a b :
  keys_ok (db_rows db) -> a ∈ rows (db_rows db) TBlocks -> b ∈ rows (db_rows db) TBlocks ->
  bk_name a = bk_name b -> a = b.
Proof.
  intros Hk Ha Hb Heq. apply (distinct_elem (conflict TBlocks) (rows (db_rows db) TBlocks));
    [apply conflict_sym|apply Hk|done|done|]. simpl. rewrite Heq, eqb_refl_js. apply orb_true_r.
Qed.

(** Uploading a block makes it readable by its id with the uploaded manifest
    and label, keeps the creation time of the version it replaces, and changes no
    other block. *)
Lemma upsert_readable db t0 t1 label mf :
  keys_ok (db_rows db) -> registered db ->
  exists db' b, upsert t0 t1 label mf db = (db', Ok b) /\
    getByName (mf_id mf) db' = Some b /\
    bk_manifest b = mf /\ bk_label b = label /\ bk_version b = mf_version mf /\ bk_updatedAt b = t0 /\
    bk_createdAt b = match getByName (mf_id mf) db with Some old => bk_createdAt old | None => t1 end /\
    registered db' /\
    (forall x, bk_name x <> mf_id mf -> x ∈ rows (db_rows db') TBlocks <-> x ∈ rows (db_rows db) TBlocks).
Proof.
  intros Hk Hreg. unfold upsert. set (new := new_block t0 t1 label mf).
  set (target := fun a b : row TBlocks => bk_name a === bk_name b).
  destruct (js_some (fun x => target x new) (rows (db_rows db) TBlocks)) eqn:E.
  - apply js_some_true in E as (old & Hold & Hm). unfold target in Hm. bool_prop. change (bk_name new) with (mf_id mf) in Hm.
    destruct (law_upsert_update TBlocks target new (replace_block new) db old) as (db' & -> & Hs); [done| |done|done| |].
    { intros a b Ha Hb. unfold target in *. bool_prop. simpl. rewrite Ha, Hb, eqb_refl_js. apply orb_true_r. }
    { unfold target. by bool_prop. }
    assert (Hrows : forall x, x ∈ rows (db_rows db') TBlocks <->
      x = replace_block new old \/ x ∈ rows (db_rows db) TBlocks /\ bk_name x <> mf_id mf).
    { intros x. rewrite (Hs TBlocks), rows_set_eq, list_elem_of_fmap. unfold target. split.
      - intros (y & -> & Hy). case_bool_decide as Hn; [left|by right].
        f_equal. apply (block_by_name db); [done..|]. change (bk_name new) with (mf_id mf) in Hn. congruence.
      - intros [->|[Hx Hn]].
        + exists old. split; [|done]. by rewrite bool_decide_eq_true_2.
        + exists x. split; [|done]. by rewrite eqb_ne_js. }
    exists db', (replace_block new old). split; [done|]. rewrite (getByName_unique db _ old) by
      (done || (intros; apply (block_by_name db); [done..|congruence])).
    split_and!; [|done|done|done|done|done| |].
    + apply getByName_unique; [apply Hrows; by left|done|]. intros x [Hx|[_ Hx]]%Hrows Hn; [done|by destruct Hx].
    + intros x [->|[Hx _]]%Hrows; [exact (Hreg old Hold)|by apply Hreg].
    + intros x Hn. rewrite Hrows. split; [|by right]. intros [->|[? _]]; [|done]. by destruct Hn.
  - rewrite law_upsert_insert by done.
    assert (Hfresh : forall x, x ∈ rows (db_rows db) TBlocks -> bk_name x <> mf_id mf).
    { rewrite js_some_false in E. intros x Hx. specialize (E x Hx). unfold target in E. by bool_prop. }
    destruct (law_insert_ok TBlocks new db) as (db' & -> & Hs); [|done|].
    { apply js_some_false. intros x Hx. simpl. pose proof (Hfresh x Hx) as Hn.
      rewrite !eqb_ne_js; [done| |]; [|rewrite (Hreg x Hx)]; congruence. }
    assert (Hrows : forall x, x ∈ rows (db_rows db') TBlocks <-> x ∈ rows (db_rows db) TBlocks \/ x = new).
    { intros x. rewrite (Hs TBlocks), rows_set_eq, elem_of_app, list_elem_of_singleton. done. }
    exists db', new. split; [done|].
    assert (getByName (mf_id mf) db = None) as ->.
    { unfold getByName. rewrite (first_row_select_None TBlocks). intros x Hx. bool_prop. by apply Hfresh. }
    split_and!; [|done|done|done|done|done| |].
    + apply getByName_unique; [apply Hrows; by right|done|]. intros x [Hx|Hx]%Hrows Hn; [|done].
      by destruct (Hfresh x Hx).
    + intros x [Hx| ->]%Hrows; [by apply Hreg|done].
    + intros x Hn. rewrite Hrows. split; [|by left]. intros [?| ->]; [done|by destruct Hn].
Qed.

End Theorems.

(** ** A concrete database *)

Definition demo_user (id email : string) : UserRow := mkUser id email true None None "user" 0 0.
Definition demo_pipeline : PipelineRow := mkPipelineRow "p1" "u1" "demo" None "0.1.0" "yaml" Private 1 1.
Definition demo_run : RunRow :=
  mkRun "r1" (Some "p1") "u1" (Some "demo") "yaml" Queued None Private None None 2 2.
Definition demo_block : BlockRow :=
  mkBlockRow "b" "b" "B" "1" (mkManifest "b" "1" Standard false None None None None) 3 3.

Definition demo : contents :=
  mkContents [demo_user "u1" "a@x"; demo_user "u2" "b@x"] [demo_pipeline]
    [mkShare "p1" "u2" View 1] [demo_run] [] [] [] [] [] [demo_block].

Lemma demo_keys : keys_ok (db_rows demo).
Proof. intros t. destruct t; vm_compute; reflexivity. Defined.

Lemma repository_reads_witness :
  keys_ok (db_rows demo) /\ PipelineRepo.getByIdForUser "p1" "u2" demo = Some demo_pipeline /\
  can_view (R := pipeline_resource) demo "u2" demo_pipeline.
Proof.
  split; [exact demo_keys|]. split; [vm_compute; reflexivity|].
  destruct (repository_reads demo demo_keys) as [[Hget _ _ _] _].
  apply (Hget "p1" "u2" demo_pipeline). vm_compute. reflexivity.
Defined.

Lemma repository_shares_witness :
  keys_ok (db_rows demo) /\
  exists db', RunRepo.share 5 "r1" "u1" "u2" View demo = (db', Ok true) /\
    shared_with (R := run_resource) db' "r1" "u2".
Proof.
  split; [exact demo_keys|].
  destruct (repository_shares demo demo_keys) as (_ & _ & [_ Hgrant] & _ & _).
  destruct (Hgrant 5%Z "r1" "u1" "u2" View) as (db' & Hrun & _ & Hv).
  - exists demo_run. split; [left|]. split; reflexivity.
  - vm_compute. reflexivity.
  - exists db'. split; [exact Hrun|]. apply Hv. right. split; reflexivity.
Defined.

Lemma updateStatus_spec_witness :
  keys_ok (db_rows demo) /\
  exists db' r', updateStatus 10 11 12 "r1" Failed (Some (Some "boom")) demo = (db', Ok (Some r')) /\
    rn_finishedAt r' = Some 12%Z /\ rn_error r' = Some "boom" /\ rn_startedAt r' = None.
Proof.
  split; [exact demo_keys|].
  destruct (updateStatus_spec demo 10 11 12 "r1" Failed (Some (Some "boom")) demo_keys) as [H _].
  destruct (H demo_run) as (db' & r' & Hrun & _ & _ & He & _ & Hs & Hf & _); [left|reflexivity|].
  exists db', r'. split; [exact Hrun|]. split; [exact Hf|]. split; [exact He|exact Hs].
Defined.

Lemma owner_only_writes_witness :
  keys_ok (db_rows demo) /\
  (exists db', PipelineRepo.delete "p1" "u1" demo = (db', Ok true) /\
     rows db' TPipelineShares = [] /\ rn_pipelineId <$> rows db' TRuns = [None]) /\
  exists db', PipelineRepo.delete "p1" "u2" demo = (db', Ok false) /\ same_rows db' demo.
Proof.
  split; [exact demo_keys|]. split.
  - eexists. split; [vm_compute; reflexivity|]. split; vm_compute; reflexivity.
  - destruct (owner_only_writes demo 9 "p1" "u2"
      (mkPipelinePatch None None None None None None None None) Private demo_keys) as [H _].
    apply H. intros (p & Hp & _ & Ho). apply list_elem_of_singleton in Hp as ->. discriminate Ho.
Defined.
