(* ===== verification/Server.v ===== *)
(** * Request handling: the world, errors and authentication

    ([web_ui/server/utils/requireUser.ts] and what the handlers of
    [web_ui/server/api] share.)  A handler reads and writes the [World] and ends
    with a value or an HTTP error; what it did before an error stays done.  The
    packages the handlers call are the fields of [Env]. *)

From S2P Require Export Repositories ShortCodes Validate.

(** ** The environment *)

Class Env := {
  (** package [uuid]: the value of the n-th call of [v7] *)
  uuidv7 : nat -> string;
  (** the value of the n-th reading of the clock *)
  clock : nat -> Z;
  (** package [yaml] *)
  yaml_parse : string -> result string (option Pipeline);
  yaml_stringify : Pipeline -> string;
  (** the S3 client of the runtime: a presigned URL for a method, a key, a MIME type
      and a lifetime; whether deleting a key fails *)
  presign : string -> string -> option string -> Z -> string;
  s3_delete_fails : string -> bool;
  (** the collation of the database *)
  text_le : string -> string -> bool }.

(** The world the handlers act on: the database, the calls of [v7] and of the clock
    so far, and the keys deleted from the object store. *)
Record World (DB : Type) := mkWorld {
  w_db : DB; w_uuids : nat; w_ticks : nat; w_s3_deleted : list string }.
Arguments mkWorld {DB}.
Arguments w_db {DB}. Arguments w_uuids {DB}. Arguments w_ticks {DB}. Arguments w_s3_deleted {DB}.

(** [createError({ statusCode, statusMessage })], or an exception nobody catches. *)
Inductive HttpError :=
  | Http (statusCode : Z) (statusMessage : string)
  | Uncaught (message : string).

(** The part of the session's user the handlers read. *)
Record SessionUser := mkSessionUser { u_id : string; u_role : string }.

Section Server.
Context {DB : Type} `{Sql DB} {env : Env}.

Abbreviation Handler := (M (World DB) HttpError).

(** [new Date()] and the column defaults *)
Definition now : Handler Z := fun w =>
  (mkWorld (w_db w) (w_uuids w) (S (w_ticks w)) (w_s3_deleted w), Ok (clock (w_ticks w))).

(** [v7()] *)
Definition v7 : Handler string := fun w =>
  (mkWorld (w_db w) (S (w_uuids w)) (w_ticks w) (w_s3_deleted w), Ok (uuidv7 (w_uuids w))).

Definition read {A} (f : DB -> A) : Handler A := fun w => (w, Ok (f (w_db w))).

(** An error of the database is an exception no handler catches. *)
Definition write {A} (op : DB -> DB * result string A) : Handler A := fun w =>
  let '(db', r) := op (w_db w) in
  (mkWorld db' (w_uuids w) (w_ticks w) (w_s3_deleted w),
   match r with Ok a => Ok a | Throw e => Throw (Uncaught e) end).

(** [if (!v) throw createError(...)] on a value that may be absent *)
Definition orThrow {A} (e : HttpError) (o : option A) : Handler A :=
  match o with Some a => mret a | None => throw e end.

Definition guard_http (b : bool) (e : HttpError) : Handler unit := if b then mret tt else throw e.

(** [session] is the session of the request's headers, from package [better-auth]. *)
Definition requireUser (session : option SessionUser) : Handler SessionUser :=
  orThrow (Http 401 "Not authenticated") session.

Definition getUserOrNull (session : option SessionUser) : option SessionUser := session.

(** [getRouterParam(event, "id")] and the check that follows it. *)
Definition routerId (message : string) (id : option string) : Handler string :=
  match id with
  | Some s => if truthy s then mret s else throw (Http 400 message)
  | None => throw (Http 400 message)
  end.

(** The target of a share: the user with the e-mail of the body. *)
Definition findUser (email : string) (db : DB) : option UserRow :=
  first_row (sql_select TUsers (fun u => us_email u === email) db).

(** Reading the short codes of a document: the calls of [v7] it makes are counted. *)
Definition resolve_document (parsed : option Pipeline) : Handler Pipeline := fun w =>
  match parsed with
  | None => (w, Throw (Uncaught "TypeError"))
  | Some p =>
      let '(n, r) := resolveShortCodes uuidv7 p (w_uuids w) in
      (mkWorld (w_db w) n (w_ticks w) (w_s3_deleted w),
       match r with
       | Ok p' => Ok p'
       | Throw (PipelineIdIsShortCode m) => Throw (Uncaught m)
       | Throw MissingArray => Throw (Uncaught "TypeError")
       end)
  end.

Definition error_message (e : HttpError) : string :=
  match e with Http _ m => m | Uncaught m => m end.

(** The checks both upload endpoints run on a document: parse, resolve, validate. *)
Definition accept_document (yaml : string) : Handler Pipeline :=
  parsed ← match yaml_parse yaml with
           | Ok v => mret v
           | Throw e => throw (Http 400 ("Invalid YAML: " +:+ e))
           end;
  resolved ← try_catch (resolve_document parsed)
               (fun e => throw (Http 400 ("Pipeline invalid: " +:+ error_message e)));
  match validatePipeline resolved None with
  | Valid => mret resolved
  | Invalid errors => throw (Http 400 ("Pipeline invalid: " +:+ js_join "; " errors))
  end.
End Server.

(** ** Lemmas *)

Section Lemmas.
Context {DB : Type} `{SqlLaws DB} {env : Env}.

(** An accepted document is the resolution of a parsed one, and passed validation;
    nothing but the UUID counter has changed. *)
Lemma accept_document_spec yaml (w w' : World DB) r :
  accept_document yaml w = (w', r) ->
  w_db w' = w_db w /\ w_ticks w' = w_ticks w /\ w_s3_deleted w' = w_s3_deleted w /\
  match r with
  | Ok p => exists doc, yaml_parse yaml = Ok (Some doc) /\
      resolveShortCodes uuidv7 doc (w_uuids w) = (w_uuids w', Ok p) /\ validatePipeline p None = Valid
  | Throw e => exists m, e = Http 400 m
  end.
Proof.
  unfold accept_document. rewrite run_bind.
  destruct (yaml_parse yaml) as [parsed|e] eqn:Hparse.
  2:{ unfold throw. intros Heq. simplify_eq. eauto 6. }
  rewrite run_ret, run_bind. unfold try_catch, resolve_document.
  destruct parsed as [doc|]; [|unfold throw; intros Heq; simplify_eq; eauto 6].
  destruct (resolveShortCodes uuidv7 doc (w_uuids w)) as [n [p|e]] eqn:Hres.
  - destruct (validatePipeline p None) as [|errors] eqn:Hv; unfold mret, M_ret, throw; intros Heq; simplify_eq/=.
    + split_and!; eauto.
    + eauto 6.
  - destruct e; unfold throw; intros Heq; simplify_eq/=; eauto 6.
Qed.

(** A document that is well formed is accepted. *)
Lemma accept_document_accepts yaml doc (w : World DB) n p :
  yaml_parse yaml = Ok (Some doc) -> resolveShortCodes uuidv7 doc (w_uuids w) = (n, Ok p) ->
  validatePipeline p None = Valid ->
  accept_document yaml w = (mkWorld (w_db w) n (w_ticks w) (w_s3_deleted w), Ok p).
Proof.
  intros Hparse Hres Hv. unfold accept_document. rewrite run_bind, Hparse, run_ret, run_bind.
  unfold try_catch, resolve_document. by rewrite Hres, Hv.
Qed.
End Lemmas.
