(* ===== verification/Steps.v ===== *)
(** * Running handlers: what the steps of a handler do to the world *)

From S2P Require Export Server.

(** ** Running handlers symbolically *)

Section Steps.
Context {DB : Type} `{Sql DB} {env : Env}.
Implicit Types w : World DB.

Lemma run_requireUser_inv session w w' user :
  requireUser session w = (w', Ok user) -> session = Some user /\ w' = w.
Proof. unfold requireUser, orThrow. destruct session; unfold mret, M_ret, throw; intros; by simplify_eq. Qed.

Lemma run_orThrow_inv {A} e (o : option A) w w' a :
  orThrow e o w = (w', Ok a) -> o = Some a /\ w' = w.
Proof. unfold orThrow. destruct o; unfold mret, M_ret, throw; intros; by simplify_eq. Qed.

Lemma run_routerId_inv m id w w' s :
  routerId m id w = (w', Ok s) -> id = Some s /\ truthy s = true /\ w' = w.
Proof.
  unfold routerId. destruct id as [s0|]; [destruct (truthy s0) eqn:E|];
    unfold mret, M_ret, throw; intros; by simplify_eq.
Qed.

Lemma run_guard_inv b e w w' u : guard_http b e w = (w', Ok u) -> b = true /\ w' = w.
Proof. unfold guard_http. destruct b; unfold mret, M_ret, throw; intros; by simplify_eq. Qed.
End Steps.

(** Steps that leave the database alone, however they end. *)
Definition PureStep {DB A} (m : M (World DB) HttpError A) : Prop :=
  forall w w' r, m w = (w', r) -> w_db w' = w_db w /\ w_s3_deleted w' = w_s3_deleted w.

Section Pure.
Context {DB : Type} `{SqlLaws DB} {env : Env}.

Lemma pure_ret {A} (a : A) : PureStep (mret a : M (World DB) HttpError A).
Proof. intros w w' r Hr. by injection Hr as <- _. Qed.
Lemma pure_throw {A} e : PureStep (throw e : M (World DB) HttpError A).
Proof. intros w w' r Hr. by injection Hr as <- _. Qed.
Lemma pure_bind {A B} (m : M (World DB) HttpError A) (k : A -> M (World DB) HttpError B) :
  PureStep m -> (forall a, PureStep (k a)) -> PureStep (m ≫= k).
Proof.
  intros Hm Hk w w' r. rewrite run_bind. destruct (m w) as [w1 [a|e]] eqn:E; intros Hr.
  - destruct (Hm w w1 _ E) as [<- <-]. by eapply Hk.
  - injection Hr as <- _. by eapply Hm.
Qed.
Lemma pure_orThrow {A} e (o : option A) : PureStep (orThrow e o : M (World DB) HttpError A).
Proof. destruct o; [apply pure_ret | apply pure_throw]. Qed.
Lemma pure_guard b e : PureStep (guard_http b e : M (World DB) HttpError unit).
Proof. destruct b; [apply pure_ret | apply pure_throw]. Qed.
Lemma pure_requireUser s : PureStep (requireUser s : M (World DB) HttpError SessionUser).
Proof. apply pure_orThrow. Qed.
Lemma pure_routerId m id : PureStep (routerId m id : M (World DB) HttpError string).
Proof. destruct id as [s|]; simpl; [destruct (truthy s)|]; (apply pure_ret || apply pure_throw). Qed.
Lemma pure_read {A} (f : DB -> A) : PureStep (read f).
Proof. intros w w' r Hr. by injection Hr as <- _. Qed.
Lemma pure_now : PureStep (now : M (World DB) HttpError Z).
Proof. intros w w' r Hr. by injection Hr as <- _. Qed.
Lemma pure_v7 : PureStep (v7 : M (World DB) HttpError string).
Proof. intros w w' r Hr. by injection Hr as <- _. Qed.
Lemma pure_accept y : PureStep (accept_document y : M (World DB) HttpError Pipeline).
Proof. intros w w' r Hr. by apply accept_document_spec in Hr as (? & _ & ? & _). Qed.

(** Shape of [write] followed by nothing. *)
Lemma run_write_inv {A} (op : DB -> DB * result string A) w w' r :
  write op w = (w', r) ->
  exists db' o, op (w_db w) = (db', o) /\ w_db w' = db' /\
    match o with Ok a => r = Ok a | Throw e => r = Throw (Uncaught e) end.
Proof.
  unfold write. destruct (op (w_db w)) as [db' o] eqn:E. intros Heq. simplify_eq.
  exists db', o. split; [done|]. split; [done|]. by destruct o.
Qed.

Lemma insert_outcome t (r : row t) (db : DB) :
  (exists db', sql_insert t r db = (db', Ok r) /\
     same_rows (db_rows db') (set_rows t (db_rows db) (rows (db_rows db) t ++ [r]))) \/
  (exists e, sql_insert t r db = (db, Throw e)).
Proof.
  destruct (js_some (conflict t r) (rows (db_rows db) t)) eqn:Hc.
  { right. apply law_insert_error. by left. }
  destruct (refs_ok (db_rows db) t r) eqn:Hr.
  - left. by apply law_insert_ok.
  - right. apply law_insert_error. by right.
Qed.
End Pure.

#[export] Hint Resolve pure_ret pure_throw pure_orThrow pure_guard pure_requireUser pure_routerId
  pure_read pure_now pure_v7 pure_accept : spade.

Ltac pure_step := repeat first
  [ progress (auto with spade) | apply pure_bind; [|intros ?] | case_match ].

