(* ===== verification/RunsApi.v ===== *)
(** * The run endpoints ([web_ui/server/api/runs]) *)

From S2P Require Export Server Uri.
From Stdlib Require Import Ascii.

Section Runs.
Context {DB : Type} `{Sql DB} {env : Env}.
Abbreviation Handler := (M (World DB) HttpError).

(** ** [POST /api/runs] *)

Record SubmitBody := mkSubmitBody {
  sb_pipelineId : option string; sb_yaml : option string; sb_name : option string }.

(** The YAML, the name and the pipeline of the submission. *)
Definition submit_source (user : SessionUser) (body : option SubmitBody)
    : Handler (string * option string * option string) :=
  let name := body ≫= sb_name in
  if otruthy (body ≫= sb_pipelineId) then
    found ← read (PipelineRepo.getByIdForUser ((body ≫= sb_pipelineId) ⁇ "") (u_id user));
    pipeline ← orThrow (Http 404 "Pipeline not found") found;
    mret (pl_yaml pipeline, Some (name ⁇ pl_name pipeline), Some (pl_id pipeline))
  else if otruthy (body ≫= sb_yaml) then mret ((body ≫= sb_yaml) ⁇ "", name, None)
  else throw (Http 400 "pipelineId or yaml is required").

Definition submit (session : option SessionUser) (body : option SubmitBody) : Handler RunRow :=
  user ← requireUser session;
  source ← submit_source user body;
  let '(yaml, name, pipelineId) := source in
  resolved ← accept_document yaml;
  let resolvedYaml := yaml_stringify resolved in
  runId ← match p_id resolved with Some id => mret id | None => v7 end;
  time ← now;
  write (RunRepo.create time
    (mkNewRun runId pipelineId (u_id user)
       (match name with Some n => Some n | None => p_name resolved end)
       resolvedYaml Queued Private)).

(** ** Reading runs *)

Definition list_runs (session : option SessionUser) (scope : option string) : Handler (list RunRow) :=
  user ← requireUser session;
  let scope := scope ⁇ "mine" in
  if scope === "shared" then read (RunRepo.listSharedWith (u_id user))
  else if scope === "public" then read RunRepo.listPublic
  else read (RunRepo.listOwnedBy (u_id user)).

Definition get_run (session : option SessionUser) (id : option string) : Handler RunWithDetails :=
  user ← requireUser session;
  id ← routerId "Missing id" id;
  found ← read (RunRepo.getWithDetails text_le id (u_id user));
  orThrow (Http 404 "Not found") found.

(** What the file endpoint answers: a redirect or a description with the URL. *)
Inductive FileResponse :=
  | Redirect (url : string)
  | FileUrl (url name : string) (mimeType : option string) (sizeBytes : option Z).

(** The name is decoded here: the router does not decode its parameters. *)
Definition get_file (session : option SessionUser)
    (id name redirect : option string) : Handler FileResponse :=
  user ← requireUser session;
  if negb (otruthy id && otruthy name) then throw (Http 400 "Missing id or name")
  else
    let id := id ⁇ "" in
    run ← read (RunRepo.getByIdForUser id (u_id user));
    _ ← orThrow (Http 404 "Not found") run;
    decoded ← match decodeURIComponent (name ⁇ "") with Ok s => mret s | Throw e => throw (Uncaught e) end;
    found ← read (RunRepo.getFile id decoded);
    file ← orThrow (Http 404 "File not found") found;
    let url := presign "GET" (rf_s3Key file) None (60 * 10) in
    mret (if otruthy redirect then Redirect url
          else FileUrl url (rf_name file) (rf_mimeType file) (rf_sizeBytes file)).

(** *** The archive *)

(** [name.lastIndexOf(".")], with the text before the last dot and the text from it on. *)
Fixpoint split_dot (s : string) : option (string * string) :=
  match s with
  | EmptyString => None
  | String c s' =>
      match split_dot s' with
      | Some (stem, ext) => Some (String c stem, ext)
      | None => if c === "."%char then Some ("", s) else None
      end
  end.

Definition numbered (name : string) (n : nat) : string :=
  match split_dot name with
  | Some (String c stem, ext) => String c stem +:+ "_" +:+ pretty n +:+ ext
  | _ => name +:+ "_" +:+ pretty n
  end.

(** The closure [entryName] and its map [seen]. *)
Definition entryName (seen : jsmap nat) (name : string) : jsmap nat * string :=
  let n := jm_get name seen ⁇ 0 in
  (jm_set name (S n) seen, if n === 0 then name else numbered name n).

Fixpoint entry_names (seen : jsmap nat) (l : list RunFileRow) : list (string * string) :=
  match l with
  | [] => []
  | f :: l' =>
      let '(seen', name) := entryName seen (rf_name f) in
      (name, rf_s3Key f) :: entry_names seen' l'
  end.

(** The entries (name and key) of the archive that is streamed. *)
Definition get_zip (session : option SessionUser) (id : option string) : Handler (list (string * string)) :=
  user ← requireUser session;
  id ← routerId "Missing id" id;
  found ← read (RunRepo.getWithDetails text_le id (u_id user));
  run ← orThrow (Http 404 "Not found") found;
  _ ← guard_http (bool_decide (files run <> [])) (Http 404 "No files to download");
  mret (entry_names [] (files run)).

(** ** Writing runs *)

Definition put_run (session : option SessionUser) (id : option string) (visibility : option Visibility)
    : Handler RunRow :=
  user ← requireUser session;
  id ← routerId "Missing id" id;
  visibility ← orThrow (Http 400 "visibility required") visibility;
  time ← now;
  row ← write (RunRepo.setVisibility time id (u_id user) visibility);
  orThrow (Http 403 "Not your run") row.

Definition share_run (session : option SessionUser) (id email : option string)
    (permission : option Permission) : Handler unit :=
  user ← requireUser session;
  id ← routerId "Missing id" id;
  if negb (otruthy email) then throw (Http 400 "email required")
  else
    found ← read (findUser (email ⁇ ""));
    target ← orThrow (Http 404 "No user with that email") found;
    time ← now;
    ok ← write (RunRepo.share time id (u_id user) (us_id target) (permission ⁇ View));
    guard_http ok (Http 403 "Not your run").

Definition unshare_run (session : option SessionUser) (id userId : option string) : Handler unit :=
  user ← requireUser session;
  id ← routerId "Missing id" id;
  let userId := userId ⁇ "" in
  if negb (truthy userId) then throw (Http 400 "userId query param required")
  else
    ok ← write (RunRepo.unshare id (u_id user) userId);
    guard_http ok (Http 403 "Not your run").

(** ** The worker's callback ([PATCH /api/runs/:id]) *)

Record FileEntry := mkFileEntry {
  fe_name : option string; fe_s3Key : option string; fe_blockId : option string;
  fe_mimeType : option string; fe_sizeBytes : option Z }.
Record LogEntry := mkLogEntry {
  le_blockId : option string; le_stdout : option string; le_stderr : option string }.
Record PatchBody := mkPatchBody {
  pb_status : option RunStatus; pb_error : option string;
  pb_files : option (list (option FileEntry)); pb_logs : option (list (option LogEntry)) }.

(** [\s] on the bytes of a header *)
Definition is_space (c : ascii) : bool :=
  let n := nat_of_ascii c in
  bool_decide (9 <= n <= 13) || (n === 32) || (n === 160).

Fixpoint skip_spaces (s : string) : string :=
  match s with
  | String c s' => if is_space c then skip_spaces s' else s
  | EmptyString => EmptyString
  end.

(** Case-insensitive match of a lower-case word at the start; the rest of the text. *)
Fixpoint match_ci (word s : string) : option string :=
  match word, s with
  | EmptyString, _ => Some s
  | String a word', String c s' => if lower c === a then match_ci word' s' else None
  | _, EmptyString => None
  end.

(** [auth.replace(/^Bearer\s+/i, "")] *)
Definition strip_bearer (auth : string) : string :=
  match match_ci "bearer" auth with
  | Some (String c rest) => if is_space c then skip_spaces rest else auth
  | _ => auth
  end.

Definition append_entry (id : string) (file : option FileEntry) : Handler unit :=
  match file with
  | Some f =>
      if otruthy (fe_name f) && otruthy (fe_s3Key f) then
        fileId ← v7;
        time ← now;
        _ ← write (RunRepo.appendFile time fileId
               (mkNewRunFile None id (fe_blockId f) (fe_name f ⁇ "") (fe_mimeType f)
                  (fe_sizeBytes f) (fe_s3Key f ⁇ "")));
        mret tt
      else mret tt
  | None => mret tt
  end.

(** A [null] entry makes [log.blockId] throw. *)
Definition append_log (id : string) (log : option LogEntry) : Handler unit :=
  match log with
  | Some l =>
      logId ← v7;
      time ← now;
      _ ← write (RunRepo.appendLog time logId
             (mkNewRunLog None id (le_blockId l) (le_stdout l) (le_stderr l)));
      mret tt
  | None => throw (Uncaught "TypeError")
  end.

(** [configured] and [env_secret] are the secret of the runtime configuration and
    of the environment variable; [auth] is the authorization header. *)
Definition patch_run (configured env_secret auth : option string) (id : option string)
    (body : option PatchBody) : Handler unit :=
  let expected := js_or (configured ⁇ "") (js_or (env_secret ⁇ "") "") in
  _ ← guard_http (truthy expected) (Http 503 "Worker callback secret not configured");
  let token := strip_bearer (auth ⁇ "") in
  _ ← guard_http (token === expected) (Http 401 "Unauthorized");
  id ← routerId "Missing id" id;
  existing ← read (RunRepo.getById id);
  _ ← orThrow (Http 404 "Run not found") existing;
  _ ← forM ((body ≫= pb_files) ⁇ []) (append_entry id);
  _ ← forM ((body ≫= pb_logs) ⁇ []) (append_log id);
  match body ≫= pb_status with
  | Some status =>
      t0 ← now; t1 ← now; t2 ← now;
      _ ← write (RunRepo.updateStatus t0 t1 t2 id status (Some <$> (body ≫= pb_error)));
      mret tt
  | None => mret tt
  end.
End Runs.
