(* ===== verification/RunsSpec.v ===== *)
(** * What the run endpoints guarantee *)

From S2P Require Export RunsApi Steps.
From Stdlib Require Import Ascii.

(** ** Submitting a run *)

Section Submit.
Context {DB : Type} `{SqlLaws DB} {env : Env}.
Implicit Types w : World DB.

Lemma submit_source_pure user body : PureStep (submit_source user body : M (World DB) HttpError _).
Proof. unfold submit_source. pure_step. Qed.

(** The text a submission runs: a pipeline the user may see, or the body's own. *)
Definition source_of (db : DB) (user : SessionUser) (body : option SubmitBody) (yaml : string)
    (pipelineId : option string) : Prop :=
  (exists pl, (body ≫= sb_pipelineId) = Some (pl_id pl) /\ pl ∈ rows (db_rows db) TPipelines /\
     can_view (R := pipeline_resource) (db_rows db) (u_id user) pl /\
     yaml = pl_yaml pl /\ pipelineId = Some (pl_id pl)) \/
  ((body ≫= sb_yaml) = Some yaml /\ pipelineId = None).

Lemma submit_source_spec user body w w' yaml name pid :
  keys_ok (db_rows (w_db w)) ->
  submit_source user body w = (w', Ok (yaml, name, pid)) -> w' = w /\ source_of (w_db w) user body yaml pid.
Proof.
  intros Hk. unfold submit_source. destruct (otruthy (body ≫= sb_pipelineId)) eqn:Hp.
  - destruct (body ≫= sb_pipelineId) as [id|] eqn:Hid; [|done]. cbn [default].
    intros Hrun. apply run_bind_Ok_inv in Hrun as (w1 & found & Hread & Hrun). injection Hread as <- <-.
    apply run_bind_Ok_inv in Hrun as (w1 & pl & Hget0 & Hrun). apply run_orThrow_inv in Hget0 as [E ->].
    unfold mret, M_ret in Hrun. simplify_eq. split; [done|]. left.
    destruct (pipeline_reads _ Hk) as [Hget _ _ _]. apply Hget in E as (? & Hpid & ?). simpl in Hpid.
    exists pl. split_and!; solve [done | congruence].
  - destruct (otruthy (body ≫= sb_yaml)) eqn:Hy; [|done].
    destruct (body ≫= sb_yaml) as [y|] eqn:Hyaml; [|done]. intros Heq. unfold mret, M_ret in Heq. simplify_eq.
    split; [done|]. by right.
Qed.

(** The effect of a submission, as the other theorems use it. *)
Lemma submit_effect session body w w' res :
  keys_ok (db_rows (w_db w)) ->
  submit session body w = (w', res) ->
  match res with
  | Throw _ => w_db w' = w_db w
  | Ok r => exists user yaml doc resolved n,
      session = Some user /\ source_of (w_db w) user body yaml (rn_pipelineId r) /\
      yaml_parse yaml = Ok (Some doc) /\ resolveShortCodes uuidv7 doc (w_uuids w) = (n, Ok resolved) /\
      validatePipeline resolved None = Valid /\
      rn_id r = p_id resolved ⁇ uuidv7 n /\ rn_yaml r = yaml_stringify resolved /\
      rn_ownerId r = u_id user /\ rn_status r = Queued /\ rn_visibility r = Private /\
      same_rows (db_rows (w_db w'))
        (set_rows TRuns (db_rows (w_db w)) (rows (db_rows (w_db w)) TRuns ++ [r]))
  end.
Proof.
  intros Hk. unfold submit. rewrite run_bind. unfold requireUser, orThrow.
  destruct session as [user|]; [|unfold throw; intros Heq; by simplify_eq]. rewrite run_ret, run_bind.
  destruct (submit_source user body w) as [w1 [[[yaml name] pid]|e]] eqn:Hsrc.
  2:{ intros Heq. simplify_eq. by eapply (submit_source_pure user body). }
  apply submit_source_spec in Hsrc as [-> Hsrc]; [|done]. rewrite run_bind.
  destruct (accept_document yaml w) as [w1 [resolved|e]] eqn:Hacc;
    apply accept_document_spec in Hacc as (Hdb1 & _ & _ & Hacc); [|intros Heq; by simplify_eq].
  destruct Hacc as (doc & Hparse & Hres & Hvalid). rewrite run_bind.
  assert (exists w2 runId, (match p_id resolved with Some id => mret id | None => v7 end) w1 = (w2, Ok runId) /\
    w_db w2 = w_db w /\ runId = p_id resolved ⁇ uuidv7 (w_uuids w1)) as (w2 & runId & -> & Hdb2 & Hid).
  { destruct (p_id resolved); simpl; eauto. }
  rewrite run_bind. unfold now. unfold write, RunRepo.create. cbn [w_db].
  rewrite Hdb2.
  match goal with |- context [sql_insert TRuns ?r _] => set (r0 := r) end.
  destruct (insert_outcome TRuns r0 (w_db w)) as [(db' & -> & Hs)|(e & ->)]; intros Heq; simplify_eq/=.
  - exists user, yaml, doc, resolved, (w_uuids w1). split_and!; done.
  - done.
Qed.

(** C4. What a submission does.  Without an accepted request nothing is written:
    every failure leaves the database unchanged.  A success adds exactly one run
    and nothing else: it belongs to the caller, is queued and private, and its
    YAML is the text of the resolved document: the submitted text, or the text of
    a saved pipeline the caller may see, parsed, its short codes resolved, and
    accepted by validation; the id is the document's, or a fresh one. *)
Theorem submit_spec session body w w' res :
  keys_ok (db_rows (w_db w)) ->
  submit session body w = (w', res) ->
  match res with
  | Throw _ => w_db w' = w_db w
  | Ok r => exists user yaml doc resolved n,
      session = Some user /\ source_of (w_db w) user body yaml (rn_pipelineId r) /\
      yaml_parse yaml = Ok (Some doc) /\ resolveShortCodes uuidv7 doc (w_uuids w) = (n, Ok resolved) /\
      validatePipeline resolved None = Valid /\
      rn_id r = p_id resolved ⁇ uuidv7 n /\ rn_yaml r = yaml_stringify resolved /\
      rn_ownerId r = u_id user /\ rn_status r = Queued /\ rn_visibility r = Private /\
      same_rows (db_rows (w_db w'))
        (set_rows TRuns (db_rows (w_db w)) (rows (db_rows (w_db w)) TRuns ++ [r]))
  end.
Proof. apply submit_effect. Qed.

(** A valid document sent by a known user is accepted exactly when no run has
    its id yet: a document without an id (and a generator that is fresh) always is,
    one that names its id is accepted once, the second submission fails on the
    primary key. *)
Theorem submit_accepts user yaml name doc resolved n w :
  truthy yaml = true -> yaml_parse yaml = Ok (Some doc) ->
  resolveShortCodes uuidv7 doc (w_uuids w) = (n, Ok resolved) ->
  validatePipeline resolved None = Valid -> has_user (db_rows (w_db w)) (u_id user) = true ->
  (exists w' r, submit (Some user) (Some (mkSubmitBody None (Some yaml) name)) w = (w', Ok r)) <->
  (forall r, r ∈ rows (db_rows (w_db w)) TRuns -> rn_id r <> p_id resolved ⁇ uuidv7 n).
Proof.
  intros Hy Hparse Hres Hvalid Huser. unfold submit. rewrite run_bind. simpl requireUser. rewrite run_ret, run_bind.
  unfold submit_source. simpl. rewrite Hy, run_ret, run_bind.
  rewrite (accept_document_accepts yaml doc w n resolved) by done. rewrite run_bind.
  assert (exists w2, (match p_id resolved with Some id => mret id | None => v7 end)
    (mkWorld (w_db w) n (w_ticks w) (w_s3_deleted w)) = (w2, Ok (p_id resolved ⁇ uuidv7 n)) /\ w_db w2 = w_db w)
    as (w2 & -> & Hdb2) by (destruct (p_id resolved); simpl; eauto).
  rewrite run_bind. unfold now, write, RunRepo.create. cbn [w_db]. rewrite Hdb2.
  match goal with |- context [sql_insert TRuns ?r _] => set (r0 := r) end.
  split.
  - intros (w' & r & Hrun) x Hx Hid. destruct (law_insert_error TRuns r0 (w_db w)) as [e He].
    { left. apply js_some_true. exists x. split; [done|]. simpl. bool_prop. by rewrite Hid. }
    rewrite He in Hrun. done.
  - intros Hfresh. destruct (law_insert_ok TRuns r0 (w_db w)) as (db' & -> & _); [| |eauto].
    + apply js_some_false. intros x Hx. simpl. bool_prop. intros Heq. by apply (Hfresh x Hx).
    + simpl. by rewrite Huser.
Qed.
End Submit.

(** ** The worker's callback *)

Section Patch.
Context {DB : Type} `{SqlLaws DB} {env : Env}.
Implicit Types w : World DB.

Definition patch_secret (configured env_secret : option string) : string :=
  js_or (configured ⁇ "") (js_or (env_secret ⁇ "") "").

(** C10. The callback is closed by default: without a configured secret it answers
    503, with a token that is not the secret 401, and in both cases, as for a
    missing id (400) and an unknown run (404), nothing is written. *)
Theorem patch_refused configured env_secret auth id body w :
  let secret := patch_secret configured env_secret in
  (secret = "" -> patch_run configured env_secret auth id body w =
     (w, Throw (Http 503 "Worker callback secret not configured"))) /\
  (secret <> "" -> strip_bearer (auth ⁇ "") <> secret ->
   patch_run configured env_secret auth id body w = (w, Throw (Http 401 "Unauthorized"))) /\
  (secret <> "" -> strip_bearer (auth ⁇ "") = secret -> otruthy id = false ->
   patch_run configured env_secret auth id body w = (w, Throw (Http 400 "Missing id"))) /\
  (secret <> "" -> strip_bearer (auth ⁇ "") = secret -> otruthy id = true ->
   (forall r, r ∈ rows (db_rows (w_db w)) TRuns -> rn_id r <> id ⁇ "") ->
   patch_run configured env_secret auth id body w = (w, Throw (Http 404 "Run not found"))).
Proof.
  intros secret. unfold patch_run. fold (patch_secret configured env_secret). fold secret.
  assert (Ht : secret <> "" -> truthy secret = true) by apply truthy_spec.
  split; [|split; [|split]].
  - intros ->. done.
  - intros Hs Hne. rewrite (Ht Hs), (eqb_ne_js _ _ Hne). done.
  - intros Hs Heq Hid. rewrite (Ht Hs), Heq, eqb_refl_js. simpl.
    destruct id as [i|]; [|done]. simpl in Hid. unfold routerId. by rewrite Hid.
  - intros Hs Heq Hid Hnone. rewrite (Ht Hs), Heq, eqb_refl_js. simpl.
    destruct id as [i|]; [|done]. simpl in Hid, Hnone. unfold routerId. rewrite Hid.
    assert (Hget : RunRepo.getById i (w_db w) = None).
    { unfold RunRepo.getById. rewrite (first_row_select_None TRuns). intros x Hx. bool_prop. by apply Hnone. }
    unfold mbind, M_bind, mret, M_ret, read. by rewrite Hget.
Qed.

(** What the callback's inserts rely on: the run is there and generated ids are new. *)
Record patchable (id : string) (w : World DB) : Prop := {
  pa_keys : keys_ok (db_rows (w_db w));
  pa_run : has_run (db_rows (w_db w)) id = true;
  pa_fresh : forall k, w_uuids w <= k ->
    (forall f, f ∈ rows (db_rows (w_db w)) TRunFiles -> rf_id f <> uuidv7 k) /\
    (forall l, l ∈ rows (db_rows (w_db w)) TRunLogs -> rl_id l <> uuidv7 k) }.

(** The loops over the entries of the body: one row per entry that is kept. *)
Lemma forM_append {A} t (keep : A -> bool) (R : A -> row t -> Prop) (body : A -> M (World DB) HttpError unit) id :
  forall l, (forall e w, e ∈ l -> patchable id w ->
     exists w', body e w = (w', Ok tt) /\ patchable id w' /\
       if keep e then exists r, R e r /\
         same_rows (db_rows (w_db w')) (set_rows t (db_rows (w_db w)) (rows (db_rows (w_db w)) t ++ [r]))
       else same_rows (db_rows (w_db w')) (db_rows (w_db w))) ->
  forall w, patchable id w ->
  exists w' news, forM l body w = (w', Ok tt) /\ patchable id w' /\ Forall2 R (js_filter keep l) news /\
    same_rows (db_rows (w_db w')) (set_rows t (db_rows (w_db w)) (rows (db_rows (w_db w)) t ++ news)).
Proof.
  induction l as [|e l IH]; intros Hbody w Hw.
  { exists w, []. split_and!; [done|done|constructor|]. rewrite app_nil_r. intros t'.
    destruct (decide (t = t')) as [->|Hne]; [by rewrite rows_set_eq | by rewrite rows_set_ne]. }
  destruct (Hbody e w (list_elem_of_here e l) Hw) as (w1 & Hrun & Hw1 & Hrow).
  destruct (IH (fun e' w0 He => Hbody e' w0 (list_elem_of_further e' e l He)) w1 Hw1) as (w' & news & Hrest & Hw' & HR & Hs).
  simpl. rewrite run_bind, Hrun, Hrest. rewrite js_filter_cons. destruct (keep e).
  - destruct Hrow as (r & Hr & Hs1). exists w', (r :: news). split_and!; [done|done|by constructor|].
    rewrite Hs. intros t'. destruct (decide (t = t')) as [->|Hne].
    + rewrite !rows_set_eq, (Hs1 t'), rows_set_eq. by rewrite <-app_assoc.
    + rewrite !rows_set_ne, (Hs1 t'), rows_set_ne by done. done.
  - exists w', news. split_and!; [done|done|done|]. rewrite Hs. apply set_rows_proper; [done|]. by rewrite (Hrow t).
Qed.

Context (Hinj : forall i j, uuidv7 i = uuidv7 j -> i = j).

Definition file_row (id : string) (e : option FileEntry) (r : RunFileRow) : Prop :=
  exists f, e = Some f /\ rf_runId r = id /\ fe_name f = Some (rf_name r) /\ fe_s3Key f = Some (rf_s3Key r) /\
    rf_blockId r = fe_blockId f /\ rf_mimeType r = fe_mimeType f /\ rf_sizeBytes r = fe_sizeBytes f.

Definition keep_file (e : option FileEntry) : bool :=
  match e with Some f => otruthy (fe_name f) && otruthy (fe_s3Key f) | None => false end.

Lemma append_entry_step id e w :
  patchable id w ->
  exists w', append_entry id e w = (w', Ok tt) /\ patchable id w' /\
    if keep_file e then exists r, file_row id e r /\
      same_rows (db_rows (w_db w'))
        (set_rows TRunFiles (db_rows (w_db w)) (rows (db_rows (w_db w)) TRunFiles ++ [r]))
    else same_rows (db_rows (w_db w')) (db_rows (w_db w)).
Proof.
  intros Hw. destruct Hw as [Hk Hr Hf]. unfold append_entry, keep_file. destruct e as [f|]; [|by exists w].
  destruct (otruthy (fe_name f) && otruthy (fe_s3Key f)) eqn:Hkeep; [|by exists w].
  apply andb_true_iff in Hkeep as [Hn Hs3]. destruct (fe_name f) as [name|] eqn:Hname; [|done].
  destruct (fe_s3Key f) as [key|] eqn:Hkey; [|done].
  unfold mbind, M_bind, v7, now, write, RunRepo.appendFile, mret, M_ret. cbn [w_db w_uuids w_ticks].
  match goal with |- context [sql_insert TRunFiles ?r _] => set (r0 := r) end.
  assert (Hc : js_some (conflict TRunFiles r0) (rows (db_rows (w_db w)) TRunFiles) = false).
  { apply js_some_false. intros x Hx. simpl. bool_prop. intros Heq.
    destruct (Hf (w_uuids w)) as [Hff _]; [done|]. by apply (Hff x Hx). }
  destruct (law_insert_ok TRunFiles r0 (w_db w) Hc) as (db' & -> & Hs); [done|].
  eexists. split; [reflexivity|]. cbn [w_db]. split.
  - split; cbn [w_db w_uuids].
    + eapply keys_ok_same; [by symmetry|]. by apply keys_ok_insert.
    + unfold has_run in *. apply js_some_true. apply js_some_true in Hr as (x & Hx & Hp). exists x.
      split; [|done]. change (x ∈ rows (db_rows db') TRuns). by rewrite (Hs TRuns), rows_set_ne.
    + intros k Hle. split.
      * intros x Hx. rewrite (Hs TRunFiles) in Hx. rewrite rows_set_eq in Hx.
        apply elem_of_app in Hx as [Hx|Hx%list_elem_of_singleton].
        -- apply Hf; [lia|done].
        -- subst x. simpl. intros Heq%Hinj. lia.
      * intros x Hx. rewrite (Hs TRunLogs) in Hx. rewrite rows_set_ne in Hx by done. apply Hf; [lia|done].
  - exists r0. split; [|done]. exists f. by rewrite Hname, Hkey.
Qed.

Definition log_row (id : string) (e : option LogEntry) (r : RunLogRow) : Prop :=
  exists l, e = Some l /\ rl_runId r = id /\
    rl_blockId r = le_blockId l /\ rl_stdout r = le_stdout l /\ rl_stderr r = le_stderr l.

Lemma append_log_step id (l : LogEntry) w :
  patchable id w ->
  exists w', append_log id (Some l) w = (w', Ok tt) /\ patchable id w' /\
    exists r, log_row id (Some l) r /\
      same_rows (db_rows (w_db w'))
        (set_rows TRunLogs (db_rows (w_db w)) (rows (db_rows (w_db w)) TRunLogs ++ [r])).
Proof.
  intros Hw. destruct Hw as [Hk Hr Hf]. unfold append_log.
  unfold mbind, M_bind, v7, now, write, RunRepo.appendLog, mret, M_ret. cbn [w_db w_uuids w_ticks].
  match goal with |- context [sql_insert TRunLogs ?r _] => set (r0 := r) end.
  assert (Hc : js_some (conflict TRunLogs r0) (rows (db_rows (w_db w)) TRunLogs) = false).
  { apply js_some_false. intros x Hx. simpl. bool_prop. intros Heq.
    destruct (Hf (w_uuids w)) as [_ Hff]; [done|]. by apply (Hff x Hx). }
  destruct (law_insert_ok TRunLogs r0 (w_db w) Hc) as (db' & -> & Hs); [done|].
  eexists. split; [reflexivity|]. cbn [w_db]. split.
  - split; cbn [w_db w_uuids].
    + eapply keys_ok_same; [by symmetry|]. by apply keys_ok_insert.
    + unfold has_run in *. apply js_some_true. apply js_some_true in Hr as (x & Hx & Hp). exists x.
      split; [|done]. change (x ∈ rows (db_rows db') TRuns). by rewrite (Hs TRuns), rows_set_ne.
    + intros k Hle. split.
      * intros x Hx. rewrite (Hs TRunFiles) in Hx. rewrite rows_set_ne in Hx by done. apply Hf; [lia|done].
      * intros x Hx. rewrite (Hs TRunLogs) in Hx. rewrite rows_set_eq in Hx.
        apply elem_of_app in Hx as [Hx|Hx%list_elem_of_singleton].
        -- apply Hf; [lia|done].
        -- subst x. simpl. intros Heq%Hinj. lia.
  - exists r0. split; [|done]. by exists l.
Qed.

(** The final step of the callback. *)
Lemma patch_status id body w :
  patchable id w ->
  exists w', (match body ≫= pb_status with
    | Some status =>
        t0 ← now; t1 ← now; t2 ← now;
        _ ← write (RunRepo.updateStatus t0 t1 t2 id status (Some <$> (body ≫= pb_error)));
        mret tt
    | None => mret tt
    end) w = (w', Ok tt) /\
  exists t0 t1 t2, same_rows (db_rows (w_db w'))
    (match body ≫= pb_status with
     | Some status => set_rows TRuns (db_rows (w_db w))
         ((fun r => if rn_id r === id then status_patch t0 t1 t2 status (Some <$> (body ≫= pb_error)) r else r)
            <$> rows (db_rows (w_db w)) TRuns)
     | None => db_rows (w_db w)
     end).
Proof.
  intros [Hk _ _]. destruct (body ≫= pb_status) as [status|]; [|exists w; split; [done|by exists 0%Z, 0%Z, 0%Z]].
  unfold mbind, M_bind, now, write, RunRepo.updateStatus. cbn [w_db w_uuids w_ticks].
  set (t0 := clock (w_ticks w)). set (t1 := clock (S (w_ticks w))). set (t2 := clock (S (S (w_ticks w)))).
  set (f := status_patch t0 t1 t2 status _).
  destruct (law_update_ok TRuns (fun r => rn_id r === id) f (w_db w) Hk) as (db' & out & Hrun); [done|].
  pose proof (law_update TRuns (fun r => rn_id r === id) f (w_db w)) as Hl. rewrite Hrun in *.
  destruct Hl as [_ Hs]. eexists. split; [reflexivity|]. exists t0, t1, t2. exact Hs.
Qed.

(** What the callback does once it is accepted: files, logs, status. *)
Definition patch_steps (id : string) (body : option PatchBody) : M (World DB) HttpError unit :=
  _ ← forM ((body ≫= pb_files) ⁇ []) (append_entry id);
  _ ← forM ((body ≫= pb_logs) ⁇ []) (append_log id);
  match body ≫= pb_status with
  | Some status =>
      t0 ← now; t1 ← now; t2 ← now;
      _ ← write (RunRepo.updateStatus t0 t1 t2 id status (Some <$> (body ≫= pb_error)));
      mret tt
  | None => mret tt
  end.

Lemma patch_accepted configured env_secret auth id body w :
  patch_secret configured env_secret <> "" -> strip_bearer (auth ⁇ "") = patch_secret configured env_secret ->
  truthy id = true -> patchable id w ->
  patch_run configured env_secret auth (Some id) body w = patch_steps id body w.
Proof.
  intros Hs Htok Hid Hw. unfold patch_run. fold (patch_secret configured env_secret).
  assert (truthy (patch_secret configured env_secret) = true) as -> by (by apply truthy_spec).
  rewrite Htok, eqb_refl_js. unfold routerId. rewrite Hid.
  assert (exists r, RunRepo.getById id (w_db w) = Some r) as [r Hr].
  { unfold RunRepo.getById. destruct (first_row _) eqn:E; [eauto|].
    rewrite (first_row_select_None TRuns) in E. destruct Hw as [_ Hr _].
    apply js_some_true in Hr as (x & Hx & Hp). by rewrite (E x Hx) in Hp. }
  unfold patch_steps, mbind at 1 2 3 4 5 6, M_bind at 1 2 3 4 5 6, guard_http, mret at 1 2 3, M_ret at 1 2 3, read.
  rewrite Hr. reflexivity.
Qed.

(** The two loops, for the log entries before the first [null]. *)
Lemma patch_appends id body (pre : list LogEntry) w :
  patchable id w ->
  exists w1 w2 new_files new_logs,
    forM ((body ≫= pb_files) ⁇ []) (append_entry id) w = (w1, Ok tt) /\
    forM (Some <$> pre) (append_log id) w1 = (w2, Ok tt) /\ patchable id w2 /\
    Forall2 (file_row id) (js_filter keep_file ((body ≫= pb_files) ⁇ [])) new_files /\
    Forall2 (log_row id) (Some <$> pre) new_logs /\
    rows (db_rows (w_db w2)) TRunFiles ≡ₚ rows (db_rows (w_db w)) TRunFiles ++ new_files /\
    rows (db_rows (w_db w2)) TRunLogs ≡ₚ rows (db_rows (w_db w)) TRunLogs ++ new_logs /\
    forall t, t <> TRunFiles -> t <> TRunLogs -> rows (db_rows (w_db w2)) t ≡ₚ rows (db_rows (w_db w)) t.
Proof.
  intros Hw.
  destruct (forM_append TRunFiles keep_file (file_row id) (append_entry id) id ((body ≫= pb_files) ⁇ []))
    with (w := w) as (w1 & files & Hrun1 & Hw1 & Hfiles & Hs1); [intros e w0 _; apply append_entry_step|done|].
  destruct (forM_append TRunLogs (fun _ => true) (log_row id) (append_log id) id (Some <$> pre))
    with (w := w1) as (w2 & logs & Hrun2 & Hw2 & Hlog & Hs2); [|done|].
  { intros e w0 (l & -> & _)%list_elem_of_fmap Hw0. by apply append_log_step. }
  rewrite js_filter_all in Hlog by (by apply Forall_forall).
  exists w1, w2, files, logs. do 5 (split; [done|]). split_and!.
  - rewrite (Hs2 TRunFiles), rows_set_ne, (Hs1 TRunFiles), rows_set_eq by done. done.
  - rewrite (Hs2 TRunLogs), rows_set_eq, (Hs1 TRunLogs), rows_set_ne by done. done.
  - intros t H1 H2. by rewrite (Hs2 t), rows_set_ne, (Hs1 t), rows_set_ne by done.
Qed.

(** C7. What an accepted callback does, on an existing run: it adds one file row per entry
    that has a name and a key (the others are skipped), then one log row per entry, and
    then sets the status, whatever the status was before; it changes no other table.
    The order shows when it is cut short: at a [null] log entry it throws, with all the
    files and the logs before that entry added and the status not set. *)
Theorem patch_applied configured env_secret auth id body w :
  let secret := patch_secret configured env_secret in
  let run := patch_run configured env_secret auth (Some id) body w in
  let c := db_rows (w_db w) in
  secret <> "" -> strip_bearer (auth ⁇ "") = secret -> truthy id = true -> patchable id w ->
  (forall logs, (body ≫= pb_logs) ⁇ [] = Some <$> logs ->
   exists w' new_files new_logs t0 t1 t2,
     run = (w', Ok tt) /\
     Forall2 (file_row id) (js_filter keep_file ((body ≫= pb_files) ⁇ [])) new_files /\
     Forall2 (log_row id) (Some <$> logs) new_logs /\
     rows (db_rows (w_db w')) TRunFiles ≡ₚ rows c TRunFiles ++ new_files /\
     rows (db_rows (w_db w')) TRunLogs ≡ₚ rows c TRunLogs ++ new_logs /\
     rows (db_rows (w_db w')) TRuns ≡ₚ
       match body ≫= pb_status with
       | Some status =>
           (fun r => if rn_id r === id then status_patch t0 t1 t2 status (Some <$> (body ≫= pb_error)) r else r)
             <$> rows c TRuns
       | None => rows c TRuns
       end /\
     forall t, t <> TRunFiles -> t <> TRunLogs -> t <> TRuns -> rows (db_rows (w_db w')) t ≡ₚ rows c t) /\
  (forall pre post, (body ≫= pb_logs) ⁇ [] = (Some <$> pre) ++ None :: post ->
   exists w' new_files new_logs,
     run = (w', Throw (Uncaught "TypeError")) /\
     Forall2 (file_row id) (js_filter keep_file ((body ≫= pb_files) ⁇ [])) new_files /\
     Forall2 (log_row id) (Some <$> pre) new_logs /\
     rows (db_rows (w_db w')) TRunFiles ≡ₚ rows c TRunFiles ++ new_files /\
     rows (db_rows (w_db w')) TRunLogs ≡ₚ rows c TRunLogs ++ new_logs /\
     forall t, t <> TRunFiles -> t <> TRunLogs -> rows (db_rows (w_db w')) t ≡ₚ rows c t).
Proof.
  intros secret run c Hs Htok Hid Hw. subst run. rewrite patch_accepted by done. unfold patch_steps. split.
  - intros logs Hlogs. rewrite Hlogs.
    destruct (patch_appends id body logs w Hw) as (w1 & w2 & files & nlogs & Hrun1 & Hrun2 & Hw2 & Hfiles & Hlog & Hf & Hl & Ho).
    destruct (patch_status id body w2 Hw2) as (w' & Hrun3 & t0 & t1 & t2 & Hs3).
    exists w', files, nlogs, t0, t1, t2. rewrite run_bind, Hrun1, run_bind, Hrun2.
    split; [exact Hrun3|]. do 2 (split; [done|]).
    assert (Hrows : forall t, t <> TRuns -> rows (db_rows (w_db w')) t ≡ₚ rows (db_rows (w_db w2)) t).
    { intros t Ht. rewrite (Hs3 t). destruct (body ≫= pb_status); [by rewrite rows_set_ne|done]. }
    assert (Hruns : rows (db_rows (w_db w2)) TRuns ≡ₚ rows c TRuns) by (by apply (Ho TRuns)).
    split; [by rewrite Hrows|]. split; [by rewrite Hrows|]. split; [|intros t H1 H2 H3; rewrite Hrows by done; by apply Ho].
    rewrite (Hs3 TRuns). destruct (body ≫= pb_status); [|exact Hruns]. rewrite rows_set_eq. by apply fmap_Permutation.
  - intros pre post Hlogs. rewrite Hlogs.
    destruct (patch_appends id body pre w Hw) as (w1 & w2 & files & nlogs & Hrun1 & Hrun2 & _ & Hfiles & Hlog & Hf & Hl & Ho).
    exists w2, files, nlogs. rewrite run_bind, Hrun1, run_bind, forM_app, Hrun2. by split_and!.
Qed.
End Patch.
