(* ===== verification/ZipSpec.v ===== *)
(** * The names of the archive's entries ([web_ui/server/api/runs/[id]/zip.get.ts]) *)

From S2P Require Export RunsSpec.
From Stdlib Require Import Ascii.

(** ** Numbered names *)

Lemma split_dot_Some s stem ext :
  split_dot s = Some (stem, ext) ->
  s = stem +:+ ext /\ exists e, ext = String "." e /\ char_free "." e = true.
Proof.
  revert stem. induction s as [|c s IH]; intros stem Heq; simpl in Heq; [done|].
  destruct (split_dot s) as [[st ex]|] eqn:E; simplify_eq/=.
  - destruct (IH st) as (-> & e & -> & He); [done|]. split; [done|]. eauto.
  - case_bool_decide; simplify_eq. split; [done|]. exists s. split; [done|].
    clear IH. induction s as [|d s IHs]; [done|]. simpl in E. destruct (split_dot s) as [[? ?]|]; [done|].
    case_bool_decide; [done|]. unfold char_free in *. simpl. by rewrite IHs, eqb_ne_js.
Qed.

Lemma split_dot_None s : split_dot s = None -> char_free "." s = true.
Proof.
  induction s as [|c s IH]; intros E; [done|]. simpl in E. destruct (split_dot s) as [[? ?]|]; [done|].
  case_bool_decide; [done|]. unfold char_free in *. simpl. by rewrite IH, eqb_ne_js.
Qed.

Lemma pretty_no_dot n : char_free "." (pretty (n : nat)) = true.
Proof. by apply pretty_char_free. Qed.
Lemma pretty_no_underscore n : char_free "_" (pretty (n : nat)) = true.
Proof. by apply pretty_char_free. Qed.

(** The three shapes of a numbered name. *)
Lemma numbered_cases name n :
  (exists c stem e, name = String c stem +:+ String "." e /\ char_free "." e = true /\
     numbered name n = (String c stem +:+ String "_" (pretty n)) +:+ String "." e) \/
  ((char_free "." name = true \/ exists e, name = String "." e /\ char_free "." e = true) /\
   numbered name n = name +:+ String "_" (pretty n)).
Proof.
  unfold numbered. destruct (split_dot name) as [[[|c stem] ext]|] eqn:E.
  - apply split_dot_Some in E as (-> & e & -> & He). right. split; [|done]. right. eauto.
  - apply split_dot_Some in E as (-> & e & -> & He). left. exists c, stem, e.
    rewrite <-string_app_assoc. split; [done|]. split; [done|]. done.
  - apply split_dot_None in E. right. split; [by left|done].
Qed.

Lemma pretty_nat_inj (n m : nat) : pretty n = pretty m -> n = m.
Proof. apply (inj pretty). Qed.

Lemma underscore_inj s t (n m : nat) :
  s +:+ String "_" (pretty n) = t +:+ String "_" (pretty m) -> s = t /\ n = m.
Proof.
  intros Heq. apply split_char_inj_last in Heq as [-> Heq]; [|apply pretty_no_underscore..].
  split; [done|]. by apply pretty_nat_inj.
Qed.

(** A name with a dot in the middle is numbered before it, others at the end. *)
Lemma numbered_dot_end c stem e name (n m : nat) :
  char_free "." e = true ->
  (char_free "." name = true \/ exists e', name = String "." e' /\ char_free "." e' = true) ->
  (String c stem +:+ String "_" (pretty n)) +:+ String "." e <> name +:+ String "_" (pretty m).
Proof.
  intros He Hname Heq. assert (Hm : char_free "." (String "_" (pretty m)) = true).
  { unfold char_free. simpl. apply pretty_no_dot. }
  destruct Hname as [Hname|(e' & -> & He')].
  - assert (Hf : char_free "." (name +:+ String "_" (pretty m)) = true).
    { unfold char_free in *. by rewrite all_chars_app, Hname, Hm. }
    rewrite <-Heq in Hf. unfold char_free in Hf. rewrite all_chars_app in Hf. simpl in Hf.
    by rewrite andb_false_r in Hf.
  - rewrite (string_app_cons ".") in Heq. change (String "." ?x) with ("" +:+ String "." x) in Heq at 2.
    apply split_char_inj_last in Heq as [Heq _]; [|done|].
    + rewrite string_app_cons in Heq. done.
    + unfold char_free in *. by rewrite all_chars_app, He', Hm.
Qed.

Lemma numbered_inj name name' n m : numbered name n = numbered name' m -> name = name' /\ n = m.
Proof.
  destruct (numbered_cases name n) as [(c & stem & e & -> & He & ->)|(Hn & ->)];
    destruct (numbered_cases name' m) as [(c' & stem' & e' & -> & He' & ->)|(Hn' & ->)]; intros Heq.
  - apply split_char_inj_last in Heq as [Heq ->]; [|done..]. apply underscore_inj in Heq as [-> ->]. done.
  - by destruct (numbered_dot_end c stem e name' n m).
  - symmetry in Heq. by destruct (numbered_dot_end c' stem' e' name m n).
  - by apply underscore_inj in Heq.
Qed.

(** ** The archive *)

(** The number of earlier files with the same name. *)
Definition earlier (l : list string) (name : string) : nat := length (js_filter (fun x => x === name) l).

Definition entry_of (name : string) (n : nat) : string := if n === 0 then name else numbered name n.

(** [seen] counts the names met so far. *)
Definition counts (seen : jsmap nat) (l : list string) : Prop :=
  forall name, jm_get name seen ⁇ 0 = earlier l name.

Lemma earlier_snoc l x name : earlier (l ++ [x]) name = earlier l name + (if x === name then 1 else 0).
Proof.
  unfold earlier, js_filter. rewrite filter_app, length_app. f_equal.
  change (filter (fun y => (y === name) = true) [x]) with (js_filter (fun y => y === name) [x]).
  rewrite js_filter_cons. by case_bool_decide.
Qed.

Lemma entry_names_spec seen before l :
  counts seen before ->
  entry_names seen l =
    imap (fun i f => (entry_of (rf_name f) (earlier (before ++ (rf_name <$> take i l)) (rf_name f)), rf_s3Key f)) l.
Proof.
  revert seen before. induction l as [|f l IH]; intros seen before Hc; [done|].
  simpl. rewrite app_nil_r. unfold entryName, entry_of. rewrite (Hc (rf_name f)). f_equal.
  rewrite (IH _ (before ++ [rf_name f])).
  - apply imap_ext. intros i x _. simpl. unfold entry_of. rewrite <-app_assoc. done.
  - intros name. rewrite jm_get_set, earlier_snoc, <-(Hc (rf_name f)), <-(Hc name).
    case_bool_decide as Hn; [subst; simpl; lia | lia].
Qed.

Lemma earlier_lt l i j x : l !! i = Some x -> i < j -> earlier (take i l) x < earlier (take j l) x.
Proof.
  intros Hi Hij. assert (H : take (S i) l `prefix_of` take j l).
  { exists (drop (S i) (take j l)). rewrite <-(take_drop (S i) (take j l)) at 1. f_equal.
    rewrite take_take. f_equal. lia. }
  destruct H as [k ->]. rewrite (take_S_r l i x Hi). unfold earlier, js_filter.
  rewrite !filter_app, !length_app.
  change (filter (fun y => (y === x) = true) [x]) with (js_filter (fun y => y === x) [x]).
  rewrite js_filter_cons, eqb_refl_js. simpl. lia.
Qed.

(** No name is the numbered form of another one. *)
Definition no_clash (l : list string) : Prop := forall x y n, x ∈ l -> y ∈ l -> x <> numbered y n.

Lemma entries_distinct l :
  no_clash l -> NoDup (imap (fun i x => entry_of x (earlier (take i l) x)) l).
Proof.
  intros Hc. apply NoDup_alt. intros i j e Hi Hj. rewrite list_lookup_imap in Hi, Hj.
  destruct (l !! i) as [x|] eqn:Hx; [|done]. destruct (l !! j) as [y|] eqn:Hy; [|done].
  simpl in Hi, Hj. injection Hi as Hi. injection Hj as Hj. rewrite <-Hi in Hj. clear Hi.
  assert (Hsame : x = y -> earlier (take i l) x = earlier (take j l) y -> i = j).
  { intros -> Heq. destruct (decide (i < j)) as [Hlt|]; [pose proof (earlier_lt l i j y Hx Hlt); lia|].
    destruct (decide (j < i)) as [Hlt|]; [pose proof (earlier_lt l j i y Hy Hlt); lia|]. lia. }
  apply list_elem_of_lookup_2 in Hx, Hy. unfold entry_of in Hj.
  repeat case_bool_decide.
  - apply Hsame; congruence.
  - by destruct (Hc y x (earlier (take i l) x)).
  - symmetry in Hj. by destruct (Hc x y (earlier (take j l) y)).
  - apply numbered_inj in Hj as [<- Heq]. by apply Hsame.
Qed.

Definition archive (fs : list RunFileRow) : list (string * string) :=
  imap (fun i f => (entry_of (rf_name f) (earlier ([] ++ (rf_name <$> take i fs)) (rf_name f)), rf_s3Key f)) fs.

Lemma imap_keys fs : snd <$> archive fs = rf_s3Key <$> fs.
Proof.
  unfold archive. apply list_eq. intros i. rewrite !list_lookup_fmap, list_lookup_imap. by destruct (fs !! i).
Qed.

Lemma imap_names fs : no_clash (rf_name <$> fs) -> NoDup (fst <$> archive fs).
Proof.
  intros Hc. apply entries_distinct in Hc. unfold archive. rewrite fmap_imap. unfold compose. simpl.
  rewrite imap_fmap in Hc. unfold compose in Hc. erewrite imap_ext; [exact Hc|].
  intros i x _. simpl. by rewrite fmap_take.
Qed.

Section Zip.
Context {DB : Type} `{SqlLaws DB} {env : Env}.
Context (text_le_total : forall a b, text_le a b = true \/ text_le b a = true).
Context (text_le_trans : forall a b c, text_le a b = true -> text_le b c = true -> text_le a c = true).

(** What the handler answers with: the entries of a run the user may see. *)
Lemma get_zip_entries session id (w w' : World DB) entries :
  keys_ok (db_rows (w_db w)) ->
  get_zip session id w = (w', Ok entries) ->
  exists user r fs, session = Some user /\ id = Some (rn_id r) /\
    r ∈ rows (db_rows (w_db w)) TRuns /\ can_view (R := run_resource) (db_rows (w_db w)) (u_id user) r /\
    fs ≡ₚ js_filter (fun f => rf_runId f === rn_id r) (rows (db_rows (w_db w)) TRunFiles) /\
    StronglySorted (fun a b => text_le (rf_name a) (rf_name b) = true) fs /\ fs <> [] /\
    snd <$> entries = rf_s3Key <$> fs /\
    (no_clash (rf_name <$> fs) -> NoDup (fst <$> entries)).
Proof.
  intros Hk Hrun. unfold get_zip in Hrun.
  apply run_bind_Ok_inv in Hrun as (w1 & user & Hu & Hrun). apply run_requireUser_inv in Hu as [-> ->].
  apply run_bind_Ok_inv in Hrun as (w1 & rid & Hid & Hrun). apply run_routerId_inv in Hid as (-> & _ & ->).
  apply run_bind_Ok_inv in Hrun as (w1 & found & Hf & Hrun). unfold read in Hf. simplify_eq.
  apply run_bind_Ok_inv in Hrun as (w2 & d & Hd & Hrun). apply run_orThrow_inv in Hd as [Hd ->].
  apply run_bind_Ok_inv in Hrun as (w2 & u & Hg & Hrun). apply run_guard_inv in Hg as [Hne ->].
  unfold mret, M_ret in Hrun. injection Hrun as <- <-. bool_prop.
  unfold RunRepo.getWithDetails in Hd. destruct (getByIdForUser _ _ _) as [r|] eqn:E; [|done]. simplify_eq/=.
  destruct (run_reads _ Hk) as [Hget _ _ _]. apply Hget in E as (Hr & Hrid & Hview). simpl in Hrid. subst rid.
  set (fs := sql_select_ordered TRunFiles _ _ _) in *.
  destruct (law_ordered TRunFiles (fun f => rf_runId f === rn_id r)
    (fun a b => text_le (rf_name a) (rf_name b)) (w_db w1)) as [Hperm Hsort].
  { intros a b. apply text_le_total. }
  { intros a b c. apply text_le_trans. }
  exists user, r, fs. rewrite (entry_names_spec [] []) by done. split_and!; try done.
  - apply imap_keys.
  - apply imap_names.
Qed.

Lemma get_zip_reads session id (w w' : World DB) res : get_zip session id w = (w', res) -> w' = w.
Proof.
  intros Hrun. unfold get_zip, requireUser, orThrow, routerId, read, guard_http in Hrun.
  unfold mbind, M_bind, mret, M_ret, throw in Hrun. repeat (case_match; simplify_eq; try done).
Qed.

(** The archive of a run: it is served exactly to those who may see a run that
    has files; it has one entry per file of the run, in the order of the names,
    each with the file's key; and its entry names are pairwise distinct unless a
    file is itself named like the numbered form of another one, in which case
    they can clash. *)
Theorem get_zip_spec session id (w w' : World DB) res :
  keys_ok (db_rows (w_db w)) ->
  get_zip session id w = (w', res) ->
  w' = w /\
  (forall entries, res = Ok entries ->
   exists user r fs, session = Some user /\ id = Some (rn_id r) /\
     r ∈ rows (db_rows (w_db w)) TRuns /\ can_view (R := run_resource) (db_rows (w_db w)) (u_id user) r /\
     fs ≡ₚ js_filter (fun f => rf_runId f === rn_id r) (rows (db_rows (w_db w)) TRunFiles) /\
     StronglySorted (fun a b => text_le (rf_name a) (rf_name b) = true) fs /\ fs <> [] /\
     snd <$> entries = rf_s3Key <$> fs /\
     (no_clash (rf_name <$> fs) -> NoDup (fst <$> entries))) /\
  exists f, fst <$> entry_names [] [f "a.txt"; f "a.txt"; f "a_1.txt"] = ["a.txt"; "a_1.txt"; "a_1.txt"].
Proof.
  intros Hk Hrun. split; [|split].
  - by eapply get_zip_reads.
  - intros entries ->. by eapply get_zip_entries.
  - exists (fun name => mkRunFile name "r" None name None None "k" 0). vm_compute. reflexivity.
Qed.
End Zip.
