(* ===== verification/ZipStream.v ===== *)
(** * The body of a downloaded archive ([web_ui/server/api/runs/[id]/zip.get.ts])

    The handler answers with a [ReadableStream].  Its [start] builds a streaming [Zip]
    and lets an asynchronous function, here the pump, read the objects of the files
    one after the other and push what it reads into the archive; the callback of the
    [Zip] hands the archive's chunks to the stream's controller, and the client takes
    them from there.  The stream is the one of the web platform; the library [fflate],
    which makes the archive, and the object store are parameters. *)

From S2P Require Export RunsSpec ZipSpec.

Notation Chunk := (list Byte.byte).

(** ** The library *)

(** The calls on a [Zip]: [zip.add(new ZipPassThrough(name))], [entry.push(data, final)] on
    the entry added as number [entry], and [zip.end()]. *)
Inductive ZipCall :=
  | ZAdd (name : string)
  | ZPush (entry : nat) (data : Chunk) (final : bool)
  | ZEnd.

(** A call of the callback [(err, chunk, final)]. *)
Inductive Callback :=
  | ZError (err : string)
  | ZData (chunk : Chunk) (final : bool).

Definition is_data (cb : Callback) : bool := match cb with ZData _ _ => true | ZError _ => false end.
Definition is_final (cb : Callback) : bool := match cb with ZData _ final => final | ZError _ => false end.
Definition datas (cbs : list Callback) : list Chunk :=
  omap (fun cb => match cb with ZData chunk _ => Some chunk | ZError _ => None end) cbs.

(** A [Zip] and what each call makes it call back with. *)
Class ZipLib (L : Type) := { zip_new : L; zip_call : ZipCall -> L -> L * list Callback }.

Fixpoint zip_run `{ZipLib L} (z : L) (calls : list ZipCall) : L * list Callback :=
  match calls with
  | [] => (z, [])
  | k :: calls' =>
      let '(z1, cbs1) := zip_call k z in
      let '(z2, cbs2) := zip_run z1 calls' in (z2, cbs1 ++ cbs2)
  end.

(** What a whole sequence of calls makes the library call back with. *)
Definition outputs (L : Type) `{ZipLib L} (calls : list ZipCall) : list Callback := snd (zip_run (L := L) zip_new calls).

Definition pushes (entry : nat) (chunks : list Chunk) : list ZipCall := (fun c => ZPush entry c false) <$> chunks.

(** The documented use: every entry is added, pushed to and finished, then the archive ended. *)
Fixpoint zip_calls (n : nat) (entries : list (string * list Chunk)) : list ZipCall :=
  match entries with
  | [] => [ZEnd]
  | (name, chunks) :: rest => ZAdd name :: pushes n chunks ++ ZPush n [] true :: zip_calls (S n) rest
  end.

(** What the library promises.  Before the end no chunk is final, at the end only the
    last; and for entries of the sizes the format can hold, the chunks are an archive
    of the entries. *)
Class ZipLaws L `{ZipLib L} (unzip : Chunk -> option (list (string * Chunk)))
    (supported : list (string * list Chunk) -> bool) := {
  law_no_final calls : ZEnd ∉ calls -> existsb is_final (outputs L calls) = false;
  law_final calls pre cb post :
    ZEnd ∉ calls -> outputs L (calls ++ [ZEnd]) = pre ++ cb :: post -> is_final cb = true -> post = [];
  law_archive entries : supported entries = true ->
    Forall is_data (outputs L (zip_calls 0 entries)) /\
    existsb is_final (outputs L (zip_calls 0 entries)) = true /\
    unzip (concat (datas (outputs L (zip_calls 0 entries)))) =
      Some ((fun '(name, chunks) => (name, concat chunks)) <$> entries) }.

(** ** The stream *)

Inductive StreamState := Readable | Closed | Errored (e : string).

(** [c_queue] are the chunks the client has not taken yet, [c_closing] the stream's
    request to close, [c_taken] what the client has received. *)
Record Controller := mkController {
  c_state : StreamState; c_queue : list Chunk; c_closing : bool; c_taken : list Chunk }.

Definition new_controller : Controller := mkController Readable [] false [].

Definition readable (c : Controller) : bool := match c_state c with Readable => true | _ => false end.

(** [CanCloseOrEnqueue] of the streams standard; [enqueue] and [close] throw without it. *)
Definition can_enqueue (c : Controller) : bool := readable c && negb (c_closing c).

Definition enqueue (chunk : Chunk) (c : Controller) : Controller * option string :=
  if can_enqueue c then (mkController Readable (c_queue c ++ [chunk]) false (c_taken c), None)
  else (c, Some "Invalid state: Controller is already closed").

Definition close (c : Controller) : Controller * option string :=
  if can_enqueue c then
    (mkController (if bool_decide (c_queue c = []) then Closed else Readable) (c_queue c) true (c_taken c), None)
  else (c, Some "Invalid state: Controller is already closed").

Definition error (e : string) (c : Controller) : Controller :=
  if readable c then mkController (Errored e) [] (c_closing c) (c_taken c) else c.

(** The client takes the next chunk; the last one of a closing stream closes it.  (A read
    that is already pending when the chunk arrives is this step, right after it.) *)
Definition pull (c : Controller) : Controller :=
  match c_state c, c_queue c with
  | Readable, chunk :: queue =>
      mkController (if c_closing c && bool_decide (queue = []) then Closed else Readable) queue (c_closing c)
        (c_taken c ++ [chunk])
  | _, _ => c
  end.

(** The client goes away. *)
Definition cancel (c : Controller) : Controller :=
  if readable c then mkController Closed [] (c_closing c) (c_taken c) else c.

(** The callback of the [Zip]. *)
Definition ondata (cb : Callback) (c : Controller) : Controller * option string :=
  match cb with
  | ZError err => (error err c, None)
  | ZData chunk final =>
      match enqueue chunk c with
      | (c', None) => if final then close c' else (c', None)
      | thrown => thrown
      end
  end.

Fixpoint ondata_all (cbs : list Callback) (c : Controller) : Controller * option string :=
  match cbs with
  | [] => (c, None)
  | cb :: cbs' =>
      match ondata cb c with
      | (c', None) => ondata_all cbs' c'
      | thrown => thrown
      end
  end.

(** ** The pump *)

(** Where the asynchronous function is: awaiting a chunk of entry [entry], whose object still
    has [chunks] to give and then ends or fails, with [rest] to do; rejected, the handler of
    [catch] not yet run; or settled. *)
Inductive Pump :=
  | Reading (entry : nat) (chunks : list Chunk) (fails : option string) (rest : list (string * string))
  | Rejecting (e : string)
  | Settled.

Record ZipState (L : Type) := mkZipState { z_zip : L; z_ctl : Controller; z_pump : Pump }.
Arguments mkZipState {L}. Arguments z_zip {L}. Arguments z_ctl {L}. Arguments z_pump {L}.

(** What can happen: the awaited chunk arrives, the rejection is handled, the client takes a
    chunk, the client goes away. *)
Inductive ZipEvent := ChunkRead | Caught | Pulled | Cancelled.
#[export] Instance ZipEvent_eq_dec : EqDecision ZipEvent.
Proof. solve_decision. Defined.

Section Pump.
(** [object key]: the chunks the store gives for a key, and the error it then fails with. *)
Context {L : Type} `{ZipLib L} (object : string -> list Chunk * option string).

(** A call on the archive, and what the pump does after it; what the callback throws
    rejects the pump. *)
Definition calling (k : ZipCall) (z : L) (c : Controller) (after : L -> Controller -> ZipState L) : ZipState L :=
  let '(z', cbs) := zip_call k z in
  match ondata_all cbs c with
  | (c', None) => after z' c'
  | (c', Some e) => mkZipState z' c' (Rejecting e)
  end.

(** The head of the loop over the files, up to the first [await]. *)
Definition next (n : nat) (files : list (string * string)) (z : L) (c : Controller) : ZipState L :=
  match files with
  | [] => calling ZEnd z c (fun z c => mkZipState z c Settled)
  | (name, key) :: rest =>
      calling (ZAdd name) z c (fun z c => let '(chunks, fails) := object key in
        mkZipState z c (Reading n chunks fails rest))
  end.

(** [start], run while the stream is built. *)
Definition start (files : list (string * string)) : ZipState L := next 0 files zip_new new_controller.

Definition chunk_read (s : ZipState L) : ZipState L :=
  match z_pump s with
  | Reading n (chunk :: chunks) fails rest =>
      calling (ZPush n chunk false) (z_zip s) (z_ctl s)
        (fun z c => mkZipState z c (Reading n chunks fails rest))
  | Reading n [] (Some e) rest => mkZipState (z_zip s) (z_ctl s) (Rejecting e)
  | Reading n [] None rest => calling (ZPush n [] true) (z_zip s) (z_ctl s) (next (S n) rest)
  | _ => s
  end.

(** [.catch((e) => controller.error(e))] *)
Definition caught (s : ZipState L) : ZipState L :=
  match z_pump s with
  | Rejecting e => mkZipState (z_zip s) (error e (z_ctl s)) Settled
  | _ => s
  end.

Definition on_controller (f : Controller -> Controller) (s : ZipState L) : ZipState L :=
  mkZipState (z_zip s) (f (z_ctl s)) (z_pump s).

Definition zip_event (s : ZipState L) (ev : ZipEvent) : ZipState L :=
  match ev with
  | ChunkRead => chunk_read s
  | Caught => caught s
  | Pulled => on_controller pull s
  | Cancelled => on_controller cancel s
  end.

Definition streamed (files : list (string * string)) (evs : list ZipEvent) : ZipState L :=
  foldl zip_event (start files) evs.
End Pump.

(** ** What the pump still has to do *)

Section Plan.
Context {L : Type} {HL : ZipLib L} (object : string -> list Chunk * option string).

(** The calls left when [chunks] of an object are left to read, given those of the rest. *)
Definition object_calls (n : nat) (chunks : list Chunk) (fails : option string)
    (rest : list ZipCall * option string) : list ZipCall * option string :=
  match fails with
  | Some e => (pushes n chunks, Some e)
  | None => (pushes n chunks ++ ZPush n [] true :: fst rest, snd rest)
  end.

(** The calls from entry [n] on, and the error of the first object that fails. *)
Fixpoint calls_from (n : nat) (files : list (string * string)) : list ZipCall * option string :=
  match files with
  | [] => ([ZEnd], None)
  | (name, key) :: rest =>
      let '(chunks, fails) := object key in
      let '(calls, failure) := object_calls n chunks fails (calls_from (S n) rest) in
      (ZAdd name :: calls, failure)
  end.

Definition todo (p : Pump) : list ZipCall * option string :=
  match p with
  | Reading n chunks fails rest => object_calls n chunks fails (calls_from (S n) rest)
  | Rejecting e => ([], Some e)
  | Settled => ([], None)
  end.

(** An object can be read to its end. *)
Definition whole (key : string) : Prop := snd (object key) = None.

(** The end of the archive is the last call, and is made when every object is whole. *)
Lemma calls_from_end n (files : list (string * string)) :
  exists front : list ZipCall, ZEnd ∉ front /\
    ((Forall whole (snd <$> files) /\ calls_from n files = (front ++ [ZEnd], None)) \/
     (~ Forall whole (snd <$> files) /\ exists e, calls_from n files = (front, Some e))).
Proof.
  revert n. induction files as [|[name key] rest IH]; intros n; simpl.
  - exists []. split; [set_solver|]. by left.
  - destruct (object key) as [chunks fails] eqn:E. simpl.
    assert (Hp : ZEnd ∉ pushes n chunks) by (unfold pushes; set_solver).
    destruct fails as [e|]; simpl.
    + exists (ZAdd name :: pushes n chunks). split; [set_solver|]. right. split; [|eauto].
      intros Hf. apply Forall_cons in Hf as [Hf _]. unfold whole in Hf. by rewrite E in Hf.
    + destruct (IH (S n)) as (front & Hfront & Hcase).
      exists (ZAdd name :: pushes n chunks ++ ZPush n [] true :: front). split; [set_solver|].
      destruct Hcase as [(Hw & ->)|(Hw & e & ->)]; simpl.
      * left. split; [|by rewrite <-app_assoc]. constructor; [by unfold whole; rewrite E|done].
      * right. split; [|eauto]. intros Hf. apply Forall_cons in Hf as [_ Hf]. done.
Qed.

(** With every object whole the calls are the documented use of the library. *)
Lemma calls_from_whole n (files : list (string * string)) :
  Forall whole (snd <$> files) ->
  calls_from n files = (zip_calls n ((fun '(name, key) => (name, fst (object key))) <$> files), None).
Proof.
  revert n. induction files as [|[name key] rest IH]; intros n Hw; [done|].
  apply Forall_cons in Hw as [Hk Hw]. unfold whole in Hk. simpl in *.
  destruct (object key) as [chunks fails]. simpl in *. subst fails. simpl. by rewrite IH.
Qed.

(** ** Sequences of outputs *)

Lemma zip_run_snoc (z : L) calls k :
  zip_run z (calls ++ [k]) =
    let '(z1, cbs1) := zip_run z calls in let '(z2, cbs2) := zip_call k z1 in (z2, cbs1 ++ cbs2).
Proof.
  revert z. induction calls as [|k' calls IH]; intros z; simpl.
  - destruct (zip_call k z) as [z2 cbs2]. by rewrite app_nil_r.
  - destruct (zip_call k' z) as [z1 cbs1]. rewrite IH. destruct (zip_run z1 calls) as [z2 cbs2].
    destruct (zip_call k z2). by rewrite app_assoc.
Qed.

Lemma outputs_mono calls more : outputs L calls `prefix_of` outputs L (calls ++ more).
Proof.
  induction more as [|k more IH] using rev_ind; [by rewrite app_nil_r|].
  etrans; [exact IH|]. rewrite app_assoc. unfold outputs. rewrite zip_run_snoc.
  destruct (zip_run zip_new (calls ++ more)) as [z1 cbs1]. destruct (zip_call k z1) as [z2 cbs2]. by exists cbs2.
Qed.

Lemma datas_app a b : datas (a ++ b) = datas a ++ datas b.
Proof. apply omap_app. Qed.

Lemma datas_mono a b : a `prefix_of` b -> datas a `prefix_of` datas b.
Proof. intros [k ->]. rewrite datas_app. by exists (datas k). Qed.
End Plan.

(** ** The controller's invariant *)

(** [c] has been handed the outputs [cbs], all chunks, and nothing else happened to it
    than the client taking some. *)
Record fed (cbs : list Callback) (c : Controller) : Prop := {
  fed_data : Forall is_data cbs;
  fed_chunks : c_taken c ++ c_queue c = datas cbs;
  fed_closing : c_closing c = existsb is_final cbs;
  fed_state : c_state c = if c_closing c && bool_decide (c_queue c = []) then Closed else Readable }.

(** A stream that is closed or in error holds no chunk any more and never changes. *)
Definition dead (c : Controller) : Prop := c_state c <> Readable /\ c_queue c = [].

Definition failed (c : Controller) : Prop := exists e, c_state c = Errored e.

Lemma dead_not_readable c : dead c -> readable c = false.
Proof. intros [Hs _]. unfold readable. by destruct (c_state c). Qed.

Lemma dead_ondata cb c : dead c -> (ondata cb c).1 = c.
Proof.
  intros Hd%dead_not_readable. destruct cb as [e|chunk final]; simpl.
  - unfold error. by rewrite Hd.
  - unfold enqueue, can_enqueue. by rewrite Hd.
Qed.

Lemma dead_ondata_all cbs c : dead c -> (ondata_all cbs c).1 = c.
Proof.
  intros Hd. induction cbs as [|cb cbs IH]; [done|]. simpl.
  pose proof (dead_ondata cb c Hd) as Hc. by destruct (ondata cb c) as [c' [e|]]; simpl in *; subst c'.
Qed.

Lemma error_dead e c : readable c = true -> dead (error e c) /\ failed (error e c) /\ c_taken (error e c) = c_taken c.
Proof. intros Hr. unfold error. rewrite Hr. repeat split; try done. by eexists. Qed.

(** No final chunk has come: the stream can be written to. *)
Lemma fed_open cbs c : fed cbs c -> existsb is_final cbs = false -> readable c = true /\ c_closing c = false.
Proof. intros [_ _ Hc Hs] Hf. rewrite Hf in Hc. unfold readable. by rewrite Hs, Hc. Qed.

Lemma fed_chunk cbs c chunk final :
  fed cbs c -> existsb is_final cbs = false ->
  exists c', ondata (ZData chunk final) c = (c', None) /\ fed (cbs ++ [ZData chunk final]) c'.
Proof.
  intros Hfed Hf. destruct (fed_open _ _ Hfed Hf) as [Hr Hcl]. destruct Hfed as [Hd Hch _ _].
  assert (Hq : c_queue c ++ [chunk] <> []) by (by destruct (c_queue c)).
  assert (Hall : Forall is_data (cbs ++ [ZData chunk final])) by (apply Forall_app; auto).
  assert (Hfin : existsb is_final (cbs ++ [ZData chunk final]) = final).
  { rewrite existsb_app, Hf. simpl. by rewrite orb_false_r. }
  simpl. unfold enqueue, close, can_enqueue. rewrite Hr, Hcl. simpl.
  destruct final; simpl; [rewrite bool_decide_false by done|]; eexists; (split; [done|]); split; simpl; try done.
  1,3: by rewrite app_assoc, Hch, datas_app.
  by rewrite bool_decide_false.
Qed.

(** The outputs of a call reach the client's queue, or one of them is an error. *)
Lemma ondata_all_fed before cbs c :
  fed before c -> existsb is_final before = false ->
  (forall pre cb post, cbs = pre ++ cb :: post -> is_final cb = true -> post = []) ->
  (exists c', ondata_all cbs c = (c', None) /\ fed (before ++ cbs) c') \/
  (~ Forall is_data cbs /\ dead (ondata_all cbs c).1 /\ failed (ondata_all cbs c).1 /\
   c_taken (ondata_all cbs c).1 = c_taken c).
Proof.
  revert before c. induction cbs as [|cb cbs IH]; intros before c Hfed Hb Hlast.
  - left. exists c. by rewrite app_nil_r.
  - destruct cb as [e|chunk final].
    + right. destruct (fed_open _ _ Hfed Hb) as [Hr _].
      destruct (error_dead e c Hr) as (Hd & Hf & Ht). simpl.
      rewrite dead_ondata_all by done. split; [|done]. by inversion 1.
    + destruct (fed_chunk before c chunk final Hfed Hb) as (c' & Ho & Hfed'). cbn [ondata_all]. rewrite Ho.
      destruct final.
      * rewrite (Hlast [] (ZData chunk true) cbs) by done. left. by exists c'.
      * destruct (IH (before ++ [ZData chunk false]) c') as [(c'' & -> & H'')|(Hn & Hdead)]; [done| | | |].
        -- rewrite existsb_app, Hb. done.
        -- intros pre cb post -> Hcb. by apply (Hlast (ZData chunk false :: pre) cb post).
        -- left. exists c''. by rewrite <-app_assoc in H''.
        -- right. split; [intros Hf; by inversion Hf|].
           destruct Hdead as (? & ? & Ht). split; [done|]. split; [done|]. rewrite Ht.
           revert Ho. simpl. unfold enqueue. destruct (can_enqueue c); [by intros [= <-]|done].
Qed.

(** ** The states of a download *)

Section Download.
Context {L : Type} {HL : ZipLib L} (unzip : Chunk -> option (list (string * Chunk)))
  (supported : list (string * list Chunk) -> bool) {Hlaws : ZipLaws L unzip supported}
  (object : string -> list Chunk * option string) (files : list (string * string)).

Notation plan := (calls_from object 0 files).
Notation zip_after made := (fst (zip_run zip_new made)).

Lemma zip_outputs_snoc made k : outputs L (made ++ [k]) = outputs L made ++ snd (zip_call k (zip_after made)).
Proof. unfold outputs. rewrite zip_run_snoc. destruct (zip_run zip_new made) as [z cbs]. simpl. by destruct (zip_call k z). Qed.

Lemma zip_after_snoc made k : zip_after (made ++ [k]) = fst (zip_call k (zip_after made)).
Proof. rewrite zip_run_snoc. destruct (zip_run zip_new made) as [z cbs]. simpl. by destruct (zip_call k z). Qed.

Lemma ended_or_not (made : list ZipCall) : ZEnd ∈ made \/ ZEnd ∉ made.
Proof. induction made as [|[] made [|]]; set_solver. Qed.

(** A call of the plan: nothing was final before, and only its last output can be. *)
Lemma plan_call made k :
  made ++ [k] `prefix_of` fst plan ->
  existsb is_final (outputs L made) = false /\
  forall pre cb post, snd (zip_call k (zip_after made)) = pre ++ cb :: post -> is_final cb = true -> post = [].
Proof.
  intros [more Hplan]. destruct (calls_from_end object 0 files) as (front & Hfront & Hcase).
  assert (Hmade : ZEnd ∉ made /\ (k = ZEnd \/ ZEnd ∉ made ++ [k])).
  { assert (Hin : forall l, made ++ [k] ++ l = front -> ZEnd ∉ made /\ ZEnd ∉ made ++ [k]) by (intros l <-; set_solver).
    destruct Hcase as [(_ & Hc)|(_ & e & Hc)]; rewrite Hc in Hplan; simpl in Hplan.
    - destruct more as [|x more _] using rev_ind.
      + rewrite app_nil_r in Hplan. apply app_inj_tail in Hplan as [Hm Hk].
        split; [by rewrite <-Hm|by left].
      + rewrite app_assoc in Hplan. apply app_inj_tail in Hplan as [Hp _].
        rewrite <-app_assoc in Hp. destruct (Hin more); [done|]. split; [done|by right].
    - rewrite <-app_assoc in Hplan. destruct (Hin more); [done|]. split; [done|by right]. }
  destruct Hmade as [Hm Hk]. split; [by apply law_no_final|].
  intros pre cb post Ho Hcb. destruct Hk as [->|Hk].
  - apply (law_final made (outputs L made ++ pre) cb post); [done| |done].
    by rewrite zip_outputs_snoc, Ho, app_assoc.
  - apply law_no_final in Hk. rewrite zip_outputs_snoc, Ho, !existsb_app in Hk. simpl in Hk.
    by rewrite Hcb, !orb_true_r in Hk.
Qed.

(** The pump is on its way: [made] are the calls it has made. *)
Record good (made : list ZipCall) (s : ZipState L) : Prop := {
  good_calls : made ++ fst (todo object (z_pump s)) = fst plan;
  good_failure : snd (todo object (z_pump s)) = snd plan;
  good_zip : zip_after made = z_zip s;
  good_fed : fed (outputs L made) (z_ctl s) }.

(** What can make the download fail: an error of the library, or an object that cannot be read. *)
Definition doomed : Prop := ~ Forall is_data (outputs L (fst plan)) \/ snd plan <> None.

(** The stream is over; [gone] when the client may have left. *)
Definition stopped (gone : bool) (c : Controller) : Prop :=
  dead c /\ c_taken c `prefix_of` datas (outputs L (fst plan)) /\ (gone = true \/ (failed c /\ doomed)).

Definition ok (gone : bool) (s : ZipState L) : Prop := (exists made, good made s) \/ stopped gone (z_ctl s).

Lemma fed_taken made c :
  made `prefix_of` fst plan -> fed (outputs L made) c -> c_taken c `prefix_of` datas (outputs L (fst plan)).
Proof.
  intros [more ->] Hfed. etrans; [|apply datas_mono, outputs_mono]. rewrite <-(fed_chunks _ _ Hfed).
  by eexists.
Qed.

(** ** The pump's calls *)

(** A continuation that leaves a dead stream alone. *)
Definition keeps (after : L -> Controller -> ZipState L) : Prop :=
  forall z c, dead c -> z_ctl (after z c) = c.

Lemma calling_dead k z c after : dead c -> keeps after -> z_ctl (calling k z c after) = c.
Proof.
  intros Hd Ha. unfold calling. destruct (zip_call k z) as [z' cbs].
  pose proof (dead_ondata_all cbs c Hd) as Hc. destruct (ondata_all cbs c) as [c' [e|]]; simpl in *; subst c'; auto.
Qed.

Lemma next_dead n fs z c : dead c -> z_ctl (next object n fs z c) = c.
Proof.
  intros Hd. destruct fs as [|[name key] rest]; apply calling_dead; try done.
  intros z' c' _. by destruct (object key).
Qed.

Lemma calling_ok gone made k z c after :
  made ++ [k] `prefix_of` fst plan -> zip_after made = z -> fed (outputs L made) c -> keeps after ->
  (forall z' c', zip_after (made ++ [k]) = z' -> fed (outputs L (made ++ [k])) c' -> ok gone (after z' c')) ->
  ok gone (calling k z c after).
Proof.
  intros Hp <- Hfed Hkeep Hafter. destruct (plan_call made k Hp) as [Hf Hlast].
  assert (Htaken : c_taken c `prefix_of` datas (outputs L (fst plan))).
  { apply (fed_taken made); [|done]. etrans; [|exact Hp]. by exists [k]. }
  assert (Hsub : Forall is_data (outputs L (fst plan)) -> Forall is_data (snd (zip_call k (zip_after made)))).
  { destruct Hp as [more ->]. intros Hall. destruct (outputs_mono (L := L) (made ++ [k]) more) as [o Ho].
    rewrite Ho, zip_outputs_snoc in Hall. by apply Forall_app in Hall as [[_ Hall]%Forall_app _]. }
  rewrite zip_after_snoc, zip_outputs_snoc in Hafter. unfold calling.
  destruct (zip_call k (zip_after made)) as [z' cbs]. simpl in *.
  destruct (ondata_all_fed _ cbs c Hfed Hf Hlast) as [(c' & -> & H')|(Hn & Hd & He & Ht)]; [by apply Hafter|].
  destruct (ondata_all cbs c) as [c' thrown]. simpl in *. right.
  assert (Hs : stopped gone c').
  { split; [done|]. rewrite Ht. split; [done|]. right. split; [done|]. left. auto. }
  destruct thrown; [done|]. simpl. by rewrite Hkeep by apply Hs.
Qed.

Lemma next_ok gone made n fs z c :
  made ++ fst (calls_from object n fs) = fst plan -> snd (calls_from object n fs) = snd plan ->
  zip_after made = z -> fed (outputs L made) c -> ok gone (next object n fs z c).
Proof.
  intros Hc Hf Hz Hfed. destruct fs as [|[name key] rest]; simpl in *.
  - apply (calling_ok gone made); [by rewrite Hc|done..|].
    intros z' c' Hz' Hfed'. left. exists (made ++ [ZEnd]). split; simpl; [by rewrite app_nil_r|done..].
  - destruct (object key) as [chunks fails] eqn:E.
    apply (calling_ok gone made); [|done|done|by intros ??|].
    + rewrite <-Hc. destruct (object_calls n chunks fails (calls_from object (S n) rest)) as [calls failure].
      exists calls. by rewrite <-app_assoc.
    + intros z' c' Hz' Hfed'. left. exists (made ++ [ZAdd name]). revert Hc Hf.
      destruct (object_calls n chunks fails _) as [calls failure] eqn:Eo. simpl. intros Hc Hf.
      split; simpl; rewrite ?Eo; simpl; [by rewrite <-app_assoc|done..].
Qed.

(** ** The invariant *)

Lemma start_ok gone : ok gone (start object files).
Proof. apply (next_ok gone []); done. Qed.

Lemma good_prefix made s : good made s -> made `prefix_of` fst plan.
Proof. intros [<- _ _ _]. by eexists. Qed.

Lemma chunk_read_dead s : dead (z_ctl s) -> z_ctl (chunk_read object s) = z_ctl s.
Proof.
  intros Hd. unfold chunk_read. destruct (z_pump s) as [n [|chunk chunks] [e|] rest| |]; try done.
  all: apply calling_dead; [done|]; intros z c Hc; first [by apply next_dead|done].
Qed.

Lemma chunk_read_ok gone made s : good made s -> ok gone (chunk_read object s).
Proof.
  intros Hgood. destruct Hgood as [Hc Hf Hz Hfed] eqn:Hg. clear Hg. unfold chunk_read.
  destruct (z_pump s) as [n chunks fails rest|e|] eqn:Hp; [|left; by exists made..].
  destruct chunks as [|chunk chunks]; [destruct fails as [e|]|]; simpl in Hc, Hf.
  - left. exists made. by split.
  - apply (calling_ok gone made); [rewrite <-Hc; eexists; by rewrite <-app_assoc|done|done| |].
    + intros z c. apply next_dead.
    + intros z' c' Hz' Hfed'. apply (next_ok gone (made ++ [ZPush n [] true])); [by rewrite <-app_assoc|done..].
  - assert (Hk : made ++ [ZPush n chunk false] ++ fst (object_calls n chunks fails (calls_from object (S n) rest)) = fst plan).
    { rewrite <-Hc. by destruct fails. }
    apply (calling_ok gone made); [rewrite <-Hk; eexists; by rewrite <-app_assoc|done|done|by intros ??|].
    intros z' c' Hz' Hfed'. left. exists (made ++ [ZPush n chunk false]).
    split; simpl; [by rewrite <-app_assoc|by destruct fails|done..].
Qed.

(** With an object that fails the archive is not ended. *)
Lemma failing_not_final made : made = fst plan -> snd plan <> None -> existsb is_final (outputs L made) = false.
Proof.
  intros -> Hf. destruct (calls_from_end object 0 files) as (front & Hfront & [(_ & Hc)|(_ & e & Hc)]).
  - by rewrite Hc in Hf.
  - rewrite Hc. by apply law_no_final.
Qed.

Lemma caught_ok gone made s : good made s -> ok gone (caught s).
Proof.
  intros Hgood. pose proof (good_prefix _ _ Hgood) as Hpre. destruct Hgood as [Hc Hf Hz Hfed] eqn:Hg. clear Hg.
  unfold caught. destruct (z_pump s) as [n chunks fails rest|e|] eqn:Hp; [left; by exists made| |left; by exists made].
  simpl in Hc, Hf. rewrite app_nil_r in Hc. assert (Hdoom : snd plan <> None) by congruence.
  destruct (fed_open _ _ Hfed (failing_not_final made Hc Hdoom)) as [Hr _].
  destruct (error_dead e (z_ctl s) Hr) as (Hd & He & Ht). right. split; [done|]. simpl. rewrite Ht.
  split; [by apply (fed_taken made)|]. right. split; [done|by right].
Qed.

Lemma pull_fed cbs c : fed cbs c -> fed cbs (pull c).
Proof.
  intros Hfed. unfold pull. destruct Hfed as [Hd Hch Hcl Hs] eqn:Hf. clear Hf.
  destruct (c_state c) eqn:Es; [|done..]. destruct (c_queue c) as [|chunk queue] eqn:Eq; [done|].
  split; simpl; [done|by rewrite <-app_assoc|done..].
Qed.

Lemma pull_dead c : dead c -> pull c = c.
Proof. intros [Hs _]. unfold pull. by destruct (c_state c). Qed.

Lemma event_ok gone s ev : ok gone s -> (ev = Cancelled -> gone = true) -> ok gone (zip_event object s ev).
Proof.
  intros [[made Hgood]|Hstop] Hgone.
  - destruct ev; simpl.
    + by apply (chunk_read_ok gone made).
    + by apply (caught_ok gone made).
    + left. exists made. pose proof Hgood as [Hc Hf Hz Hfed]. split; try done. by apply pull_fed.
    + unfold on_controller, cancel. destruct (readable (z_ctl s)) eqn:Hr.
      * right. split; [done|]. split; [|left; by apply Hgone].
        apply (fed_taken made (z_ctl s)); [by eapply good_prefix|apply Hgood].
      * left. exists made. pose proof Hgood as [Hc Hf Hz Hfed]. by split.
  - right. assert (Hsame : z_ctl (zip_event object s ev) = z_ctl s); [|by rewrite Hsame].
    destruct Hstop as [Hd _]. destruct ev; simpl.
    + by apply chunk_read_dead.
    + unfold caught. destruct (z_pump s); try done. simpl. unfold error. by rewrite dead_not_readable.
    + by apply pull_dead.
    + unfold cancel. by rewrite dead_not_readable.
Qed.

Lemma events_ok gone s evs :
  ok gone s -> (Cancelled ∈ evs -> gone = true) -> ok gone (foldl (zip_event object) s evs).
Proof.
  revert s. induction evs as [|ev evs IH]; intros s Hs Hgone; [done|]. simpl.
  apply IH; [apply event_ok; [done|intros ->; apply Hgone; left]|intros Hin; apply Hgone; by right].
Qed.

Lemma streamed_ok gone evs : (Cancelled ∈ evs -> gone = true) -> ok gone (streamed object files evs).
Proof. apply events_ok, start_ok. Qed.

(** Whatever happens, the client has received a beginning of the archive. *)
Lemma received_prefix evs : c_taken (z_ctl (streamed object files evs)) `prefix_of` datas (outputs L (fst plan)).
Proof.
  destruct (streamed_ok true evs) as [[made Hgood]|(_ & Hp & _)]; [done| |done].
  apply (fed_taken made); [by eapply good_prefix|apply Hgood].
Qed.

(** ** The end of a download *)

(** A stream that ended without the client leaving has delivered everything. *)
Lemma closed_complete evs s :
  Cancelled ∉ evs -> streamed object files evs = s -> c_state (z_ctl s) = Closed ->
  snd plan = None /\ Forall is_data (outputs L (fst plan)) /\ c_taken (z_ctl s) = datas (outputs L (fst plan)).
Proof.
  intros Hgone <- Hcl. destruct (streamed_ok false evs) as [[made Hgood]|(_ & _ & [?|[[e He] _]])]; try done.
  2: congruence.
  pose proof Hgood as [Hc Hf Hz [Hd Hch Hclosing Hs]]. rewrite Hcl in Hs.
  destruct (c_closing _) eqn:Ec; [|done]. case_bool_decide as Hq; [|done]. rewrite Hq, app_nil_r in Hch. clear Hs.
  assert (Hmade : made = fst plan /\ snd plan = None).
  { destruct (calls_from_end object 0 files) as (front & Hfront & Hcase).
    assert (Hend : ZEnd ∈ made).
    { destruct (ended_or_not made) as [|Hn%law_no_final]; [done|congruence]. }
    destruct Hcase as [(_ & Hp)|(_ & e & Hp)]; rewrite Hp in Hc |- *; simpl in Hc |- *.
    - split; [|done]. destruct (fst (todo _ _)) as [|x more _] using rev_ind.
      + by rewrite app_nil_r in Hc.
      + rewrite app_assoc in Hc. apply app_inj_tail in Hc as [<- _]. set_solver.
    - subst front. set_solver. }
  destruct Hmade as [-> Hnone]. done.
Qed.

(** *** How many reads it takes *)

Definition count (ev : ZipEvent) (evs : list ZipEvent) : nat := length (filter (fun x => x = ev) evs).

(** Each object takes one read per chunk, and one more to see its end or its failure. *)
Definition reads_of (fs : list (string * string)) : nat :=
  sum_list ((fun f => S (length (fst (object (snd f))))) <$> fs).

Definition reads_left (p : Pump) : nat :=
  match p with
  | Reading _ chunks _ rest => S (length chunks) + reads_of rest
  | _ => 0
  end.

Lemma calling_reads m k z c after :
  (forall z' c', reads_left (z_pump (after z' c')) <= m) -> reads_left (z_pump (calling k z c after)) <= m.
Proof.
  intros Ha. unfold calling. destruct (zip_call k z). destruct (ondata_all _ _) as [? [?|]]; [simpl; lia|apply Ha].
Qed.

Lemma next_reads n fs z c : reads_left (z_pump (next object n fs z c)) <= reads_of fs.
Proof.
  destruct fs as [|[name key] rest]; apply calling_reads; intros z' c'; [done|].
  change (reads_of ((name, key) :: rest)) with (S (length (fst (object key))) + reads_of rest).
  destruct (object key). simpl. lia.
Qed.

Lemma event_reads s ev :
  reads_left (z_pump (zip_event object s ev)) <= reads_left (z_pump s) - (if decide (ev = ChunkRead) then 1 else 0).
Proof.
  destruct ev; simpl; try lia.
  - unfold chunk_read. destruct (z_pump s) as [n [|chunk chunks] [e|] rest| |] eqn:Hp; simpl; rewrite ?Hp; try done.
    + lia.
    + apply calling_reads. intros z c. rewrite (next_reads (S n) rest z c). lia.
    + apply calling_reads. intros z c. simpl. lia.
    + apply calling_reads. intros z c. simpl. lia.
  - unfold caught. destruct (z_pump s) eqn:Hp; simpl; rewrite ?Hp; simpl; lia.
Qed.

Lemma events_reads s evs : reads_left (z_pump (foldl (zip_event object) s evs)) <= reads_left (z_pump s) - count ChunkRead evs.
Proof.
  revert s. induction evs as [|ev evs IH]; intros s; simpl; [unfold count; simpl; lia|].
  rewrite (IH (zip_event object s ev)). pose proof (event_reads s ev) as He. unfold count in *.
  rewrite filter_cons. case_decide; simpl; lia.
Qed.

(** After enough reads the pump is over, and once its rejection is handled it is settled. *)
Lemma pump_over evs :
  reads_of files <= count ChunkRead evs -> reads_left (z_pump (streamed object files evs)) = 0.
Proof.
  intros Hn. unfold streamed. pose proof (events_reads (start object files) evs) as He.
  assert (Hs : reads_left (z_pump (start object files)) <= reads_of files) by apply next_reads. lia.
Qed.

Lemma settled_stays s evs : z_pump s = Settled -> z_pump (foldl (zip_event object) s evs) = Settled.
Proof.
  revert s. induction evs as [|ev evs IH]; intros s Hs; [done|]. apply IH.
  destruct ev; simpl; unfold chunk_read, caught; by rewrite ?Hs.
Qed.

Lemma caught_settles s evs :
  reads_left (z_pump s) = 0 -> Caught ∈ evs -> z_pump (foldl (zip_event object) s evs) = Settled.
Proof.
  revert s. induction evs as [|ev evs IH]; intros s Hs Hin; [by apply not_elem_of_nil in Hin|].
  simpl. apply elem_of_cons in Hin as [<-|Hin].
  - apply settled_stays. simpl. unfold caught. by destruct (z_pump s) eqn:Hp.
  - apply IH; [|done]. pose proof (event_reads s ev). lia.
Qed.

(** Once the pump is settled the client's reads empty the queue. *)
Lemma queue_drains cbs s evs :
  z_pump s = Settled -> fed cbs (z_ctl s) -> Cancelled ∉ evs ->
  fed cbs (z_ctl (foldl (zip_event object) s evs)) /\
  length (c_queue (z_ctl (foldl (zip_event object) s evs))) <= length (c_queue (z_ctl s)) - count Pulled evs.
Proof.
  revert s. induction evs as [|ev evs IH]; intros s Hs Hfed Hnc; simpl; [split; [done|unfold count; simpl; lia]|].
  assert (Hev : fed cbs (z_ctl (zip_event object s ev)) /\ z_pump (zip_event object s ev) = Settled /\
    length (c_queue (z_ctl (zip_event object s ev))) <=
      length (c_queue (z_ctl s)) - (if decide (ev = Pulled) then 1 else 0)).
  { destruct ev; simpl; unfold chunk_read, caught; rewrite ?Hs.
    - split_and!; [done..|lia].
    - split_and!; [done..|lia].
    - split_and!; [by apply pull_fed|done|]. destruct Hfed as [_ _ _ Hst]. unfold pull.
      destruct (c_queue (z_ctl s)) as [|chunk queue] eqn:Hq; [destruct (c_state _); rewrite Hq; simpl; lia|].
      rewrite bool_decide_false, andb_false_r in Hst by done. rewrite Hst. simpl. lia.
    - set_solver. }
  destruct Hev as (Hfed' & Hs' & Hlen). destruct (IH _ Hs' Hfed') as [Hend Hq]; [set_solver|]. split; [done|].
  unfold count in *. rewrite filter_cons. case_decide; simpl; lia.
Qed.
(** *** Nothing slows the pump down *)

Lemma ondata_all_taken cbs c : c_taken (ondata_all cbs c).1 = c_taken c.
Proof.
  revert c. induction cbs as [|cb cbs IH]; intros c; [done|]. simpl.
  assert (Hc : c_taken (ondata cb c).1 = c_taken c).
  { destruct cb as [e|chunk final]; simpl; unfold error, enqueue, close; repeat case_match; simplify_eq; done. }
  destruct (ondata cb c) as [c' [e|]]; simpl in *; by rewrite ?IH.
Qed.

Lemma calling_taken k z c after t :
  (forall z' c', c_taken c' = t -> c_taken (z_ctl (after z' c')) = t) ->
  c_taken c = t -> c_taken (z_ctl (calling k z c after)) = t.
Proof.
  intros Ha Hc. unfold calling. destruct (zip_call k z) as [z' cbs].
  pose proof (ondata_all_taken cbs c) as Ht. destruct (ondata_all cbs c) as [c' [e|]]; simpl in *; [congruence|].
  apply Ha. congruence.
Qed.

Lemma next_taken n fs z c t : c_taken c = t -> c_taken (z_ctl (next object n fs z c)) = t.
Proof.
  intros Hc. destruct fs as [|[name key] rest]; apply calling_taken; try done.
  intros z' c' Ht. by destruct (object key).
Qed.

Lemma reads_taken n : c_taken (z_ctl (streamed object files (replicate n ChunkRead))) = [].
Proof.
  unfold streamed. assert (Hs : c_taken (z_ctl (start object files)) = []) by by apply next_taken.
  revert Hs. generalize (start object files). induction n as [|n IH]; intros s Hs; [done|]. simpl. apply IH.
  unfold chunk_read. destruct (z_pump s) as [m [|chunk chunks] [e|] rest| |]; try done.
  all: apply calling_taken; [|done]; intros z c; first [apply next_taken|done].
Qed.

(** ** What a download delivers *)

(** The files as the store holds them, in the chunks it gives and as wholes. *)
Definition entries : list (string * list Chunk) := (fun '(name, key) => (name, fst (object key))) <$> files.
Definition file_bytes : list (string * Chunk) := (fun '(name, key) => (name, concat (fst (object key)))) <$> files.

Notation all_whole := (Forall (whole object) (snd <$> files)).

Lemma entries_bytes : (fun '(name, chunks) => (name, concat chunks)) <$> entries = file_bytes.
Proof. unfold entries, file_bytes. rewrite <-list_fmap_compose. apply list_fmap_ext. by intros i [name key]. Qed.

Lemma plan_failure : snd plan = None <-> all_whole.
Proof.
  destruct (calls_from_end object 0 files) as (front & _ & [(Hw & ->)|(Hw & e & ->)]); split; try done.
Qed.

Lemma plan_archive :
  all_whole -> supported entries = true ->
  Forall is_data (outputs L (fst plan)) /\ existsb is_final (outputs L (fst plan)) = true /\
  unzip (concat (datas (outputs L (fst plan)))) = Some file_bytes.
Proof.
  intros Hw Hs. rewrite (calls_from_whole object 0 files Hw). simpl. rewrite <-entries_bytes. by apply law_archive.
Qed.

(** The pump runs to its end whatever the client does, short of leaving. *)
Lemma pump_completes evs :
  Cancelled ∉ evs -> all_whole -> supported entries = true -> reads_of files <= count ChunkRead evs ->
  z_pump (streamed object files evs) = Settled /\ fed (outputs L (fst plan)) (z_ctl (streamed object files evs)).
Proof.
  intros Hnc Hw Hs Hn. pose proof (proj2 plan_failure Hw) as Hnone. destruct (plan_archive Hw Hs) as [Hd _].
  destruct (streamed_ok false evs) as [[made [Hc Hf _ Hfed]]|(_ & _ & [?|[_ [?|?]]])]; try done.
  apply pump_over in Hn. destruct (z_pump (streamed object files evs)) as [| |]; simpl in *; [done|congruence|].
  rewrite app_nil_r in Hc. by subst made.
Qed.

(** When the stream ends, the client has the archive of all the files. *)
Lemma ended_delivered evs :
  Cancelled ∉ evs -> c_state (z_ctl (streamed object files evs)) = Closed ->
  all_whole /\
  (supported entries = true -> unzip (concat (c_taken (z_ctl (streamed object files evs)))) = Some file_bytes).
Proof.
  intros Hnc Hcl. destruct (closed_complete evs _ Hnc eq_refl Hcl) as (Hf & _ & ->).
  assert (Hw : all_whole) by (by apply plan_failure). split; [done|]. intros Hs. by apply plan_archive.
Qed.

(** It does end: after enough reads, and as many chunks taken as there are. *)
Lemma download_ends evs1 evs2 :
  Cancelled ∉ evs1 ++ evs2 -> all_whole -> supported entries = true ->
  reads_of files <= count ChunkRead evs1 -> length (datas (outputs L (fst plan))) <= count Pulled evs2 ->
  c_state (z_ctl (streamed object files (evs1 ++ evs2))) = Closed.
Proof.
  intros Hnc Hw Hs Hr Hp. destruct (pump_completes evs1) as [Hpump Hfed]; [set_solver|done..|].
  destruct (plan_archive Hw Hs) as (_ & Hfin & _). unfold streamed in *. rewrite foldl_app.
  destruct (queue_drains _ _ evs2 Hpump Hfed) as [[_ _ Hclosing ->] Hlen]; [set_solver|].
  assert (Hq : length (c_queue (z_ctl (foldl (zip_event object) (start object files) evs1))) <=
    length (datas (outputs L (fst plan)))).
  { rewrite <-(fed_chunks _ _ Hfed), length_app. lia. }
  rewrite Hclosing, Hfin, bool_decide_true; [done|]. apply nil_length_inv. lia.
Qed.

(** An object that cannot be read fails the download. *)
Lemma download_fails evs1 evs2 :
  Cancelled ∉ evs1 ++ evs2 -> ~ all_whole ->
  reads_of files <= count ChunkRead evs1 -> Caught ∈ evs2 ->
  failed (z_ctl (streamed object files (evs1 ++ evs2))).
Proof.
  intros Hnc Hw Hr Hcaught. apply pump_over in Hr.
  destruct (streamed_ok false (evs1 ++ evs2)) as [[made [Hc Hf _ _]]|(_ & _ & [?|[? _]])]; try done.
  exfalso. apply Hw, plan_failure. rewrite <-Hf. unfold streamed in *. rewrite foldl_app.
  by rewrite (caught_settles _ evs2 Hr Hcaught).
Qed.

(** The pump does not wait for the client: a client that takes nothing makes the server
    hold the whole archive. *)
Theorem no_back_pressure :
  all_whole -> supported entries = true ->
  exists evs, c_taken (z_ctl (streamed object files evs)) = [] /\ z_pump (streamed object files evs) = Settled /\
    unzip (concat (c_queue (z_ctl (streamed object files evs)))) = Some file_bytes.
Proof.
  intros Hw Hs. exists (replicate (reads_of files) ChunkRead). pose proof (reads_taken (reads_of files)) as Ht.
  destruct (pump_completes (replicate (reads_of files) ChunkRead)) as [Hp Hfed]; [|done|done| |].
  - intros [? _]%elem_of_replicate. done.
  - assert (Hn : forall n, count ChunkRead (replicate n ChunkRead) = n).
    { induction n as [|n IH]; [done|]. unfold count in *. cbn [replicate].
      rewrite filter_cons_True by done. simpl. by rewrite IH. }
    by rewrite Hn.
  - split; [done|]. split; [done|]. pose proof (fed_chunks _ _ Hfed) as Hch. rewrite Ht in Hch.
    simpl in Hch. rewrite Hch. by apply plan_archive.
Qed.
End Download.

(** ** The handler *)

(** The headers and the body of the answer. *)
Record ZipResponse (L : Type) := mkZipResponse {
  zr_type : string; zr_disposition : string; zr_files : list (string * string); zr_body : ZipState L }.
Arguments mkZipResponse {L}. Arguments zr_type {L}. Arguments zr_disposition {L}.
Arguments zr_files {L}. Arguments zr_body {L}.

Section Handler.
Context {DB : Type} `{SqlLaws DB} {env : Env}.
Context (text_le_total : forall a b, text_le a b = true \/ text_le b a = true).
Context (text_le_trans : forall a b c, text_le a b = true -> text_le b c = true -> text_le a c = true).
Context {L : Type} {HL : ZipLib L} (unzip : Chunk -> option (list (string * Chunk)))
  (supported : list (string * list Chunk) -> bool) {Hlaws : ZipLaws L unzip supported}
  (object : string -> list Chunk * option string).

Definition quoted (s : string) : string :=
  String (Ascii.ascii_of_nat 34) (s +:+ String (Ascii.ascii_of_nat 34) "").

Abbreviation Handler := (M (World DB) HttpError).

(** The whole handler: the entries, then the stream built on them. *)
Definition zip_handler (session : option SessionUser) (id : option string) : Handler (ZipResponse L) :=
  files ← get_zip session id;
  mret (mkZipResponse "application/zip" ("attachment; filename=" +:+ quoted ("run-" +:+ (id ⁇ "") +:+ ".zip"))
    files (start object files)).

(** C28. Downloading all of a run's files.  The handler serves those who may see the run, and
    changes nothing; its entries are the run's files, under distinct names unless a file is
    named like the numbered form of another.  In whatever order the server's reads and
    the client's proceed, as long as the client stays: a stream that ends normally has
    delivered an archive of exactly the files with the bytes the store holds; it
    does end, after one read per chunk and one more per object and once the client has taken
    the chunks; and when some object cannot be read, the stream ends in an error and
    never normally.  (What the archive contains, and that the stream ends, is stated for
    files the ZIP format supports the sizes of.) *)
Theorem zip_download session id (w w' : World DB) resp :
  keys_ok (db_rows (w_db w)) ->
  zip_handler session id w = (w', Ok resp) ->
  let streaming := foldl (zip_event object) (zr_body resp) in
  let files := zr_files resp in
  w' = w /\
  exists user r fs, session = Some user /\ id = Some (rn_id r) /\
    r ∈ rows (db_rows (w_db w)) TRuns /\ can_view (R := run_resource) (db_rows (w_db w)) (u_id user) r /\
    fs ≡ₚ js_filter (fun f => rf_runId f === rn_id r) (rows (db_rows (w_db w)) TRunFiles) /\
    snd <$> files = rf_s3Key <$> fs /\ (no_clash (rf_name <$> fs) -> NoDup (fst <$> files)) /\
    (forall evs, Cancelled ∉ evs -> c_state (z_ctl (streaming evs)) = Closed ->
       Forall (whole object) (rf_s3Key <$> fs) /\
       (supported (entries object files) = true ->
        unzip (concat (c_taken (z_ctl (streaming evs)))) = Some (file_bytes object files))) /\
    (forall evs1 evs2, Cancelled ∉ evs1 ++ evs2 ->
       Forall (whole object) (rf_s3Key <$> fs) -> supported (entries object files) = true ->
       reads_of object files <= count ChunkRead evs1 ->
       length (datas (outputs L (zip_calls 0 (entries object files)))) <= count Pulled evs2 ->
       c_state (z_ctl (streaming (evs1 ++ evs2))) = Closed) /\
    (forall evs1 evs2, Cancelled ∉ evs1 ++ evs2 -> ~ Forall (whole object) (rf_s3Key <$> fs) ->
       reads_of object files <= count ChunkRead evs1 -> Caught ∈ evs2 ->
       failed (z_ctl (streaming (evs1 ++ evs2)))).
Proof.
  intros Hk Hrun. apply run_bind_Ok_inv in Hrun as (w1 & files & Hz & Hrun).
  unfold mret, M_ret in Hrun. injection Hrun as <- <-. simpl.
  pose proof (get_zip_reads _ _ _ _ _ Hz) as ->. split; [done|].
  destruct (get_zip_entries text_le_total text_le_trans _ _ _ _ _ Hk Hz)
    as (user & r & fs & Hu & Hid & Hr & Hview & Hfs & _ & _ & Hkeys & Hnames).
  exists user, r, fs. rewrite <-Hkeys. do 7 (split; [done|]). split; [|split].
  - intros evs. by apply ended_delivered.
  - intros evs1 evs2 Hnc Hw Hs Hn Hp. apply (download_ends unzip supported); try done.
    by rewrite (calls_from_whole object 0 files Hw).
  - intros evs1 evs2. by apply (download_fails unzip supported).
Qed.
End Handler.
