(* ===== verification/LibraryApi.v ===== *)
(** * The pipeline, data, upload and block endpoints ([web_ui/server/api]) *)

From S2P Require Export Server.

Section Library.
Context {DB : Type} `{Sql DB} {env : Env}.
Abbreviation Handler := (M (World DB) HttpError).

(** ** Pipelines *)

Record CreatePipelineBody := mkCreatePipelineBody {
  cb_name : option string; cb_description : option string; cb_version : option string;
  cb_yaml : option string; cb_visibility : option Visibility }.

Definition create_pipeline (session : option SessionUser) (body : option CreatePipelineBody)
    : Handler PipelineRow :=
  user ← requireUser session;
  if negb (otruthy (body ≫= cb_yaml)) || negb (otruthy (body ≫= cb_name))
  then throw (Http 400 "name and yaml are required")
  else
    resolved ← accept_document ((body ≫= cb_yaml) ⁇ "");
    let resolvedYaml := yaml_stringify resolved in
    id ← match p_id resolved with Some id => mret id | None => v7 end;
    time ← now;
    write (PipelineRepo.create time
      (PipelineRepo.mkNewPipeline id (u_id user) ((body ≫= cb_name) ⁇ "")
         (match body ≫= cb_description with Some d => Some d | None => p_description resolved end)
         (match body ≫= cb_version with Some v => v | None => p_version resolved ⁇ "0.1.0" end)
         resolvedYaml ((body ≫= cb_visibility) ⁇ Private))).

Definition list_pipelines (session : option SessionUser) (scope : option string)
    : Handler (list PipelineRow) :=
  user ← requireUser session;
  let scope := scope ⁇ "mine" in
  if scope === "shared" then read (PipelineRepo.listSharedWith (u_id user))
  else if scope === "public" then read PipelineRepo.listPublic
  else read (PipelineRepo.listOwnedBy (u_id user)).

Definition get_pipeline (session : option SessionUser) (id : option string) : Handler PipelineRow :=
  user ← requireUser session;
  id ← routerId "Missing id" id;
  row ← read (PipelineRepo.getByIdForUser id (u_id user));
  orThrow (Http 404 "Not found") row.

(** The body is passed to the update as it is, so it may hold any column. *)
Definition put_pipeline (session : option SessionUser) (id : option string)
    (body : PipelineRepo.PipelinePatch) : Handler PipelineRow :=
  user ← requireUser session;
  id ← routerId "Missing id" id;
  time ← now;
  updated ← write (PipelineRepo.update time id (u_id user) body);
  orThrow (Http 403 "Not your pipeline") updated.

Definition delete_pipeline (session : option SessionUser) (id : option string) : Handler unit :=
  user ← requireUser session;
  id ← routerId "Missing id" id;
  ok ← write (PipelineRepo.delete id (u_id user));
  guard_http ok (Http 403 "Not your pipeline").

Definition share_pipeline (session : option SessionUser) (id email : option string)
    (permission : option Permission) : Handler unit :=
  user ← requireUser session;
  id ← routerId "Missing id" id;
  if negb (otruthy email) then throw (Http 400 "email required")
  else
    found ← read (findUser (email ⁇ ""));
    target ← orThrow (Http 404 "No user with that email") found;
    time ← now;
    ok ← write (PipelineRepo.share time id (u_id user) (us_id target) (permission ⁇ View));
    guard_http ok (Http 403 "Not your pipeline").

Definition unshare_pipeline (session : option SessionUser) (id userId : option string) : Handler unit :=
  user ← requireUser session;
  id ← routerId "Missing id" id;
  let userId := userId ⁇ "" in
  if negb (truthy userId) then throw (Http 400 "userId query param required")
  else
    ok ← write (PipelineRepo.unshare id (u_id user) userId);
    guard_http ok (Http 403 "Not your pipeline").

(** ** Data files *)

Definition list_data (session : option SessionUser) (scope : option string) : Handler (list DataFileRow) :=
  user ← requireUser session;
  let scope := scope ⁇ "mine" in
  if scope === "shared" then read (DataFileRepo.listSharedWith (u_id user))
  else if scope === "public" then read DataFileRepo.listPublic
  else read (DataFileRepo.listOwnedBy (u_id user)).

(** The row and a presigned download URL for its key. *)
Definition get_data (session : option SessionUser) (id : option string) : Handler (DataFileRow * string) :=
  user ← requireUser session;
  id ← routerId "Missing id" id;
  found ← read (DataFileRepo.getByIdForUser id (u_id user));
  row ← orThrow (Http 404 "Not found") found;
  mret (row, presign "GET" (df_s3Key row) None (60 * 10)).

(** [useS3().delete(key)]: a failure is an exception. *)
Definition s3_delete (key : string) : Handler unit := fun w =>
  if s3_delete_fails key then (w, Throw (Uncaught "S3"))
  else (mkWorld (w_db w) (w_uuids w) (w_ticks w) (w_s3_deleted w ++ [key]), Ok tt).

Definition delete_data (session : option SessionUser) (id : option string) : Handler unit :=
  user ← requireUser session;
  id ← routerId "Missing id" id;
  found ← write (DataFileRepo.delete id (u_id user));
  removed ← orThrow (Http 403 "Not your data file") found;
  try_catch (s3_delete (df_s3Key removed)) (fun _ => mret tt).

Definition share_data (session : option SessionUser) (id email : option string)
    (permission : option Permission) : Handler unit :=
  user ← requireUser session;
  id ← routerId "Missing id" id;
  if negb (otruthy email) then throw (Http 400 "email required")
  else
    found ← read (findUser (email ⁇ ""));
    target ← orThrow (Http 404 "No user with that email") found;
    time ← now;
    ok ← write (DataFileRepo.share time id (u_id user) (us_id target) (permission ⁇ View));
    guard_http ok (Http 403 "Not your data file").

(** ** Uploads *)

Record InitBody := mkInitBody {
  ib_name : option string; ib_mimeType : option string; ib_sizeBytes : option Z }.

Record InitResponse := mkInitResponse {
  ir_dataFileId : string; ir_s3Key : string; ir_uploadUrl : string; ir_mimeType : string; ir_expiresIn : Z }.

(** A missing size compares false with [<= 0] and is let through. *)
Definition upload_init (session : option SessionUser) (body : option InitBody) : Handler InitResponse :=
  user ← requireUser session;
  if negb (otruthy (body ≫= ib_name)) || negb (otruthy (body ≫= ib_mimeType))
  then throw (Http 400 "name and mimeType required")
  else if match body ≫= ib_sizeBytes with Some n => (n <=? 0)%Z | None => false end
  then throw (Http 400 "sizeBytes must be > 0")
  else
    dataFileId ← v7;
    let s3Key := "data/" +:+ u_id user +:+ "/" +:+ dataFileId +:+ "/" +:+ ((body ≫= ib_name) ⁇ "") in
    let mime := (body ≫= ib_mimeType) ⁇ "" in
    mret (mkInitResponse dataFileId s3Key (presign "PUT" s3Key (Some mime) (60 * 30)) mime (60 * 30)).

Record CompleteBody := mkCompleteBody {
  ub_dataFileId : option string; ub_s3Key : option string; ub_name : option string;
  ub_mimeType : option string; ub_sizeBytes : option Z; ub_visibility : option Visibility }.

Definition nonzero (o : option Z) : bool := match o with Some n => negb (n === 0%Z) | None => false end.

Definition upload_complete (session : option SessionUser) (body : option CompleteBody) : Handler DataFileRow :=
  user ← requireUser session;
  if negb (otruthy (body ≫= ub_dataFileId)) || negb (otruthy (body ≫= ub_s3Key)) ||
     negb (otruthy (body ≫= ub_name)) || negb (otruthy (body ≫= ub_mimeType)) ||
     negb (nonzero (body ≫= ub_sizeBytes))
  then throw (Http 400 "Missing fields")
  else
    time ← now;
    write (DataFileRepo.create time
      (DataFileRepo.mkNewDataFile ((body ≫= ub_dataFileId) ⁇ "") (u_id user) ((body ≫= ub_name) ⁇ "")
         ((body ≫= ub_sizeBytes) ⁇ 0%Z) ((body ≫= ub_mimeType) ⁇ "") ((body ≫= ub_s3Key) ⁇ "")
         ((body ≫= ub_visibility) ⁇ Private))).

(** ** Blocks *)

(** The body of the upload: raw YAML (whose parse is a manifest or an exception),
    or JSON with a label and a manifest. *)
Inductive BlockUpload :=
  | RawYaml (raw : option string)
  | JsonBody (body : option (option string * option BlockManifest)).

(** [parse_manifest] is [YAML.parse] used on a manifest; [None] is an empty document. *)
Definition upload_manifest (parse_manifest : string -> result string (option BlockManifest))
    (upload : BlockUpload) : Handler (string * BlockManifest) :=
  match upload with
  | RawYaml raw =>
      if negb (otruthy raw) then throw (Http 400 "Empty body")
      else
        match parse_manifest (raw ⁇ "") with
        | Ok (Some manifest) => mret (mf_id manifest, manifest)
        | Ok None => throw (Uncaught "TypeError")
        | Throw e => throw (Uncaught e)
        end
  | JsonBody body =>
      match body ≫= snd with
      | None => throw (Http 400 "Missing `manifest` in body")
      | Some manifest => mret ((body ≫= fst) ⁇ mf_id manifest, manifest)
      end
  end.

Definition upload_block (parse_manifest : string -> result string (option BlockManifest))
    (session : option SessionUser) (upload : BlockUpload) : Handler BlockRow :=
  user ← requireUser session;
  _ ← guard_http (u_role user === "admin") (Http 403 "Admin only");
  lm ← upload_manifest parse_manifest upload;
  let '(label, manifest) := lm in
  if negb (truthy (mf_id manifest)) || negb (truthy (mf_version manifest))
  then throw (Http 400 "Manifest missing required `id` or `version`")
  else
    t0 ← now; t1 ← now;
    write (BlockRepo.upsert t0 t1 label manifest).

Definition list_blocks : Handler (list BlockListItem) :=
  rows ← read (BlockRepo.listAll text_le);
  mret ((fun row =>
           mkListItem (mf_id (bk_manifest row)) (bk_name row) (bk_label row) (mf_kind (bk_manifest row))
             (mf_network (bk_manifest row)) (mf_description (bk_manifest row))) <$> rows).

Definition get_block (id : option string) : Handler BlockManifest :=
  id ← routerId "Missing block id" id;
  found ← read (BlockRepo.getByName id);
  row ← orThrow (Http 404 "Block not found") found;
  mret (bk_manifest row).
End Library.
