(* ===== verification/Router.v ===== *)
(** * The HTTP interface of the server ([web_ui/server/api])

    One constructor of [request] per route over the database and the object store, and
    [handle], which runs the handler of the file the route names.  The one other
    route of the repository, [pipeline/save.post.ts], writes files and is added in
    [AllRoutes]; those below [api/auth] are the auth library's.  [RouterConfig] holds the runtime configuration and
    what the handlers take from the platform. *)

From S2P Require Export RunsApi LibraryApi.

Class RouterConfig := {
  (** [config.workerCallbackSecret] and [process.env.WORKER_CALLBACK_SECRET] *)
  rc_secret : option string;
  rc_env_secret : option string;
  (** [YAML.parse] on the text of a manifest *)
  rc_parse_manifest : string -> result string (option BlockManifest) }.

Inductive request :=
  (* api/runs *)
  | PostRun (body : option SubmitBody)
  | ListRuns (scope : option string)
  | GetRun (id : option string)
  | GetRunFile (id name redirect : option string)
  | GetRunZip (id : option string)
  | PutRun (id : option string) (visibility : option Visibility)
  | ShareRun (id email : option string) (permission : option Permission)
  | UnshareRun (id userId : option string)
  | PatchRun (auth id : option string) (body : option PatchBody)
  (* api/pipelines *)
  | PostPipeline (body : option CreatePipelineBody)
  | ListPipelines (scope : option string)
  | GetPipeline (id : option string)
  | PutPipeline (id : option string) (body : PipelineRepo.PipelinePatch)
  | DeletePipeline (id : option string)
  | SharePipeline (id email : option string) (permission : option Permission)
  | UnsharePipeline (id userId : option string)
  (* api/data and api/uploads/data *)
  | ListData (scope : option string)
  | GetData (id : option string)
  | DeleteData (id : option string)
  | ShareData (id email : option string) (permission : option Permission)
  | UploadInit (body : option InitBody)
  | UploadComplete (body : option CompleteBody)
  (* api/blocks *)
  | PostBlock (upload : BlockUpload)
  | ListBlocks
  | GetBlock (id : option string).

Inductive response :=
  | RRun (r : RunRow)
  | RRuns (l : list RunRow)
  | RRunDetails (d : RunWithDetails)
  | RFile (f : FileResponse)
  | RArchive (entries : list (string * string))
  | RPipeline (p : PipelineRow)
  | RPipelines (l : list PipelineRow)
  | RData (d : DataFileRow)
  | RDataUrl (d : DataFileRow) (url : string)
  | RDataFiles (l : list DataFileRow)
  | RUpload (u : InitResponse)
  | RBlock (b : BlockRow)
  | RBlocks (l : list BlockListItem)
  | RManifest (m : BlockManifest)
  | ROk.

Section Router.
Context {DB : Type} `{Sql DB} {env : Env} {cfg : RouterConfig}.
Abbreviation Handler := (M (World DB) HttpError).

(** The value of a handler, as the body of the response. *)
Definition respond {A} (f : A -> response) (m : Handler A) : Handler response := x ← m; mret (f x).
Definition done (m : Handler unit) : Handler response := respond (fun _ => ROk) m.

Definition handle (session : option SessionUser) (req : request) : Handler response :=
  match req with
  | PostRun body => respond RRun (submit session body)
  | ListRuns scope => respond RRuns (list_runs session scope)
  | GetRun id => respond RRunDetails (get_run session id)
  | GetRunFile id name redirect => respond RFile (get_file session id name redirect)
  | GetRunZip id => respond RArchive (get_zip session id)
  | PutRun id visibility => respond RRun (put_run session id visibility)
  | ShareRun id email permission => done (share_run session id email permission)
  | UnshareRun id userId => done (unshare_run session id userId)
  | PatchRun auth id body => done (patch_run rc_secret rc_env_secret auth id body)
  | PostPipeline body => respond RPipeline (create_pipeline session body)
  | ListPipelines scope => respond RPipelines (list_pipelines session scope)
  | GetPipeline id => respond RPipeline (get_pipeline session id)
  | PutPipeline id body => respond RPipeline (put_pipeline session id body)
  | DeletePipeline id => done (delete_pipeline session id)
  | SharePipeline id email permission => done (share_pipeline session id email permission)
  | UnsharePipeline id userId => done (unshare_pipeline session id userId)
  | ListData scope => respond RDataFiles (list_data session scope)
  | GetData id => respond (fun '(d, url) => RDataUrl d url) (get_data session id)
  | DeleteData id => done (delete_data session id)
  | ShareData id email permission => done (share_data session id email permission)
  | UploadInit body => respond RUpload (upload_init session body)
  | UploadComplete body => respond RData (upload_complete session body)
  | PostBlock upload => respond RBlock (upload_block rc_parse_manifest session upload)
  | ListBlocks => respond RBlocks list_blocks
  | GetBlock id => respond RManifest (get_block id)
  end.

(** ** Classes of requests *)

(** Requests that need no session: the worker's callback and the catalogue. *)
Definition anonymous (req : request) : bool :=
  match req with PatchRun _ _ _ | ListBlocks | GetBlock _ => true | _ => false end.

(** Requests that come from the worker, not from a user. *)
Definition from_worker (req : request) : bool :=
  match req with PatchRun _ _ _ => true | _ => false end.

(** The GET routes. *)
Definition is_read (req : request) : bool :=
  match req with
  | ListRuns _ | GetRun _ | GetRunFile _ _ _ | GetRunZip _ | ListPipelines _ | GetPipeline _
  | ListData _ | GetData _ | ListBlocks | GetBlock _ => true
  | _ => false
  end.

(** A sequence of requests, one after the other; the world after it. *)
Fixpoint serve (l : list (option SessionUser * request)) (w : World DB) : World DB :=
  match l with
  | [] => w
  | (session, req) :: l' => serve l' (handle session req w).1
  end.
End Router.
