(* ===== verification/Isolation.v ===== *)
(** * Who can change what

    The handlers of [Router] against the owners of the rows: what the requests of
    one user leave alone, one request at a time ([frame]) and along any sequence of
    requests ([untouched]). *)

From S2P Require Export Router Steps.

(** ** What a user's request leaves alone *)

(** The run, or the run without its link to a deleted pipeline of the user. *)
Definition unlinked (c : contents) (u : string) (r r' : RunRow) : Prop :=
  r' = r \/
  exists p, p ∈ rows c TPipelines /\ pl_ownerId p = u /\ rn_pipelineId r = Some (pl_id p) /\
    r' = unlink_run (fun _ => true) r.

(** The rows of a table after a request of the user, against the database before. *)
Definition table_frame (user : SessionUser) (c : contents) (t : table) : list (row t) -> Prop :=
  match t return list (row t) -> Prop with
  | TUsers => fun l => l ≡ₚ rows c TUsers
  | TRunFiles => fun l => l ≡ₚ rows c TRunFiles
  | TRunLogs => fun l => l ≡ₚ rows c TRunLogs
  | TBlocks => fun l => u_role user <> "admin" -> l ≡ₚ rows c TBlocks
  | TPipelines => fun l => forall p, p ∈ rows c TPipelines -> pl_ownerId p <> u_id user -> p ∈ l
  | TDataFiles => fun l => forall d, d ∈ rows c TDataFiles -> df_ownerId d <> u_id user -> d ∈ l
  | TRuns => fun l => forall r, r ∈ rows c TRuns -> rn_ownerId r <> u_id user ->
      exists r', r' ∈ l /\ unlinked c (u_id user) r r'
  | TPipelineShares => fun l => forall s,
      ~ owns (R := pipeline_resource) c (u_id user) (sh_resource s) -> s ∈ l <-> s ∈ rows c TPipelineShares
  | TRunShares => fun l => forall s,
      ~ owns (R := run_resource) c (u_id user) (sh_resource s) -> s ∈ l <-> s ∈ rows c TRunShares
  | TDataFileShares => fun l => forall s,
      ~ owns (R := dataFile_resource) c (u_id user) (sh_resource s) -> s ∈ l <-> s ∈ rows c TDataFileShares
  end.

Definition frame (user : SessionUser) (c c' : contents) : Prop :=
  forall t, table_frame user c t (rows c' t).

Lemma table_frame_same user c t l : l ≡ₚ rows c t -> table_frame user c t l.
Proof.
  destruct t; simpl; intros Hl; try done; intros x;
    try (intros _; by rewrite Hl); intros Hx _; try (by rewrite Hl).
  exists x. split; [by rewrite Hl | by left].
Qed.

Lemma frame_same user c c' : same_rows c' c -> frame user c c'.
Proof. intros Hs t. apply table_frame_same, Hs. Qed.

(** A request that changes one table. *)
Lemma frame_one user c c' t l :
  same_rows c' (set_rows t c l) -> (forall l', l' ≡ₚ l -> table_frame user c t l') -> frame user c c'.
Proof.
  intros Hs Hl t'. destruct (decide (t = t')) as [->|Hne].
  - apply Hl. by rewrite (Hs t'), rows_set_eq.
  - apply table_frame_same. by rewrite (Hs t'), rows_set_ne.
Qed.

Definition owned_table (t : table) : Prop := t = TPipelines \/ t = TRuns \/ t = TDataFiles.

Lemma frame_insert user c c' t r :
  owned_table t -> same_rows c' (set_rows t c (rows c t ++ [r])) -> frame user c c'.
Proof.
  intros Ht Hs. eapply frame_one; [exact Hs|]. intros l' Hl.
  destruct Ht as [->|[->| ->]]; simpl; intros x Hx _.
  - rewrite Hl. apply elem_of_app. by left.
  - exists x. split; [|by left]. rewrite Hl. apply elem_of_app. by left.
  - rewrite Hl. apply elem_of_app. by left.
Qed.

Section Operations.
Context {DB : Type} `{SqlLaws DB}.
Implicit Types db : DB.

(** An operation of a repository that keeps the keys and the rows of others. *)
Definition OpKeeps {A} (user : SessionUser) (op : DB -> DB * result string A) : Prop :=
  forall db db' r, keys_ok (db_rows db) -> op db = (db', r) ->
    keys_ok (db_rows db') /\ frame user (db_rows db) (db_rows db').

Lemma insert_keeps user t r : owned_table t -> OpKeeps user (sql_insert t r).
Proof.
  intros Ht db db' o Hk Hrun.
  destruct (js_some (conflict t r) (rows (db_rows db) t)) eqn:Hc.
  { destruct (law_insert_error t r db (or_introl Hc)) as [e He]. rewrite He in Hrun. simplify_eq.
    split; [done|]. by apply frame_same. }
  destruct (insert_outcome t r db) as [(db1 & Hi & Hs)|(e & Hi)]; rewrite Hi in Hrun; simplify_eq.
  - split; [|by eapply frame_insert]. eapply keys_ok_same; [by symmetry|]. by apply keys_ok_insert.
  - split; [done|]. by apply frame_same.
Qed.

Lemma pipeline_create_keeps user now input : OpKeeps user (PipelineRepo.create now input).
Proof. refine (insert_keeps user TPipelines _ _). by left. Qed.
Lemma run_create_keeps user now input : OpKeeps user (RunRepo.create now input).
Proof. refine (insert_keeps user TRuns _ _). right. by left. Qed.
Lemma dataFile_create_keeps user now input : OpKeeps user (DataFileRepo.create now input).
Proof. refine (insert_keeps user TDataFiles _ _). right. by right. Qed.

(** An update or a deletion of rows the user owns. *)
Lemma update_keeps {A} user t (p : row t -> bool) f (k : list (row t) -> A) :
  (forall c l, l ≡ₚ (fun x => if p x then f x else x) <$> rows c t -> table_frame user c t l) ->
  OpKeeps user (fun db => match sql_update t p f db with
                          | (db', Ok out) => (db', Ok (k out))
                          | (db', Throw e) => (db', Throw e)
                          end).
Proof.
  intros Hf db db' o Hk Hrun. pose proof (law_update t p f db) as Hl. pose proof (law_update_keys t p f db Hk) as Hk'.
  destruct (sql_update t p f db) as [db1 [out|e]]; simpl in Hk'; simplify_eq.
  - destruct Hl as [_ Hs]. split; [done|]. eapply frame_one; [exact Hs|]. intros l Hl. by apply Hf.
  - split; [done|]. by apply frame_same.
Qed.

Lemma pipeline_update_keeps user now id patch :
  OpKeeps user (PipelineRepo.update now id (u_id user) patch).
Proof.
  apply (update_keeps user TPipelines _ _ head). intros c l Hl p Hp Ho. rewrite Hl.
  apply list_elem_of_fmap. exists p. split; [|done]. by rewrite (eqb_ne_js (pl_ownerId p)), andb_false_r.
Qed.

Lemma run_visibility_keeps user now id vis : OpKeeps user (RunRepo.setVisibility now id (u_id user) vis).
Proof.
  apply (update_keeps user TRuns _ _ head). intros c l Hl r Hr Ho. exists r. split; [|by left]. rewrite Hl.
  apply list_elem_of_fmap. exists r. split; [|done]. by rewrite (eqb_ne_js (rn_ownerId r)), andb_false_r.
Qed.

Lemma delete_keys t (p : row t -> bool) db db' gone :
  keys_ok (db_rows db) ->
  same_rows (db_rows db') (cascade t (set_rows t (db_rows db) (js_filter (fun x => negb (p x)) (rows (db_rows db) t))) gone) ->
  keys_ok (db_rows db').
Proof.
  intros Hk Hs. eapply keys_ok_same; [by symmetry|]. by apply keys_ok_cascade, keys_ok_filter.
Qed.

(** The ids of deleted rows are ids of rows the user owns. *)
Lemma gone_owned (R : Resource) c u id x :
  js_some (fun r => r_id r === x) (js_filter (fun r => (r_id r === id) && (r_owner r === u)) (rows c r_table)) = true ->
  owns c u x.
Proof.
  intros Hs. apply js_some_true in Hs as (r & Hr & Hx). apply elem_of_js_filter in Hr as [Hp Hr].
  bool_prop. by exists r.
Qed.

Lemma shares_kept_foreign (R : Resource) c u id l s :
  let deleted x := js_some (fun r => r_id r === x)
    (js_filter (fun r => (r_id r === id) && (r_owner r === u)) (rows c r_table)) in
  ~ owns c u (sh_resource s) -> s ∈ shares_kept deleted l <-> s ∈ l.
Proof.
  intros deleted Hn. unfold shares_kept. rewrite elem_of_js_filter. split; [tauto|]. intros Hs. split; [|done].
  apply negb_true_iff, not_true_iff_false. intros Hd. by apply Hn, (gone_owned R c u id).
Qed.

Lemma pipeline_delete_keeps user id : OpKeeps user (PipelineRepo.delete id (u_id user)).
Proof.
  intros db db' o Hk Hrun. unfold PipelineRepo.delete in Hrun.
  set (p := fun y : row TPipelines => (pl_id y === id) && (pl_ownerId y === u_id user)) in *.
  destruct (law_delete TPipelines p db) as (db1 & out & Hd & _ & Hs); [done|].
  change (sql_delete TPipelines (fun y => (pl_id y === id) && (pl_ownerId y === u_id user)) db)
    with (sql_delete TPipelines p db) in Hrun. rewrite Hd in Hrun. injection Hrun as <- _.
  split; [by eapply (delete_keys TPipelines p)|]. set (c := db_rows db) in *.
  set (gone := js_filter p (rows c TPipelines)) in *.
  set (deleted := fun x => js_some (fun y : row TPipelines => pl_id y === x) gone).
  assert (Hrows : forall t, rows (db_rows db1) t ≡ₚ
    rows (set_rows TRuns (set_rows TPipelineShares
      (set_rows TPipelines c (js_filter (fun x => negb (p x)) (rows c TPipelines)))
      (shares_kept deleted (rows c TPipelineShares))) (unlink_run deleted <$> rows c TRuns)) t).
  { intros t. rewrite (Hs t). cbn [cascade]. by rewrite !(rows_set_ne TPipelines) by done. }
  intros t. destruct t; try (apply table_frame_same; rewrite Hrows; by rewrite !rows_set_ne); simpl.
  - intros y Hy Ho. rewrite (Hrows TPipelines), !rows_set_ne, rows_set_eq by done.
    apply elem_of_js_filter. split; [|done]. unfold p. by rewrite (eqb_ne_js (pl_ownerId y)), andb_false_r.
  - intros s Hn. rewrite (Hrows TPipelineShares), rows_set_ne, rows_set_eq by done.
    by apply (shares_kept_foreign pipeline_resource c (u_id user) id).
  - intros r Hr Ho. exists (unlink_run deleted r). rewrite (Hrows TRuns), rows_set_eq.
    split; [by apply list_elem_of_fmap_2|]. unfold unlink_run, unlinked.
    destruct (rn_pipelineId r) as [x|] eqn:Hx; [|by left].
    destruct (deleted x) eqn:Hdx; [|by left]. right.
    destruct (gone_owned pipeline_resource c (u_id user) id x Hdx) as (pl & Hpl & <- & Hown).
    exists pl. split_and!; try done. unfold unlink_run. by rewrite Hx.
Qed.

Lemma dataFile_delete_keeps user id : OpKeeps user (DataFileRepo.delete id (u_id user)).
Proof.
  intros db db' o Hk Hrun. unfold DataFileRepo.delete in Hrun.
  set (p := fun y : row TDataFiles => (df_id y === id) && (df_ownerId y === u_id user)) in *.
  destruct (law_delete TDataFiles p db) as (db1 & out & Hd & _ & Hs); [done|].
  change (sql_delete TDataFiles (fun y => (df_id y === id) && (df_ownerId y === u_id user)) db)
    with (sql_delete TDataFiles p db) in Hrun. rewrite Hd in Hrun. injection Hrun as <- _.
  split; [by eapply (delete_keys TDataFiles p)|]. set (c := db_rows db) in *.
  set (deleted := fun x => js_some (fun y : row TDataFiles => df_id y === x) (js_filter p (rows c TDataFiles))).
  assert (Hrows : forall t, rows (db_rows db1) t ≡ₚ
    rows (set_rows TDataFileShares
      (set_rows TDataFiles c (js_filter (fun x => negb (p x)) (rows c TDataFiles)))
      (shares_kept deleted (rows c TDataFileShares))) t).
  { intros t. rewrite (Hs t). cbn [cascade]. by rewrite !(rows_set_ne TDataFiles) by done. }
  intros t. destruct t; try (apply table_frame_same; rewrite Hrows; by rewrite !rows_set_ne); simpl.
  - intros y Hy Ho. rewrite (Hrows TDataFiles), rows_set_ne, rows_set_eq by done.
    apply elem_of_js_filter. split; [|done]. unfold p. by rewrite (eqb_ne_js (df_ownerId y)), andb_false_r.
  - intros s Hn. rewrite (Hrows TDataFileShares), rows_set_eq.
    by apply (shares_kept_foreign dataFile_resource c (u_id user) id).
Qed.

(** Sharing, for the three resources at once. *)
Lemma acl_share_keys {R : Resource} now id ownerId u perm db db' res :
  keys_ok (db_rows db) -> acl_share (R := R) now id ownerId u perm db = (db', res) -> keys_ok (db_rows db').
Proof.
  intros Hk. unfold acl_share. destruct (take 1 _); [intros; by simplify_eq|].
  pose proof (law_upsert_keys r_shares share_target (r_of_share (mkShare id u perm now)) (set_permission perm) db Hk) as Hk'.
  destruct (sql_upsert _ _ _ _ db) as [db1 [?|?]]; intros; by simplify_eq.
Qed.

Lemma acl_unshare_keys {R : Resource} id ownerId u db db' res :
  r_shares <> TUsers -> keys_ok (db_rows db) -> acl_unshare (R := R) id ownerId u db = (db', res) ->
  keys_ok (db_rows db').
Proof.
  intros Ht Hk. unfold acl_unshare. destruct (take 1 _); [intros; by simplify_eq|].
  set (p := fun s => (sh_resource (r_to_share s) === id) && (sh_userId (r_to_share s) === u)).
  destruct (law_delete r_shares p db Ht) as (db1 & out & -> & _ & Hs). intros; simplify_eq.
  by eapply (delete_keys r_shares p).
Qed.

(** A change to the share table of a resource that spares the rows of others. *)
Lemma frame_shares (R : Resource) user db db' :
  shares_of_owned_only (R := R) db db' (u_id user) ->
  (forall l, (forall s, ~ owns (db_rows db) (u_id user) (sh_resource (r_to_share s)) ->
      s ∈ l <-> s ∈ rows (db_rows db) r_shares) -> table_frame user (db_rows db) r_shares l) ->
  frame user (db_rows db) (db_rows db').
Proof.
  intros [Honly Hs] Hf t. destruct (decide (t = r_shares)) as [->|Hne]; [by apply Hf|].
  apply table_frame_same. by apply Honly.
Qed.

Lemma pipeline_share_keeps user now id v perm : OpKeeps user (PipelineRepo.share now id (u_id user) v perm).
Proof.
  intros db db' res Hk Hrun. split; [exact (acl_share_keys (R := pipeline_resource) now id _ v perm db db' res Hk Hrun)|].
  apply (frame_shares pipeline_resource); [|done].
  exact (acl_share_foreign (R := pipeline_resource) now id _ v perm db db' res Hk Hrun).
Qed.
Lemma dataFile_share_keeps user now id v perm : OpKeeps user (DataFileRepo.share now id (u_id user) v perm).
Proof.
  intros db db' res Hk Hrun. split; [exact (acl_share_keys (R := dataFile_resource) now id _ v perm db db' res Hk Hrun)|].
  apply (frame_shares dataFile_resource); [|done].
  exact (acl_share_foreign (R := dataFile_resource) now id _ v perm db db' res Hk Hrun).
Qed.
Lemma run_share_keeps user now id v perm : OpKeeps user (RunRepo.share now id (u_id user) v perm).
Proof.
  intros db db' res Hk Hrun. split; [exact (acl_share_keys (R := run_resource) now id _ v perm db db' res Hk Hrun)|].
  apply (frame_shares run_resource); [|done].
  exact (acl_share_foreign (R := run_resource) now id _ v perm db db' res Hk Hrun).
Qed.
Lemma pipeline_unshare_keeps user id v : OpKeeps user (PipelineRepo.unshare id (u_id user) v).
Proof.
  intros db db' res Hk Hrun. split; [by apply (acl_unshare_keys (R := pipeline_resource) id (u_id user) v db db' res)|].
  apply (frame_shares pipeline_resource); [|done].
  by apply (acl_unshare_foreign (R := pipeline_resource) id (u_id user) v db db' res).
Qed.
Lemma run_unshare_keeps user id v : OpKeeps user (RunRepo.unshare id (u_id user) v).
Proof.
  intros db db' res Hk Hrun. split; [by apply (acl_unshare_keys (R := run_resource) id (u_id user) v db db' res)|].
  apply (frame_shares run_resource); [|done].
  by apply (acl_unshare_foreign (R := run_resource) id (u_id user) v db db' res).
Qed.

(** Only an administrator reaches the registry. *)
Lemma block_upsert_keeps user t0 t1 label mf :
  u_role user = "admin" -> OpKeeps user (BlockRepo.upsert t0 t1 label mf).
Proof.
  intros Hadmin db db' res Hk Hrun. unfold BlockRepo.upsert in Hrun.
  set (target := fun a b : row TBlocks => bk_name a === bk_name b) in *. set (new := new_block t0 t1 label mf) in *.
  pose proof (law_upsert_keys TBlocks target new (replace_block new) db Hk) as Hk'.
  change (sql_upsert TBlocks target new (replace_block new) db = (db', res)) in Hrun.
  rewrite Hrun in Hk'. split; [exact Hk'|].
  assert (Hany : forall l, same_rows (db_rows db') (set_rows TBlocks (db_rows db) l) ->
    frame user (db_rows db) (db_rows db')).
  { intros l Hs. eapply frame_one; [exact Hs|]. by intros l' _ Hne. }
  destruct (js_some (fun x => target x new) (rows (db_rows db) TBlocks)) eqn:E.
  - apply js_some_true in E as (old & Hold & Hm).
    destruct (law_upsert_update TBlocks target new (replace_block new) db old) as (db1 & Hup & Hs); try done.
    { intros a b Ha Hb. unfold target in *. bool_prop. simpl. rewrite Ha, Hb, eqb_refl_js. apply orb_true_r. }
    rewrite Hup in Hrun. simplify_eq. by eapply Hany.
  - rewrite law_upsert_insert in Hrun by done.
    destruct (insert_outcome TBlocks new db) as [(db1 & Hi & Hs)|(e & Hi)]; rewrite Hi in Hrun; simplify_eq.
    + by eapply Hany.
    + by apply frame_same.
Qed.
End Operations.

(** ** Handlers *)

Section Handlers.
Context {DB : Type} `{SqlLaws DB} {env : Env} {cfg : RouterConfig}.
Implicit Types w : World DB.

(** The objects a request deletes from the store belong to data files of the user. *)
Definition s3_frame (user : SessionUser) w w' : Prop :=
  exists ks, w_s3_deleted w' = w_s3_deleted w ++ ks /\
    forall k, k ∈ ks ->
      exists d, d ∈ rows (db_rows (w_db w)) TDataFiles /\ df_ownerId d = u_id user /\ df_s3Key d = k.

Record keeps_world (user : SessionUser) w w' : Prop := {
  kw_keys : keys_ok (db_rows (w_db w'));
  kw_frame : frame user (db_rows (w_db w)) (db_rows (w_db w'));
  kw_s3 : s3_frame user w w' }.

Definition Keeps {A} (user : SessionUser) (m : M (World DB) HttpError A) : Prop :=
  forall w w' r, keys_ok (db_rows (w_db w)) -> m w = (w', r) -> keeps_world user w w'.

Lemma keeps_pure {A} user (m : M (World DB) HttpError A) : PureStep m -> Keeps user m.
Proof.
  intros Hm w w' r Hk Hrun. destruct (Hm w w' r Hrun) as [Hdb Hs3]. split.
  - by rewrite Hdb.
  - rewrite Hdb. by apply frame_same.
  - exists []. rewrite app_nil_r. split; [done|]. intros k Hin. by apply elem_of_nil in Hin.
Qed.

(** Every handler writes at most once: pure steps around it do not matter. *)
Lemma keeps_bind_l {A B} user (m : M (World DB) HttpError A) (k : A -> M (World DB) HttpError B) :
  PureStep m -> (forall a, Keeps user (k a)) -> Keeps user (m ≫= k).
Proof.
  intros Hm Hk w w' r Hkeys. rewrite run_bind. destruct (m w) as [w1 [a|e]] eqn:E; intros Hr;
    destruct (Hm w w1 _ E) as [Hdb Hs3].
  - rewrite <-Hdb in Hkeys. destruct (Hk a w1 w' r Hkeys Hr) as [Hk1 Hf Hs]. unfold s3_frame in Hs.
    rewrite Hdb, Hs3 in *. by split.
  - injection Hr as <- <-. by eapply keeps_pure.
Qed.

Lemma keeps_bind_r {A B} user (m : M (World DB) HttpError A) (k : A -> M (World DB) HttpError B) :
  Keeps user m -> (forall a, PureStep (k a)) -> Keeps user (m ≫= k).
Proof.
  intros Hm Hk w w' r Hkeys. rewrite run_bind. destruct (m w) as [w1 [a|e]] eqn:E; intros Hr.
  - destruct (Hm w w1 _ Hkeys E) as [Hk1 Hf Hs]. destruct (Hk a w1 w' r Hr) as [Hdb Hs3].
    split; [by rewrite Hdb|by rewrite Hdb|]. unfold s3_frame. by rewrite Hs3.
  - injection Hr as <- <-. by eapply Hm.
Qed.

Lemma keeps_write {A} user (op : DB -> DB * result string A) : OpKeeps user op -> Keeps user (write op).
Proof.
  intros Hop w w' r Hk. unfold write. destruct (op (w_db w)) as [db' o] eqn:E. intros Heq. simplify_eq/=.
  destruct (Hop _ _ _ Hk E) as [Hk' Hf]. split; [done|done|].
  exists []. rewrite app_nil_r. split; [done|]. intros k Hin. by apply elem_of_nil in Hin.
Qed.
End Handlers.

#[export] Hint Resolve keeps_write pipeline_create_keeps run_create_keeps dataFile_create_keeps pipeline_update_keeps run_visibility_keeps pipeline_delete_keeps
  dataFile_delete_keeps pipeline_share_keeps dataFile_share_keeps run_share_keeps pipeline_unshare_keeps
  run_unshare_keeps : spade.

Ltac keeps_step := repeat first
  [ apply keeps_pure; solve [pure_step]
  | apply keeps_bind_l; [solve [pure_step] | intros ?]
  | apply keeps_bind_r; [|intros ?; solve [pure_step]]
  | solve [auto with spade]
  | case_match ].

Section Theorems.
Context {DB : Type} `{SqlLaws DB} {env : Env} {cfg : RouterConfig}.
Implicit Types w : World DB.

Lemma keeps_done user (m : M (World DB) HttpError unit) : Keeps user m -> Keeps user (done m).
Proof. intros Hm. unfold done, respond. apply keeps_bind_r; [done|]. intros ?. pure_step. Qed.

Lemma keeps_respond {A} user (f : A -> response) (m : M (World DB) HttpError A) :
  Keeps user m -> Keeps user (respond f m).
Proof. intros Hm. unfold respond. apply keeps_bind_r; [done|]. intros ?. pure_step. Qed.

(** The authenticated handlers continue with the session's user. *)
Lemma keeps_user {A} user (k : SessionUser -> M (World DB) HttpError A) :
  Keeps user (k user) -> Keeps user (requireUser (Some user) ≫= k).
Proof. intros Hk. exact Hk. Qed.

Lemma delete_data_keeps user id : Keeps user (delete_data (DB := DB) (Some user) id).
Proof.
  unfold delete_data. apply keeps_user, keeps_bind_l; [pure_step|]. intros x w w' r Hk.
  rewrite run_bind. unfold write.
  pose proof (dataFile_delete_keeps user x (w_db w)) as Hop.
  pose proof (law_delete TDataFiles (fun d => (df_id d === x) && (df_ownerId d === u_id user)) (w_db w)) as Hlaw.
  unfold DataFileRepo.delete in *. destruct Hlaw as (db' & out & Hd & Hout & _); [done|].
  rewrite Hd in *. destruct (Hop _ _ Hk eq_refl) as [Hk' Hf].
  rewrite run_bind. destruct (head out) as [d|] eqn:Hhead; unfold orThrow.
  - assert (d ∈ js_filter (fun d : row TDataFiles => (df_id d === x) && (df_ownerId d === u_id user))
      (rows (db_rows (w_db w)) TDataFiles)) as Hin.
    { rewrite <-Hout. destruct out; simplify_eq/=. left. }
    apply elem_of_js_filter in Hin as [Hp Hin]. bool_prop.
    rewrite run_ret. unfold try_catch, s3_delete. destruct (s3_delete_fails _);
      unfold mret, M_ret; intros Hr; simplify_eq/=;
      (split; [done|done|]); unfold s3_frame; simpl.
    + exists []. rewrite app_nil_r. split; [done|]. intros k Hx. by apply elem_of_nil in Hx.
    + exists [df_s3Key d]. split; [done|]. intros k ->%list_elem_of_singleton. by exists d.
  - unfold throw. intros Hr. simplify_eq/=. split; [done|done|]. exists []. rewrite app_nil_r.
    split; [done|]. intros k Hx. by apply elem_of_nil in Hx.
Qed.

Lemma upload_block_keeps user upload :
  Keeps user (upload_block (DB := DB) rc_parse_manifest (Some user) upload).
Proof.
  unfold upload_block. apply keeps_user. destruct (u_role user === "admin") eqn:Hadmin.
  - bool_prop. apply keeps_bind_l; [pure_step|]. intros _.
    apply keeps_bind_l; [unfold upload_manifest; pure_step|]. intros [label mf].
    case_match; [keeps_step|]. keeps_step. by apply keeps_write, block_upsert_keeps.
  - intros w w' r Hk Hr. unfold guard_http in Hr. rewrite run_bind in Hr. unfold throw in Hr. simplify_eq.
    by apply (keeps_pure user (throw (Http 403 "Admin only") : M (World DB) HttpError BlockRow) (pure_throw _) w' w' _ Hk eq_refl).
Qed.

(** Every request of a user keeps the world outside the user's rows. *)
Lemma handle_keeps user req :
  from_worker req = false -> Keeps user (handle (DB := DB) (Some user) req).
Proof.
  intros Hw. destruct req; try discriminate Hw; unfold handle;
    try (apply keeps_done); try (apply keeps_respond).
  all: try apply delete_data_keeps.
  all: try apply upload_block_keeps.
  all: unfold submit, list_runs, get_run, get_file, get_zip, put_run, share_run, unshare_run, create_pipeline,
    list_pipelines, get_pipeline, put_pipeline, delete_pipeline, share_pipeline, unshare_pipeline,
    list_data, get_data, share_data, upload_init, upload_complete, list_blocks, get_block,
    submit_source; try (apply keeps_user).
  all: keeps_step.
Qed.

(** C1. Isolation of the tenants.  Whatever [request] a signed-in user sends and however
    it ends, the users, the files and the logs of runs are unchanged, the block registry
    too unless the user is an administrator; the pipelines and data files of
    others are all still there unchanged, and so are their runs, up to losing
    the link to a pipeline the user owned and deleted; the shares of rows the user
    does not own are the same; objects are deleted from the store only under keys that a
    data-file row of the user names, which need not be objects the user uploaded
    ([Uploads.upload_complete_any_key]); and the keys of the database still hold. *)
Theorem tenant_isolation user req w w' res :
  keys_ok (db_rows (w_db w)) -> from_worker req = false ->
  handle (Some user) req w = (w', res) ->
  keys_ok (db_rows (w_db w')) /\ frame user (db_rows (w_db w)) (db_rows (w_db w')) /\ s3_frame user w w'.
Proof. intros Hk Hw Hrun. by destruct (handle_keeps user req Hw w w' res Hk Hrun). Qed.

(** Without a session: only the worker's callback and the catalogue are not refused. *)
Lemma unauthenticated_401 req w :
  anonymous req = false -> handle None req w = (w, Throw (Http 401 "Not authenticated")).
Proof. intros Hr. destruct req; try discriminate Hr; reflexivity. Qed.

(** A GET request changes nothing. *)
Lemma is_read_pure req session w :
  is_read req = true -> forall w' res, handle session req w = (w', res) ->
  w_db w' = w_db w /\ w_s3_deleted w' = w_s3_deleted w.
Proof.
  intros Hr. revert w. change (PureStep (handle (DB := DB) session req)).
  destruct req; try discriminate Hr; unfold handle, respond, list_runs, get_run, get_file, get_zip,
    list_pipelines, get_pipeline, list_data, get_data, list_blocks, get_block; pure_step.
Qed.

(** ** Sequences of requests *)

(** What a user still has: everything it owned, with the same shares. *)
Record untouched (v : string) (c c' : contents) : Prop := {
  ut_pipelines p : p ∈ rows c TPipelines -> pl_ownerId p = v -> p ∈ rows c' TPipelines;
  ut_dataFiles d : d ∈ rows c TDataFiles -> df_ownerId d = v -> d ∈ rows c' TDataFiles;
  ut_runs r : r ∈ rows c TRuns -> rn_ownerId r = v ->
    exists r', r' ∈ rows c' TRuns /\ (r' = r \/ r' = unlink_run (fun _ => true) r);
  ut_pipelineShares s : owns (R := pipeline_resource) c v (sh_resource s) ->
    s ∈ rows c' TPipelineShares <-> s ∈ rows c TPipelineShares;
  ut_dataFileShares s : owns (R := dataFile_resource) c v (sh_resource s) ->
    s ∈ rows c' TDataFileShares <-> s ∈ rows c TDataFileShares;
  ut_runShares s : owns (R := run_resource) c v (sh_resource s) ->
    s ∈ rows c' TRunShares <-> s ∈ rows c TRunShares }.

Lemma untouched_refl v c : untouched v c c.
Proof. split; eauto. Qed.

Lemma unlink_idem r : unlink_run (fun _ => true) (unlink_run (fun _ => true) r) = unlink_run (fun _ => true) r.
Proof. destruct r as [? [?|]]; done. Qed.

Lemma unlink_owner r : rn_ownerId (unlink_run (fun _ => true) r) = rn_ownerId r /\ rn_id (unlink_run (fun _ => true) r) = rn_id r.
Proof. destruct r as [? [?|]]; done. Qed.

Lemma untouched_trans v c1 c2 c3 : untouched v c1 c2 -> untouched v c2 c3 -> untouched v c1 c3.
Proof.
  intros [P1 D1 R1 SP1 SD1 SR1] [P2 D2 R2 SP2 SD2 SR2]. split.
  - eauto.
  - eauto.
  - intros r Hr Ho. destruct (R1 r Hr Ho) as (r1 & Hr1 & He1).
    destruct (unlink_owner r) as [Hu _].
    destruct (R2 r1 Hr1) as (r2 & Hr2 & He2); [destruct He1 as [-> | ->]; congruence|].
    exists r2. split; [done|]. destruct He1 as [-> | ->], He2 as [-> | ->]; rewrite ?unlink_idem; auto.
  - intros s (p & Hp & Hid & Ho). rewrite SP2, SP1; [done|by exists p|]. exists p. eauto.
  - intros s (p & Hp & Hid & Ho). rewrite SD2, SD1; [done|by exists p|]. exists p. eauto.
  - intros s (p & Hp & Hid & Ho). rewrite SR2, SR1; [done|by exists p|].
    destruct (R1 p Hp Ho) as (r1 & Hr1 & He1). destruct (unlink_owner p) as [Hu Hi].
    exists r1. destruct He1 as [-> | ->]; simpl in *; split_and!; congruence.
Qed.

(** A row is owned by one user. *)
Lemma owns_one (R : Resource) {RL : ResourceLaws R} c u v id :
  keys_ok c -> owns c u id -> owns c v id -> u = v.
Proof.
  intros Hk (a & Ha & Hia & Hoa) (b & Hb & Hib & Hob).
  assert (a = b) as ->; [|congruence].
  apply (distinct_elem (conflict r_table) (rows c r_table)); [apply conflict_sym|apply Hk|done|done|].
  rewrite r_key. bool_prop. congruence.
Qed.

Lemma frame_untouched user v c c' :
  keys_ok c -> u_id user <> v -> frame user c c' -> untouched v c c'.
Proof.
  intros Hk Hne Hf. split.
  - intros p Hp Ho. apply (Hf TPipelines); [done|congruence].
  - intros d Hd Ho. apply (Hf TDataFiles); [done|congruence].
  - intros r Hr Ho. destruct (Hf TRuns r Hr) as (r' & Hr' & [->|(p & _ & _ & _ & ->)]); [congruence|eauto|eauto].
  - intros s Hs. apply (Hf TPipelineShares). intros Hu. by apply Hne, (owns_one pipeline_resource c _ _ (sh_resource s)).
  - intros s Hs. apply (Hf TDataFileShares). intros Hu. by apply Hne, (owns_one dataFile_resource c _ _ (sh_resource s)).
  - intros s Hs. apply (Hf TRunShares). intros Hu. by apply Hne, (owns_one run_resource c _ _ (sh_resource s)).
Qed.

(** A request of somebody else: another user, or nobody. *)
Definition foreign (v : string) (x : option SessionUser * request) : bool :=
  negb (from_worker x.2) && match x.1 with Some user => negb (u_id user === v) | None => true end.

Lemma handle_foreign v session req w w' res :
  foreign v (session, req) = true -> keys_ok (db_rows (w_db w)) -> handle session req w = (w', res) ->
  keys_ok (db_rows (w_db w')) /\ untouched v (db_rows (w_db w)) (db_rows (w_db w')).
Proof.
  unfold foreign. simpl. intros Hf Hk Hrun. apply andb_true_iff in Hf as [Hw Hu]. apply negb_true_iff in Hw.
  destruct session as [user|].
  - apply negb_true_iff in Hu. bool_prop. destruct (handle_keeps user req Hw w w' res Hk Hrun) as [Hk' Hframe _].
    split; [done|]. by eapply frame_untouched.
  - assert (w_db w' = w_db w) as ->; [|split; [done|apply untouched_refl]].
    destruct (anonymous req) eqn:Ha.
    + destruct req; try done.
      * assert (PureStep (handle (DB := DB) None ListBlocks)) as Hp; [|by apply Hp in Hrun as [? _]].
        unfold handle, respond, list_blocks. pure_step.
      * assert (PureStep (handle (DB := DB) None (GetBlock id))) as Hp; [|by apply Hp in Hrun as [? _]].
        unfold handle, respond, get_block. pure_step.
    + destruct req; try discriminate Ha; unfold handle, respond, done in Hrun; by injection Hrun as <- _.
Qed.

(** Isolation along executions: after any sequence of requests none of which
    is sent by [v] or by the worker, everything [v] owned is still there with the same
    shares (its runs up to their link to a deleted pipeline). *)
Theorem serve_isolation v l w :
  keys_ok (db_rows (w_db w)) -> Forall (fun x => foreign v x = true) l ->
  keys_ok (db_rows (w_db (serve l w))) /\ untouched v (db_rows (w_db w)) (db_rows (w_db (serve l w))).
Proof.
  intros Hk Hl. revert w Hk. induction Hl as [|[session req] l Hx _ IH]; intros w Hk; simpl.
  { split; [done|apply untouched_refl]. }
  destruct (handle session req w) as [w1 res] eqn:E.
  destruct (handle_foreign v session req w w1 res Hx Hk E) as [Hk1 Hu1].
  destruct (IH w1 Hk1) as [Hk2 Hu2]. split; [done|]. by eapply untouched_trans.
Qed.
End Theorems.
