(* ===== verification/Statements.v ===== *)
(** * What requests do to the database, statement by statement

    The database runs one statement at a time, and between two statements of one
    request it runs those of others.  [statement] is what any statement of any handler
    under [web_ui/server/api], the worker's callback included, does to the database,
    whatever was checked before it; every request is a sequence of them.  None of them
    takes a run away, gives it to another owner, or changes its files and logs. *)

From S2P Require Export Isolation.

Inductive shared_resource : Resource -> Prop :=
  | SrPipelines : shared_resource pipeline_resource
  | SrDataFiles : shared_resource dataFile_resource
  | SrRuns : shared_resource run_resource.

(** The tables rows are deleted from: runs stay for ever. *)
Definition deletable (t : table) : bool :=
  match t with TPipelines | TDataFiles | TPipelineShares | TRunShares | TDataFileShares => true | _ => false end.

Inductive statement {DB : Type} `{Sql DB} (db : DB) : DB -> Prop :=
  | StInsert t r : statement db (sql_insert t r db).1
  | StShare R new p : shared_resource R ->
      statement db (sql_upsert (@r_shares R) share_target new (set_permission p) db).1
  | StBlock t0 t1 label manifest : statement db (BlockRepo.upsert t0 t1 label manifest db).1
  | StPipelines p f : statement db (sql_update TPipelines p f db).1
  | StRuns p f : (forall r, rn_id (f r) = rn_id r /\ rn_ownerId (f r) = rn_ownerId r) ->
      statement db (sql_update TRuns p f db).1
  | StDelete t p : deletable t = true -> statement db (sql_delete t p db).1.

(** ** What statements keep *)

(** Runs stay, with their owners, and so do files and logs. *)
Record grows (c c' : contents) : Prop := {
  gr_runs r : r ∈ rows c TRuns ->
    exists r', r' ∈ rows c' TRuns /\ rn_id r' = rn_id r /\ rn_ownerId r' = rn_ownerId r;
  gr_files f : f ∈ rows c TRunFiles -> f ∈ rows c' TRunFiles;
  gr_logs l : l ∈ rows c TRunLogs -> l ∈ rows c' TRunLogs }.

#[export] Instance grows_preorder : PreOrder grows.
Proof.
  split.
  - intros c. split; eauto.
  - intros c1 c2 c3 [Hr Hf Hl] [Hr' Hf' Hl']. split; [|auto..].
    intros r (r1 & H1 & <- & <-)%Hr. by apply Hr'.
Qed.

(** A change of rows that has the runs, files and logs. *)
Lemma grows_rows c c' (f : RunRow -> RunRow) :
  (forall r, rn_id (f r) = rn_id r /\ rn_ownerId (f r) = rn_ownerId r) ->
  (forall r, r ∈ rows c TRuns -> f r ∈ rows c' TRuns) ->
  rows c TRunFiles ⊆ rows c' TRunFiles -> rows c TRunLogs ⊆ rows c' TRunLogs -> grows c c'.
Proof. intros Hf Hr Hfiles Hlogs. split; [|apply Hfiles|apply Hlogs]. intros r Hin. exists (f r). split; [by apply Hr|apply Hf]. Qed.

Lemma grows_same c c' : same_rows c' c -> grows c c'.
Proof. intros Hs. apply (grows_rows c c' (fun r => r)); [done|..]; intros x; by rewrite (Hs _). Qed.

(** A change of one table that keeps its rows, or none of the three tables. *)
Lemma grows_set t c c' l :
  same_rows c' (set_rows t c l) ->
  (t = TRuns -> forall r, r ∈ rows c TRuns -> r ∈ rows (set_rows t c l) TRuns) ->
  (t = TRunFiles \/ t = TRunLogs -> rows c t ⊆ l) -> grows c c'.
Proof.
  intros Hs Hr Hfl. apply (grows_rows c c' (fun r => r)); [done|..]; intros x Hx; rewrite (Hs _).
  - destruct (decide (t = TRuns)) as [->|Hne]; [by apply Hr|by rewrite rows_set_ne].
  - destruct (decide (t = TRunFiles)) as [->|Hne]; [rewrite rows_set_eq; apply Hfl; auto|by rewrite rows_set_ne].
  - destruct (decide (t = TRunLogs)) as [->|Hne]; [rewrite rows_set_eq; apply Hfl; auto|by rewrite rows_set_ne].
Qed.

Section Keep.
Context {DB : Type} `{SqlLaws DB}.
Implicit Types db : DB.

Lemma insert_grows t r db : grows (db_rows db) (db_rows (sql_insert t r db).1).
Proof.
  destruct (insert_outcome t r db) as [(db1 & -> & Hs)|(e & ->)]; [|done]. eapply grows_set; [exact Hs|..].
  - intros -> x Hx. rewrite rows_set_eq. apply elem_of_app. by left.
  - intros _ x Hx. apply elem_of_app. by left.
Qed.

Lemma insert_keys t r db : keys_ok (db_rows db) -> keys_ok (db_rows (sql_insert t r db).1).
Proof.
  intros Hk. destruct (js_some (conflict t r) (rows (db_rows db) t)) eqn:Hc.
  { destruct (law_insert_error t r db) as [e ->]; [by left|done]. }
  destruct (insert_outcome t r db) as [(db1 & -> & Hs)|(e & ->)]; [|done].
  eapply keys_ok_same; [by symmetry|]. by apply keys_ok_insert.
Qed.

Lemma upsert_grows t target r f db :
  keys_ok (db_rows db) -> t <> TRuns -> t <> TRunFiles -> t <> TRunLogs ->
  (forall a b, target a r = true -> target b r = true -> conflict t a b = true) ->
  (forall x, same_keys t (f x) x) ->
  grows (db_rows db) (db_rows (sql_upsert t target r f db).1).
Proof.
  intros Hk H1 H2 H3 Hsym Hkeys.
  destruct (js_some (fun x => target x r) (rows (db_rows db) t)) eqn:E.
  - apply js_some_true in E as (old & Hold & Hm).
    destruct (law_upsert_update t target r f db old) as (db1 & -> & Hs); [done..|].
    eapply grows_set; [exact Hs|done|]. by intros [?|?].
  - rewrite law_upsert_insert by done. apply insert_grows.
Qed.

(** Deleting a pipeline unlinks runs; the other deletions do not touch them. *)
Lemma unlink_keeps d r : rn_id (unlink_run d r) = rn_id r /\ rn_ownerId (unlink_run d r) = rn_ownerId r.
Proof. unfold unlink_run. by repeat case_match. Qed.

Lemma cascade_grows t c l gone : deletable t = true -> grows c (cascade t (set_rows t c l) gone).
Proof.
  intros Ht. destruct t; try discriminate Ht; cbn [cascade].
  - apply (grows_rows _ _ (unlink_run (fun id => js_some (fun p => pl_id p === id) gone))).
    + apply unlink_keeps.
    + intros r Hr. rewrite rows_set_eq. apply list_elem_of_fmap_2. by rewrite rows_set_ne.
    + by rewrite !rows_set_ne.
    + by rewrite !rows_set_ne.
  - by apply (grows_set TPipelineShares _ _ l); [|intros|intros [|]].
  - by apply (grows_set TRunShares _ _ l); [|intros|intros [|]].
  - apply (grows_rows _ _ (fun r => r)); [done|..]; intros x Hx; by rewrite !rows_set_ne.
  - by apply (grows_set TDataFileShares _ _ l); [|intros|intros [|]].
Qed.

(** The statement of a share, which the client's conflict target makes an upsert. *)
Lemma share_upsert_grows R new p db :
  shared_resource R -> keys_ok (db_rows db) ->
  grows (db_rows db) (db_rows (sql_upsert (@r_shares R) share_target new (set_permission p) db).1).
Proof.
  intros HR Hk. destruct HR; apply upsert_grows; try done;
    [intros a b; by apply (share_target_sym (R := pipeline_resource))
    |intros a b; by apply (share_target_sym (R := dataFile_resource))
    |intros a b; by apply (share_target_sym (R := run_resource))].
Qed.

Lemma statement_keeps db db' :
  keys_ok (db_rows db) -> statement db db' -> keys_ok (db_rows db') /\ grows (db_rows db) (db_rows db').
Proof.
  intros Hk Hst. destruct Hst as [t r|R new p HR|t0 t1 label mf|p f|p f Hf|t p Ht].
  - split; [by apply insert_keys|apply insert_grows].
  - split; [by apply law_upsert_keys|by apply share_upsert_grows].
  - unfold BlockRepo.upsert. split; [exact (law_upsert_keys TBlocks _ _ _ db Hk)|].
    apply (upsert_grows TBlocks); [done..| |].
    + intros a b Ha Hb. bool_prop. simpl. rewrite Ha, Hb, eqb_refl_js. apply orb_true_r.
    + by intros x.
  - split; [by apply law_update_keys|]. pose proof (law_update TPipelines p f db) as Hl.
    destruct (sql_update TPipelines p f db) as [db1 [out|e]]; [|by subst db1].
    destruct Hl as [_ Hs]. by eapply grows_set; [exact Hs|intros|intros [|]].
  - split; [by apply law_update_keys|]. pose proof (law_update TRuns p f db) as Hl.
    destruct (sql_update TRuns p f db) as [db1 [out|e]]; [|by subst db1].
    destruct Hl as [_ Hs]. apply (grows_rows _ _ (fun r => if p r then f r else r)).
    + intros r. destruct (p r); [apply Hf|done].
    + intros r Hr. simpl. rewrite (Hs TRuns), rows_set_eq.
      by apply (list_elem_of_fmap_2 (fun r => if p r then f r else r)).
    + intros x Hx. by rewrite (Hs TRunFiles), rows_set_ne.
    + intros x Hx. by rewrite (Hs TRunLogs), rows_set_ne.
  - destruct (law_delete t p db) as (db1 & out & -> & _ & Hs); [by intros ->|]. simpl. split.
    + eapply keys_ok_same; [by symmetry|]. by apply keys_ok_cascade, keys_ok_filter.
    + etrans; [by eapply cascade_grows|]. by apply grows_same.
Qed.
End Keep.

(** ** Every request is a sequence of statements *)

Section Operations.
Context {DB : Type} `{SqlLaws DB}.
Implicit Types db : DB.

Definition OpStated {A} (op : DB -> DB * result string A) : Prop := forall db, rtc statement db (op db).1.

(** An operation of one statement whose result is only reshaped. *)
Lemma stated_once {A B} (stmt : DB -> DB * result string A) (k : A -> B) :
  (forall db, statement db (stmt db).1) ->
  OpStated (fun db => match stmt db with
                      | (db', Ok out) => (db', Ok (k out))
                      | (db', Throw e) => (db', Throw e)
                      end).
Proof. intros Hst db. specialize (Hst db). destruct (stmt db) as [db' [out|e]]; by apply rtc_once. Qed.

Lemma acl_share_stated R now id u v p : shared_resource R -> OpStated (acl_share (R := R) now id u v p).
Proof.
  intros HR db. unfold acl_share. destruct (take 1 _); [done|].
  apply (stated_once _ (fun _ => true)). intros db1. by apply StShare.
Qed.

Lemma acl_unshare_stated R id u v :
  deletable (@r_shares R) = true -> OpStated (acl_unshare (R := R) id u v).
Proof.
  intros HR db. unfold acl_unshare. destruct (take 1 _); [done|].
  apply (stated_once _ (fun _ => true)). intros db1. by apply StDelete.
Qed.

Lemma pipeline_create_stated now input : OpStated (PipelineRepo.create now input).
Proof. intros db. apply rtc_once, (StInsert db TPipelines). Qed.
Lemma pipeline_update_stated now id u patch : OpStated (PipelineRepo.update now id u patch).
Proof. apply (stated_once _ head). intros db. apply StPipelines. Qed.
Lemma pipeline_delete_stated id u : OpStated (PipelineRepo.delete id u).
Proof.
  apply (stated_once _ (fun out => bool_decide (0 < length out))). intros db. by apply (StDelete db TPipelines).
Qed.
Lemma pipeline_share_stated now id u v p : OpStated (PipelineRepo.share now id u v p).
Proof. apply (acl_share_stated pipeline_resource). constructor. Qed.
Lemma pipeline_unshare_stated id u v : OpStated (PipelineRepo.unshare id u v).
Proof. by apply (acl_unshare_stated pipeline_resource). Qed.

Lemma dataFile_create_stated now input : OpStated (DataFileRepo.create now input).
Proof. intros db. apply rtc_once, (StInsert db TDataFiles). Qed.
Lemma dataFile_delete_stated id u : OpStated (DataFileRepo.delete id u).
Proof. apply (stated_once _ head). intros db. by apply (StDelete db TDataFiles). Qed.
Lemma dataFile_share_stated now id u v p : OpStated (DataFileRepo.share now id u v p).
Proof. apply (acl_share_stated dataFile_resource). constructor. Qed.

Lemma run_create_stated now input : OpStated (RunRepo.create now input).
Proof. intros db. apply rtc_once, (StInsert db TRuns). Qed.
Lemma run_visibility_stated now id u vis : OpStated (RunRepo.setVisibility now id u vis).
Proof. apply (stated_once _ head). intros db. by apply StRuns. Qed.
Lemma run_status_stated t0 t1 t2 id status e : OpStated (RunRepo.updateStatus t0 t1 t2 id status e).
Proof. apply (stated_once _ head). intros db. by apply StRuns. Qed.
Lemma run_file_stated now v7 input : OpStated (RunRepo.appendFile now v7 input).
Proof. intros db. apply rtc_once, (StInsert db TRunFiles). Qed.
Lemma run_log_stated now v7 input : OpStated (RunRepo.appendLog now v7 input).
Proof. intros db. apply rtc_once, (StInsert db TRunLogs). Qed.
Lemma run_share_stated now id u v p : OpStated (RunRepo.share now id u v p).
Proof. apply (acl_share_stated run_resource). constructor. Qed.
Lemma run_unshare_stated id u v : OpStated (RunRepo.unshare id u v).
Proof. by apply (acl_unshare_stated run_resource). Qed.

Lemma block_upsert_stated t0 t1 label mf : OpStated (BlockRepo.upsert t0 t1 label mf).
Proof. intros db. apply rtc_once, StBlock. Qed.
End Operations.

#[export] Hint Resolve pipeline_create_stated pipeline_update_stated pipeline_delete_stated pipeline_share_stated
  pipeline_unshare_stated dataFile_create_stated dataFile_delete_stated dataFile_share_stated run_create_stated
  run_visibility_stated run_status_stated run_file_stated run_log_stated run_share_stated run_unshare_stated
  block_upsert_stated : spade.

Section Requests.
Context {DB : Type} `{SqlLaws DB} {env : Env} {cfg : RouterConfig}.
Implicit Types w : World DB.

Definition Stated {A} (m : M (World DB) HttpError A) : Prop :=
  forall w w' r, m w = (w', r) -> rtc statement (w_db w) (w_db w').

Lemma stated_pure {A} (m : M (World DB) HttpError A) : PureStep m -> Stated m.
Proof. intros Hm w w' r Hrun. by destruct (Hm w w' r Hrun) as [-> _]. Qed.

Lemma stated_bind {A B} (m : M (World DB) HttpError A) (k : A -> M (World DB) HttpError B) :
  Stated m -> (forall a, Stated (k a)) -> Stated (m ≫= k).
Proof.
  intros Hm Hk w w' r. rewrite run_bind. destruct (m w) as [w1 [a|e]] eqn:E; intros Hr.
  - etrans; [by eapply Hm|by eapply Hk].
  - injection Hr as <- _. by eapply Hm.
Qed.

Lemma stated_write {A} (op : DB -> DB * result string A) : OpStated op -> Stated (write op).
Proof. intros Hop w w' r (db' & o & Hrun & -> & _)%run_write_inv. specialize (Hop (w_db w)). by rewrite Hrun in Hop. Qed.

Lemma stated_forM {A} (l : list A) (f : A -> M (World DB) HttpError unit) :
  (forall x, Stated (f x)) -> Stated (forM l f).
Proof.
  intros Hf. induction l as [|x l IH]; [by apply stated_pure, pure_ret|]. by apply stated_bind.
Qed.

Lemma stated_s3_delete key : Stated (try_catch (s3_delete key) (fun _ => mret tt)).
Proof.
  intros w w' r. unfold try_catch, s3_delete. destruct (s3_delete_fails key); intros Hr; by injection Hr as <- _.
Qed.

Ltac stated_step := repeat first
  [ apply stated_pure; solve [pure_step]
  | apply stated_bind; [|intros ?]
  | apply stated_write; solve [auto with spade]
  | apply stated_forM; intros ?
  | apply stated_s3_delete
  | case_match ].

(** Whatever a request is, whoever sends it and however it ends, the database went
    through a sequence of statements. *)
Theorem requests_are_statements session req : Stated (handle (DB := DB) session req).
Proof.
  destruct req; unfold handle, done, respond.
  all: unfold submit, list_runs, get_run, get_file, get_zip, put_run, share_run, unshare_run, patch_run,
    append_entry, append_log, create_pipeline, list_pipelines, get_pipeline, put_pipeline, delete_pipeline,
    share_pipeline, unshare_pipeline, list_data, get_data, delete_data, share_data, upload_init, upload_complete,
    list_blocks, get_block, submit_source, upload_block, upload_manifest.
  all: stated_step.
Qed.
End Requests.
