(* ===== verification/Concurrent.v ===== *)
(** * Access control between the statements of others

    ([web_ui/server/db/repositories]: [getByIdForUser], [getWithDetails], [listSharedWith],
    [share] and [unshare], which wait for the database more than once.)  Each is a program of statements
    here; run in one go it is the function of the repository, and otherwise the
    statements of any other requests may come between its own. *)

From S2P Require Export Statements.

(** ** Programs of statements *)

(** [PQuery] reads; [PExec] runs a statement that may write or throw. *)
Inductive prog (DB A : Type) : Type :=
  | PRet (a : A)
  | PQuery (X : Type) (f : DB -> X) (k : X -> prog DB A)
  | PExec (X : Type) (op : DB -> DB * result string X) (k : result string X -> prog DB A).
Arguments PRet {DB A}. Arguments PQuery {DB A X}. Arguments PExec {DB A X}.

Fixpoint pbind {DB A B} (p : prog DB A) (g : A -> prog DB B) : prog DB B :=
  match p with
  | PRet a => g a
  | PQuery f k => PQuery f (fun x => pbind (k x) g)
  | PExec op k => PExec op (fun x => pbind (k x) g)
  end.

(** The program with the database to itself. *)
Fixpoint alone {DB A} (p : prog DB A) (db : DB) : DB * A :=
  match p with
  | PRet a => (db, a)
  | PQuery f k => alone (k (f db)) db
  | PExec op k => let '(db', x) := op db in alone (k x) db'
  end.

Lemma alone_bind {DB A B} (p : prog DB A) (g : A -> prog DB B) db :
  alone (pbind p g) db = let '(db', a) := alone p db in alone (g a) db'.
Proof.
  revert db. induction p as [a|X f k IH|X op k IH]; intros db; simpl; [done|apply IH|].
  destruct (op db) as [db' x]. apply IH.
Qed.

(** The program among statements of others: [seen] are the states the database goes
    through until the end, and [own] the program's writes, each with the states before and after. *)
Inductive among {DB : Type} `{Sql DB} {A : Type} :
    prog DB A -> DB -> list DB -> list (DB * DB) -> A -> DB -> Prop :=
  | AmRet a db : among (PRet a) db [db] [] a db
  | AmOther p db db1 seen own a db' :
      statement db db1 -> among p db1 seen own a db' -> among p db (db :: seen) own a db'
  | AmQuery X (f : DB -> X) k db seen own a db' :
      among (k (f db)) db seen own a db' -> among (PQuery f k) db (db :: seen) own a db'
  | AmExec X (op : DB -> DB * result string X) k db db1 x seen own a db' :
      op db = (db1, x) -> among (k x) db1 seen own a db' ->
      among (PExec op k) db (db :: seen) ((db, db1) :: own) a db'.

Section Among.
Context {DB : Type} `{SqlLaws DB}.
Implicit Types db : DB.

(** Nobody else: the program alone. *)
Lemma among_alone {A} (p : prog DB A) db :
  exists seen own, among p db seen own (alone p db).2 (alone p db).1.
Proof.
  revert db. induction p as [a|X f k IH|X op k IH]; intros db; simpl.
  - exists [db], []. constructor.
  - destruct (IH (f db) db) as (seen & own & Hrun). eexists _, own. by constructor.
  - destruct (op db) as [db1 x] eqn:E. destruct (IH x db1) as (seen & own & Hrun).
    eexists _, _. by econstructor.
Qed.

Lemma statements_keep db db' :
  rtc statement db db' -> keys_ok (db_rows db) -> keys_ok (db_rows db') /\ grows (db_rows db) (db_rows db').
Proof.
  induction 1 as [db|db db1 db' Hst _ IH]; intros Hk; [done|].
  destruct (statement_keeps db db1 Hk Hst) as [Hk1 Hg]. destruct (IH Hk1) as [Hk' Hg']. split; [done|]. by etrans.
Qed.

(** The first statement of a program runs at a state that is seen, after statements of others. *)
Lemma among_inv {A} (p : prog DB A) db seen own a db' :
  among p db seen own a db' ->
  match p with
  | PRet a0 => a = a0 /\ own = []
  | PQuery f k => exists db1 seen1, rtc statement db db1 /\ db1 ∈ seen /\ seen1 ⊆ seen /\
      among (k (f db1)) db1 seen1 own a db'
  | PExec op k => exists db1 db2 x seen1 own1, rtc statement db db1 /\ db1 ∈ seen /\ seen1 ⊆ seen /\
      op db1 = (db2, x) /\ own = (db1, db2) :: own1 /\ among (k x) db2 seen1 own1 a db'
  end.
Proof.
  induction 1 as [a db|p db db1 seen own a db' Hst _ IH|X f k db seen own a db' Hrun _
    |X op k db db1 x seen own a db' Hop Hrun _]; [done| | |].
  - destruct p as [a0|X f k|X op k]; [done| |].
    + destruct IH as (db2 & seen1 & Hpath & Hin & Hsub & Hrun). exists db2, seen1.
      split; [by eapply rtc_l|]. split; [by right|]. split; [set_solver|done].
    + destruct IH as (db2 & db3 & x & seen1 & own1 & Hpath & Hin & Hsub & Hrest).
      exists db2, db3, x, seen1, own1. split; [by eapply rtc_l|]. split; [by right|]. split; [set_solver|done].
  - exists db, seen. split; [done|]. split; [left|]. split; [set_solver|done].
  - exists db, db1, x, seen, own. split; [done|]. split; [left|]. split; [set_solver|done].
Qed.

Lemma among_query {A X} (f : DB -> X) (k : X -> prog DB A) db seen own a db' :
  keys_ok (db_rows db) -> among (PQuery f k) db seen own a db' ->
  exists db1 seen1, db1 ∈ seen /\ keys_ok (db_rows db1) /\ grows (db_rows db) (db_rows db1) /\ seen1 ⊆ seen /\
    among (k (f db1)) db1 seen1 own a db'.
Proof.
  intros Hk (db1 & seen1 & Hpath & Hin & Hsub & Hrun)%among_inv.
  destruct (statements_keep db db1 Hpath Hk) as [Hk1 Hg]. by exists db1, seen1.
Qed.
End Among.

(** ** The operations *)

Section Programs.
Context {DB : Type} `{Sql DB} {R : Resource}.

Definition p_getByIdForUser (id userId : string) : prog DB (option (row r_table)) :=
  PQuery (sql_select r_table (fun r => r_id r === id)) (fun l =>
    match first_row l with
    | None => PRet None
    | Some r =>
        if (r_owner r === userId) || (r_visibility r === Public) then PRet (Some r)
        else PQuery (sql_select r_shares (fun s => (sh_resource (r_to_share s) === id) &&
                                                   (sh_userId (r_to_share s) === userId)))
               (fun l => PRet (match first_row l with Some _ => Some r | None => None end))
    end).

Definition p_listSharedWith (userId : string) : prog DB (list (row r_table)) :=
  PQuery (sql_select r_shares (fun s => sh_userId (r_to_share s) === userId)) (fun shares =>
    match (fun s => sh_resource (r_to_share s)) <$> shares with
    | [] => PRet []
    | ids => PQuery (sql_select_ordered r_table (fun r => js_mem (r_id r) ids) (newest_first r_sort)) PRet
    end).

(** A write behind the check that the caller owns the row; [checked] is its function. *)
Definition p_checked {X} (id ownerId : string) (op : DB -> DB * result string X) : prog DB (result string bool) :=
  PQuery (sql_select r_table (owned_by id ownerId)) (fun l =>
    match take 1 l with
    | [] => PRet (Ok false)
    | _ => PExec op (fun out => PRet (match out with Ok _ => Ok true | Throw e => Throw e end))
    end).

Definition checked {X} (id ownerId : string) (op : DB -> DB * result string X) (db : DB) : DB * result string bool :=
  match take 1 (sql_select r_table (owned_by id ownerId) db) with
  | [] => (db, Ok false)
  | _ => match op db with
         | (db', Ok _) => (db', Ok true)
         | (db', Throw e) => (db', Throw e)
         end
  end.

Definition p_share (now : Z) (id ownerId shareWithUserId : string) (permission : Permission)
    : prog DB (result string bool) :=
  p_checked id ownerId
    (sql_upsert r_shares share_target (r_of_share (mkShare id shareWithUserId permission now))
       (set_permission permission)).

Definition p_unshare (id ownerId userId : string) : prog DB (result string bool) :=
  p_checked id ownerId
    (sql_delete r_shares (fun s => (sh_resource (r_to_share s) === id) && (sh_userId (r_to_share s) === userId))).
End Programs.

(** The files and logs of a run; the two queries of the [Promise.all] come in either order. *)
Definition p_lists {DB} `{Sql DB} (text_le : string -> string -> bool) (logs_first : bool) (id : string)
    (run : RunRow) : prog DB (option RunWithDetails) :=
  let q_files := sql_select_ordered TRunFiles (fun f => rf_runId f === id)
                   (fun a b => text_le (rf_name a) (rf_name b)) in
  let q_logs := sql_select_ordered TRunLogs (fun l => rl_runId l === id) (oldest_first rl_createdAt) in
  if logs_first then PQuery q_logs (fun logs => PQuery q_files (fun files => PRet (Some (mkDetails run files logs))))
  else PQuery q_files (fun files => PQuery q_logs (fun logs => PRet (Some (mkDetails run files logs)))).

Definition p_getWithDetails {DB} `{Sql DB} (text_le : string -> string -> bool) (logs_first : bool)
    (id userId : string) : prog DB (option RunWithDetails) :=
  pbind (p_getByIdForUser (R := run_resource) id userId) (fun found =>
    match found with
    | None => PRet None
    | Some run => p_lists text_le logs_first id run
    end).

Section Alone.
Context {DB : Type} `{Sql DB}.

(** With the database to themselves the programs are the functions of the repositories. *)
Lemma alone_getByIdForUser {R : Resource} id u (db : DB) :
  alone (p_getByIdForUser id u) db = (db, acl_getByIdForUser id u db).
Proof.
  unfold p_getByIdForUser, acl_getByIdForUser. simpl. destruct (first_row _) as [r|]; [|done]. by destruct (_ || _).
Qed.

Lemma alone_listSharedWith {R : Resource} u (db : DB) :
  alone (p_listSharedWith u) db = (db, acl_listSharedWith u db).
Proof. unfold p_listSharedWith, acl_listSharedWith. simpl. by destruct (_ <$> _). Qed.

Lemma alone_checked {R : Resource} {X} id o (op : DB -> DB * result string X) (db : DB) :
  alone (p_checked id o op) db = checked id o op db.
Proof.
  unfold p_checked, checked. simpl. destruct (take 1 _); [done|]. simpl. by destruct (op db) as [db' [?|?]].
Qed.

Lemma alone_share {R : Resource} now id o v p (db : DB) :
  alone (p_share now id o v p) db = acl_share now id o v p db.
Proof. exact (alone_checked id o _ db). Qed.

Lemma alone_unshare {R : Resource} id o v (db : DB) : alone (p_unshare id o v) db = acl_unshare id o v db.
Proof. exact (alone_checked id o _ db). Qed.

Lemma alone_getWithDetails text_le logs_first id u (db : DB) :
  alone (p_getWithDetails text_le logs_first id u) db = (db, RunRepo.getWithDetails text_le id u db).
Proof.
  unfold p_getWithDetails, RunRepo.getWithDetails. rewrite alone_bind, alone_getByIdForUser.
  change (acl_getByIdForUser (R := run_resource) id u db) with (RunRepo.getByIdForUser id u db).
  destruct (RunRepo.getByIdForUser id u db); [|done]. by destruct logs_first.
Qed.
End Alone.

(** ** Sharing takes effect at one moment *)

Section Sharing.
Context {DB : Type} `{SqlLaws DB}.
Implicit Types db : DB.

Lemma grows_owns c c' u id : grows c c' -> owns (R := run_resource) c u id -> owns (R := run_resource) c' u id.
Proof.
  intros Hg (r & Hr & <- & <-). destruct (gr_runs _ _ Hg r Hr) as (r' & Hr' & Hid & Ho). by exists r'.
Qed.

(** The write behind a check, run where the check would succeed, is the whole operation. *)
Lemma p_checked_linear {X} id u (op : DB -> DB * result string X) db seen own res db' :
  keys_ok (db_rows db) -> among (p_checked (R := run_resource) id u op) db seen own res db' ->
  exists b a, b ∈ seen /\ checked (R := run_resource) id u op b = (a, res) /\ (own = [(b, a)] \/ own = [] /\ a = b).
Proof.
  intros Hk (db1 & seen1 & Hin & Hk1 & _ & Hsub & Hrun)%among_query; [|done]. unfold checked.
  pose proof (owned_query (R := run_resource) db1 id u) as Hq. destruct (take 1 _) as [|r l] eqn:E.
  - apply among_inv in Hrun as [-> ->]. exists db1, db1. rewrite E. auto.
  - apply among_inv in Hrun as (b & a & x & seen2 & own1 & Hpath & Hb & Hsub2 & Hop & -> & Hret).
    apply among_inv in Hret as [-> ->]. destruct (statements_keep db1 b Hpath Hk1) as [_ Hg].
    assert (Hown : owns (R := run_resource) (db_rows b) u id) by (eapply grows_owns; [exact Hg|by apply Hq]).
    exists b, a. split; [by apply Hsub|]. split; [|by left]. apply owned_query in Hown.
    destruct (take 1 (sql_select _ _ b)); [done|]. rewrite Hop. by destruct x.
Qed.
End Sharing.

(** ** Reading a run *)

Section Reading.
Context {DB : Type} `{SqlLaws DB} (text_le : string -> string -> bool).
Context (text_le_total : forall a b, text_le a b = true \/ text_le b a = true).
Context (text_le_trans : forall a b c, text_le a b = true -> text_le b c = true -> text_le a c = true).
Implicit Types db : DB.

Lemma elem_files id db f :
  f ∈ sql_select_ordered TRunFiles (fun f => rf_runId f === id) (fun a b => text_le (rf_name a) (rf_name b)) db <->
  f ∈ rows (db_rows db) TRunFiles /\ rf_runId f = id.
Proof.
  destruct (law_ordered TRunFiles (fun f => rf_runId f === id) (fun a b => text_le (rf_name a) (rf_name b)) db)
    as [Hp _]; [intros a b; apply text_le_total|intros a b c; apply text_le_trans|].
  rewrite Hp, elem_of_js_filter, bool_decide_eq_true. tauto.
Qed.

Lemma elem_logs id db l :
  l ∈ sql_select_ordered TRunLogs (fun l => rl_runId l === id) (oldest_first rl_createdAt) db <->
  l ∈ rows (db_rows db) TRunLogs /\ rl_runId l = id.
Proof.
  destruct (law_ordered TRunLogs (fun l => rl_runId l === id) (oldest_first rl_createdAt) db) as [Hp _].
  - intros a b. unfold oldest_first. rewrite !Z.leb_le. lia.
  - intros a b c. unfold oldest_first. rewrite !Z.leb_le. lia.
  - rewrite Hp, elem_of_js_filter, bool_decide_eq_true. tauto.
Qed.

(** The lists of an answer: all that was stored at [c], and only what was stored at some
    state in [seen]. *)
Definition stored_lists (id : string) (c : contents) (seen : list DB) (d : RunWithDetails) : Prop :=
  (forall f, f ∈ rows c TRunFiles -> rf_runId f = id -> f ∈ files d) /\
  (forall l, l ∈ rows c TRunLogs -> rl_runId l = id -> l ∈ logs d) /\
  (forall f, f ∈ files d -> rf_runId f = id /\ exists s, s ∈ seen /\ f ∈ rows (db_rows s) TRunFiles) /\
  (forall l, l ∈ logs d -> rl_runId l = id /\ exists s, s ∈ seen /\ l ∈ rows (db_rows s) TRunLogs).

(** The two queries of the lists, at states after [c]. *)
Lemma lists_stored id r c s1 s2 seen :
  grows c (db_rows s1) -> grows c (db_rows s2) -> s1 ∈ seen -> s2 ∈ seen ->
  stored_lists id c seen
    (mkDetails r
       (sql_select_ordered TRunFiles (fun f => rf_runId f === id) (fun a b => text_le (rf_name a) (rf_name b)) s1)
       (sql_select_ordered TRunLogs (fun l => rl_runId l === id) (oldest_first rl_createdAt) s2)).
Proof.
  intros Hg1 Hg2 H1 H2. unfold stored_lists. simpl. setoid_rewrite elem_files. setoid_rewrite elem_logs.
  split_and!.
  - intros f Hf Hid. split; [by apply (gr_files _ _ Hg1)|done].
  - intros l Hl Hid. split; [by apply (gr_logs _ _ Hg2)|done].
  - intros f [Hf Hid]. eauto.
  - intros l [Hl Hid]. eauto.
Qed.

(** What follows once the run is found at a state after [c]. *)
Lemma details_among logs_first id r c db seen own res db' :
  keys_ok (db_rows db) -> grows c (db_rows db) ->
  among (p_lists text_le logs_first id r) db seen own res db' ->
  own = [] /\ exists d, res = Some d /\ run d = r /\ stored_lists id c seen d.
Proof.
  intros Hk Hg Hrun. unfold p_lists in Hrun. destruct logs_first.
  all: apply among_query in Hrun as (s1 & seen1 & H1 & Hk1 & Hg1 & Hsub1 & Hrun); [|done].
  all: apply among_query in Hrun as (s2 & seen2 & H2 & _ & Hg2 & _ & Hrun); [|done].
  all: apply among_inv in Hrun as [-> ->]; split; [done|]; eexists; split; [done|]; split; [done|].
  all: assert (Hs1 : grows c (db_rows s1)) by (transitivity (db_rows db); done).
  all: assert (Hs2 : grows c (db_rows s2)) by (transitivity (db_rows s1); done).
  all: apply lists_stored; auto.
Qed.

(** The run [id] of owner [o], as it is in a state, and whether [u] may see it there. *)
Definition visible_in (u id o : string) (c : contents) : Prop :=
  exists r, r ∈ rows c TRuns /\ rn_id r = id /\ rn_ownerId r = o /\ can_view (R := run_resource) c u r.

Lemma select_run id db r :
  first_row (sql_select TRuns (fun r => rn_id r === id) db) = Some r -> r ∈ rows (db_rows db) TRuns /\ rn_id r = id.
Proof. intros [Hid Hr]%first_row_Some%elem_select. by bool_prop. Qed.

Lemma select_share id u db :
  first_row (sql_select TRunShares (fun s => (sh_resource s === id) && (sh_userId s === u)) db) <> None <->
  shared_with (R := run_resource) (db_rows db) id u.
Proof.
  rewrite (first_row_select_None TRunShares). split.
  - intros Hn. destruct (decide (Exists (fun s => (sh_resource s === id) && (sh_userId s === u) = true)
      (rows (db_rows db) TRunShares))) as [(s & Hs & Heq)%Exists_exists|Hno].
    + exists s. by bool_prop.
    + destruct Hn. intros s Hs. apply not_true_iff_false. intros Heq. apply Hno, Exists_exists. eauto.
  - intros (s & Hs & <- & <-) Hn. specialize (Hn s Hs). by rewrite !eqb_refl_js in Hn.
Qed.

(** The access check of a run: it is passed at a state where the run can be seen, or some
    reason to see it is missing at one of the states. *)
Inductive verdict (u id : string) (seen : list DB) : option RunRow -> Prop :=
  | VdFound r s1 s2 : s1 ∈ seen -> s2 ∈ seen -> r ∈ rows (db_rows s1) TRuns -> rn_id r = id ->
      grows (db_rows s1) (db_rows s2) -> visible_in u id (rn_ownerId r) (db_rows s2) -> verdict u id seen (Some r)
  | VdAbsent s : s ∈ seen -> (forall r, r ∈ rows (db_rows s) TRuns -> rn_id r <> id) -> verdict u id seen None
  | VdHidden s1 s2 r : s1 ∈ seen -> s2 ∈ seen -> keys_ok (db_rows s1) -> r ∈ rows (db_rows s1) TRuns -> rn_id r = id ->
      rn_ownerId r <> u -> rn_visibility r <> Public ->
      ~ shared_with (R := run_resource) (db_rows s2) id u -> verdict u id seen None.

Lemma check_among {B} id u (g : option RunRow -> prog DB B) db seen own b db' :
  keys_ok (db_rows db) -> among (pbind (p_getByIdForUser (R := run_resource) id u) g) db seen own b db' ->
  exists found db1 seen1, verdict u id seen found /\ keys_ok (db_rows db1) /\ seen1 ⊆ seen /\
    (forall r, found = Some r -> exists s, s ∈ seen /\ r ∈ rows (db_rows s) TRuns /\ grows (db_rows s) (db_rows db1)) /\
    among (g found) db1 seen1 own b db'.
Proof.
  intros Hk Hrun. unfold p_getByIdForUser in Hrun. cbn [pbind] in Hrun.
  apply among_query in Hrun as (s1 & seen1 & H1 & Hk1 & Hg1 & Hsub1 & Hrun); [|done].
  cbn [r_table r_id r_owner r_visibility r_shares r_to_share run_resource] in Hrun.
  destruct (first_row (sql_select TRuns (fun r => rn_id r === id) s1)) as [r|] eqn:Hr.
  - apply select_run in Hr as [Hr Hid]. destruct ((rn_ownerId r === u) || (rn_visibility r === Public)) eqn:Hown.
    + cbn [pbind] in Hrun. exists (Some r), s1, seen1. split_and!; [|done..| |done].
      * apply (VdFound u id seen r s1 s1); try done. exists r. split_and!; try done.
        unfold can_view. simpl. apply orb_true_iff in Hown as [Ho|Hp]; bool_prop; [by left|right; by left].
      * intros r' [= <-]. by exists s1.
    + cbn [pbind] in Hrun. apply among_query in Hrun as (s2 & seen2 & H2 & Hk2 & Hg2 & Hsub2 & Hrun); [|done].
      assert (H2' : s2 ∈ seen) by (by apply Hsub1). assert (Hsub : seen2 ⊆ seen) by set_solver.
      pose proof (select_share id u s2) as Hsh.
      destruct (first_row (sql_select TRunShares _ s2)) as [sh|] eqn:Es.
      * exists (Some r), s2, seen2. split_and!; [|done..| |done].
        -- apply (VdFound u id seen r s1 s2); try done.
           destruct (gr_runs _ _ Hg2 r Hr) as (r2 & Hr2 & Hid2 & Ho2). exists r2. split_and!; [done|congruence|done|].
           right. right. simpl. rewrite Hid2, Hid. by apply Hsh.
        -- intros r' [= <-]. by exists s1.
      * exists None, s2, seen2. split_and!; [|done..|done].
        apply (VdHidden u id seen s1 s2 r); try done; [by bool_prop|by bool_prop|]. intros Hs. by apply Hsh in Hs.
  - cbn [pbind] in Hrun. exists None, s1, seen1. split_and!; [|done..|done].
    apply (VdAbsent u id seen s1); [done|]. intros r Hin Hid. rewrite (first_row_select_None TRuns) in Hr.
    specialize (Hr r Hin). by bool_prop.
Qed.

(** A reason to see the run that holds all along is enough. *)
Lemma verdict_None id u seen :
  verdict u id seen None ->
  ~ (forall s, s ∈ seen -> owns (R := run_resource) (db_rows s) u id) /\
  ~ (forall s, s ∈ seen -> exists r, r ∈ rows (db_rows s) TRuns /\ rn_id r = id /\ rn_visibility r = Public) /\
  ~ (forall s, s ∈ seen -> (exists r, r ∈ rows (db_rows s) TRuns /\ rn_id r = id) /\
       shared_with (R := run_resource) (db_rows s) id u).
Proof.
  intros Hv. inversion Hv as [|s Hs Hno Hn|s1 s2 r H1 H2 Hk Hr Hid Ho Hp Hsh Hn].
  - split_and!; intros Hall; destruct (Hall s Hs) as (r & Hr).
    + destruct Hr as (Hr & Hid & _). by apply (Hno r).
    + destruct Hr as (Hr & Hid & _). by apply (Hno r).
    + destruct r as (r & Hr' & Hid). by apply (Hno r).
  - split_and!; intros Hall.
    + destruct (Hall s1 H1) as (r' & Hr' & Hid' & Ho'). simpl in *.
      assert (r' = r) as -> by (apply (row_unique (R := run_resource) s1); [done..|simpl; congruence]). done.
    + destruct (Hall s1 H1) as (r' & Hr' & Hid' & Hp').
      assert (r' = r) as -> by (apply (row_unique (R := run_resource) s1); [done..|simpl; congruence]). done.
    + by destruct (Hall s2 H2) as [_ ?].
Qed.

(** C5. Access to runs while the server does other things.  Whatever statements of whatever other
    requests come between those of one request: a run that is answered was stored at one
    moment of the request and the user could see it at one; its answer has all the
    files and logs stored when its row was read, and none that was not stored; a user
    who owns the run, or to whom it is public, or with whom it is shared, throughout
    the request gets it; reading writes nothing; and sharing and its undoing
    each take effect at a single moment, as if nothing else were running. *)
Theorem concurrent_access id u db :
  keys_ok (db_rows db) ->
  (forall logs_first seen own res db',
     among (p_getWithDetails text_le logs_first id u) db seen own res db' ->
     own = [] /\
     (forall d, res = Some d ->
        exists s1 s2, s1 ∈ seen /\ s2 ∈ seen /\ run d ∈ rows (db_rows s1) TRuns /\ rn_id (run d) = id /\
          visible_in u id (rn_ownerId (run d)) (db_rows s2) /\ stored_lists id (db_rows s1) seen d) /\
     (res = None ->
        ~ (forall s, s ∈ seen -> owns (R := run_resource) (db_rows s) u id) /\
        ~ (forall s, s ∈ seen -> exists r, r ∈ rows (db_rows s) TRuns /\ rn_id r = id /\ rn_visibility r = Public) /\
        ~ (forall s, s ∈ seen -> (exists r, r ∈ rows (db_rows s) TRuns /\ rn_id r = id) /\
             shared_with (R := run_resource) (db_rows s) id u))) /\
  (forall now v p seen own res db', among (p_share (R := run_resource) now id u v p) db seen own res db' ->
     exists b a, b ∈ seen /\ RunRepo.share now id u v p b = (a, res) /\ (own = [(b, a)] \/ own = [] /\ a = b)) /\
  (forall v seen own res db', among (p_unshare (R := run_resource) id u v) db seen own res db' ->
     exists b a, b ∈ seen /\ RunRepo.unshare id u v b = (a, res) /\ (own = [(b, a)] \/ own = [] /\ a = b)).
Proof.
  intros Hk. split; [|split].
  - intros logs_first seen own res db' Hrun. unfold p_getWithDetails in Hrun.
    apply check_among in Hrun as (found & db1 & seen1 & Hv & Hk1 & Hsub & Hfound & Hrun); [|done].
    destruct found as [r|].
    + destruct (Hfound r eq_refl) as (s1 & H1 & Hr & Hg).
      destruct (details_among logs_first id r (db_rows s1) _ _ _ _ _ Hk1 Hg Hrun) as (Hown & d & Hres & Hd & Hl).
      subst own res.
      split; [done|]. split; [|done]. intros d' [= <-]. inversion Hv as [r' t1 t2 _ Ht2 _ Hid _ Hvis| |]. subst r'.
      exists s1, t2. rewrite Hd. split_and!; try done. destruct Hl as (Hl1 & Hl2 & Hl3 & Hl4). split_and!; try done.
      * intros f Hf. destruct (Hl3 f Hf) as (? & s & Hs & ?). split; [done|]. exists s. auto.
      * intros l Hl. destruct (Hl4 l Hl) as (? & s & Hs & ?). split; [done|]. exists s. auto.
    + apply among_inv in Hrun as [-> ->]. split; [done|]. split; [done|]. intros _. by apply verdict_None.
  - intros now v p seen own res db'. by apply p_checked_linear.
  - intros v seen own res db'. by apply p_checked_linear.
Qed.
End Reading.
