(* ===== verification/Access.v ===== *)
(** * Who can see what

    What the responses of the GET routes disclose. *)

From S2P Require Export Isolation RunsSpec.

(** ** What a response discloses *)

Section Disclosure.
Context {env : Env}.

Definition sees_pipeline (c : contents) (u : string) (p : PipelineRow) : Prop :=
  p ∈ rows c TPipelines /\ can_view (R := pipeline_resource) c u p.
Definition sees_run (c : contents) (u : string) (r : RunRow) : Prop :=
  r ∈ rows c TRuns /\ can_view (R := run_resource) c u r.
Definition sees_data (c : contents) (u : string) (d : DataFileRow) : Prop :=
  d ∈ rows c TDataFiles /\ can_view (R := dataFile_resource) c u d.
(** The result files of the runs a user sees. *)
Definition sees_file (c : contents) (u : string) (f : RunFileRow) : Prop :=
  f ∈ rows c TRunFiles /\ exists r, sees_run c u r /\ rf_runId f = rn_id r.
Definition sees_log (c : contents) (u : string) (l : RunLogRow) : Prop :=
  l ∈ rows c TRunLogs /\ exists r, sees_run c u r /\ rl_runId l = rn_id r.

Definition download (key : string) : string := presign "GET" key None (60 * 10).

(** Everything the response tells is something the user may see. *)
Definition discloses_only (c : contents) (u : string) (resp : response) : Prop :=
  match resp with
  | RRun r => sees_run c u r
  | RRuns l => forall r, r ∈ l -> sees_run c u r
  | RRunDetails d =>
      sees_run c u (run d) /\
      (forall f, f ∈ files d -> sees_file c u f /\ rf_runId f = rn_id (run d)) /\
      (forall l, l ∈ logs d -> sees_log c u l /\ rl_runId l = rn_id (run d))
  | RFile (Redirect url) => exists f, sees_file c u f /\ url = download (rf_s3Key f)
  | RFile (FileUrl url name mime size) =>
      exists f, sees_file c u f /\ url = download (rf_s3Key f) /\
        name = rf_name f /\ mime = rf_mimeType f /\ size = rf_sizeBytes f
  | RArchive entries => forall e, e ∈ entries -> exists f, sees_file c u f /\ e.2 = rf_s3Key f
  | RPipeline p => sees_pipeline c u p
  | RPipelines l => forall p, p ∈ l -> sees_pipeline c u p
  | RData d => sees_data c u d
  | RDataUrl d url => sees_data c u d /\ url = download (df_s3Key d)
  | RDataFiles l => forall d, d ∈ l -> sees_data c u d
  | RBlocks _ | RManifest _ => True
  | RUpload _ | RBlock _ | ROk => False
  end.
End Disclosure.

Section Reading.
Context {DB : Type} `{SqlLaws DB} {env : Env} {cfg : RouterConfig}.
Context (text_le_total : forall a b, text_le a b = true \/ text_le b a = true).
Context (text_le_trans : forall a b c, text_le a b = true -> text_le b c = true -> text_le a c = true).
Implicit Types w : World DB.

Lemma elem_ordered t p before db x :
  (forall a b, before a b = true \/ before b a = true) ->
  (forall a b d, before a b = true -> before b d = true -> before a d = true) ->
  x ∈ sql_select_ordered t p before db <-> p x = true /\ x ∈ rows (db_rows db) t.
Proof. intros Ht Htr. destruct (law_ordered t p before db Ht Htr) as [Hp _]. by rewrite Hp, elem_of_js_filter. Qed.

(** The rows of the three lists of a repository may be seen. *)
Lemma scope_visible (R : Resource) db get owned shared public user r :
  reads_spec (R := R) db get owned shared public ->
  r ∈ owned user db \/ r ∈ shared user db \/ r ∈ public db ->
  r ∈ rows (db_rows db) r_table /\ can_view (db_rows db) user r.
Proof. intros [_ _ Hview _] Hr. by apply Hview. Qed.

Lemma details_visible db user id d :
  keys_ok (db_rows db) -> RunRepo.getWithDetails text_le id user db = Some d ->
  rn_id (run d) = id /\ discloses_only (db_rows db) user (RRunDetails d).
Proof.
  intros Hk. unfold RunRepo.getWithDetails. destruct (getByIdForUser id user db) as [r|] eqn:E; [|done].
  intros Heq. injection Heq as <-. destruct (run_reads db Hk) as [Hget _ _ _]. apply Hget in E as (Hr & Hid & Hview).
  simpl in Hid. assert (Hsees : sees_run (db_rows db) user r) by done. simpl. split; [done|].
  split; [done|]. split.
  - intros f Hf. rewrite (elem_ordered TRunFiles) in Hf;
      [|intros; apply text_le_total|intros a b e; apply text_le_trans]. destruct Hf as [Hp Hf]. bool_prop.
    split; [|congruence]. split; [done|]. exists r. split; [done|congruence].
  - intros l Hl. rewrite (elem_ordered TRunLogs) in Hl;
      [|intros a b; unfold oldest_first; rewrite !Z.leb_le; lia
       |intros a b e; unfold oldest_first; rewrite !Z.leb_le; lia]. destruct Hl as [Hp Hl]. bool_prop.
    split; [|congruence]. split; [done|]. exists r. split; [done|congruence].
Qed.

Lemma entry_names_keys seen l e : e ∈ entry_names seen l -> exists f, f ∈ l /\ e.2 = rf_s3Key f.
Proof.
  revert seen. induction l as [|f l IH]; intros seen; [intros He; by apply elem_of_nil in He|]. simpl.
  intros [->|He]%elem_of_cons; [exists f; split; [left|done]|].
  apply IH in He as (f' & Hf & Hk). exists f'. split; [by right|done].
Qed.

Lemma get_file_visible user id name redirect w w' resp :
  keys_ok (db_rows (w_db w)) -> get_file (Some user) id name redirect w = (w', Ok resp) ->
  discloses_only (db_rows (w_db w)) (u_id user) (RFile resp).
Proof.
  intros Hk Hrun. unfold get_file in Hrun.
  apply run_bind_Ok_inv in Hrun as (w1 & u & Hu & Hrun). apply run_requireUser_inv in Hu as [Hu ->].
  injection Hu as <-. destruct (negb _); [done|].
  apply run_bind_Ok_inv in Hrun as (w1 & found & Hf & Hrun). injection Hf as <- <-.
  apply run_bind_Ok_inv in Hrun as (w1 & r & Hr & Hrun). apply run_orThrow_inv in Hr as [Hr ->].
  apply run_bind_Ok_inv in Hrun as (w1 & decoded & Hd & Hrun).
  assert (w1 = w) as -> by (destruct (decodeURIComponent _); unfold mret, M_ret, throw in Hd; by simplify_eq).
  apply run_bind_Ok_inv in Hrun as (w1 & found & Hf & Hrun). injection Hf as <- <-.
  apply run_bind_Ok_inv in Hrun as (w1 & f & Hf & Hrun). apply run_orThrow_inv in Hf as [Hf ->].
  unfold mret, M_ret in Hrun. injection Hrun as _ <-.
  destruct (run_reads (w_db w) Hk) as [Hget _ _ _]. apply Hget in Hr as (Hr & Hid & Hview). simpl in Hid.
  unfold RunRepo.getFile in Hf. apply first_row_Some in Hf. apply (elem_select TRunFiles) in Hf as [Hp Hf].
  bool_prop. assert (sees_file (db_rows (w_db w)) (u_id user) f).
  { split; [done|]. exists r. split; [done|]. simpl in *. congruence. }
  destruct (otruthy redirect); simpl; exists f; split_and!; done.
Qed.

Lemma get_zip_visible user id w w' entries :
  keys_ok (db_rows (w_db w)) -> get_zip (Some user) id w = (w', Ok entries) ->
  discloses_only (db_rows (w_db w)) (u_id user) (RArchive entries).
Proof.
  intros Hk Hrun. unfold get_zip in Hrun.
  apply run_bind_Ok_inv in Hrun as (w1 & u & Hu & Hrun). apply run_requireUser_inv in Hu as [Hu ->].
  injection Hu as <-. apply run_bind_Ok_inv in Hrun as (w1 & x & Hid & Hrun). apply run_routerId_inv in Hid as (_ & _ & ->).
  apply run_bind_Ok_inv in Hrun as (w1 & found & Hf & Hrun). injection Hf as <- <-.
  apply run_bind_Ok_inv in Hrun as (w1 & d & Hd & Hrun). apply run_orThrow_inv in Hd as [Hd ->].
  apply run_bind_Ok_inv in Hrun as (w1 & [] & Hg & Hrun). apply run_guard_inv in Hg as [_ ->].
  unfold mret, M_ret in Hrun. injection Hrun as _ <-.
  destruct (details_visible (w_db w) (u_id user) x d Hk Hd) as (_ & _ & Hfiles & _).
  intros e (f & Hf & He)%entry_names_keys. exists f. split; [|done]. by apply Hfiles.
Qed.

(** The lists, by scope. *)
Lemma list_visible {A} (P : A -> Prop) user (scope : option string) (shared public owned : DB -> list A)
    (f : list A -> response) w w' resp :
  (forall x, x ∈ owned (w_db w) \/ x ∈ shared (w_db w) \/ x ∈ public (w_db w) -> P x) ->
  respond f (u ← requireUser (Some user);
    let scope := scope ⁇ "mine" in
    if scope === "shared" then read shared else if scope === "public" then read public else read owned) w
    = (w', Ok resp) ->
  exists l, resp = f l /\ forall x, x ∈ l -> P x.
Proof.
  intros HP. unfold respond, requireUser, orThrow, read, mbind, M_bind, mret, M_ret.
  destruct (_ === _); [|destruct (_ === _)]; intros Heq; injection Heq as _ <-;
    eexists; (split; [reflexivity|]); intros x Hx; apply HP; auto.
Qed.

(** A single row by its id. *)
Lemma get_row_inv {A} user id (get : SessionUser -> string -> DB -> option A) w w' a :
  (u ← requireUser (Some user); id ← routerId "Missing id" id;
   found ← read (get u id); orThrow (Http 404 "Not found") found) w = (w', Ok a) ->
  exists i, id = Some i /\ get user i (w_db w) = Some a /\ w' = w.
Proof.
  intros Hrun. apply run_bind_Ok_inv in Hrun as (w1 & u & Hu & Hrun). apply run_requireUser_inv in Hu as [Hu ->].
  injection Hu as <-. apply run_bind_Ok_inv in Hrun as (w1 & x & Hid & Hrun). apply run_routerId_inv in Hid as (-> & _ & ->).
  apply run_bind_Ok_inv in Hrun as (w1 & found & Hf & Hrun). injection Hf as <- <-.
  apply run_orThrow_inv in Hrun as [Hget ->]. by exists x.
Qed.

Lemma respond_inv {A} (f : A -> response) (m : M (World DB) HttpError A) w w' resp :
  respond f m w = (w', Ok resp) -> exists a, m w = (w', Ok a) /\ resp = f a.
Proof.
  unfold respond. intros Hrun. apply run_bind_Ok_inv in Hrun as (w1 & a & Hm & Hrun).
  unfold mret, M_ret in Hrun. injection Hrun as <- <-. by exists a.
Qed.

Lemma get_data_visible user id w w' d url :
  keys_ok (db_rows (w_db w)) -> get_data (Some user) id w = (w', Ok (d, url)) ->
  sees_data (db_rows (w_db w)) (u_id user) d /\ url = download (df_s3Key d).
Proof.
  intros Hk Hrun. unfold get_data in Hrun.
  apply run_bind_Ok_inv in Hrun as (w1 & u & Hu & Hrun). apply run_requireUser_inv in Hu as [Hu ->].
  injection Hu as <-. apply run_bind_Ok_inv in Hrun as (w1 & x & Hid & Hrun).
  apply run_routerId_inv in Hid as (_ & _ & ->). apply run_bind_Ok_inv in Hrun as (w1 & found & Hf & Hrun).
  injection Hf as <- <-. apply run_bind_Ok_inv in Hrun as (w1 & d' & Hd & Hrun).
  apply run_orThrow_inv in Hd as [Hd ->]. unfold mret, M_ret in Hrun. injection Hrun as _ <- <-.
  destruct (dataFile_reads _ Hk) as [Hg _ _ _]. by apply Hg in Hd as (? & _ & ?).
Qed.

(** Every read request discloses only rows the user may see. *)
Lemma reads_disclose user req w w' resp :
  keys_ok (db_rows (w_db w)) -> is_read req = true -> handle (Some user) req w = (w', Ok resp) ->
  discloses_only (db_rows (w_db w)) (u_id user) resp.
Proof.
  intros Hk Hread Hrun.
  pose proof (pipeline_reads (w_db w) Hk) as Hpl. pose proof (dataFile_reads (w_db w) Hk) as Hdf.
  pose proof (run_reads (w_db w) Hk) as Hrn. destruct req; try discriminate Hread; unfold handle in Hrun.
  - destruct (list_visible (sees_run (db_rows (w_db w)) (u_id user)) user scope
      (RunRepo.listSharedWith (u_id user)) RunRepo.listPublic (RunRepo.listOwnedBy (u_id user))
      RRuns w w' resp) as (l & -> & Hl); [|exact Hrun|exact Hl].
    intros r Hr. by apply (scope_visible run_resource _ _ _ _ _ _ _ Hrn).
  - apply respond_inv in Hrun as (d & Hrun & ->). apply (get_row_inv user) in Hrun as (i & _ & Hget & _).
    by eapply details_visible.
  - apply respond_inv in Hrun as (f & Hrun & ->). by eapply get_file_visible.
  - apply respond_inv in Hrun as (l & Hrun & ->). by eapply get_zip_visible.
  - destruct (list_visible (sees_pipeline (db_rows (w_db w)) (u_id user)) user scope
      (PipelineRepo.listSharedWith (u_id user)) PipelineRepo.listPublic (PipelineRepo.listOwnedBy (u_id user))
      RPipelines w w' resp) as (l & -> & Hl); [|exact Hrun|exact Hl].
    intros r Hr. by apply (scope_visible pipeline_resource _ _ _ _ _ _ _ Hpl).
  - apply respond_inv in Hrun as (p & Hrun & ->). apply (get_row_inv user) in Hrun as (i & _ & Hget & _).
    destruct Hpl as [Hg _ _ _]. apply Hg in Hget as (? & _ & ?). done.
  - destruct (list_visible (sees_data (db_rows (w_db w)) (u_id user)) user scope
      (DataFileRepo.listSharedWith (u_id user)) DataFileRepo.listPublic (DataFileRepo.listOwnedBy (u_id user))
      RDataFiles w w' resp) as (l & -> & Hl); [|exact Hrun|exact Hl].
    intros r Hr. by apply (scope_visible dataFile_resource _ _ _ _ _ _ _ Hdf).
  - apply respond_inv in Hrun as ([d url] & Hrun & ->). by eapply get_data_visible.
  - apply respond_inv in Hrun as (l & _ & ->). done.
  - apply respond_inv in Hrun as (m & _ & ->). done.
Qed.

(** ** What is served *)

(** A list is the rows of its scope. *)
Lemma list_served {A} user (scope : option string) (shared owned : string -> DB -> list A) (public : DB -> list A)
    (f : list A -> response) w :
  respond f (user ← requireUser (Some user);
    let scope := scope ⁇ "mine" in
    if scope === "shared" then read (shared (u_id user)) else if scope === "public" then read public
    else read (owned (u_id user))) w
    = (w, Ok (f (if (scope ⁇ "mine") === "shared" then shared (u_id user) (w_db w)
                 else if (scope ⁇ "mine") === "public" then public (w_db w) else owned (u_id user) (w_db w)))).
Proof.
  unfold respond, requireUser, orThrow, read, mbind, M_bind, mret, M_ret. cbv zeta. by repeat case_bool_decide.
Qed.

(** The rows a scope of a list asks for. *)
Definition in_scope (R : Resource) (c : contents) (u : string) (scope : option string) (r : row r_table) : Prop :=
  if scope === Some "shared" then shared_with c (r_id r) u
  else if scope === Some "public" then r_visibility r = Public
  else r_owner r = u.

Lemma elem_scope (R : Resource) {L : ResourceLaws R} db u scope r :
  r ∈ (if (scope ⁇ "mine") === "shared" then acl_listSharedWith u db
       else if (scope ⁇ "mine") === "public" then acl_listPublic db else acl_listOwnedBy u db) <->
  r ∈ rows (db_rows db) r_table /\ in_scope R (db_rows db) u scope r.
Proof.
  unfold in_scope. destruct scope as [s|]; simpl; [|apply elem_listOwnedBy].
  destruct (decide (s = "shared")) as [->|H1]; [apply elem_listSharedWith|].
  rewrite (bool_decide_eq_false_2 (s = _)), (bool_decide_eq_false_2 (Some s = _)) by congruence.
  destruct (decide (s = "public")) as [->|H2]; [apply elem_listPublic|].
  rewrite (bool_decide_eq_false_2 (s = _)), (bool_decide_eq_false_2 (Some s = _)) by congruence. apply elem_listOwnedBy.
Qed.

(** The details of a run are the run, its files in the order of their names and its logs
    in the order they were added. *)
Record details_of (c : contents) (r : RunRow) (d : RunWithDetails) : Prop := {
  do_run : run d = r;
  do_files : files d ≡ₚ js_filter (fun f => rf_runId f === rn_id r) (rows c TRunFiles);
  do_files_sorted : StronglySorted (fun a b => text_le (rf_name a) (rf_name b) = true) (files d);
  do_logs : logs d ≡ₚ js_filter (fun l => rl_runId l === rn_id r) (rows c TRunLogs);
  do_logs_sorted : StronglySorted (fun a b => oldest_first rl_createdAt a b = true) (logs d) }.

Lemma details_exact db u r :
  keys_ok (db_rows db) -> sees_run (db_rows db) u r ->
  exists d, RunRepo.getWithDetails text_le (rn_id r) u db = Some d /\ details_of (db_rows db) r d.
Proof.
  intros Hk [Hr Hv]. destruct (run_reads db Hk) as [Hg _ _ _].
  assert (RunRepo.getByIdForUser (rn_id r) u db = Some r) as Hget by (by apply Hg).
  unfold RunRepo.getWithDetails. rewrite Hget. eexists. split; [reflexivity|].
  destruct (law_ordered TRunFiles (fun f => rf_runId f === rn_id r) (fun a b => text_le (rf_name a) (rf_name b)) db)
    as [Hf Hfs]; [intros; apply text_le_total|intros a b e; apply text_le_trans|].
  destruct (law_ordered TRunLogs (fun l => rl_runId l === rn_id r) (oldest_first rl_createdAt) db) as [Hl Hls];
    [intros a b; unfold oldest_first; rewrite !Z.leb_le; lia|intros a b e; unfold oldest_first; rewrite !Z.leb_le; lia|].
  by split.
Qed.

(** What the file endpoint answers for a stored file. *)
Definition file_answer (redirect : option string) (f : RunFileRow) : FileResponse :=
  if otruthy redirect then Redirect (download (rf_s3Key f))
  else FileUrl (download (rf_s3Key f)) (rf_name f) (rf_mimeType f) (rf_sizeBytes f).

(** A file is asked for by its run and its name. *)
Lemma file_exact user w f redirect :
  keys_ok (db_rows (w_db w)) -> sees_file (db_rows (w_db w)) (u_id user) f ->
  truthy (rf_runId f) = true -> truthy (rf_name f) = true -> utf8 (rf_name f) = true ->
  exists g, sees_file (db_rows (w_db w)) (u_id user) g /\ rf_runId g = rf_runId f /\ rf_name g = rf_name f /\
    handle (Some user) (GetRunFile (Some (rf_runId f)) (Some (encodeURIComponent (rf_name f))) redirect) w =
      (w, Ok (RFile (file_answer redirect g))).
Proof.
  intros Hk (Hin & r & [Hr Hv] & Hid) Ht Hn Hu. destruct (run_reads (w_db w) Hk) as [Hget _ _ _].
  assert (RunRepo.getByIdForUser (rf_runId f) (u_id user) (w_db w) = Some r) as Hrun by (rewrite Hid; by apply Hget).
  destruct (RunRepo.getFile (rf_runId f) (rf_name f) (w_db w)) as [g|] eqn:Hg.
  - pose proof Hg as Hg'. unfold RunRepo.getFile in Hg'. apply first_row_Some, (elem_select TRunFiles) in Hg' as [Hp Hgin]. bool_prop.
    exists g. split; [split; [done|exists r; split; [done|congruence]]|]. split; [done|]. split; [done|].
    unfold handle, respond, get_file, requireUser, orThrow, read, mbind, M_bind, mret, M_ret.
    simpl. rewrite Ht, encode_truthy, Hn. simpl. rewrite Hrun, decode_encodeURI, Hg by done. reflexivity.
  - unfold RunRepo.getFile in Hg. rewrite (first_row_select_None TRunFiles) in Hg.
    specialize (Hg f Hin). simpl in Hg. by rewrite !eqb_refl_js in Hg.
Qed.

Lemma entry_keys seen l : snd <$> entry_names seen l = rf_s3Key <$> l.
Proof. revert seen. induction l as [|f l IH]; intros seen; [done|]. simpl. by rewrite IH. Qed.

Lemma zip_exact user w r :
  keys_ok (db_rows (w_db w)) -> sees_run (db_rows (w_db w)) (u_id user) r -> truthy (rn_id r) = true ->
  let fs := js_filter (fun f => rf_runId f === rn_id r) (rows (db_rows (w_db w)) TRunFiles) in
  (fs <> [] -> exists entries, handle (Some user) (GetRunZip (Some (rn_id r))) w = (w, Ok (RArchive entries)) /\
     snd <$> entries ≡ₚ rf_s3Key <$> fs) /\
  (fs = [] -> handle (Some user) (GetRunZip (Some (rn_id r))) w = (w, Throw (Http 404 "No files to download"))).
Proof.
  intros Hk Hr Ht fs. destruct (details_exact (w_db w) (u_id user) r Hk Hr) as (d & Hd & [_ Hf _ _ _]). fold fs in Hf.
  unfold handle, respond, get_zip, requireUser, orThrow, routerId, read, guard_http, throw, mbind, M_bind, mret, M_ret.
  rewrite Ht, Hd. cbn -[js_filter]. split.
  - intros Hne. rewrite bool_decide_eq_true_2 by (intros Hnil; rewrite Hnil in Hf; by apply Permutation_nil_l in Hf).
    eexists. split; [reflexivity|]. by rewrite entry_keys, Hf.
  - intros Hnil. rewrite Hnil in Hf. apply Permutation_nil_r in Hf. by rewrite Hf.
Qed.

(** C2. Confidentiality, and its converse.  A GET request of a signed-in user is answered
    with pipelines, runs, data files, result files and logs the user may see, and
    presigned URLs for the keys of such files, and with nothing else.  And what the user
    may see is served: each list holds exactly the rows of its scope; a pipeline, a data
    file and a run are served under their ids, the run with exactly its files, in the
    order of names, and its logs, in the order of time; a result file is served under its
    run and name (the file itself unless several of the run have the name, and then one
    of those), and the archive has the keys of exactly the files of the run.  Ids and
    names are not empty, and a file's name is text without lone surrogates. *)
Theorem responses_visible user w :
  keys_ok (db_rows (w_db w)) ->
  let c := db_rows (w_db w) in
  let u := u_id user in
  (forall req w' resp, is_read req = true -> handle (Some user) req w = (w', Ok resp) -> discloses_only c u resp) /\
  (forall scope,
     (exists l, handle (Some user) (ListPipelines scope) w = (w, Ok (RPipelines l)) /\
        forall p, p ∈ l <-> p ∈ rows c TPipelines /\ in_scope pipeline_resource c u scope p) /\
     (exists l, handle (Some user) (ListData scope) w = (w, Ok (RDataFiles l)) /\
        forall d, d ∈ l <-> d ∈ rows c TDataFiles /\ in_scope dataFile_resource c u scope d) /\
     (exists l, handle (Some user) (ListRuns scope) w = (w, Ok (RRuns l)) /\
        forall r, r ∈ l <-> r ∈ rows c TRuns /\ in_scope run_resource c u scope r)) /\
  (forall p, truthy (pl_id p) = true -> sees_pipeline c u p ->
     handle (Some user) (GetPipeline (Some (pl_id p))) w = (w, Ok (RPipeline p))) /\
  (forall d, truthy (df_id d) = true -> sees_data c u d ->
     handle (Some user) (GetData (Some (df_id d))) w = (w, Ok (RDataUrl d (download (df_s3Key d))))) /\
  (forall r, truthy (rn_id r) = true -> sees_run c u r ->
     (exists d, handle (Some user) (GetRun (Some (rn_id r))) w = (w, Ok (RRunDetails d)) /\ details_of c r d) /\
     (let fs := js_filter (fun f => rf_runId f === rn_id r) (rows c TRunFiles) in
      (fs <> [] -> exists entries, handle (Some user) (GetRunZip (Some (rn_id r))) w = (w, Ok (RArchive entries)) /\
         snd <$> entries ≡ₚ rf_s3Key <$> fs) /\
      (fs = [] -> handle (Some user) (GetRunZip (Some (rn_id r))) w = (w, Throw (Http 404 "No files to download"))))) /\
  (forall f redirect, sees_file c u f -> truthy (rf_runId f) = true -> truthy (rf_name f) = true -> utf8 (rf_name f) = true ->
     exists g, sees_file c u g /\ rf_runId g = rf_runId f /\ rf_name g = rf_name f /\
       handle (Some user) (GetRunFile (Some (rf_runId f)) (Some (encodeURIComponent (rf_name f))) redirect) w =
         (w, Ok (RFile (file_answer redirect g)))).
Proof.
  intros Hk c u. split_and!.
  - intros req w' resp Hread. by apply reads_disclose.
  - intros scope. split_and!; eexists.
    + split; [exact (list_served user scope PipelineRepo.listSharedWith PipelineRepo.listOwnedBy PipelineRepo.listPublic RPipelines w)|].
      exact (elem_scope pipeline_resource (w_db w) u scope).
    + split; [exact (list_served user scope DataFileRepo.listSharedWith DataFileRepo.listOwnedBy DataFileRepo.listPublic RDataFiles w)|].
      exact (elem_scope dataFile_resource (w_db w) u scope).
    + split; [exact (list_served user scope RunRepo.listSharedWith RunRepo.listOwnedBy RunRepo.listPublic RRuns w)|].
      exact (elem_scope run_resource (w_db w) u scope).
  - intros p Ht [Hp Hv]. destruct (pipeline_reads (w_db w) Hk) as [Hg _ _ _].
    assert (PipelineRepo.getByIdForUser (pl_id p) (u_id user) (w_db w) = Some p) as Hget by (by apply Hg).
    unfold handle, respond, get_pipeline, requireUser, orThrow, routerId, read, mbind, M_bind, mret, M_ret.
    by rewrite Ht, Hget.
  - intros d Ht [Hd Hv]. destruct (dataFile_reads (w_db w) Hk) as [Hg _ _ _].
    assert (DataFileRepo.getByIdForUser (df_id d) (u_id user) (w_db w) = Some d) as Hget by (by apply Hg).
    unfold handle, respond, get_data, requireUser, orThrow, routerId, read, mbind, M_bind, mret, M_ret.
    by rewrite Ht, Hget.
  - intros r Ht Hr. split; [|by apply zip_exact]. destruct (details_exact (w_db w) u r Hk Hr) as (d & Hd & Hdet).
    exists d. split; [|done].
    unfold handle, respond, get_run, requireUser, orThrow, routerId, read, mbind, M_bind, mret, M_ret.
    subst u. by rewrite Ht, Hd.
  - intros f redirect. by apply file_exact.
Qed.
End Reading.
