(* ===== verification/Noninterference.v ===== *)
(** * What a user cannot find out

    [Access] says what the responses of the GET routes contain.  Here they are compared
    between two databases that agree on what a user may see and differ in any other
    way: the answers agree, errors included, so neither the content nor the existence
    of a hidden row can be read off them. *)

From S2P Require Export Access.

(** ** Two databases that look alike *)

(** They hold the same rows of a resource that the user may see, with the user on the
    same of their share lists. *)
Record same_view (R : Resource) (u : string) (c1 c2 : contents) : Prop := {
  sv_rows r : r ∈ rows c1 r_table /\ can_view c1 u r <-> r ∈ rows c2 r_table /\ can_view c2 u r;
  sv_shared r : r ∈ rows c1 r_table -> can_view c1 u r ->
    shared_with c1 (r_id r) u <-> shared_with c2 (r_id r) u }.

Record alike (u : string) (c1 c2 : contents) : Prop := {
  al_pipelines : same_view pipeline_resource u c1 c2;
  al_data : same_view dataFile_resource u c1 c2;
  al_runs : same_view run_resource u c1 c2;
  al_files f : sees_file c1 u f <-> sees_file c2 u f;
  al_logs l : sees_log c1 u l <-> sees_log c2 u l;
  al_blocks : rows c1 TBlocks ≡ₚ rows c2 TBlocks }.

#[export] Instance same_view_equiv R u : Equivalence (same_view R u).
Proof.
  split.
  - by split.
  - intros c1 c2 [H1 H2]. split; [done|]. intros r Hr Hv.
    destruct (proj2 (H1 r) (conj Hr Hv)). symmetry. by apply H2.
  - intros c1 c2 c3 [H1 H2] [H3 H4]. split; [intros r; by rewrite H1|]. intros r Hr Hv.
    destruct (proj1 (H1 r) (conj Hr Hv)). rewrite H2 by done. by apply H4.
Qed.

#[export] Instance alike_equiv u : Equivalence (alike u).
Proof.
  split.
  - by split.
  - intros c1 c2 []. split; by symmetry.
  - intros c1 c2 c3 [P D R F L B] [P' D' R' F' L' B'].
    split; [by rewrite P|by rewrite D|by rewrite R|intros f; by rewrite F|intros l; by rewrite L|by rewrite B].
Qed.

(** ** Answers that tell the same *)

(** Lists are compared up to their order, which is newest first or by name with the
    order of equal elements left to the database; so are the keys of an archive. *)
Definition same_response (r1 r2 : response) : Prop :=
  match r1, r2 with
  | RRuns l1, RRuns l2 => l1 ≡ₚ l2
  | RPipelines l1, RPipelines l2 => l1 ≡ₚ l2
  | RDataFiles l1, RDataFiles l2 => l1 ≡ₚ l2
  | RBlocks l1, RBlocks l2 => l1 ≡ₚ l2
  | RRunDetails d1, RRunDetails d2 => run d1 = run d2 /\ files d1 ≡ₚ files d2 /\ logs d1 ≡ₚ logs d2
  | RArchive l1, RArchive l2 => l1.*2 ≡ₚ l2.*2
  | _, _ => r1 = r2
  end.

Definition same_outcome (o1 o2 : result HttpError response) : Prop :=
  match o1, o2 with
  | Ok r1, Ok r2 => same_response r1 r2
  | Throw e1, Throw e2 => e1 = e2
  | _, _ => False
  end.

Section Reads.
Context {DB : Type} `{SqlLaws DB}.
Implicit Types db : DB.

(** A query returns the same rows when the rows that satisfy its condition are the same. *)
Lemma ordered_alike t (p1 p2 : row t -> bool) before db1 db2 :
  keys_ok (db_rows db1) -> keys_ok (db_rows db2) ->
  (forall a b, before a b = true \/ before b a = true) ->
  (forall a b d, before a b = true -> before b d = true -> before a d = true) ->
  (forall x, p1 x = true /\ x ∈ rows (db_rows db1) t <-> p2 x = true /\ x ∈ rows (db_rows db2) t) ->
  sql_select_ordered t p1 before db1 ≡ₚ sql_select_ordered t p2 before db2.
Proof.
  intros Hk1 Hk2 Ht Htr Hp. rewrite (proj1 (law_ordered t p1 before db1 Ht Htr)).
  rewrite (proj1 (law_ordered t p2 before db2 Ht Htr)). apply NoDup_Permutation.
  - apply NoDup_filter. eapply distinct_NoDup; [apply conflict_refl | apply Hk1].
  - apply NoDup_filter. eapply distinct_NoDup; [apply conflict_refl | apply Hk2].
  - intros x. rewrite !elem_of_js_filter. apply Hp.
Qed.

Lemma newest_alike t (p1 p2 : row t -> bool) key db1 db2 :
  keys_ok (db_rows db1) -> keys_ok (db_rows db2) ->
  (forall x, p1 x = true /\ x ∈ rows (db_rows db1) t <-> p2 x = true /\ x ∈ rows (db_rows db2) t) ->
  sql_select_ordered t p1 (newest_first key) db1 ≡ₚ sql_select_ordered t p2 (newest_first key) db2.
Proof. intros. apply ordered_alike; try done; [apply newest_first_total | apply newest_first_trans]. Qed.

Section Resources.
Context {R : Resource} {RL : ResourceLaws R} (u : string) (db1 db2 : DB).
Context (Hk1 : keys_ok (db_rows db1)) (Hk2 : keys_ok (db_rows db2)).
Context (Hv : same_view R u (db_rows db1) (db_rows db2)).

Lemma acl_get_alike id : acl_getByIdForUser id u db1 = acl_getByIdForUser id u db2.
Proof.
  apply option_eq. intros r. rewrite !acl_get_spec by done. pose proof (sv_rows _ _ _ _ Hv r). tauto.
Qed.

Lemma acl_owned_alike : acl_listOwnedBy u db1 ≡ₚ acl_listOwnedBy u db2.
Proof.
  apply newest_alike; [done..|]. intros r. rewrite bool_decide_eq_true.
  pose proof (sv_rows _ _ _ _ Hv r). unfold can_view in *. tauto.
Qed.

Lemma acl_public_alike : acl_listPublic db1 ≡ₚ acl_listPublic db2.
Proof.
  apply newest_alike; [done..|]. intros r. rewrite bool_decide_eq_true.
  pose proof (sv_rows _ _ _ _ Hv r). unfold can_view in *. tauto.
Qed.

Lemma listSharedWith_NoDup db : keys_ok (db_rows db) -> NoDup (acl_listSharedWith u db).
Proof.
  intros Hk. unfold acl_listSharedWith. destruct (_ <$> _) as [|s l]; [constructor|].
  rewrite (proj1 (law_ordered r_table (fun r => js_mem (r_id r) (s :: l)) (newest_first r_sort) db
    (newest_first_total r_sort) (newest_first_trans r_sort))).
  apply NoDup_filter. eapply distinct_NoDup; [apply conflict_refl | apply Hk].
Qed.

Lemma acl_shared_alike : acl_listSharedWith u db1 ≡ₚ acl_listSharedWith u db2.
Proof.
  apply NoDup_Permutation; [by apply listSharedWith_NoDup..|]. intros r. rewrite !elem_listSharedWith.
  pose proof (sv_rows _ _ _ _ Hv r) as Hr. pose proof (sv_shared _ _ _ _ Hv r) as Hs.
  pose proof (sv_shared _ _ _ _ (symmetry Hv) r) as Hs'. unfold can_view in *. tauto.
Qed.
End Resources.
End Reads.

(** ** The handlers *)

Section Handlers.
Context {DB : Type} `{SqlLaws DB} {env : Env} {cfg : RouterConfig}.
Context (text_le_total : forall a b, text_le a b = true \/ text_le b a = true).
Context (text_le_trans : forall a b c, text_le a b = true -> text_le b c = true -> text_le a c = true).
Implicit Types w : World DB.

(** The names of the result files of a run are distinct. *)
Definition names_distinct (c : contents) : Prop :=
  forall f f', f ∈ rows c TRunFiles -> f' ∈ rows c TRunFiles ->
    rf_runId f = rf_runId f' -> rf_name f = rf_name f' -> f = f'.

Section Two.
Context (user : SessionUser) (w1 w2 : World DB).
Abbreviation c1 := (db_rows (w_db w1)).
Abbreviation c2 := (db_rows (w_db w2)).
Context (Hk1 : keys_ok c1) (Hk2 : keys_ok c2) (Hal : alike (u_id user) c1 c2).

Lemma run_get_alike id : RunRepo.getByIdForUser id (u_id user) (w_db w1) = RunRepo.getByIdForUser id (u_id user) (w_db w2).
Proof. exact (acl_get_alike (R := run_resource) _ _ _ Hk1 Hk2 (al_runs _ _ _ Hal) id). Qed.

(** The rows that belong to a run the user may see. *)
Lemma run_seen c id r :
  RunRepo.getByIdForUser id (u_id user) (w_db w1) = Some r -> c = c1 \/ c = c2 ->
  sees_run c (u_id user) r /\ rn_id r = id.
Proof.
  intros Hget [->| ->].
  - destruct (run_reads _ Hk1) as [Hg _ _ _]. by apply Hg in Hget as (? & ? & ?).
  - rewrite run_get_alike in Hget. destruct (run_reads _ Hk2) as [Hg _ _ _]. by apply Hg in Hget as (? & ? & ?).
Qed.

Lemma files_of_run c id r f :
  RunRepo.getByIdForUser id (u_id user) (w_db w1) = Some r -> c = c1 \/ c = c2 ->
  f ∈ rows c TRunFiles /\ rf_runId f = id <-> sees_file c (u_id user) f /\ rf_runId f = id.
Proof.
  intros Hget Hc. destruct (run_seen c id r Hget Hc) as [Hr <-].
  split; [|by intros [[? _] ?]]. intros [Hf Hid]. split; [|done]. split; [done|]. by exists r.
Qed.

Lemma logs_of_run c id r l :
  RunRepo.getByIdForUser id (u_id user) (w_db w1) = Some r -> c = c1 \/ c = c2 ->
  l ∈ rows c TRunLogs /\ rl_runId l = id <-> sees_log c (u_id user) l /\ rl_runId l = id.
Proof.
  intros Hget Hc. destruct (run_seen c id r Hget Hc) as [Hr <-].
  split; [|by intros [[? _] ?]]. intros [Hf Hid]. split; [|done]. split; [done|]. by exists r.
Qed.

Lemma files_alike id r f :
  RunRepo.getByIdForUser id (u_id user) (w_db w1) = Some r ->
  f ∈ rows c1 TRunFiles /\ rf_runId f = id <-> f ∈ rows c2 TRunFiles /\ rf_runId f = id.
Proof.
  intros Hget. rewrite (files_of_run c1 id r), (files_of_run c2 id r) by auto.
  by rewrite (al_files _ _ _ Hal).
Qed.

Lemma details_alike id :
  match RunRepo.getWithDetails text_le id (u_id user) (w_db w1), RunRepo.getWithDetails text_le id (u_id user) (w_db w2) with
  | Some d1, Some d2 => run d1 = run d2 /\ files d1 ≡ₚ files d2 /\ logs d1 ≡ₚ logs d2
  | None, None => True
  | _, _ => False
  end.
Proof.
  unfold RunRepo.getWithDetails. rewrite <-run_get_alike.
  destruct (getByIdForUser id (u_id user) (w_db w1)) as [r|] eqn:E; [|done]. simpl. split_and!; [done| |].
  - apply (ordered_alike TRunFiles); [done|done|intros; apply text_le_total|intros a b d; apply text_le_trans|].
    intros f. rewrite bool_decide_eq_true. pose proof (files_alike id r f E). tauto.
  - apply (ordered_alike TRunLogs); [done|done|intros a b; unfold oldest_first; rewrite !Z.leb_le; lia
      |intros a b d; unfold oldest_first; rewrite !Z.leb_le; lia|].
    intros l. rewrite bool_decide_eq_true. pose proof (logs_of_run c1 id r l E (or_introl eq_refl)) as H1.
    pose proof (logs_of_run c2 id r l E (or_intror eq_refl)) as H2. pose proof (al_logs _ _ _ Hal l). tauto.
Qed.

(** The first of at most one row. *)
Lemma first_row_iff {A} (l : list A) : (forall x y, x ∈ l -> y ∈ l -> x = y) -> forall x, first_row l = Some x <-> x ∈ l.
Proof.
  intros Hu x. split; [apply first_row_Some|]. intros Hx. destruct l as [|y l]; [by apply elem_of_nil in Hx|].
  unfold first_row. simpl. f_equal. apply Hu; [left|done].
Qed.

Lemma getFile_alike id r name :
  names_distinct c1 -> RunRepo.getByIdForUser id (u_id user) (w_db w1) = Some r ->
  RunRepo.getFile id name (w_db w1) = RunRepo.getFile id name (w_db w2).
Proof.
  intros Hnd Hget. apply option_eq. intros f. unfold RunRepo.getFile.
  pose proof (fun f => files_alike id r f Hget) as Hf.
  rewrite !first_row_iff; rewrite ?(elem_select TRunFiles).
  - rewrite andb_true_iff, !bool_decide_eq_true. specialize (Hf f). tauto.
  - intros x y. rewrite !(elem_select TRunFiles), !andb_true_iff, !bool_decide_eq_true.
    intros [[Hx1 Hx2] Hx] [[Hy1 Hy2] Hy]. apply Hnd; [apply (Hf x)|apply (Hf y)|congruence|congruence]; tauto.
  - intros x y. rewrite !(elem_select TRunFiles), !andb_true_iff, !bool_decide_eq_true.
    intros [[Hx1 Hx2] Hx] [[Hy1 Hy2] Hy]. apply Hnd; solve [done | congruence].
Qed.

Lemma entry_names_snd seen l : (entry_names seen l).*2 = rf_s3Key <$> l.
Proof. revert seen. induction l as [|f l IH]; intros seen; [done|]. simpl. by rewrite IH. Qed.

Lemma blocks_alike : BlockRepo.listAll text_le (w_db w1) ≡ₚ BlockRepo.listAll text_le (w_db w2).
Proof.
  apply (ordered_alike TBlocks); [done|done|intros; apply text_le_total|intros a b d; apply text_le_trans|].
  intros b. by rewrite (al_blocks _ _ _ Hal).
Qed.

Lemma getByName_alike name : BlockRepo.getByName name (w_db w1) = BlockRepo.getByName name (w_db w2).
Proof.
  apply option_eq. intros b. unfold BlockRepo.getByName.
  assert (Hu : forall db, keys_ok (db_rows db) -> forall x y,
    x ∈ sql_select TBlocks (fun b => bk_name b === name) db -> y ∈ sql_select TBlocks (fun b => bk_name b === name) db -> x = y).
  { intros db Hk x y. rewrite !(elem_select TBlocks). intros [Hx1 Hx] [Hy1 Hy]. bool_prop.
    apply (distinct_elem (conflict TBlocks) (rows (db_rows db) TBlocks));
      [apply conflict_sym|apply Hk|done|done|]. simpl. apply orb_true_iff. right. bool_prop. congruence. }
  rewrite !first_row_iff by (by apply Hu). by rewrite !(elem_select TBlocks), (al_blocks _ _ _ Hal).
Qed.


(** *** Two runs of a handler

    [agrees R m1 m2]: neither run changes its world, both end with a value or both
    with the same error, and the values are related by [R]. *)
Definition agrees {A} (R : A -> A -> Prop) (m1 m2 : M (World DB) HttpError A) : Prop :=
  exists o1 o2, m1 w1 = (w1, o1) /\ m2 w2 = (w2, o2) /\
    match o1, o2 with Ok a1, Ok a2 => R a1 a2 | Throw e1, Throw e2 => e1 = e2 | _, _ => False end.

Lemma agrees_ret {A} (R : A -> A -> Prop) a1 a2 : R a1 a2 -> agrees R (mret a1) (mret a2).
Proof. intros Ha. by exists (Ok a1), (Ok a2). Qed.

Lemma agrees_throw {A} (R : A -> A -> Prop) e : agrees R (throw e) (throw e).
Proof. by exists (Throw e), (Throw e). Qed.

Lemma agrees_read {A} (R : A -> A -> Prop) (f : DB -> A) : R (f (w_db w1)) (f (w_db w2)) -> agrees R (read f) (read f).
Proof. intros HR. by exists (Ok (f (w_db w1))), (Ok (f (w_db w2))). Qed.

Lemma agrees_bind {A B} (R : A -> A -> Prop) (S : B -> B -> Prop) m1 m2 (k1 k2 : A -> M (World DB) HttpError B) :
  agrees R m1 m2 -> (forall a1 a2, R a1 a2 -> agrees S (k1 a1) (k2 a2)) -> agrees S (m1 ≫= k1) (m2 ≫= k2).
Proof.
  intros (o1 & o2 & H1 & H2 & HR) Hk. unfold agrees. rewrite !run_bind, H1, H2.
  destruct o1 as [a1|e1], o2 as [a2|e2]; try done; [by apply Hk|]. by exists (Throw e1), (Throw e2).
Qed.

(** A step that does not depend on the database. *)
Lemma agrees_same {A B} (S : B -> B -> Prop) m (k1 k2 : A -> M (World DB) HttpError B) :
  agrees eq m m -> (forall a, agrees S (k1 a) (k2 a)) -> agrees S (m ≫= k1) (m ≫= k2).
Proof. intros Hm Hk. eapply agrees_bind; [exact Hm|]. intros a ? <-. apply Hk. Qed.

Lemma agrees_user {B} (S : B -> B -> Prop) (k1 k2 : SessionUser -> M (World DB) HttpError B) :
  agrees S (k1 user) (k2 user) -> agrees S (requireUser (Some user) ≫= k1) (requireUser (Some user) ≫= k2).
Proof. by intros. Qed.

Lemma agrees_orThrow {A} (R : A -> A -> Prop) e (o1 o2 : option A) : option_Forall2 R o1 o2 -> agrees R (orThrow e o1) (orThrow e o2).
Proof. intros []; [by apply agrees_ret | apply agrees_throw]. Qed.

Lemma agrees_guard b1 b2 e : b1 = b2 -> agrees eq (guard_http b1 e) (guard_http b2 e).
Proof. intros <-. destruct b1; [by apply agrees_ret | apply agrees_throw]. Qed.

Lemma agrees_routerId m id : agrees eq (routerId m id) (routerId m id).
Proof. destruct id as [s|]; simpl; [destruct (truthy s)|]; first [by apply agrees_ret | apply agrees_throw]. Qed.

Lemma agrees_respond {A} (R : A -> A -> Prop) (f : A -> response) m :
  (forall a1 a2, R a1 a2 -> same_response (f a1) (f a2)) -> agrees R m m -> agrees same_response (respond f m) (respond f m).
Proof. intros Hf Hm. eapply agrees_bind; [exact Hm|]. intros a1 a2 HR. by apply agrees_ret, Hf. Qed.

(** A value that is read and must be there. *)
Lemma agrees_found {A B} (R : A -> A -> Prop) (S : B -> B -> Prop) e (f : DB -> option A)
    (k : A -> M (World DB) HttpError B) :
  option_Forall2 R (f (w_db w1)) (f (w_db w2)) ->
  (forall a1 a2, f (w_db w1) = Some a1 -> f (w_db w2) = Some a2 -> R a1 a2 -> agrees S (k a1) (k a2)) ->
  agrees S (found ← read f; a ← orThrow e found; k a) (found ← read f; a ← orThrow e found; k a).
Proof.
  intros HR Hk.
  apply (agrees_bind (fun o1 o2 => o1 = f (w_db w1) /\ o2 = f (w_db w2) /\ option_Forall2 R o1 o2)).
  { by apply agrees_read. }
  intros o1 o2 (H1 & H2 & Ho). apply (agrees_bind (fun a1 a2 => o1 = Some a1 /\ o2 = Some a2 /\ R a1 a2)).
  - apply agrees_orThrow. destruct Ho; by constructor.
  - intros a1 a2 (Ha1 & Ha2 & Ha). apply Hk; congruence.
Qed.

(** *** The routes *)

(** The three lists, by scope. *)
Lemma scope_alike {A} (scope : option string) (shared public owned : SessionUser -> DB -> list A) :
  shared user (w_db w1) ≡ₚ shared user (w_db w2) -> public user (w_db w1) ≡ₚ public user (w_db w2) ->
  owned user (w_db w1) ≡ₚ owned user (w_db w2) ->
  let list : M (World DB) HttpError (list A) :=
    u ← requireUser (Some user);
    let scope := scope ⁇ "mine" in
    if scope === "shared" then read (shared u) else if scope === "public" then read (public u) else read (owned u) in
  agrees Permutation list list.
Proof.
  intros Hs Hp Ho. apply agrees_user. cbv zeta.
  destruct (_ === _); [|destruct (_ === _)]; by apply agrees_read.
Qed.

Lemma get_row_alike {A B} (S : B -> B -> Prop) m id (get : string -> SessionUser -> DB -> option A)
    (k : A -> M (World DB) HttpError B) :
  (forall i, get i user (w_db w1) = get i user (w_db w2)) -> (forall a, agrees S (k a) (k a)) ->
  let row := (u ← requireUser (Some user); id ← routerId m id; found ← read (get id u);
    a ← orThrow (Http 404 "Not found") found; k a) in
  agrees S row row.
Proof.
  intros Hget Hk. apply agrees_user, agrees_same; [apply agrees_routerId|]. intros i.
  apply (agrees_found eq).
  - rewrite Hget. destruct (get i user (w_db w2)); by constructor.
  - intros a ? _ _ <-. apply Hk.
Qed.

(** A handler that ends with the row it found. *)
Lemma bind_orThrow_ret {A} e (o : option A) : orThrow e o = (a ← orThrow e o; mret a : M (World DB) HttpError A).
Proof. by destruct o. Qed.

Lemma details_Forall2 id :
  option_Forall2 (fun d1 d2 => run d1 = run d2 /\ files d1 ≡ₚ files d2 /\ logs d1 ≡ₚ logs d2)
    (RunRepo.getWithDetails text_le id (u_id user) (w_db w1)) (RunRepo.getWithDetails text_le id (u_id user) (w_db w2)).
Proof.
  pose proof (details_alike id) as Hd. destruct (getWithDetails _ _ _ (w_db w1)), (getWithDetails _ _ _ (w_db w2));
    try done; [by apply Some_Forall2 | apply None_Forall2].
Qed.

Lemma get_file_alike id name redirect :
  names_distinct c1 ->
  agrees same_response (respond RFile (get_file (Some user) id name redirect))
    (respond RFile (get_file (Some user) id name redirect)).
Proof.
  intros Hnd. apply (agrees_respond eq); [by intros ?? ->|]. apply agrees_user.
  destruct (negb _); [apply agrees_throw|]. apply (agrees_found eq).
  { rewrite run_get_alike. destruct (getByIdForUser _ _ (w_db w2)); by constructor. }
  intros r ? Hr _ _. apply agrees_same.
  { destruct (decodeURIComponent _); [by apply agrees_ret | apply agrees_throw]. }
  intros decoded. apply (agrees_found eq).
  - rewrite (getFile_alike _ r decoded Hnd Hr). destruct (RunRepo.getFile _ _ (w_db w2)); by constructor.
  - intros f ? _ _ <-. by apply agrees_ret.
Qed.

Lemma get_zip_alike id :
  agrees same_response (respond RArchive (get_zip (Some user) id)) (respond RArchive (get_zip (Some user) id)).
Proof.
  apply (agrees_respond (fun l1 l2 => l1.*2 ≡ₚ l2.*2)); [done|].
  apply agrees_user, agrees_same; [apply agrees_routerId|]. intros i.
  eapply agrees_found; [apply details_Forall2|]. intros d1 d2 _ _ (_ & Hf & _).
  apply (agrees_bind eq).
  - apply agrees_guard, bool_decide_ext. split; intros Hn Hnil; apply Hn; rewrite Hnil in Hf.
    + by apply Permutation_nil_r in Hf.
    + by apply Permutation_nil_l in Hf.
  - intros _ _ _. apply agrees_ret. rewrite !entry_names_snd. by apply fmap_Permutation.
Qed.

Lemma read_alike req :
  is_read req = true -> (match req with GetRunFile _ _ _ => names_distinct c1 | _ => True end) ->
  agrees same_response (handle (Some user) req) (handle (Some user) req).
Proof.
  intros Hread Hnd. pose proof (al_pipelines _ _ _ Hal) as Hpl. pose proof (al_data _ _ _ Hal) as Hdf.
  pose proof (al_runs _ _ _ Hal) as Hrn. destruct req; try discriminate Hread; unfold handle.
  - eapply agrees_respond; [|apply (scope_alike scope (fun u => RunRepo.listSharedWith (u_id u)) (fun _ => RunRepo.listPublic)
      (fun u => RunRepo.listOwnedBy (u_id u)))]; [done|..].
    + exact (acl_shared_alike (R := run_resource) _ _ _ Hk1 Hk2 Hrn).
    + exact (acl_public_alike (R := run_resource) _ _ _ Hk1 Hk2 Hrn).
    + exact (acl_owned_alike (R := run_resource) _ _ _ Hk1 Hk2 Hrn).
  - eapply agrees_respond; [|apply agrees_user, agrees_same; [apply agrees_routerId|]; intros i;
      eapply agrees_bind; [apply agrees_read, details_Forall2|]; intros o1 o2; apply agrees_orThrow]; done.
  - by apply get_file_alike.
  - apply get_zip_alike.
  - eapply agrees_respond; [|apply (scope_alike scope (fun u => PipelineRepo.listSharedWith (u_id u)) (fun _ => PipelineRepo.listPublic)
      (fun u => PipelineRepo.listOwnedBy (u_id u)))]; [done|..].
    + exact (acl_shared_alike (R := pipeline_resource) _ _ _ Hk1 Hk2 Hpl).
    + exact (acl_public_alike (R := pipeline_resource) _ _ _ Hk1 Hk2 Hpl).
    + exact (acl_owned_alike (R := pipeline_resource) _ _ _ Hk1 Hk2 Hpl).
  - apply (agrees_respond eq); [by intros ?? ->|]. apply agrees_user, agrees_same; [apply agrees_routerId|]. intros i.
    apply agrees_same; [apply agrees_read, (acl_get_alike (R := pipeline_resource) _ _ _ Hk1 Hk2 Hpl)|].
    intros o. apply agrees_orThrow. destruct o; by constructor.
  - eapply agrees_respond; [|apply (scope_alike scope (fun u => DataFileRepo.listSharedWith (u_id u)) (fun _ => DataFileRepo.listPublic)
      (fun u => DataFileRepo.listOwnedBy (u_id u)))]; [done|..].
    + exact (acl_shared_alike (R := dataFile_resource) _ _ _ Hk1 Hk2 Hdf).
    + exact (acl_public_alike (R := dataFile_resource) _ _ _ Hk1 Hk2 Hdf).
    + exact (acl_owned_alike (R := dataFile_resource) _ _ _ Hk1 Hk2 Hdf).
  - apply (agrees_respond eq); [by intros [d url] ? <-|]. apply agrees_user, agrees_same; [apply agrees_routerId|]. intros i.
    apply agrees_same; [apply agrees_read, (acl_get_alike (R := dataFile_resource) _ _ _ Hk1 Hk2 Hdf)|].
    intros o. apply agrees_same; [|intros d; by apply agrees_ret]. apply agrees_orThrow. destruct o; by constructor.
  - apply (agrees_respond Permutation); [done|]. eapply agrees_bind; [apply agrees_read, blocks_alike|].
    intros l1 l2 Hl. apply agrees_ret. by apply fmap_Permutation.
  - apply (agrees_respond eq); [by intros ?? ->|]. apply agrees_same; [apply agrees_routerId|]. intros i.
    apply agrees_same; [apply agrees_read, getByName_alike|].
    intros o. apply agrees_same; [|intros b; by apply agrees_ret]. apply agrees_orThrow. destruct o; by constructor.
Qed.
End Two.

(** C3. Nothing hidden can be inferred.  Take two states of the server whose databases
    agree on what a user may see (the rows, the user's place on their share lists, the
    files and logs of visible runs, and the public catalogue of blocks) and differ in
    any other way: a GET request of that user changes neither, and gets the same answer
    from both, the same error included.  So the answers depend on no row the user may
    not see, nor on whether one exists.  (Lists are compared up to their order; the
    download by name needs the names of a run's result files to be distinct.) *)
Theorem noninterference user req w1 w2 :
  keys_ok (db_rows (w_db w1)) -> keys_ok (db_rows (w_db w2)) ->
  alike (u_id user) (db_rows (w_db w1)) (db_rows (w_db w2)) ->
  is_read req = true ->
  (match req with GetRunFile _ _ _ => names_distinct (db_rows (w_db w1)) | _ => True end) ->
  exists o1 o2, handle (Some user) req w1 = (w1, o1) /\ handle (Some user) req w2 = (w2, o2) /\
    same_outcome o1 o2.
Proof. intros Hk1 Hk2 Hal Hread Hnd. by apply (read_alike user w1 w2). Qed.
End Handlers.
