(* ===== verification/Uploads.v ===== *)
(** * Uploads, ownership and publication across requests

    What becomes of an uploaded data file, of a pipeline whose body names another
    owner, and of a published block, as the requests that follow see them. *)

From S2P Require Export Access.

Section Uploads.
Context {DB : Type} `{SqlLaws DB} {env : Env} {cfg : RouterConfig}.
Implicit Types w : World DB.

(** ** Single requests *)

Lemma get_data_serves user d w :
  keys_ok (db_rows (w_db w)) -> truthy (df_id d) = true -> sees_data (db_rows (w_db w)) (u_id user) d ->
  handle (Some user) (GetData (Some (df_id d))) w = (w, Ok (RDataUrl d (download (df_s3Key d)))).
Proof.
  intros Hk Ht [Hd Hv]. destruct (dataFile_reads (w_db w) Hk) as [Hg _ _ _].
  assert (DataFileRepo.getByIdForUser (df_id d) (u_id user) (w_db w) = Some d) as Hget by (by apply Hg).
  unfold handle, respond, get_data, requireUser, orThrow, routerId, read, mbind, M_bind, mret, M_ret.
  by rewrite Ht, Hget.
Qed.

Lemma get_data_refused user id w :
  keys_ok (db_rows (w_db w)) -> truthy id = true ->
  (forall d, sees_data (db_rows (w_db w)) (u_id user) d -> df_id d <> id) ->
  handle (Some user) (GetData (Some id)) w = (w, Throw (Http 404 "Not found")).
Proof.
  intros Hk Ht Hno. destruct (dataFile_reads (w_db w) Hk) as [Hg _ _ _].
  assert (DataFileRepo.getByIdForUser id (u_id user) (w_db w) = None) as Hget.
  { destruct (DataFileRepo.getByIdForUser _ _ _) as [d|] eqn:E; [|done]. apply Hg in E as (? & ? & ?).
    by destruct (Hno d). }
  unfold handle, respond, get_data, requireUser, orThrow, routerId, read, throw, mbind, M_bind, mret, M_ret.
  by rewrite Ht, Hget.
Qed.

(** The body of a complete call with all its fields. *)
Definition complete_body (id key name mime : string) (size : Z) (vis : option Visibility) : CompleteBody :=
  mkCompleteBody (Some id) (Some key) (Some name) (Some mime) (Some size) vis.

Lemma complete_creates user id key name mime size vis w :
  truthy id = true -> truthy key = true -> truthy name = true -> truthy mime = true -> size <> 0%Z ->
  keys_ok (db_rows (w_db w)) -> has_user (db_rows (w_db w)) (u_id user) = true ->
  (forall d, d ∈ rows (db_rows (w_db w)) TDataFiles -> df_id d <> id) ->
  exists w' row,
    handle (Some user) (UploadComplete (Some (complete_body id key name mime size vis))) w = (w', Ok (RData row)) /\
    (df_id row, df_ownerId row, df_name row, df_sizeBytes row, df_mimeType row, df_s3Key row, df_visibility row) =
      (id, u_id user, name, size, mime, key, vis ⁇ Private) /\
    same_rows (db_rows (w_db w'))
      (set_rows TDataFiles (db_rows (w_db w)) (rows (db_rows (w_db w)) TDataFiles ++ [row])) /\
    keys_ok (db_rows (w_db w')) /\ w_s3_deleted w' = w_s3_deleted w.
Proof.
  intros H1 H2 H3 H4 H5 Hk Hu Hfresh.
  unfold handle, respond, upload_complete, requireUser, orThrow, complete_body. simpl. rewrite H1, H2, H3, H4.
  rewrite (eqb_ne_js size) by done. simpl. unfold mbind, M_bind, mret, M_ret, now, write, DataFileRepo.create.
  cbn [w_db]. match goal with |- context [sql_insert TDataFiles ?r _] => set (r0 := r) end.
  assert (Hc : js_some (conflict TDataFiles r0) (rows (db_rows (w_db w)) TDataFiles) = false).
  { apply js_some_false. intros x Hx. simpl. bool_prop. intros Heq. by apply (Hfresh x). }
  destruct (law_insert_ok TDataFiles r0 (w_db w) Hc Hu) as (db' & -> & Hs).
  eexists _, r0. split; [reflexivity|]. cbn [w_db]. split_and!; try done.
  eapply keys_ok_same; [by symmetry|]. by apply keys_ok_insert.
Qed.

(** Deleting a data file of one's own removes its row and then its object. *)
Lemma delete_data_owned user d w :
  keys_ok (db_rows (w_db w)) -> truthy (df_id d) = true -> d ∈ rows (db_rows (w_db w)) TDataFiles ->
  df_ownerId d = u_id user ->
  exists w', handle (Some user) (DeleteData (Some (df_id d))) w = (w', Ok ROk) /\
    keys_ok (db_rows (w_db w')) /\
    (forall x, x ∈ rows (db_rows (w_db w')) TDataFiles <->
       x ∈ rows (db_rows (w_db w)) TDataFiles /\ df_id x <> df_id d) /\
    w_s3_deleted w' = w_s3_deleted w ++ (if s3_delete_fails (df_s3Key d) then [] else [df_s3Key d]).
Proof.
  intros Hk Ht Hd Ho.
  set (q := fun y : row TDataFiles => (df_id y === df_id d) && (df_ownerId y === u_id user)).
  assert (Hq : q d = true) by (unfold q; by rewrite Ho, !eqb_refl_js).
  assert (Hu : forall y, y ∈ rows (db_rows (w_db w)) TDataFiles -> df_id y = df_id d -> y = d).
  { intros y Hy Hid. apply (distinct_elem (conflict TDataFiles) (rows (db_rows (w_db w)) TDataFiles));
      [apply conflict_sym|apply Hk|done|done|]. simpl. by bool_prop. }
  destruct (law_delete TDataFiles q (w_db w)) as (db' & out & Hrun & Hout & Hs); [done|].
  assert (Hk' := delete_keys TDataFiles q _ _ _ Hk Hs).
  rewrite (filter_one q _ d) in Hout; [|done|done| |].
  2:{ intros y Hy Hqy. unfold q in Hqy. bool_prop. by apply Hu. }
  2:{ eapply distinct_NoDup; [apply (conflict_refl TDataFiles)|apply (Hk TDataFiles)]. }
  apply Permutation_singleton_r in Hout as ->.
  unfold handle, done, respond, delete_data, requireUser, orThrow, routerId, write, DataFileRepo.delete.
  unfold mbind, M_bind, mret, M_ret. rewrite Ht. fold q. rewrite Hrun. cbn [head]. unfold try_catch, s3_delete.
  assert (Hrows : forall x, x ∈ rows (db_rows db') TDataFiles <->
    x ∈ rows (db_rows (w_db w)) TDataFiles /\ df_id x <> df_id d).
  { intros x. rewrite (Hs TDataFiles). cbn [cascade]. rewrite rows_set_ne, rows_set_eq by done.
    rewrite elem_of_js_filter. split.
    - intros [Hqx Hx]. split; [done|]. intros Heq. rewrite (Hu x) in Hqx by done. by rewrite Hq in Hqx.
    - intros [Hx Hne]. split; [|done]. unfold q. by rewrite eqb_ne_js. }
  cbn [head]. destruct (s3_delete_fails (df_s3Key d));
    (eexists; split; [reflexivity|]; cbn [w_db w_s3_deleted]; split_and!; [done|exact Hrows|]); [by rewrite app_nil_r|done].
Qed.

Lemma init_offers user name mime size w id key :
  truthy name = true -> truthy mime = true -> (0 < size)%Z ->
  id = uuidv7 (w_uuids w) -> key = "data/" +:+ u_id user +:+ "/" +:+ id +:+ "/" +:+ name ->
  handle (Some user) (UploadInit (Some (mkInitBody (Some name) (Some mime) (Some size)))) w =
    (mkWorld (w_db w) (S (w_uuids w)) (w_ticks w) (w_s3_deleted w),
     Ok (RUpload (mkInitResponse id key (presign "PUT" key (Some mime) (60 * 30)) mime (60 * 30)))).
Proof.
  intros Hn Hm Hs -> ->. unfold handle, respond, upload_init, requireUser, orThrow. simpl. rewrite Hn, Hm. simpl.
  assert ((size <=? 0)%Z = false) as -> by lia. reflexivity.
Qed.

(** No share is left over from an earlier file with the id. *)
Definition unshared (c : contents) (id : string) : Prop :=
  forall s, s ∈ rows c TDataFileShares -> sh_resource s <> id.

(** The row that was just inserted is seen by its owner, and by nobody else while it is private. *)
Lemma inserted_visibility w w' row v :
  same_rows (db_rows (w_db w')) (set_rows TDataFiles (db_rows (w_db w)) (rows (db_rows (w_db w)) TDataFiles ++ [row])) ->
  (forall d, d ∈ rows (db_rows (w_db w)) TDataFiles -> df_id d <> df_id row) ->
  unshared (db_rows (w_db w)) (df_id row) ->
  (df_ownerId row = v -> sees_data (db_rows (w_db w')) v row) /\
  (df_ownerId row <> v -> df_visibility row <> Public ->
   forall d, sees_data (db_rows (w_db w')) v d -> df_id d <> df_id row).
Proof.
  intros Hs Hfresh Hun. unfold sees_data. split.
  - intros Ho. split; [|by left]. rewrite (Hs TDataFiles), rows_set_eq. apply elem_of_app. right. by apply list_elem_of_singleton.
  - intros Ho Hvis d [Hd Hview] Hid. rewrite (Hs TDataFiles), rows_set_eq in Hd.
    apply elem_of_app in Hd as [Hd|Hd%list_elem_of_singleton]; [by apply (Hfresh d)|]. subst d.
    destruct Hview as [?|[?|(s & Hin & Hr & _)]]; [done|done|].
    rewrite (Hs TDataFileShares), rows_set_ne in Hin by done. by apply (Hun s).
Qed.

(** C18. The life of an upload.  A known user who asks for an upload gets a fresh id, a key
    under its own prefix and an upload URL for that key; completing with them creates
    a private data file which then downloads from that key for its owner and is not
    found for anyone else; deleting it makes it not found for the owner too, and
    deletes the object unless the store fails. *)
Theorem upload_lifecycle user other name mime size w :
  truthy name = true -> truthy mime = true -> (0 < size)%Z -> truthy (uuidv7 (w_uuids w)) = true ->
  u_id other <> u_id user -> keys_ok (db_rows (w_db w)) -> has_user (db_rows (w_db w)) (u_id user) = true ->
  (forall d, d ∈ rows (db_rows (w_db w)) TDataFiles -> df_id d <> uuidv7 (w_uuids w)) ->
  unshared (db_rows (w_db w)) (uuidv7 (w_uuids w)) ->
  exists w1 offer w2 row w3,
    let id := ir_dataFileId offer in
    handle (Some user) (UploadInit (Some (mkInitBody (Some name) (Some mime) (Some size)))) w = (w1, Ok (RUpload offer)) /\
    ir_s3Key offer = "data/" +:+ u_id user +:+ "/" +:+ id +:+ "/" +:+ name /\
    ir_uploadUrl offer = presign "PUT" (ir_s3Key offer) (Some mime) (60 * 30) /\
    handle (Some user) (UploadComplete (Some (complete_body id (ir_s3Key offer) name mime size None))) w1 = (w2, Ok (RData row)) /\
    handle (Some user) (GetData (Some id)) w2 = (w2, Ok (RDataUrl row (download (ir_s3Key offer)))) /\
    handle (Some other) (GetData (Some id)) w2 = (w2, Throw (Http 404 "Not found")) /\
    handle (Some user) (DeleteData (Some id)) w2 = (w3, Ok ROk) /\
    handle (Some user) (GetData (Some id)) w3 = (w3, Throw (Http 404 "Not found")) /\
    w_s3_deleted w3 = w_s3_deleted w ++ (if s3_delete_fails (ir_s3Key offer) then [] else [ir_s3Key offer]).
Proof.
  intros Hn Hm Hsz Hid Hne Hk Hu Hfresh Hun.
  remember (uuidv7 (w_uuids w)) as id eqn:Eid.
  remember ("data/" +:+ u_id user +:+ "/" +:+ id +:+ "/" +:+ name) as key eqn:Hkey.
  assert (Htkey : truthy key = true) by (by rewrite Hkey).
  pose proof (init_offers user name mime size w id key Hn Hm Hsz Eid Hkey) as Hinit. set (w1 := mkWorld _ _ _ _) in Hinit.
  destruct (complete_creates user id key name mime size None w1) as (w2 & row & Hc & Hrow & Hs & Hk2 & Hs3);
    [done|done|done|done|lia|done|done|done|]. injection Hrow as Hrid Hro Hrn Hrs Hrm Hrk Hrv. simpl in Hrv.
  rewrite <-Hrid in Hid, Hfresh, Hun.
  destruct (inserted_visibility w1 w2 row (u_id user) Hs Hfresh Hun) as [Hsee _].
  destruct (inserted_visibility w1 w2 row (u_id other) Hs Hfresh Hun) as [_ Hhide].
  destruct (delete_data_owned user row w2 Hk2 Hid) as (w3 & Hdel & Hk3 & Hrows & Hs3'); [by apply Hsee|done|].
  eexists w1, _, w2, row, w3. split; [exact Hinit|]. cbn [ir_dataFileId ir_s3Key ir_uploadUrl].
  split; [exact Hkey|]. split; [done|]. split; [exact Hc|]. rewrite <-Hrid, <-Hrk.
  split; [apply get_data_serves; auto|]. split; [apply get_data_refused; [done..|]|].
  { apply Hhide; [congruence|by rewrite Hrv]. }
  split; [exact Hdel|]. split; [apply get_data_refused; [done..|]|].
  { intros d [Hd _]. by apply Hrows in Hd as [_ ?]. }
  by rewrite Hs3', Hs3.
Qed.

(** The key sent to [complete] is not checked against the one that was offered:
    a user who names the key of somebody else's file, which it may not even see, can
    download that object, and can have it deleted while its owner's row
    stays. *)
Theorem upload_complete_any_key user d id name mime size w :
  truthy id = true -> truthy name = true -> truthy mime = true -> (0 < size)%Z ->
  truthy (df_s3Key d) = true -> s3_delete_fails (df_s3Key d) = false ->
  keys_ok (db_rows (w_db w)) -> has_user (db_rows (w_db w)) (u_id user) = true ->
  (forall x, x ∈ rows (db_rows (w_db w)) TDataFiles -> df_id x <> id) ->
  d ∈ rows (db_rows (w_db w)) TDataFiles -> ~ sees_data (db_rows (w_db w)) (u_id user) d ->
  exists w1 row w2,
    handle (Some user) (UploadComplete (Some (complete_body id (df_s3Key d) name mime size None))) w = (w1, Ok (RData row)) /\
    handle (Some user) (GetData (Some id)) w1 = (w1, Ok (RDataUrl row (download (df_s3Key d)))) /\
    handle (Some user) (DeleteData (Some id)) w1 = (w2, Ok ROk) /\
    w_s3_deleted w2 = w_s3_deleted w ++ [df_s3Key d] /\ d ∈ rows (db_rows (w_db w2)) TDataFiles.
Proof.
  intros Hid Hn Hm Hsz Hkey Hs3ok Hk Hu Hfresh Hd _.
  destruct (complete_creates user id (df_s3Key d) name mime size None w) as (w1 & row & Hc & Hrow & Hs & Hk1 & Hs3);
    [done|done|done|done|lia|done|done|done|]. injection Hrow as Hrid Hro _ _ _ Hrk _.
  assert (Hin : row ∈ rows (db_rows (w_db w1)) TDataFiles).
  { rewrite (Hs TDataFiles), rows_set_eq. apply elem_of_app. right. by apply list_elem_of_singleton. }
  rewrite <-Hrid in Hid, Hfresh.
  destruct (delete_data_owned user row w1 Hk1 Hid Hin Hro) as (w2 & Hdel & _ & Hrows & Hs3').
  exists w1, row, w2. split; [exact Hc|]. rewrite <-Hrid.
  split; [rewrite <-Hrk; apply get_data_serves; [done|done|by split; [|left]]|]. split; [exact Hdel|].
  split; [by rewrite Hs3', Hs3, Hrk, Hs3ok|]. apply Hrows. split; [|by apply Hfresh].
  rewrite (Hs TDataFiles), rows_set_eq. apply elem_of_app. by left.
Qed.

(** ** Pipelines *)

Lemma pipeline_unique db p y :
  keys_ok (db_rows db) -> p ∈ rows (db_rows db) TPipelines -> y ∈ rows (db_rows db) TPipelines ->
  pl_id y = pl_id p -> y = p.
Proof.
  intros Hk Hp Hy Hid. apply (distinct_elem (conflict TPipelines) (rows (db_rows db) TPipelines));
    [apply conflict_sym|apply Hk|done|done|]. simpl. by bool_prop.
Qed.

(** Saving a pipeline.  The owner's PUT writes every column its body names; also
    [ownerId], which the body's type does not list: it then hands the
    pipeline to that user, after which the former owner is refused. *)
Theorem put_pipeline_writes_any_column user p patch w :
  keys_ok (db_rows (w_db w)) -> truthy (pl_id p) = true -> p ∈ rows (db_rows (w_db w)) TPipelines ->
  pl_ownerId p = u_id user -> pt_id patch = None ->
  has_user (db_rows (w_db w)) (pt_ownerId patch ⁇ u_id user) = true ->
  exists w', handle (Some user) (PutPipeline (Some (pl_id p)) patch) w =
      (w', Ok (RPipeline (PipelineRepo.apply_patch (clock (w_ticks w)) patch p))) /\
    keys_ok (db_rows (w_db w')) /\
    (forall y, y ∈ rows (db_rows (w_db w')) TPipelines <->
       y = PipelineRepo.apply_patch (clock (w_ticks w)) patch p \/
       y ∈ rows (db_rows (w_db w)) TPipelines /\ pl_id y <> pl_id p) /\
    (pt_ownerId patch ⁇ u_id user <> u_id user -> forall again w2, w_db w2 = w_db w' ->
       exists w3, handle (Some user) (PutPipeline (Some (pl_id p)) again) w2 =
         (w3, Throw (Http 403 "Not your pipeline"))).
Proof.
  intros Hk Ht Hp Ho Hpid Hu. set (t := clock (w_ticks w)).
  set (q := fun y : row TPipelines => (pl_id y === pl_id p) && (pl_ownerId y === u_id user)).
  assert (Hq : q p = true) by (unfold q; by rewrite Ho, !eqb_refl_js).
  assert (Huniq : forall y, y ∈ rows (db_rows (w_db w)) TPipelines -> q y = true -> y = p).
  { intros y Hy Hqy. unfold q in Hqy. bool_prop. by apply (pipeline_unique (w_db w)). }
  destruct (law_update_refs TPipelines q (PipelineRepo.apply_patch t patch) (w_db w) Hk) as (db' & out & Hrun).
  { intros y Hy Hqy. rewrite (Huniq y Hy Hqy). split; [intros z; simpl; by rewrite Hpid|]. simpl. by rewrite Ho. }
  pose proof (law_update TPipelines q (PipelineRepo.apply_patch t patch) (w_db w)) as Hl.
  pose proof (law_update_keys TPipelines q (PipelineRepo.apply_patch t patch) (w_db w) Hk) as Hk'.
  rewrite Hrun in Hl, Hk'. destruct Hl as [Hout Hs]. simpl in Hk'.
  rewrite (filter_one q _ p) in Hout by
    (done || (eapply distinct_NoDup; [apply (conflict_refl TPipelines)|apply (Hk TPipelines)])).
  apply Permutation_singleton_r in Hout as ->.
  assert (Hrows : forall y, y ∈ rows (db_rows db') TPipelines <->
    y = PipelineRepo.apply_patch t patch p \/ y ∈ rows (db_rows (w_db w)) TPipelines /\ pl_id y <> pl_id p).
  { intros y. rewrite (Hs TPipelines), rows_set_eq, list_elem_of_fmap. split.
    - intros (z & -> & Hz). destruct (q z) eqn:Hqz; [left; by rewrite (Huniq z)|right].
      split; [done|]. intros Hid. rewrite (pipeline_unique (w_db w) p z) in Hqz by done. by rewrite Hq in Hqz.
    - intros [->|[Hy Hid]]; [exists p; by rewrite Hq|]. exists y. split; [|done]. unfold q. by rewrite eqb_ne_js. }
  exists (mkWorld db' (w_uuids w) (S (w_ticks w)) (w_s3_deleted w)).
  split; [|split; [exact Hk'|split; [exact Hrows|]]].
  - unfold handle, respond, put_pipeline, requireUser, orThrow, routerId, now, write, PipelineRepo.update.
    unfold mbind, M_bind, mret, M_ret. rewrite Ht. cbn [w_db w_ticks]. fold t q. by rewrite Hrun.
  - simpl. intros Hne again w2 Hdb.
    unfold handle, respond, put_pipeline, requireUser, orThrow, routerId, now, write, PipelineRepo.update.
    unfold mbind, M_bind, mret, M_ret. rewrite Ht. cbn [w_db w_ticks]. fold q. rewrite Hdb.
    set (f := PipelineRepo.apply_patch _ again).
    assert (Hnone : forall y, y ∈ rows (db_rows db') TPipelines -> q y = false).
    { intros y [->|[Hy Hid]]%Hrows; unfold q; [|by rewrite eqb_ne_js]. simpl. rewrite Ho.
      by rewrite (eqb_ne_js (pt_ownerId patch ⁇ u_id user)), andb_false_r. }
    destruct (law_update_ok TPipelines q f db' Hk') as (db2 & out & Hrun2).
    { intros y Hy Hqy. by rewrite Hnone in Hqy. }
    pose proof (update_none TPipelines q f db' Hnone) as Hun. rewrite Hrun2 in *. destruct Hun as [-> _].
    eexists. reflexivity.
Qed.

(** ** Blocks *)

Lemma getByName_agree db db' name :
  keys_ok (db_rows db) -> keys_ok (db_rows db') ->
  (forall b, bk_name b = name -> b ∈ rows (db_rows db') TBlocks <-> b ∈ rows (db_rows db) TBlocks) ->
  BlockRepo.getByName name db' = BlockRepo.getByName name db.
Proof.
  intros Hk Hk' Hagree. destruct (BlockRepo.getByName name db) as [b|] eqn:E.
  - unfold BlockRepo.getByName in E. apply first_row_Some in E. apply (elem_select TBlocks) in E as [Hn Hb].
    bool_prop. apply getByName_unique; [by apply Hagree|done|].
    intros x Hx Hxn. apply Hagree in Hx; [|done]. apply (block_by_name db); [done..|congruence].
  - unfold BlockRepo.getByName in *. rewrite (first_row_select_None TBlocks) in *. intros x Hx.
    destruct (bk_name x === name) eqn:Hn; [|done]. bool_prop. apply Hagree in Hx; [|done].
    specialize (E x Hx). simpl in E. bool_prop. done.
Qed.

(** Publishing a block: only an administrator can, and a manifest with an id and a
    version is then served to everybody, signed in or not, under its id. *)
Theorem publish_block user label manifest w :
  (u_role user <> "admin" -> forall upload,
     handle (Some user) (PostBlock upload) w = (w, Throw (Http 403 "Admin only"))) /\
  (u_role user = "admin" -> truthy (mf_id manifest) = true -> truthy (mf_version manifest) = true ->
   keys_ok (db_rows (w_db w)) -> registered (w_db w) ->
   exists w' b, handle (Some user) (PostBlock (JsonBody (Some (label, Some manifest)))) w = (w', Ok (RBlock b)) /\
     bk_label b = label ⁇ mf_id manifest /\ registered (w_db w') /\
     (forall session, handle session (GetBlock (Some (mf_id manifest))) w' = (w', Ok (RManifest manifest))) /\
     forall session id, id <> mf_id manifest ->
       (handle session (GetBlock (Some id)) w').2 = (handle session (GetBlock (Some id)) w).2).
Proof.
  split.
  - intros Hne upload. unfold handle, respond, upload_block, requireUser, orThrow, guard_http.
    unfold mbind, M_bind, mret, M_ret. by rewrite (eqb_ne_js (u_role user)) by done.
  - intros Hadmin Hid Hver Hk Hreg.
    set (t0 := clock (w_ticks w)). set (t1 := clock (S (w_ticks w))).
    destruct (upsert_readable (w_db w) t0 t1 (label ⁇ mf_id manifest) manifest Hk Hreg)
      as (db' & b & Hrun & Hget & Hman & Hlabel & _ & _ & _ & Hreg' & Hother).
    exists (mkWorld db' (w_uuids w) (S (S (w_ticks w))) (w_s3_deleted w)), b.
    split_and!; [|done|done| |].
    + unfold handle, respond, upload_block, upload_manifest, requireUser, orThrow, guard_http, now, write.
      unfold mbind, M_bind, mret, M_ret. rewrite Hadmin, eqb_refl_js. simpl. rewrite Hid, Hver. simpl.
      fold t0 t1. by rewrite Hrun.
    + intros session. unfold handle, respond, get_block, routerId, orThrow, read, mbind, M_bind, mret, M_ret.
      rewrite Hid. cbn [w_db]. rewrite Hget. by rewrite Hman.
    + intros session id Hne.
      assert (HGet : BlockRepo.getByName id db' = BlockRepo.getByName id (w_db w)).
      { apply getByName_agree; [done| |]; [|intros b' Hb; apply Hother; congruence].
        pose proof (law_upsert_keys TBlocks (fun a b => bk_name a === bk_name b)
          (new_block t0 t1 (label ⁇ mf_id manifest) manifest)
          (replace_block (new_block t0 t1 (label ⁇ mf_id manifest) manifest)) (w_db w) Hk) as Hk'.
        unfold BlockRepo.upsert in Hrun. by rewrite Hrun in Hk'. }
      unfold handle, respond, get_block, routerId, orThrow, read, throw, mbind, M_bind, mret, M_ret.
      destruct (truthy id); [|done]. cbn [w_db]. rewrite HGet. by destruct (BlockRepo.getByName id (w_db w)).
Qed.
End Uploads.
