(* ===== verification/Client.v ===== *)
(** * The browser: requests, navigation, and the pages that handle pipelines

    ([web_ui/components/Export.vue], [SavePipeline.vue], [Import.vue],
    [flow/Problems.vue] and [web_ui/pages/pipelines/index.vue].)  A page's
    handlers act on the [Client]: the editor's store, the state of the page, the
    paths navigated to, and the server's world, which they reach by [fetch]. *)

From S2P Require Export PipelineBuilder Router.

(** ** The network *)

(** A request may be lost, or be handled and its answer lost. *)
Inductive NetFate := Delivered | RequestLost | ResponseLost.

#[export] Instance NetFate_eq_dec : EqDecision NetFate.
Proof. solve_decision. Defined.

(** What the handlers read of an exception: [e?.data?.statusMessage] and [e?.message]. *)
Record JsError := mkJsError { er_statusMessage : option string; er_message : option string }.

Class ClientEnv := {
  (** what happens to the n-th request *)
  net_fate : nat -> NetFate;
  (** the exceptions of package [ofetch] for an error response and a network failure *)
  fetch_error : HttpError -> JsError;
  network_error : JsError }.

Record Client (DB P : Type) := mkClient {
  cl_flow : FlowState; cl_page : P; cl_requests : nat; cl_visited : list string; cl_world : World DB }.
Arguments mkClient {DB P}.
Arguments cl_flow {DB P}. Arguments cl_page {DB P}. Arguments cl_requests {DB P}.
Arguments cl_visited {DB P}. Arguments cl_world {DB P}.

Section Browser.
Context {DB : Type} `{Sql DB} {env : Env} {cfg : RouterConfig} {net : ClientEnv} {P : Type}.
Abbreviation Browser := (M (Client DB P) JsError).

Definition js_error (message : string) : JsError := mkJsError None (Some message).

(** [$fetch]: one request, with the browser's session. *)
Definition fetch (session : option SessionUser) (req : request) : Browser response := fun c =>
  let arrive w := mkClient (cl_flow c) (cl_page c) (S (cl_requests c)) (cl_visited c) w in
  match net_fate (cl_requests c) with
  | RequestLost => (arrive (cl_world c), Throw network_error)
  | ResponseLost => (arrive (handle session req (cl_world c)).1, Throw network_error)
  | Delivered =>
      let '(w, r) := handle session req (cl_world c) in
      (arrive w, match r with Ok resp => Ok resp | Throw e => Throw (fetch_error e) end)
  end.

(** Reading the answer at the type the call names. *)
Definition expect {A} (f : response -> option A) (r : response) : Browser A :=
  match f r with Some a => mret a | None => throw (js_error "TypeError") end.

Definition navigateTo (path : string) : Browser unit := modify (fun c =>
  mkClient (cl_flow c) (cl_page c) (cl_requests c) (cl_visited c ++ [path]) (cl_world c)).

Definition set_page (f : P -> P) : Browser unit := modify (fun c =>
  mkClient (cl_flow c) (f (cl_page c)) (cl_requests c) (cl_visited c) (cl_world c)).

Definition on_flow (f : FlowState -> FlowState) : Browser unit := modify (fun c =>
  mkClient (f (cl_flow c)) (cl_page c) (cl_requests c) (cl_visited c) (cl_world c)).

(** [try { m } catch (e) { h(e) } finally { f }], where [h] and [f] only assign to
    the page's refs. *)
Definition try_finally (m : Browser unit) (h : JsError -> P -> P) (f : P -> P) : Browser unit :=
  _ ← try_catch m (fun e => set_page (h e)); set_page f.
End Browser.

(** [a ?? b ?? c] and [a || b || c] on what an exception carries. *)
Definition nullish_message (e : JsError) (fallback : string) : string := er_statusMessage e ⁇ fallback.
Definition any_message (e : JsError) (fallback : string) : string :=
  js_or (er_statusMessage e ⁇ "") (js_or (er_message e ⁇ "") fallback).

(** ** Lines of a text *)

Definition newline : Ascii.ascii := Ascii.ascii_of_nat 10.
Definition nl : string := String newline EmptyString.

(** [s.split("\n")] *)
Fixpoint split_lines (s : string) : list string :=
  match s with
  | EmptyString => [""]
  | String c s' =>
      if c === newline then "" :: split_lines s'
      else match split_lines s' with
           | l :: ls => String c l :: ls
           | [] => [String c EmptyString]
           end
  end.

(** [s.trim()] is empty *)
Fixpoint blank (s : string) : bool :=
  match s with
  | EmptyString => true
  | String c s' => is_space c && blank s'
  end.

(** ** Exporting and submitting ([Export.vue]) *)

(** The metadata the editor's components give the builder. *)
Definition meta_of (m : Meta) : PartialPipelineMetadata :=
  mkPartialPipelineMetadata None (Some (meta_name m)) (Some (meta_version m)) (meta_description m).

Definition drawn_pipeline (v7 : string) (st : FlowState) : Pipeline :=
  exportPipeline (buildFrom v7 (Some (meta_of (pipelineMeta st))) st).

Record ExportPage := mkExportPage {
  ex_text : list string; ex_errors : list string; ex_submitting : bool; ex_submitError : option string }.

Definition ex_set_submitError (e : option string) (p : ExportPage) : ExportPage :=
  mkExportPage (ex_text p) (ex_errors p) (ex_submitting p) e.
Definition ex_set_submitting (b : bool) (p : ExportPage) : ExportPage :=
  mkExportPage (ex_text p) (ex_errors p) b (ex_submitError p).

Definition unresolved_edges (st : FlowState) : bool := hasUnresolvedEdges (e_data <$> edges st).

(** The buttons Download and Submit are disabled. *)
Definition export_disabled (st : FlowState) (p : ExportPage) : bool :=
  (length (ex_text p) === 0) || negb (length (ex_errors p) === 0) || unresolved_edges st.

Section ExportPage.
Context {DB : Type} `{Sql DB} {env : Env} {cfg : RouterConfig} {net : ClientEnv}.
Abbreviation Browser := (M (Client DB ExportPage) JsError).

(** [exportPipeline]: [v7] is the id the new builder makes. *)
Definition exportText (v7 : string) (st : FlowState) (p : ExportPage) : ExportPage :=
  let pipeline := drawn_pipeline v7 st in
  match validatePipeline pipeline None with
  | Invalid errors => mkExportPage [] errors (ex_submitting p) (ex_submitError p)
  | Valid => mkExportPage (split_lines (yaml_stringify pipeline)) [] (ex_submitting p) (ex_submitError p)
  end.

Definition submitRun (session : option SessionUser) : Browser unit :=
  _ ← set_page (ex_set_submitError None);
  c ← get_state;
  let yaml := js_join nl (ex_text (cl_page c)) in
  if blank yaml then mret tt
  else
    _ ← set_page (ex_set_submitting true);
    try_finally
      (r ← fetch session (PostRun (Some (mkSubmitBody None (Some yaml) (Some (meta_name (pipelineMeta (cl_flow c)))))));
       run ← expect (fun r => match r with RRun run => Some run | _ => None end) r;
       navigateTo ("/results/" +:+ rn_id run))
      (fun e => ex_set_submitError (Some (nullish_message e "Submission failed")))
      (ex_set_submitting false).
End ExportPage.

(** ** The problems list ([flow/Problems.vue]) *)

Definition disambiguation_problem : string := "One or more connections need disambiguation.".

Definition problems (v7 : string) (st : FlowState) : list string :=
  match validatePipeline (drawn_pipeline v7 st) None with Valid => [] | Invalid errors => errors end ++
  (if unresolved_edges st then [disambiguation_problem] else []).

(** ** Saving to the library ([SavePipeline.vue]) *)

Record SavePage := mkSavePage {
  sv_name : string; sv_description : string; sv_version : string; sv_visibility : Visibility;
  sv_errorMessage : option string; sv_submitting : bool; sv_closed : bool }.

(** The initial values of the refs. *)
Definition open_save (st : FlowState) : SavePage :=
  let m := pipelineMeta st in
  mkSavePage (if meta_name m === "untitled-pipeline" then "" else meta_name m)
    (meta_description m ⁇ "") (meta_version m) Private None false false.

Definition sv_set_error (e : option string) (p : SavePage) : SavePage :=
  mkSavePage (sv_name p) (sv_description p) (sv_version p) (sv_visibility p) e (sv_submitting p) (sv_closed p).
Definition sv_set_submitting (b : bool) (p : SavePage) : SavePage :=
  mkSavePage (sv_name p) (sv_description p) (sv_version p) (sv_visibility p) (sv_errorMessage p) b (sv_closed p).
Definition sv_close (p : SavePage) : SavePage :=
  mkSavePage (sv_name p) (sv_description p) (sv_version p) (sv_visibility p) (sv_errorMessage p)
    (sv_submitting p) true.

(** [description || undefined] *)
Definition or_undefined (s : string) : option string := if truthy s then Some s else None.

Section SavePage.
Context {DB : Type} `{Sql DB} {env : Env} {cfg : RouterConfig} {net : ClientEnv}.
Abbreviation Browser := (M (Client DB SavePage) JsError).

Definition saved_meta (p : SavePage) : PartialMeta :=
  mkPartialMeta (Some (sv_name p)) (Some (sv_version p)) (Some (or_undefined (sv_description p))).

Definition saved_pipeline (v7 : string) (p : SavePage) (st : FlowState) : Pipeline :=
  exportPipeline (buildFrom v7
    (Some (mkPartialPipelineMetadata None (Some (sv_name p)) (Some (sv_version p)) (or_undefined (sv_description p)))) st).

(** The body of the [try] block. *)
Definition save_attempt (session : option SessionUser) (v7 : string) : Browser unit :=
  c ← get_state;
  let p := cl_page c in
  if negb (truthy (sv_name p)) then set_page (sv_set_error (Some "Name is required."))
  else if unresolved_edges (cl_flow c)
  then set_page (sv_set_error (Some "Resolve ambiguous connections first."))
  else
    _ ← on_flow (setMeta (saved_meta p));
    c ← get_state;
    let pipeline := saved_pipeline v7 p (cl_flow c) in
    match validatePipeline pipeline None with
    | Invalid errors => set_page (sv_set_error (Some (js_join " " errors)))
    | Valid =>
        _ ← fetch session (PostPipeline (Some (mkCreatePipelineBody (Some (sv_name p))
               (or_undefined (sv_description p)) (Some (sv_version p)) (Some (yaml_stringify pipeline))
               (Some (sv_visibility p)))));
        _ ← set_page sv_close;
        navigateTo "/pipelines"
    end.

Definition handleSave (session : option SessionUser) (v7 : string) : Browser unit :=
  _ ← set_page (sv_set_error None);
  _ ← set_page (sv_set_submitting true);
  try_finally (save_attempt session v7)
    (fun e => sv_set_error (Some (any_message e "Save failed."))) (sv_set_submitting false).
End SavePage.

(** ** Importing ([Import.vue]) *)

Record ImportPage := mkImportPage { im_data : string; im_errorMessage : option string; im_closed : bool }.

Section ImportPage.
Context {DB : Type} `{Sql DB} {env : Env}.
Abbreviation Browser := (M (Client DB ImportPage) JsError).

Definition import_yaml {P} (yaml : string) : M (Client DB P) JsError unit := fun c =>
  let '(st, r) := yamlToNodes yaml_parse yaml (cl_flow c) in
  (mkClient st (cl_page c) (cl_requests c) (cl_visited c) (cl_world c),
   match r with Ok a => Ok a | Throw e => Throw (js_error e) end).

Definition handleConvert : Browser unit :=
  _ ← set_page (fun p => mkImportPage (im_data p) None (im_closed p));
  c ← get_state;
  try_catch
    (_ ← import_yaml (im_data (cl_page c));
     set_page (fun p => mkImportPage (im_data p) (im_errorMessage p) true))
    (fun e => set_page (fun p =>
       mkImportPage (im_data p) (Some (er_message e ⁇ "Failed to parse pipeline YAML")) (im_closed p))).
End ImportPage.

(** ** The pipeline library ([web_ui/pages/pipelines/index.vue]) *)

(** The page's list and its tab. *)
Record LibraryPage := mkLibraryPage { lb_tab : string; lb_pipelines : list PipelineRow }.

Section LibraryPage.
Context {DB : Type} `{Sql DB} {env : Env} {cfg : RouterConfig} {net : ClientEnv}.
Abbreviation Browser := (M (Client DB LibraryPage) JsError).

(** [refresh()] of the page's [useFetch]; a failure is kept in its [error], and the
    list falls back to the default. *)
Definition refreshLibrary (session : option SessionUser) : Browser unit :=
  c ← get_state;
  try_catch
    (r ← fetch session (ListPipelines (Some (lb_tab (cl_page c))));
     l ← expect (fun r => match r with RPipelines l => Some l | _ => None end) r;
     set_page (fun p => mkLibraryPage (lb_tab p) l))
    (fun _ => set_page (fun p => mkLibraryPage (lb_tab p) [])).

Definition handleOpen (session : option SessionUser) (id : string) : Browser unit :=
  r ← fetch session (GetPipeline (Some id));
  row ← expect (fun r => match r with RPipeline row => Some row | _ => None end) r;
  _ ← import_yaml (pl_yaml row);
  navigateTo "/editor".

(** [confirmed] is the answer to the dialog. *)
Definition handleDeletePipeline (session : option SessionUser) (confirmed : bool) (id : string) : Browser unit :=
  if negb confirmed then mret tt
  else
    _ ← fetch session (DeletePipeline (Some id));
    refreshLibrary session.
End LibraryPage.

Definition pipelineBadge (v : Visibility) : string * string :=
  match v with
  | Public => ("green", "Public")
  | Shared => ("blue", "Shared")
  | Private => ("gray", "Private")
  end.
