(* ===== verification/ClientSpec.v ===== *)
(** * What the pipeline pages achieve together with the server *)

From S2P Require Export Client ImportExport Uploads.

(** ** Texts and documents *)

Lemma split_lines_nonempty s : split_lines s <> [].
Proof. destruct s as [|c s]; simpl; [done|]. case_bool_decide; [done|]. by destruct (split_lines s). Qed.

(** The lines of a text, joined again, are the text. *)
Lemma join_split_lines s : js_join nl (split_lines s) = s.
Proof.
  induction s as [|c s IH]; [done|]. simpl. pose proof (split_lines_nonempty s) as Hne.
  case_bool_decide as Hc; destruct (split_lines s) as [|l ls]; try done.
  - subst c. change (js_join nl ("" :: l :: ls)) with ("" +:+ nl +:+ js_join nl (l :: ls)). by rewrite IH.
  - rewrite <-IH. by destruct ls.
Qed.

(** A document whose invocation ids are no short codes is its own resolution. *)
Definition no_codes (p : Pipeline) : Prop :=
  isShortCode_opt (p_id p) = false /\
  exists blocks, p_blocks p = Some blocks /\ Forall (fun b => is_Some (b_inputs b)) blocks /\
    Forall (fun s => isShortCode s = false) (occurrences blocks).

Lemma subst_no_codes σ blocks :
  Forall (fun b => is_Some (b_inputs b)) blocks -> Forall (fun s => isShortCode s = false) (occurrences blocks) ->
  subst_block σ <$> blocks = blocks.
Proof.
  intros Hin Hocc. apply list_fmap_fixed. intros b Hb. rewrite Forall_forall in Hin. rewrite Forall_forall in Hocc.
  assert (Hid : forall s, s ∈ block_occurrences b -> subst_id σ s = s).
  { intros s Hs. unfold subst_id. rewrite Hocc; [done|]. apply list_elem_of_bind. eauto. }
  destruct (Hin b Hb) as [l Hl]. unfold subst_block. rewrite Hl. simpl.
  rewrite (Hid (b_id b)) by left. rewrite list_fmap_fixed; [by destruct b; simpl in *; subst|].
  intros r Hr. assert (subst_id σ (refToId r) = refToId r) as Heq.
  { apply Hid. right. rewrite Hl. by apply list_elem_of_fmap_2. }
  destruct r; simpl in *; by rewrite Heq.
Qed.

Lemma resolve_no_codes uuidv7 p n : no_codes p -> resolveShortCodes uuidv7 p n = (n, Ok p).
Proof.
  intros (Hid & blocks & Hb & Hin & Hocc). rewrite resolveShortCodes_walkable by (split; eauto).
  assert (codes_of p = []) as ->.
  { unfold codes_of, add_codes. rewrite Hb. simpl. by rewrite js_filter_none. }
  rewrite Nat.add_0_r. do 2 f_equal. unfold subst_pipeline. rewrite Hb. simpl.
  rewrite subst_no_codes by done. destruct p; simpl in *; by subst.
Qed.

(** What is drawn, as a document. *)
Definition drawn_ids (st : FlowState) : list string :=
  node_ids st ++ (e_source <$> edges st).

Section Drawn.
Context (st : FlowState) (Hst : consistent st).

Lemma built_blocks v7 m :
  p_blocks (exportPipeline (buildFrom v7 m st)) =
    Some (dedupe_block <$> (exported_block (edges st) <$> nodes st)).
Proof. rewrite builder_export, export_blocks by apply Hst. done. Qed.

Lemma dedupe_sublist l : dedupeInputs l `sublist_of` l.
Proof.
  unfold dedupeInputs. assert (H : forall l acc, out (foldl dedupe_step acc l) `sublist_of` out acc ++ l).
  { clear l. induction l as [|r l IH]; intros acc; simpl; [by rewrite app_nil_r|].
    etransitivity; [apply IH|]. destruct acc as [sb se o]. destruct r; simpl; case_match; simpl.
    - apply sublist_app; [done|]. by apply sublist_cons.
    - by rewrite <-app_assoc.
    - apply sublist_app; [done|]. by apply sublist_cons.
    - by rewrite <-app_assoc. }
  apply (H l (mkDedupe [] [] [])).
Qed.

Lemma built_no_codes v7 m :
  isShortCode ((m ≫= pp_id) ⁇ v7) = false -> Forall (fun s => isShortCode s = false) (drawn_ids st) ->
  no_codes (exportPipeline (buildFrom v7 m st)).
Proof.
  intros Hv Hids. split; [rewrite builder_export by apply Hst; exact Hv|]. eexists. split; [apply built_blocks|]. split.
  { apply Forall_fmap, Forall_forall. intros b _. simpl. eauto. }
  apply Forall_forall. intros s (b' & Hs & (b & -> & (n & -> & Hn)%list_elem_of_fmap)%list_elem_of_fmap)%list_elem_of_bind.
  rewrite Forall_forall in Hids. apply Hids. unfold drawn_ids. apply elem_of_app.
  apply elem_of_cons in Hs as [->|(r & -> & Hr)%list_elem_of_fmap].
  - left. change (n_id n ∈ n_id <$> nodes st). by apply list_elem_of_fmap_2.
  - right. change (r ∈ dedupeInputs (incoming_refs (edges st) (n_id n))) in Hr. assert (Hr' : r ∈ incoming_refs (edges st) (n_id n)) by (eapply elem_of_sublist; [exact Hr | apply dedupe_sublist]).
    apply (list_elem_of_fmap_2 refToId) in Hr'. apply elem_incoming_refs in Hr' as (e & He & _ & <-).
    by apply list_elem_of_fmap_2.
Qed.
End Drawn.

(** ** Submitting from the editor *)

Section Submitting.
Context {DB : Type} `{SqlLaws DB} {env : Env} {cfg : RouterConfig} {net : ClientEnv}.
Implicit Types w : World DB.

(** A submission of a document without short codes by a known user, under a new id. *)
Lemma post_run_ok user yaml name p id w :
  truthy yaml = true -> yaml_parse yaml = Ok (Some p) -> no_codes p -> p_id p = Some id ->
  validatePipeline p None = Valid -> has_user (db_rows (w_db w)) (u_id user) = true ->
  (forall r, r ∈ rows (db_rows (w_db w)) TRuns -> rn_id r <> id) ->
  exists w' r, handle (Some user) (PostRun (Some (mkSubmitBody None (Some yaml) (Some name)))) w = (w', Ok (RRun r)) /\
    rn_id r = id /\ rn_ownerId r = u_id user /\ rn_name r = Some name /\ rn_status r = Queued /\
    rn_visibility r = Private /\ rn_yaml r = yaml_stringify p /\
    same_rows (db_rows (w_db w')) (set_rows TRuns (db_rows (w_db w)) (rows (db_rows (w_db w)) TRuns ++ [r])).
Proof.
  intros Hy Hparse Hnc Hid Hvalid Huser Hfresh.
  unfold handle, respond, submit, submit_source, requireUser, orThrow. simpl. rewrite Hy.
  unfold mbind, M_bind, mret, M_ret.
  rewrite (accept_document_accepts yaml p w (w_uuids w) p) by (done || by apply resolve_no_codes).
  rewrite Hid. unfold now, write, RunRepo.create. cbn [w_db].
  match goal with |- context [sql_insert TRuns ?r _] => set (r0 := r) end.
  destruct (law_insert_ok TRuns r0 (w_db w)) as (db' & -> & Hs).
  - apply js_some_false. intros x Hx. simpl. bool_prop. intros Heq. by apply (Hfresh x Hx).
  - simpl. by rewrite Huser.
  - eexists _, r0. split; [reflexivity|]. split_and!; done.
Qed.

Lemma blank_truthy s : blank s = false -> truthy s = true.
Proof. by destruct s. Qed.

(** C12. From the drawing to a queued run.  When the Submit button of the export panel
    is enabled after an export, pressing it (with a known user's session, the request
    delivered, a YAML package that reads back what it writes, and no short code
    among the drawn ids) adds exactly one run: of this user, queued, private,
    under the id and the name of the shown document, and the stored document is the
    shown text; the browser goes to the page of that run.  The server never
    refuses what the panel's own check accepted. *)
Theorem export_then_submit user st v7 page c :
  let p := drawn_pipeline v7 st in
  let page1 := exportText v7 st page in
  consistent st -> Forall (fun s => isShortCode s = false) (v7 :: drawn_ids st) ->
  export_disabled st page1 = false ->
  yaml_parse (yaml_stringify p) = Ok (Some p) -> blank (yaml_stringify p) = false ->
  cl_flow c = st -> cl_page c = page1 -> net_fate (cl_requests c) = Delivered ->
  has_user (db_rows (w_db (cl_world c))) (u_id user) = true ->
  (forall r, r ∈ rows (db_rows (w_db (cl_world c))) TRuns -> rn_id r <> v7) ->
  exists w' run,
    submitRun (Some user) c =
      (mkClient st (ex_set_submitting false (ex_set_submitError None page1)) (S (cl_requests c))
         (cl_visited c ++ ["/results/" +:+ v7]) w', Ok tt) /\
    js_join nl (ex_text page1) = rn_yaml run /\
    rn_id run = v7 /\ rn_ownerId run = u_id user /\ rn_name run = Some (meta_name (pipelineMeta st)) /\
    rn_status run = Queued /\ rn_visibility run = Private /\
    same_rows (db_rows (w_db w'))
      (set_rows TRuns (db_rows (w_db (cl_world c))) (rows (db_rows (w_db (cl_world c))) TRuns ++ [run])).
Proof.
  intros p page1 Hst Hnc Hen Hparse Hblank Hflow Hpage Hnet Huser Hfresh.
  apply Forall_cons in Hnc as [Hv Hids].
  assert (Hvalid : validatePipeline p None = Valid /\ ex_text page1 = split_lines (yaml_stringify p)).
  { unfold export_disabled, page1, exportText in *. fold p in Hen |- *.
    by destruct (validatePipeline p None). }
  destruct Hvalid as [Hvalid Htext].
  assert (Hpnc : no_codes p) by (by apply built_no_codes).
  assert (Hpid : p_id p = Some v7) by (unfold p, drawn_pipeline; by rewrite builder_export by apply Hst).
  destruct (post_run_ok user (yaml_stringify p) (meta_name (pipelineMeta st)) p v7 (cl_world c))
    as (w' & run & Hrun & Hrid & Hro & Hrn & Hrs & Hrv & Hry & Hrows); try done; [by apply blank_truthy|].
  exists w', run. split; [|split_and!; try done; by rewrite Htext, join_split_lines, Hry].
  unfold submitRun, set_page, get_state, modify, mbind, M_bind, mret, M_ret.
  cbn [cl_page cl_flow cl_requests cl_visited cl_world ex_text ex_set_submitError].
  rewrite Hpage, Hflow, Htext, join_split_lines, Hblank.
  unfold try_finally, try_catch, mbind, M_bind, set_page, modify, fetch.
  cbn [cl_page cl_flow cl_requests cl_visited cl_world]. rewrite Hnet, Hrun, <-Hrid. reflexivity.
Qed.

(** The Submit button never throws and never stays busy.  With a text that is not
    blank it ends in one of two ways: the request was answered and the browser goes
    to the page of the run the server made, with no error shown; or an error is
    shown and the browser stays, and then the database is unchanged unless the
    answer of a handled request was lost on the way.  A blank text does nothing. *)
Theorem submitRun_outcome session c c' res :
  keys_ok (db_rows (w_db (cl_world c))) ->
  submitRun session c = (c', res) ->
  res = Ok tt /\ cl_flow c' = cl_flow c /\ ex_text (cl_page c') = ex_text (cl_page c) /\
  ex_errors (cl_page c') = ex_errors (cl_page c) /\
  if blank (js_join nl (ex_text (cl_page c)))
  then cl_world c' = cl_world c /\ cl_visited c' = cl_visited c /\ ex_submitError (cl_page c') = None
  else ex_submitting (cl_page c') = false /\
    ((exists run, net_fate (cl_requests c) = Delivered /\ ex_submitError (cl_page c') = None /\
        cl_visited c' = cl_visited c ++ ["/results/" +:+ rn_id run] /\
        same_rows (db_rows (w_db (cl_world c')))
          (set_rows TRuns (db_rows (w_db (cl_world c))) (rows (db_rows (w_db (cl_world c))) TRuns ++ [run]))) \/
     (is_Some (ex_submitError (cl_page c')) /\ cl_visited c' = cl_visited c /\
      (net_fate (cl_requests c) = ResponseLost \/ w_db (cl_world c') = w_db (cl_world c)))).
Proof.
  intros Hk. unfold submitRun, try_finally, try_catch, fetch, expect, set_page, get_state, modify, navigateTo.
  unfold mbind, M_bind, mret, M_ret. cbn [cl_page cl_flow cl_requests cl_visited cl_world ex_text ex_set_submitError].
  destruct (blank _); [by intros Heq; simplify_eq/=|].
  cbn [cl_page cl_flow cl_requests cl_visited cl_world ex_text ex_set_submitError].
  set (body := mkSubmitBody _ _ _).
  destruct (handle session (PostRun (Some body)) (cl_world c)) as [w' out] eqn:Hh.
  destruct (net_fate (cl_requests c)).
  2,3: intros Heq; injection Heq as <- <-; split_and!; try done; right; split; [by eexists|];
    split; [done|]; solve [by left | by right].
  unfold handle, respond in Hh. rewrite run_bind in Hh.
  destruct (submit session (Some body) (cl_world c)) as [w1 [run|e]] eqn:Hs; apply submit_effect in Hs; try done.
  - destruct Hs as (user & yaml & doc & resolved & n & _ & _ & _ & _ & _ & _ & _ & _ & _ & _ & Hrows).
    injection Hh as <- <-. intros Heq. injection Heq as <- <-. split_and!; try done. left. by exists run.
  - injection Hh as <- <-. intros Heq. injection Heq as <- <-. split_and!; try done. right.
    split; [by eexists|]. split; [done|]. by right.
Qed.
End Submitting.

(** ** Saving and opening again *)

(** The references into a node come from edges with distinct sources. *)
Section Incoming.
Context (st : FlowState) (Hst : consistent st).

Lemma incoming_sources id : NoDup (e_source <$> js_filter (fun e => e_target e === id) (edges st)).
Proof.
  destruct Hst as [_ Hnd Hid _]. rewrite Forall_forall in Hid.
  apply NoDup_map_inj.
  - intros e1 e2 H1 H2 Heq. apply elem_of_js_filter in H1 as [Ht1 H1], H2 as [Ht2 H2]. bool_prop.
    eapply (NoDup_fmap_eq e_id); [exact Hnd|done|done|]. rewrite (Hid _ H1), (Hid _ H2). congruence.
  - unfold js_filter. apply NoDup_filter. by eapply NoDup_fmap_1.
Qed.

Lemma edge_refs_cases e :
  edge_refs e = [Bare (e_source e)] \/ omap bare_ref (edge_refs e) = [].
Proof.
  unfold edge_refs. destruct (e_data e ≫= ed_bindings) as [[|b bs]|]; [by left| |by left]. right.
  generalize (b :: bs). by induction l.
Qed.

Lemma separated_refs es :
  NoDup (e_source <$> es) ->
  NoDup (omap bare_ref (es ≫= edge_refs)) /\
  (forall u o, Bare u ∈ es ≫= edge_refs -> Explicit u o ∉ es ≫= edge_refs).
Proof.
  intros Hnd. split.
  - induction es as [|e es IH]; [constructor|]. apply NoDup_fmap_cons_inv in Hnd as [He Hnd].
    rewrite bind_cons, omap_app. destruct (edge_refs_cases e) as [->| ->]; [|by apply IH].
    simpl. apply NoDup_cons. split; [|by apply IH].
    intros (r & Hr & Heq)%list_elem_of_omap. destruct r; simplify_eq/=.
    apply list_elem_of_bind in Hr as (e' & Hr & He'). apply edge_refs_source in Hr. simpl in Hr.
    apply He. rewrite Hr. by apply list_elem_of_fmap_2.
  - intros u o (e1 & Hr1 & H1)%list_elem_of_bind (e2 & Hr2 & H2)%list_elem_of_bind.
    pose proof (edge_refs_source _ _ Hr1). pose proof (edge_refs_source _ _ Hr2). simpl in *.
    assert (e1 = e2) as <- by (eapply (NoDup_fmap_eq e_source); [exact Hnd|done|done|congruence]).
    destruct (edge_refs_cases e1) as [Heq|Heq].
    + rewrite Heq in Hr2. by apply list_elem_of_singleton in Hr2.
    + assert (u ∈ omap bare_ref (edge_refs e1)) as Hin by (apply list_elem_of_omap; by exists (Bare u)).
      rewrite Heq in Hin. by apply elem_of_nil in Hin.
Qed.

Lemma sublist_omap {A B} (f : A -> option B) l k : l `sublist_of` k -> omap f l `sublist_of` omap f k.
Proof.
  induction 1 as [|x l k _ IH|x l k _ IH]; simpl; [done| |]; destruct (f x); [by constructor|done|by apply sublist_cons|done].
Qed.

(** Importing a drawn block loses none of its references. *)
Lemma drawn_lossless n :
  canonical_inputs (dedupeInputs (incoming_refs (edges st) n)) ≡ₚ dedupeInputs (incoming_refs (edges st) n).
Proof.
  apply canonical_permutation. destruct (separated_refs _ (incoming_sources n)) as [Hnd Hsep]. split.
  - eapply sublist_NoDup; [exact Hnd|]. apply sublist_omap, dedupe_sublist.
  - intros u o Hb He. eapply Hsep; (eapply elem_of_sublist; [|apply dedupe_sublist]); [exact Hb | exact He].
Qed.
End Incoming.

Section SaveOpen.
Context {DB : Type} `{SqlLaws DB} {env : Env} {cfg : RouterConfig} {net : ClientEnv}.
Implicit Types w : World DB.

(** Saving a document without short codes under a new id, and reading it back. *)
Lemma post_pipeline_ok user name desc version vis p yaml id w :
  truthy name = true -> truthy yaml = true -> truthy id = true -> yaml_parse yaml = Ok (Some p) -> no_codes p ->
  p_id p = Some id -> validatePipeline p None = Valid -> keys_ok (db_rows (w_db w)) ->
  has_user (db_rows (w_db w)) (u_id user) = true ->
  (forall r, r ∈ rows (db_rows (w_db w)) TPipelines -> pl_id r <> id) ->
  exists w' row,
    handle (Some user) (PostPipeline (Some (mkCreatePipelineBody (Some name) desc (Some version) (Some yaml) (Some vis)))) w =
      (w', Ok (RPipeline row)) /\
    pl_yaml row = yaml_stringify p /\ pl_name row = name /\
    forall w2, w_db w2 = w_db w' -> handle (Some user) (GetPipeline (Some id)) w2 = (w2, Ok (RPipeline row)).
Proof.
  intros Hn Hy Hi Hparse Hnc Hid Hvalid Hk Huser Hfresh.
  unfold handle at 1, respond, create_pipeline, requireUser, orThrow. simpl. rewrite Hn, Hy. simpl.
  unfold mbind, M_bind, mret, M_ret.
  rewrite (accept_document_accepts yaml p w (w_uuids w) p) by (done || by apply resolve_no_codes).
  rewrite Hid. unfold now, write, PipelineRepo.create. cbn [w_db].
  match goal with |- context [sql_insert TPipelines ?r _] => set (r0 := r) end.
  assert (Hc : js_some (conflict TPipelines r0) (rows (db_rows (w_db w)) TPipelines) = false).
  { apply js_some_false. intros x Hx. simpl. bool_prop. intros Heq. by apply (Hfresh x Hx). }
  destruct (law_insert_ok TPipelines r0 (w_db w) Hc) as (db' & -> & Hs); [done|].
  eexists _, r0. split; [reflexivity|]. split; [done|]. split; [done|]. intros w2 Hw2. cbn [w_db] in Hw2.
  assert (Hk' : keys_ok (db_rows db')) by (eapply keys_ok_same; [by symmetry|]; by apply keys_ok_insert).
  destruct (pipeline_reads db' Hk') as [Hg _ _ _].
  assert (PipelineRepo.getByIdForUser id (u_id user) db' = Some r0) as Hget.
  { apply Hg. split; [|split; [done|by left]]. change (r0 ∈ rows (db_rows db') TPipelines).
    rewrite (Hs TPipelines), rows_set_eq. apply elem_of_app. right. by apply list_elem_of_singleton. }
  unfold handle, respond, get_pipeline, requireUser, orThrow, routerId, read, mbind, M_bind, mret, M_ret.
  by rewrite Hi, Hw2, Hget.
Qed.

(** The blocks of the saved document. *)
Definition saved_blocks (st : FlowState) : list Block :=
  dedupe_block <$> (exported_block (edges st) <$> nodes st).

Lemma saved_ids st : consistent st -> NoDup (b_id <$> saved_blocks st).
Proof.
  intros Hst. assert (b_id <$> saved_blocks st = node_ids st) as ->; [|apply Hst].
  unfold saved_blocks. rewrite <-!list_fmap_compose. by apply list_fmap_ext.
Qed.

Lemma saved_plain st : Forall (fun s => plain s = true) (drawn_ids st) -> plain_refs (saved_blocks st).
Proof.
  intros Hplain b r (b0 & -> & (n & -> & Hn)%list_elem_of_fmap)%list_elem_of_fmap Hr.
  change (r ∈ dedupeInputs (incoming_refs (edges st) (n_id n))) in Hr.
  rewrite Forall_forall in Hplain. apply Hplain. unfold drawn_ids. apply elem_of_app. right.
  assert (Hr' : r ∈ incoming_refs (edges st) (n_id n)) by (eapply elem_of_sublist; [exact Hr | apply dedupe_sublist]).
  apply (list_elem_of_fmap_2 refToId) in Hr'. apply elem_incoming_refs in Hr' as (e & He & _ & <-).
  by apply list_elem_of_fmap_2.
Qed.

Lemma saved_pipeline_spec st v7 page :
  consistent st ->
  saved_pipeline v7 page st =
    mkPipeline (Some v7) (Some (sv_name page)) (Some (sv_version page)) (or_undefined (sv_description page))
      (Some (saved_blocks st)).
Proof. intros Hst. unfold saved_pipeline. rewrite builder_export, export_blocks by apply Hst. done. Qed.

(** A save whose request succeeds. *)
Lemma handleSave_run user v7 page st c w' row :
  let p := saved_pipeline v7 page st in
  truthy (sv_name page) = true -> unresolved_edges st = false -> validatePipeline p None = Valid ->
  cl_flow c = st -> cl_page c = page -> net_fate (cl_requests c) = Delivered ->
  handle (Some user) (PostPipeline (Some (mkCreatePipelineBody (Some (sv_name page))
    (or_undefined (sv_description page)) (Some (sv_version page)) (Some (yaml_stringify p)) (Some (sv_visibility page)))))
    (cl_world c) = (w', Ok (RPipeline row)) ->
  handleSave (Some user) v7 c =
    (mkClient (setMeta (saved_meta page) st) (sv_set_submitting false (sv_close (sv_set_error None page)))
       (S (cl_requests c)) (cl_visited c ++ ["/pipelines"]) w', Ok tt).
Proof.
  intros p Hname Hres Hvalid Hflow Hpage Hnet Hpost.
  unfold handleSave, try_finally, try_catch, save_attempt, on_flow, set_page, get_state, modify, navigateTo.
  unfold mbind, M_bind, mret, M_ret.
  cbn [cl_page cl_flow cl_requests cl_visited cl_world sv_name sv_description sv_version sv_visibility
    sv_set_error sv_set_submitting saved_meta].
  rewrite Hpage, Hname, Hflow, Hres. cbn [negb cl_page cl_flow cl_requests cl_visited cl_world].
  match goal with |- context [validatePipeline ?q None] => change q with p end. rewrite Hvalid.
  match goal with |- context [yaml_stringify ?q] => change q with p end.
  unfold fetch. cbn [cl_page cl_flow cl_requests cl_visited cl_world sv_name sv_description sv_version sv_visibility].
  rewrite Hnet, Hpost. reflexivity.
Qed.

(** A block that came back: the same block, its references in some order. *)
Definition reopened (b b' : Block) : Prop :=
  b_id b' = b_id b /\ b_name b' = b_name b /\ b_args b' = Some (b_args b ⁇ []) /\
  (b_inputs b' ⁇ []) ≡ₚ dedupeInputs (b_inputs b ⁇ []).

Lemma reopen_blocks st :
  consistent st ->
  Forall2 reopened (exported_block (edges st) <$> nodes st)
    (canonical_block <$> saved_blocks st).
Proof.
  intros Hst. unfold saved_blocks. rewrite <-!list_fmap_compose. apply Forall2_fmap, Forall_Forall2_diag, Forall_forall.
  intros n Hn. unfold reopened. simpl. split_and!; try done. by apply drawn_lossless.
Qed.

(** C13. Saving and opening again.  Saving a consistent drawing without unresolved
    connections that passes validation (with a name, a known user, a new id, both
    requests delivered, a YAML package that reads back what it writes, and no short
    code and no arrow character among the ids) stores it in the library; opening
    the stored row later draws the same pipeline again: the same blocks in the same
    order with the same names and arguments, each with the same references up to
    order and repetition, under the name, version and description that were saved. *)
Theorem save_then_open user st v7 page c :
  let p := saved_pipeline v7 page st in
  consistent st -> Forall (fun s => isShortCode s = false) (v7 :: drawn_ids st) ->
  Forall (fun s => plain s = true) (drawn_ids st) ->
  truthy (sv_name page) = true -> truthy v7 = true -> unresolved_edges st = false ->
  validatePipeline p None = Valid ->
  yaml_parse (yaml_stringify p) = Ok (Some p) -> truthy (yaml_stringify p) = true ->
  cl_flow c = st -> cl_page c = page -> net_fate (cl_requests c) = Delivered ->
  keys_ok (db_rows (w_db (cl_world c))) -> has_user (db_rows (w_db (cl_world c))) (u_id user) = true ->
  (forall r, r ∈ rows (db_rows (w_db (cl_world c))) TPipelines -> pl_id r <> v7) ->
  exists c1, handleSave (Some user) v7 c = (c1, Ok tt) /\
    cl_visited c1 = cl_visited c ++ ["/pipelines"] /\ sv_closed (cl_page c1) = true /\
    sv_errorMessage (cl_page c1) = None /\ sv_submitting (cl_page c1) = false /\
    forall c2 : Client DB LibraryPage, w_db (cl_world c2) = w_db (cl_world c1) -> net_fate (cl_requests c2) = Delivered ->
    exists c3, handleOpen (Some user) v7 c2 = (c3, Ok tt) /\
      cl_visited c3 = cl_visited c2 ++ ["/editor"] /\ cl_world c3 = cl_world c2 /\
      forall v7', exists blocks,
        exportPipelineObject v7' (cl_flow c3) =
          mkPipeline (Some v7') (Some (sv_name page)) (Some (sv_version page)) (or_undefined (sv_description page))
            (Some blocks) /\
        Forall2 reopened (exported_block (edges st) <$> nodes st) blocks.
Proof.
  intros p Hst Hnc Hplain Hname Hv7 Hres Hvalid Hparse Hty Hflow Hpage Hnet Hk Huser Hfresh.
  apply Forall_cons in Hnc as [Hv Hids].
  assert (Hp := saved_pipeline_spec st v7 page Hst). fold p in Hp.
  assert (Hpnc : no_codes p) by (by apply built_no_codes).
  destruct (post_pipeline_ok user (sv_name page) (or_undefined (sv_description page)) (sv_version page)
    (sv_visibility page) p (yaml_stringify p) v7 (cl_world c)) as (w' & row & Hpost & Hyaml & _ & Hget);
    try done; [by rewrite Hp|].
  eexists. split; [by apply (handleSave_run user v7 page st c w' row)|].
  cbn [cl_page cl_flow cl_requests cl_visited cl_world sv_closed sv_errorMessage sv_submitting sv_close
    sv_set_submitting sv_set_error]. split_and!; try done.
  intros c2 Hw2 Hnet2.
  assert (Hopen : forall v7', exists st3, yamlToNodes yaml_parse (yaml_stringify p) (cl_flow c2) = (st3, Ok tt) /\
    exportPipelineObject v7' st3 = mkPipeline (Some v7') (Some (sv_name page)) (Some (sv_version page))
      (or_undefined (sv_description page)) (Some (canonical_block <$> saved_blocks st))).
  { intros v7'. destruct (import_then_export yaml_parse (yaml_stringify p) p (saved_blocks st) v7' (cl_flow c2))
      as (st3 & Hst3 & Hexp); [done|by rewrite Hp|by apply saved_ids|by apply saved_plain|].
    exists st3. split; [done|]. by rewrite Hexp, Hp. }
  destruct (Hopen EmptyString) as (st3 & Hst3 & _).
  eexists. split.
  { unfold handleOpen, fetch, expect, import_yaml, navigateTo, modify, mbind, M_bind, mret, M_ret.
    rewrite Hnet2, (Hget (cl_world c2)) by (by rewrite Hw2).
    cbn [cl_page cl_flow cl_requests cl_visited cl_world]. rewrite Hyaml, Hst3. reflexivity. }
  cbn [cl_page cl_flow cl_requests cl_visited cl_world]. split_and!; try done.
  intros v7'. destruct (Hopen v7') as (st3' & Hst3' & Hexp). rewrite Hst3 in Hst3'. simplify_eq.
  eexists. split; [exact Hexp|]. by apply reopen_blocks.
Qed.
End SaveOpen.
