(* ===== verification/ConnectPage.v ===== *)
(** * The editor page: modals, connections and their resolver, block cards

    ([web_ui/components/flow/Base.vue], [flow/ConnectionResolver.vue],
    [flow/CustomBlock.vue], [web_ui/composables/useBlockCatalogue.ts].)
    [load] stands for the block service: the manifest of a name, or nothing when
    the request fails. *)

From S2P Require Export Forms Client MapContext.
From Stdlib Require Import QArith.
Open Scope js_scope.
Open Scope nat_scope.

(** ** The modals ([Base.vue]) *)

Record BaseState := mkBase {
  editorTarget : option string;
  showBlock : bool; showImport : bool; showExport : bool; showSave : bool; showResolver : bool;
  resolverTarget : option (string * string) }.

Definition initial_base : BaseState := mkBase None false false false false false None.

Definition handleBlockButtonClick (b : BaseState) : BaseState :=
  mkBase None true (showImport b) (showExport b) (showSave b) (showResolver b) (resolverTarget b).
Definition handleExportButtonClick (b : BaseState) : BaseState :=
  mkBase (editorTarget b) (showBlock b) (showImport b) true (showSave b) (showResolver b) (resolverTarget b).
Definition handleImportButtonClick (b : BaseState) : BaseState :=
  mkBase (editorTarget b) (showBlock b) true (showExport b) (showSave b) (showResolver b) (resolverTarget b).
Definition handleSaveButtonClick (b : BaseState) : BaseState :=
  mkBase (editorTarget b) (showBlock b) (showImport b) (showExport b) true (showResolver b) (resolverTarget b).
Definition handleEdit (id : string) (b : BaseState) : BaseState :=
  mkBase (Some id) true (showImport b) (showExport b) (showSave b) (showResolver b) (resolverTarget b).
Definition closeModals (b : BaseState) : BaseState := mkBase None false false false false false None.

Definition handleDeleteBlock (confirmed : bool) (id : string) (s : FlowState * BaseState) : FlowState * BaseState :=
  let '(st, b) := s in
  if negb confirmed then s
  else (removeNode id st,
        mkBase None (showBlock b) (showImport b) (showExport b) (showSave b) (showResolver b) (resolverTarget b)).

(** [onConnect]: what it does at once, and what it does when the manifests have
    arrived; [named] is the store when the names were read. *)
Definition onConnect_begin (source target : string) (st : FlowState) : FlowState := connect source target st.

Definition onConnect_finish (load : string -> option BlockManifest) (named : FlowState)
    (source target : string) (s : FlowState * BaseState) : FlowState * BaseState :=
  let '(st, b) := s in
  let '(st', outcome) := resolveAndApply load named st source target in
  match outcome with
  | Ambiguous =>
      (st', mkBase (editorTarget b) (showBlock b) (showImport b) (showExport b) (showSave b) true (Some (source, target)))
  | InvalidTypes => (disconnect source target st', b)
  | _ => (st', b)
  end.

(** ** The resolver dialog ([ConnectionResolver.vue]) *)

(** [dg_awaiting] are the two names whose manifests [onMounted] waits for. *)
Record Dialog := mkDialog {
  dg_upstream : option BlockManifest; dg_downstream : option BlockManifest;
  dg_candidates : jsmap (list string);
  dg_inputDescriptions : jsmap (option string); dg_outputDescriptions : jsmap (option string);
  dg_selections : jsmap string; dg_errorMessage : option string;
  dg_awaiting : option (string * string) }.

Definition initial_dialog : Dialog := mkDialog None None [] [] [] [] None None.

Definition prefill (selections : jsmap string) (entry : string * list string) : jsmap string :=
  match entry.2 with o :: _ => jm_set entry.1 o selections | [] => selections end.

(** [onMounted], up to its [await]: it reads the names of the two blocks. *)
Definition mountDialog (source target : string) (st : FlowState) : Dialog :=
  let failed := mkDialog None None [] [] [] [] (Some "Could not find block manifests for this connection.") None in
  match nameById st source, nameById st target with
  | Some upstreamName, Some downstreamName =>
      if truthy upstreamName && truthy downstreamName
      then mkDialog None None [] [] [] [] None (Some (upstreamName, downstreamName))
      else failed
  | _, _ => failed
  end.

(** The rest of [onMounted]: [u] and [d] are what the two calls of [loadManifest] gave,
    nothing for a failed request; the boolean is whether it emits [close]. *)
Definition manifestsArrived (u d : option BlockManifest) (dg : Dialog) : Dialog * bool :=
  let with_data cands ins outs sels message :=
    mkDialog u d cands ins outs sels message None in
  match u, d with
  | Some up, Some down =>
      match resolveConnection up down [] with
      | RAmbiguous candidates ins outs _ =>
          (with_data candidates ins outs (foldl prefill (dg_selections dg) candidates) (dg_errorMessage dg), false)
      | _ => (with_data (dg_candidates dg) (dg_inputDescriptions dg) (dg_outputDescriptions dg) (dg_selections dg) (dg_errorMessage dg), true)
      end
  | _, _ =>
      (with_data (dg_candidates dg) (dg_inputDescriptions dg) (dg_outputDescriptions dg) (dg_selections dg)
         (Some "Block manifests could not be loaded."), false)
  end.

(** A radio button of an input. *)
Definition pick_option (d : Dialog) (p : string * string) : Dialog :=
  mkDialog (dg_upstream d) (dg_downstream d) (dg_candidates d) (dg_inputDescriptions d) (dg_outputDescriptions d)
    (jm_set p.1 p.2 (dg_selections d)) (dg_errorMessage d) (dg_awaiting d).

Definition allInputsBound (d : Dialog) : bool :=
  forallb (fun input => otruthy (jm_get input (dg_selections d))) (jm_keys (dg_candidates d)).

(** [handleConfirm], with the [close] it emits handled by the page. *)
Definition handleConfirm (source target : string) (d : Dialog) (s : FlowState * BaseState) : FlowState * BaseState :=
  let '(st, b) := s in
  if negb (allInputsBound d) then s
  else
    let bindings := (fun e => mkBinding e.2 e.1) <$> dg_selections d in
    (setEdgeData st source target (mkEdgeData (Some bindings) (Some false)), closeModals b).

(** The page's handler of [cancel]. *)
Definition handleResolverCancel (s : FlowState * BaseState) : FlowState * BaseState :=
  let '(st, b) := s in
  (match resolverTarget b with Some (source, target) => disconnect source target st | None => st end,
   closeModals b).

(** ** The block catalogue ([useBlockCatalogue.ts]) *)

Record Catalogue := mkCatalogue { ct_items : jsmap BlockListItem; ct_loaded : bool }.
Definition initial_catalogue : Catalogue := mkCatalogue [] false.

Definition inherited_item : BlockListItem := mkListItem "" "" "" Standard false None.

Definition catalogue_get (ct : Catalogue) (name : option string) : option BlockListItem :=
  match name with
  | Some s =>
      if truthy s then
        match jm_get s (ct_items ct) with
        | Some item => Some item
        | None => if bool_decide (s ∈ object_prototype_keys) then Some inherited_item else None
        end
      else None
  | None => None
  end.

Section Catalogue.
Context {DB : Type} `{Sql DB} {env : Env} {cfg : RouterConfig} {net : ClientEnv}.

(** [load]: a failed request leaves the catalogue to be loaded again. *)
Definition catalogue_load (session : option SessionUser) : M (Client DB Catalogue) JsError unit :=
  c ← get_state;
  if ct_loaded (cl_page c) then mret tt
  else
    try_catch
      (r ← fetch session ListBlocks;
       blocks ← expect (fun r => match r with RBlocks l => Some l | _ => None end) r;
       set_page (fun _ => mkCatalogue (foldl (fun m b => jm_set (bl_name b) b m) [] blocks) true))
      (fun _ => mret tt).
End Catalogue.

(** ** Block cards ([CustomBlock.vue]) *)

Section CustomBlock.
Context (ct : Catalogue) (st : FlowState) (mapCtx : MapContextResult) (id : string).

Definition card_meta : option BlockListItem := catalogue_get ct (nameById st id).

Definition hasUnresolved : bool :=
  js_some (fun e => ((e_source e === id) || (e_target e === id)) && unresolved (e_data e)) (edges st).

Definition inMapContext : bool := js_mem id (inContext mapCtx).

Definition contextMapName : option string :=
  match activeMapFor mapCtx id with
  | Some mapId => if truthy mapId then nameById st mapId else None
  | None => None
  end.

Definition isNestedMap : bool := js_mem id (nestedMaps mapCtx).

Definition hasBroadcastInput : bool :=
  js_some (fun e => (e_target e === id) && isBroadcastEdge mapCtx (e_source e) id) (edges st).

Record KindStyle := mkKindStyle { ks_ring : string; ks_accent : string; ks_badge : option (string * string) }.

Definition kindStyles : KindStyle :=
  match bl_kind <$> card_meta with
  | Some MapKind => mkKindStyle "ring-2 ring-spade-blue/40" "border-l-4 border-l-spade-blue" (Some ("blue", "map"))
  | Some ReduceKind => mkKindStyle "ring-2 ring-spade-green/40" "border-l-4 border-l-spade-green" (Some ("green", "reduce"))
  | _ => mkKindStyle "" "" None
  end.
End CustomBlock.

(** ** What Vue Flow edits ([v-model:nodes], [v-model:edges]) *)

(** The canvas writes its own edits into the store: it moves nodes, and it removes nodes
    and edges, with a node the edges at it. *)
Record canvas_edit (st st' : FlowState) : Prop := {
  ce_moved : exists kept, kept `sublist_of` nodes st /\
    Forall2 (fun n n' => n_id n' = n_id n /\ n_type n' = n_type n /\ n_data n' = n_data n) kept (nodes st');
  ce_edges : edges st' `sublist_of` edges st;
  ce_removed : Forall (fun e => forall id, id = e_source e \/ id = e_target e -> id ∈ node_ids st -> id ∈ node_ids st') (edges st');
  ce_meta : pipelineMeta st' = pipelineMeta st }.

(** ** The page as a state machine *)

(** [pg_pending] are the connections whose manifests are loading, [pg_doc] is the
    document that was imported last. *)
Record EditorPage := mkPage {
  pg_flow : FlowState; pg_base : BaseState; pg_editor : option EditorState; pg_dialog : option Dialog;
  pg_pending : list (FlowState * string * string); pg_doc : option Pipeline }.

Definition initial_page : EditorPage := mkPage initial_flow initial_base None None [] None.

(** The block editor is mounted while [showBlock] holds, the dialog while [showResolver]
    does and there is a target. *)
Definition page (st : FlowState) (b : BaseState) (ed : option EditorState) (dg : option Dialog)
    (ps : list (FlowState * string * string)) (doc : option Pipeline) : EditorPage :=
  mkPage st b (if showBlock b then ed else None)
    (if showResolver b && bool_decide (is_Some (resolverTarget b)) then dg else None) ps doc.

(** An overlay that is dismissed by a click beside it: its flag only. *)
Inductive dismiss : BaseState -> BaseState -> Prop :=
  | dismiss_block b : dismiss b (mkBase (editorTarget b) false (showImport b) (showExport b) (showSave b) (showResolver b) (resolverTarget b))
  | dismiss_import b : dismiss b (mkBase (editorTarget b) (showBlock b) false (showExport b) (showSave b) (showResolver b) (resolverTarget b))
  | dismiss_export b : dismiss b (mkBase (editorTarget b) (showBlock b) (showImport b) false (showSave b) (showResolver b) (resolverTarget b))
  | dismiss_save b : dismiss b (mkBase (editorTarget b) (showBlock b) (showImport b) (showExport b) false (showResolver b) (resolverTarget b))
  | dismiss_resolver b : dismiss b (mkBase (editorTarget b) (showBlock b) (showImport b) (showExport b) (showSave b) false (resolverTarget b)).

(** [Vue Flow] offers the handles of drawn nodes only, and the ids of new blocks are new.
    Any text can be pasted into the import dialog. *)
Inductive page_step : EditorPage -> EditorPage -> Prop :=
  | ps_add_block st b ed dg ps doc blocks :
      page_step (mkPage st b ed dg ps doc)
        (page st (handleBlockButtonClick b) (Some (mountEditor None blocks st)) dg ps doc)
  | ps_edit_block st b ed dg ps doc blocks id :
      page_step (mkPage st b ed dg ps doc)
        (page st (handleEdit id b) (Some (mountEditor (Some id) blocks st)) dg ps doc)
  | ps_open st b b' ed dg ps doc :
      b' = handleImportButtonClick b \/ b' = handleExportButtonClick b \/ b' = handleSaveButtonClick b ->
      page_step (mkPage st b ed dg ps doc) (page st b' ed dg ps doc)
  | ps_close st b ed dg ps doc :
      page_step (mkPage st b ed dg ps doc) (page st (closeModals b) ed dg ps doc)
  | ps_dismiss st b b' ed dg ps doc :
      dismiss b b' -> page_step (mkPage st b ed dg ps doc) (page st b' ed dg ps doc)
  | ps_canvas st st' b ed dg ps doc :
      canvas_edit st st' -> page_step (mkPage st b ed dg ps doc) (page st' b ed dg ps doc)
  | ps_form st b ed dg ps doc ev :
      page_step (mkPage st b (Some ed) dg ps doc)
        (page (ed_step (st, ed) ev).1 b (Some (ed_step (st, ed) ev).2) dg ps doc)
  | ps_submit st b ed dg ps doc v7 rx ry :
      (ed_targetId ed = None -> v7 ∉ node_ids st) ->
      page_step (mkPage st b (Some ed) dg ps doc)
        (page (handleSubmit v7 rx ry (st, ed)) (closeModals b) None None ps doc)
  | ps_cancel st b ed dg ps doc :
      page_step (mkPage st b (Some ed) dg ps doc) (page (handleCancel (st, ed)) (closeModals b) None None ps doc)
  | ps_delete st b ed dg ps doc confirmed id :
      page_step (mkPage st b ed dg ps doc)
        (page (handleDeleteBlock confirmed id (st, b)).1 (handleDeleteBlock confirmed id (st, b)).2 ed dg ps doc)
  | ps_connect st b ed dg ps doc s t :
      s ∈ node_ids st -> t ∈ node_ids st ->
      page_step (mkPage st b ed dg ps doc)
        (page (onConnect_begin s t st) b ed dg (ps ++ [(onConnect_begin s t st, s, t)]) doc)
  | ps_connected st b ed dg ps ps' doc named s t load :
      page_step (mkPage st b ed dg (ps ++ (named, s, t) :: ps') doc)
        (page (onConnect_finish load named s t (st, b)).1 (onConnect_finish load named s t (st, b)).2 ed dg (ps ++ ps') doc)
  | ps_dialog st b ed ps doc s t :
      showResolver b = true -> resolverTarget b = Some (s, t) ->
      page_step (mkPage st b ed None ps doc) (page st b ed (Some (mountDialog s t st)) ps doc)
  | ps_manifests st b ed dg ps doc names u d :
      dg_awaiting dg = Some names ->
      page_step (mkPage st b ed (Some dg) ps doc)
        (page st (if (manifestsArrived u d dg).2 then closeModals b else b) ed (Some (manifestsArrived u d dg).1) ps doc)
  | ps_pick st b ed dg ps doc p :
      page_step (mkPage st b ed (Some dg) ps doc) (page st b ed (Some (pick_option dg p)) ps doc)
  | ps_confirm st b ed dg ps doc s t :
      resolverTarget b = Some (s, t) ->
      page_step (mkPage st b ed (Some dg) ps doc)
        (page (handleConfirm s t dg (st, b)).1 (handleConfirm s t dg (st, b)).2 ed (Some dg) ps doc)
  | ps_resolver_cancel st b ed dg ps doc :
      page_step (mkPage st b ed dg ps doc)
        (page (handleResolverCancel (st, b)).1 (handleResolverCancel (st, b)).2 None None ps doc)
  | ps_import st st' b ed dg ps doc pipe parse yaml :
      parse yaml = Ok (Some pipe) -> yamlToNodes parse yaml st = (st', Ok tt) ->
      page_step (mkPage st b ed dg ps doc) (page st' (closeModals b) None None ps (Some pipe))
  | ps_save st b ed dg ps doc p :
      page_step (mkPage st b ed dg ps doc) (page (setMeta (saved_meta p) st) (closeModals b) None None ps doc).

(** ** What the dialog offers and writes *)

Lemma ambiguous_candidates up down cands ds ds' partial :
  well_typed_manifest up -> well_typed_manifest down ->
  resolveConnection up down [] = RAmbiguous cands ds ds' partial ->
  NoDup (jm_keys cands) /\ cands <> [] /\
  forall input options, (input, options) ∈ cands ->
    input ∉ bd_input <$> partial /\
    forall o, o ∈ options -> compatible_pair (mf_outputs up ⁇ []) (mf_inputs down ⁇ []) (mkBinding o input).
Proof.
  intros Hup Hdown Hres.
  destruct (resolveConnection_run up down [] Hup Hdown) as [(reason & Heq & _)|(w & auto & Hw & _ & _ & Heq)];
    rewrite Hres in Heq; [done|].
  destruct Hup as [_ Houts], Hdown as [Hins _].
  pose proof (wi_outputs _ _ w Hw) as Hro. pose proof (wi_inputs _ _ w Hw) as Hri.
  assert (Hnd : NoDup (jm_keys (remainingInputs w))) by (rewrite Hri; by apply NoDup_filter_keys).
  pose proof (scan_candidates_spec w (remainingInputs w) []) as Hscan. simpl in Hscan.
  rewrite keys_candidate_entry in Hscan. specialize (Hscan Hnd).
  destruct (scan_candidates w (remainingInputs w) []) as [[|] cands']; [|done]. simplify_eq.
  destruct Hscan as (pre & e & post & Hsplit & _ & _ & ->). split_and!.
  - rewrite keys_candidate_entry. rewrite Hsplit in Hnd. unfold jm_keys in *.
    eapply sublist_NoDup; [exact Hnd|]. apply fmap_sublist, sublist_app; [done|].
    apply sublist_skip, sublist_nil_l.
  - intros Hnil. apply (f_equal length) in Hnil. rewrite length_fmap, length_app in Hnil. simpl in Hnil. lia.
  - intros input options ((k & decl) & Heq & He)%list_elem_of_fmap. unfold candidate_entry in Heq. simplify_eq/=.
    assert (Hin : (k, decl) ∈ remainingInputs w).
    { rewrite Hsplit. apply elem_of_app in He as [?|?%list_elem_of_singleton]; set_solver. }
    rewrite Hri in Hin. apply list_elem_of_filter in Hin as [Hfree Hin]. split; [done|].
    intros o ((o' & out) & -> & Ho)%list_elem_of_fmap. apply list_elem_of_filter in Ho as [Hc Ho].
    rewrite Hro in Ho. apply list_elem_of_filter in Ho as [_ Ho]. simpl in *.
    exists out, decl. split; [by apply elem_jm_get|]. split; [by apply elem_jm_get|done].
Qed.

(** The selections of a dialog: for candidate inputs, offered outputs. *)
Record selections_ok (cands : jsmap (list string)) (sel : jsmap string) : Prop := {
  so_keys : NoDup (jm_keys sel);
  so_offered : forall i o, jm_get i sel = Some o -> exists options, (i, options) ∈ cands /\ o ∈ options }.

Lemma selections_set cands sel i o options :
  selections_ok cands sel -> (i, options) ∈ cands -> o ∈ options -> selections_ok cands (jm_set i o sel).
Proof.
  intros [Hk Ho] Hin Hoin. split; [by apply NoDup_jm_set|]. intros i' o'. rewrite jm_get_set.
  case_bool_decide; [|apply Ho]. intros Heq. simplify_eq. eauto.
Qed.

Lemma prefill_ok cands l sel :
  (forall e, e ∈ l -> e ∈ cands) -> selections_ok cands sel -> selections_ok cands (foldl prefill sel l).
Proof.
  revert sel. induction l as [|[i options] l IH]; intros sel Hl Hsel; [done|]. simpl. apply IH.
  - intros e He. apply Hl. by right.
  - unfold prefill. destruct options as [|o options]; [done|]. simpl.
    eapply selections_set; [done|apply Hl; left|left].
Qed.

Lemma pick_candidates d ps : dg_candidates (foldl pick_option d ps) = dg_candidates d.
Proof. revert d. induction ps as [|p ps IH]; intros d; [done|]. simpl. by rewrite IH. Qed.

Lemma pick_ok cands d ps :
  (forall i o, (i, o) ∈ ps -> exists options, (i, options) ∈ cands /\ o ∈ options) ->
  selections_ok cands (dg_selections d) -> selections_ok cands (dg_selections (foldl pick_option d ps)).
Proof.
  revert d. induction ps as [|[i o] ps IH]; intros d Hps Hsel; [done|]. simpl. apply IH.
  - intros i' o' Hin. apply Hps. by right.
  - destruct (Hps i o) as (options & Hin & Ho); [left|]. simpl. by eapply selections_set.
Qed.

Definition selected_bindings (sel : jsmap string) : list Binding := (fun e => mkBinding e.2 e.1) <$> sel.

Lemma selected_inputs sel : bd_input <$> selected_bindings sel = jm_keys sel.
Proof. unfold selected_bindings, jm_keys. rewrite <-list_fmap_compose. by apply list_fmap_ext. Qed.

Lemma allInputsBound_true d :
  allInputsBound d = true <->
  forall i, i ∈ jm_keys (dg_candidates d) -> exists o, jm_get i (dg_selections d) = Some o /\ truthy o = true.
Proof.
  unfold allInputsBound. rewrite forallb_forall. split; intros Hall i Hi.
  - apply list_elem_of_In in Hi. specialize (Hall i Hi). destruct (jm_get i _); [eauto|done].
  - apply list_elem_of_In in Hi. by destruct (Hall i Hi) as (o & -> & ?).
Qed.

Lemma edgeData_write st s t d :
  is_Some (edgeData st s t) -> edgeData (writeEdgeData s t d st) s t = Some d.
Proof. exact (get_set_edge (F := FlowState) st s t d). Qed.

Lemma edgeData_write_ne st s t s' t' d :
  (s, t) <> (s', t') -> edgeData (writeEdgeData s t d st) s' t' = edgeData st s' t'.
Proof. exact (get_set_edge_ne (F := FlowState) st s t s' t' d). Qed.

Lemma nameById_write st s t d id : nameById (writeEdgeData s t d st) id = nameById st id.
Proof. exact (set_edge_name (F := FlowState) st s t d id). Qed.

(** An ambiguous connection, and the dialog that opens on it: it waits for the manifests
    of the two names, and once it has them offers the candidates. *)
Lemma ambiguous_opens load named later s t st1 :
  is_Some (edgeData later s t) ->
  nameById later s = nameById named s -> nameById later t = nameById named t ->
  resolveAndApply load named later s t = (st1, Ambiguous) ->
  exists un dn up down cands ds ds' partial,
    load un = Some up /\ load dn = Some down /\
    resolveConnection up down [] = RAmbiguous cands ds ds' partial /\
    st1 = writeEdgeData s t (mkEdgeData (Some partial) (Some true)) later /\
    mountDialog s t st1 = mkDialog None None [] [] [] [] None (Some (un, dn)) /\
    (manifestsArrived (Some up) (Some down) (mountDialog s t st1)).1 =
      mkDialog (Some up) (Some down) cands ds ds' (foldl prefill [] cands) None None.
Proof.
  intros Hedge Hns Hnt Hrun. unfold resolveAndApply in Hrun. simpl in Hrun.
  destruct (nameById named s) as [un|] eqn:Hun; [|done].
  destruct (nameById named t) as [dn|] eqn:Hdn; [|done].
  destruct (truthy un && truthy dn) eqn:Htr; [|done].
  destruct (load un) as [up|] eqn:Hup; [|done]. destruct (load dn) as [down|] eqn:Hdown; [|done].
  destruct (resolveConnection up down []) as [|cands ds ds' partial|] eqn:Hres; simplify_eq.
  exists un, dn, up, down, cands, ds, ds', partial.
  assert (Hm : mountDialog s t (writeEdgeData s t (mkEdgeData (Some partial) (Some true)) later) =
    mkDialog None None [] [] [] [] None (Some (un, dn))).
  { unfold mountDialog. by rewrite !nameById_write, Hns, Hnt, Htr. }
  split_and!; try done. simpl. rewrite Hm. simpl. by rewrite Hres.
Qed.

(** A dialog without candidates and selections confirms an edge without bindings. *)
Lemma confirm_empty s t d st b :
  dg_candidates d = [] -> dg_selections d = [] ->
  handleConfirm s t d (st, b) = (writeEdgeData s t (mkEdgeData (Some []) (Some false)) st, closeModals b).
Proof. intros Hc Hs. unfold handleConfirm, allInputsBound. by rewrite Hc, Hs. Qed.

(** An enabled Confirm. *)
Lemma confirm_writes up down (partial : list Binding) (cands : jsmap (list string)) s t d st1 b :
  (forall input options, (input, options) ∈ cands ->
    input ∉ bd_input <$> partial /\
    forall o, o ∈ options -> compatible_pair (mf_outputs up ⁇ []) (mf_inputs down ⁇ []) (mkBinding o input)) ->
  selections_ok cands (dg_selections d) -> dg_candidates d = cands -> is_Some (edgeData st1 s t) ->
  allInputsBound d = true ->
  exists bs,
    edgeData (handleConfirm s t d (st1, b)).1 s t = Some (mkEdgeData (Some bs) (Some false)) /\
    Forall (compatible_pair (mf_outputs up ⁇ []) (mf_inputs down ⁇ [])) bs /\
    NoDup (bd_input <$> bs) /\
    (forall i, i ∈ bd_input <$> bs <-> i ∈ jm_keys cands) /\
    (forall x, x ∈ partial -> bd_input x ∉ bd_input <$> bs) /\
    (forall s' t', (s, t) <> (s', t') -> edgeData (handleConfirm s t d (st1, b)).1 s' t' = edgeData st1 s' t').
Proof.
  intros Hcands Hsel Hdc Hedge Hd. exists (selected_bindings (dg_selections d)).
  unfold handleConfirm. rewrite Hd. simpl. rewrite selected_inputs. split_and!.
  - by apply edgeData_write.
  - apply Forall_fmap, Forall_forall. intros [i o] Hin. simpl.
    apply elem_jm_get in Hin; [|apply Hsel]. destruct (so_offered _ _ Hsel i o Hin) as (options & Hin' & Ho).
    by apply (Hcands i options).
  - apply Hsel.
  - rewrite allInputsBound_true, Hdc in Hd. intros i. split.
    + intros Hi. apply jm_get_is_Some in Hi as [o Ho]. destruct (so_offered _ _ Hsel i o Ho) as (options & Hin & _).
      by apply (list_elem_of_fmap_2 fst) in Hin.
    + intros Hi. destruct (Hd i Hi) as (o & Ho & _). apply jm_get_is_Some. eauto.
  - intros x Hx Hin. apply jm_get_is_Some in Hin as [o Ho].
    destruct (so_offered _ _ Hsel _ _ Ho) as (options & Hin & _). destruct (Hcands _ _ Hin) as [Hfree _].
    apply Hfree. by apply list_elem_of_fmap_2.
  - intros s' t' Hne. by apply edgeData_write_ne.
Qed.

(** The dialog with its candidates, after any picks. *)
Lemma ready_dialog up down (partial : list Binding) cands ds ds' s t st1 later b picks :
  (forall input options, (input, options) ∈ cands ->
    input ∉ bd_input <$> partial /\
    forall o, o ∈ options -> compatible_pair (mf_outputs up ⁇ []) (mf_inputs down ⁇ []) (mkBinding o input)) ->
  NoDup (jm_keys cands) ->
  (forall i o, (i, o) ∈ picks -> exists options, (i, options) ∈ cands /\ o ∈ options) ->
  is_Some (edgeData st1 s t) ->
  st1 = writeEdgeData s t (mkEdgeData (Some partial) (Some true)) later ->
  let d := foldl pick_option (mkDialog (Some up) (Some down) cands ds ds' (foldl prefill [] cands) None None) picks in
  let confirmed := (handleConfirm s t d (st1, b)).1 in
  (forall i, (i, []) ∈ cands -> allInputsBound d = false) /\
  (allInputsBound d = false -> handleConfirm s t d (st1, b) = (st1, b)) /\
  (allInputsBound d = true -> exists bs,
     edgeData confirmed s t = Some (mkEdgeData (Some bs) (Some false)) /\
     Forall (compatible_pair (mf_outputs up ⁇ []) (mf_inputs down ⁇ [])) bs /\
     NoDup (bd_input <$> bs) /\
     (forall i, i ∈ bd_input <$> bs <-> i ∈ jm_keys cands) /\
     (forall x, x ∈ partial -> bd_input x ∉ bd_input <$> bs) /\
     (forall s' t', (s, t) <> (s', t') -> edgeData confirmed s' t' = edgeData later s' t')).
Proof.
  intros Hcands Hnd Hpicks Hedge Hst1 d confirmed.
  assert (Hdc : dg_candidates d = cands) by (unfold d; by rewrite pick_candidates).
  assert (Hsel : selections_ok cands (dg_selections d)).
  { unfold d. apply pick_ok; [done|]. simpl. apply prefill_ok; [done|]. split; [constructor|done]. }
  split_and!.
  - intros i Hi. apply not_true_iff_false. rewrite allInputsBound_true, Hdc. intros Hall.
    destruct (Hall i) as (o & Ho & _); [by apply (list_elem_of_fmap_2 fst) in Hi|].
    destruct (so_offered _ _ Hsel i o Ho) as (options & Hin & Hoin).
    apply (elem_jm_get i) in Hi; [|done]. apply (elem_jm_get i) in Hin; [|done].
    assert (options = []) as -> by congruence. by apply elem_of_nil in Hoin.
  - intros Hd. unfold handleConfirm. by rewrite Hd.
  - intros Hd. destruct (confirm_writes up down partial cands s t d st1 b Hcands Hsel Hdc) as (bs & Hbs); [done|done|].
    exists bs. destruct Hbs as (H1 & H2 & H3 & H4 & H5 & H6). split_and!; try done.
    intros s' t' Hne. unfold confirmed. rewrite H6 by done. rewrite Hst1. by apply edgeData_write_ne.
Qed.

(** C20. The resolver dialog.  When connecting two blocks was ambiguous and the names of
    the two blocks did not change meanwhile, the dialog opens and asks for the two
    manifests again.  Until they arrive, and for good if one does not, Confirm is enabled
    and marks the edge resolved without any binding, so those found unambiguously are
    lost.  Once they arrive the dialog offers the candidates, and after any picks among
    the offered outputs: Confirm is dead for ever when some candidate input has no
    compatible output; when Confirm is enabled it writes, and to this edge only, one
    compatible binding for each candidate input and marks the edge resolved, so again
    the bindings that were found unambiguously and stored with the edge are all lost;
    when it is not enabled it does nothing.  Cancel removes the edge. *)
Theorem resolver_dialog load named later s t st1 b :
  (forall name m, load name = Some m -> well_typed_manifest m) ->
  is_Some (edgeData later s t) ->
  nameById later s = nameById named s -> nameById later t = nameById named t ->
  resolveAndApply load named later s t = (st1, Ambiguous) ->
  let opened := mountDialog s t st1 in
  exists un dn up down partial,
    load un = Some up /\ load dn = Some down /\
    edgeData st1 s t = Some (mkEdgeData (Some partial) (Some true)) /\
    dg_awaiting opened = Some (un, dn) /\
    (forall d, d = opened \/ (exists u' d', (u' = None \/ d' = None) /\ d = (manifestsArrived u' d' opened).1) ->
       handleConfirm s t d (st1, b) = (writeEdgeData s t (mkEdgeData (Some []) (Some false)) st1, closeModals b)) /\
    (let ready := (manifestsArrived (Some up) (Some down) opened).1 in
     dg_upstream ready = Some up /\ dg_downstream ready = Some down /\ dg_candidates ready <> [] /\
     forall picks, (forall i o, (i, o) ∈ picks -> exists options, (i, options) ∈ dg_candidates ready /\ o ∈ options) ->
       let d := foldl pick_option ready picks in
       let confirmed := (handleConfirm s t d (st1, b)).1 in
       (forall i, (i, []) ∈ dg_candidates ready -> allInputsBound d = false) /\
       (allInputsBound d = false -> handleConfirm s t d (st1, b) = (st1, b)) /\
       (allInputsBound d = true -> exists bs,
          edgeData confirmed s t = Some (mkEdgeData (Some bs) (Some false)) /\
          Forall (compatible_pair (mf_outputs up ⁇ []) (mf_inputs down ⁇ [])) bs /\
          NoDup (bd_input <$> bs) /\
          (forall i, i ∈ bd_input <$> bs <-> i ∈ jm_keys (dg_candidates ready)) /\
          (forall x, x ∈ partial -> bd_input x ∉ bd_input <$> bs) /\
          (forall s' t', (s, t) <> (s', t') -> edgeData confirmed s' t' = edgeData later s' t'))) /\
    (resolverTarget b = Some (s, t) -> (handleResolverCancel (st1, b)).1 = disconnect s t st1).
Proof.
  intros Hload Hedge Hns Hnt Hrun opened.
  destruct (ambiguous_opens load named later s t st1 Hedge Hns Hnt Hrun)
    as (un & dn & up & down & cands & ds & ds' & partial & Hup & Hdown & Hres & Hst1 & Hmount & Hready).
  fold opened in Hmount, Hready.
  destruct (ambiguous_candidates up down cands ds ds' partial (Hload _ _ Hup) (Hload _ _ Hdown) Hres) as (Hnd & Hne & Hcands).
  assert (Hst1d : edgeData st1 s t = Some (mkEdgeData (Some partial) (Some true)))
    by (rewrite Hst1; by apply edgeData_write).
  exists un, dn, up, down, partial. do 3 (split; [done|]). split; [by rewrite Hmount|]. split; [|split].
  - intros d Hd. apply confirm_empty; destruct Hd as [->|(u' & d' & Hnone & ->)]; rewrite Hmount; try done;
      destruct Hnone as [->| ->]; try done; by destruct u'.
  - cbv zeta. rewrite Hready. simpl dg_upstream. simpl dg_downstream. simpl dg_candidates. split_and!; [done..|].
    intros picks Hpicks.
    by apply (ready_dialog up down partial cands ds ds' s t st1 later b picks Hcands Hnd Hpicks); [rewrite Hst1d|].
  - intros Hb. simpl. by rewrite Hb.
Qed.

(** ** The invariant of the page *)

Lemma consistent_alter_node st (g : Node -> Node) i :
  (forall n, n_id (g n) = n_id n) -> consistent st ->
  consistent (mkFlow (alter g i (nodes st)) (edges st) (pipelineMeta st)).
Proof.
  intros Hg Hst. apply (consistent_incl st); [done| |by left]. unfold node_ids. apply list_eq. intros j.
  rewrite !list_lookup_fmap. destruct (decide (i = j)) as [->|Hne].
  - rewrite list_lookup_alter_eq. destruct (nodes st !! j); [|done]. simpl. by rewrite Hg.
  - by rewrite list_lookup_alter_ne.
Qed.

Lemma consistent_ed_step s ev : consistent s.1 -> consistent (ed_step s ev).1.
Proof.
  destruct s as [st ed]. intros Hst. destruct ev as [item|m|key c text|]; simpl; [done| | |].
  - by destruct (initializeFormData _ _ _).
  - destruct (_ ≫= _) as [f|]; [|done]. destruct (ed_form ed) as [r|] eqn:Hr; [|done].
    case_bool_decide; [|done]. unfold updateField. rewrite ?Hr. destruct r as [id|n]; [|done].
    unfold writeArg. simpl. destruct (findIndex _ _); [|done]. by apply consistent_alter_node.
  - by destruct (ed_form ed).
Qed.

Lemma consistent_submit v7 rx ry s :
  (ed_targetId s.2 = None -> v7 ∉ node_ids s.1) -> consistent s.1 -> consistent (handleSubmit v7 rx ry s).
Proof.
  destruct s as [st ed]. simpl. intros Hv Hst. unfold handleSubmit.
  destruct (ed_targetId ed) as [id|]; [by apply consistent_update|].
  refine (edit_consistent st _ Hst (edit_add st v7 rx ry (mkNodeOpts _ _ (Some _) None None (Some v7)) _)).
  by apply Hv.
Qed.

Lemma consistent_disconnect st s t : consistent st -> consistent (disconnect s t st).
Proof. intros Hst. eapply edit_consistent; [exact Hst|apply edit_disconnect]. Qed.

Lemma consistent_finish load named s t st b :
  consistent st -> consistent (onConnect_finish load named s t (st, b)).1.
Proof.
  intros Hst. unfold onConnect_finish.
  assert (consistent (resolveAndApply load named st s t).1) as Hr.
  { unfold resolveAndApply. repeat case_match; simpl; try done; by apply consistent_write. }
  destruct (resolveAndApply load named st s t) as [st' outcome]. simpl in Hr.
  destruct outcome; try done. by apply consistent_disconnect.
Qed.

Lemma consistent_canvas st st' : canvas_edit st st' -> consistent st -> consistent st'.
Proof.
  intros [(kept & Hk & Hmoved) He Hr _] Hst.
  assert (Hids : node_ids st' `sublist_of` node_ids st).
  { assert (node_ids st' = n_id <$> kept) as ->; [|by apply fmap_sublist].
    unfold node_ids. clear Hk He Hr. symmetry. by induction Hmoved as [|n n' l l' [Hn _] _ IH]; [|simpl; rewrite Hn; f_equal]. }
  destruct (edges_ok_sublist st st' He (consistent_edges_ok st Hst)) as [Hnd Ht]. destruct Hst as [Hnn _ _ Hends]. split.
  - eapply sublist_NoDup; [exact Hnn|exact Hids].
  - done.
  - done.
  - apply Forall_forall. intros e Hin. rewrite Forall_forall in Hr, Hends. specialize (Hr e Hin).
    destruct (Hends e) as [Hs Htg]; [by eapply elem_of_sublist|]. split; apply Hr; auto.
Qed.

Lemma edges_ok_finish load named s t st b :
  edges_ok st -> edges_ok (onConnect_finish load named s t (st, b)).1.
Proof.
  intros Hst. unfold onConnect_finish.
  assert (edges_ok (resolveAndApply load named st s t).1) as Hr.
  { unfold resolveAndApply. repeat case_match; simpl; try done; by apply edges_ok_write. }
  destruct (resolveAndApply load named st s t) as [st' outcome]. simpl in Hr.
  destruct outcome; try done. by apply (edges_ok_sublist st'); [apply sublist_filter|].
Qed.

(** The editor's handlers leave the edges alone. *)
Lemma edges_ed_step s ev : edges (ed_step s ev).1 = edges s.1.
Proof.
  destruct s as [st ed]. destruct ev as [item|m|key c text|]; simpl; [done| | |].
  - by destruct (initializeFormData _ _ _).
  - destruct (_ ≫= _) as [f|]; [|done]. destruct (ed_form ed) as [r|] eqn:Hr; [|done].
    case_bool_decide; [|done]. unfold updateField. rewrite ?Hr. destruct r as [id|n]; [|done].
    unfold writeArg. simpl. by destruct (findIndex _ _).
  - by destruct (ed_form ed).
Qed.

Lemma edges_submit v7 rx ry s : edges (handleSubmit v7 rx ry s) = edges s.1.
Proof.
  destruct s as [st ed]. unfold handleSubmit. destruct (ed_targetId ed); [|done].
  unfold updateNode. by destruct (findIndex _ _).
Qed.

Definition valid_doc (doc : option Pipeline) : Prop :=
  forall pipe, doc = Some pipe -> validatePipeline pipe None = Valid.

Record page_inv (pg : EditorPage) : Prop := {
  pi_edges : edges_ok (pg_flow pg);
  pi_target : showResolver (pg_base pg) = true -> is_Some (resolverTarget (pg_base pg));
  pi_valid : valid_doc (pg_doc pg) -> consistent (pg_flow pg) }.

Lemma page_step_edges pg pg' : page_step pg pg' -> edges_ok (pg_flow pg) -> edges_ok (pg_flow pg').
Proof.
  intros Hstep Hst. destruct Hstep; cbn [pg_flow page] in *; try exact Hst.
  - apply (edges_ok_sublist st); [|done]. by apply ce_edges.
  - apply (edges_ok_sublist st); [by rewrite edges_ed_step|done].
  - apply (edges_ok_sublist st); [by rewrite edges_submit|done].
  - destruct confirmed; simpl; [|done]. apply (edges_ok_sublist st); [apply sublist_filter|done].
  - by apply edges_ok_connect.
  - by apply edges_ok_finish.
  - unfold handleConfirm. destruct (negb _); simpl; [done|]. by apply edges_ok_write.
  - unfold handleResolverCancel. destruct (resolverTarget b) as [[s t]|]; simpl; [|done].
    apply (edges_ok_sublist st); [apply sublist_filter|done].
  - unfold yamlToNodes in *. match goal with Hp : parse yaml = _ |- _ => rewrite Hp in * end.
    destruct (p_blocks pipe) as [blocks|]; [|done].
    match goal with Heq : modify _ _ = _ |- _ => injection Heq as <- end. apply edges_ok_import.
  - by apply (edges_ok_sublist st).
Qed.

Lemma page_step_target pg pg' :
  page_step pg pg' ->
  (showResolver (pg_base pg) = true -> is_Some (resolverTarget (pg_base pg))) ->
  showResolver (pg_base pg') = true -> is_Some (resolverTarget (pg_base pg')).
Proof.
  intros Hstep Hb. destruct Hstep; cbn [pg_base page] in *; try exact Hb; try done.
  - match goal with Ho : _ \/ _ |- _ => destruct Ho as [->|[-> | ->]] end; exact Hb.
  - match goal with Hd : dismiss _ _ |- _ => destruct Hd end; simpl in *; done.
  - by destruct confirmed.
  - unfold onConnect_finish. destruct (resolveAndApply load named st s t) as [st' []]; simpl; eauto.
  - by destruct ((manifestsArrived u d dg).2).
  - unfold handleConfirm. by destruct (negb _).
Qed.

Lemma page_step_valid pg pg' :
  page_step pg pg' -> (valid_doc (pg_doc pg) -> consistent (pg_flow pg)) ->
  valid_doc (pg_doc pg') -> consistent (pg_flow pg').
Proof.
  intros Hstep Hst Hdoc. destruct Hstep; cbn [pg_flow pg_doc page] in *; try (specialize (Hst Hdoc)); try done.
  - by eapply consistent_canvas.
  - by apply (consistent_ed_step (st, ed)).
  - by apply (consistent_submit v7 rx ry (st, ed)).
  - destruct confirmed; simpl; [by apply consistent_remove|done].
  - by apply consistent_connect.
  - by apply consistent_finish.
  - unfold handleConfirm. destruct (negb _); simpl; [done|]. by apply consistent_write.
  - unfold handleResolverCancel. destruct (resolverTarget b) as [[s t]|]; simpl; [by apply consistent_disconnect|done].
  - specialize (Hdoc pipe eq_refl). apply validatePipeline_WellFormed in Hdoc.
    unfold yamlToNodes in *. match goal with Hp : parse yaml = _ |- _ => rewrite Hp in * end.
    destruct (p_blocks pipe) as [blocks|]; [|done].
    match goal with Heq : modify _ _ = _ |- _ => injection Heq as <- end. by apply consistent_import.
  - apply (consistent_incl st); auto.
Qed.

Lemma page_reach pg : rtc page_step initial_page pg -> page_inv pg.
Proof.
  assert (H0 : page_inv initial_page) by (split; [repeat constructor|done|intros _; apply consistent_initial]).
  intros Hreach. induction Hreach as [|pg1 pg2 pg3 Hstep _ IH]; [done|]. apply IH. destruct H0. split.
  - by eapply page_step_edges.
  - by eapply page_step_target.
  - by eapply page_step_valid.
Qed.

(** C21. The editor page.  In every state the page reaches, whatever the order of clicks,
    form changes, edits on the canvas, manifests that arrive, dialogs opened or dismissed
    and documents imported: every edge carries the id composed of its ends, two nodes
    are joined by at most one edge, and an open resolver has a target.  When moreover
    the document imported last, if any, passes validation (the import dialog accepts any
    document), node ids are distinct, every edge joins two drawn nodes, and the
    edges that block saving and submitting are those some drawn card shows as unresolved. *)
Theorem editor_page_invariant pg :
  rtc page_step initial_page pg ->
  Forall (fun e => e_id e = edge_id (e_source e) (e_target e)) (edges (pg_flow pg)) /\
  (forall e1 e2, e1 ∈ edges (pg_flow pg) -> e2 ∈ edges (pg_flow pg) ->
     e_source e1 = e_source e2 -> e_target e1 = e_target e2 -> e1 = e2) /\
  (showResolver (pg_base pg) = true -> is_Some (resolverTarget (pg_base pg))) /\
  (valid_doc (pg_doc pg) ->
     consistent (pg_flow pg) /\
     (unresolved_edges (pg_flow pg) = true <->
        exists id, id ∈ node_ids (pg_flow pg) /\ hasUnresolved (pg_flow pg) id = true)).
Proof.
  intros Hreach. destruct (page_reach pg Hreach) as [Hok Hb Hvalid].
  split; [apply Hok|]. split; [intros e1 e2; by apply edges_ok_unique|]. split; [done|].
  intros Hdoc. specialize (Hvalid Hdoc). split; [done|].
  destruct Hvalid as [_ _ _ Hends]. rewrite Forall_forall in Hends.
  unfold unresolved_edges, hasUnresolvedEdges, hasUnresolved. rewrite js_some_true. split.
  - intros (d & (e & -> & He)%list_elem_of_fmap & Hu). exists (e_source e). split; [by apply Hends|].
    apply js_some_true. exists e. by rewrite Hu, eqb_refl_js.
  - intros (id & _ & Hu). apply js_some_true in Hu as (e & He & Hu). bool_prop.
    exists (e_data e). split; [by apply list_elem_of_fmap_2|done].
Qed.
