(* ===== verification/Polling.v ===== *)
(** * The result pages and their polling

    ([web_ui/pages/results/index.vue] and [web_ui/pages/results/[id].vue].)
    Both pages hold the last answer of a [useFetch], watch whether it is still in
    flight, and keep an interval running exactly while it is. *)

From S2P Require Export ClientSpec Access.

(** ** The watcher and its timer *)

(** [po_timer] is the variable [timer]; [po_live] are the intervals the browser is
    running and [po_next] the handle of the next one. *)
Record Poll (D : Type) := mkPoll {
  po_data : D; po_timer : option nat; po_live : list nat; po_next : nat; po_mounted : bool }.
Arguments mkPoll {D}. Arguments po_data {D}. Arguments po_timer {D}. Arguments po_live {D}.
Arguments po_next {D}. Arguments po_mounted {D}.

Section Polling.
Context {D : Type} (active : D -> bool).

(** The callback of [watch]. *)
Definition watched (now_active : bool) (p : Poll D) : Poll D :=
  match now_active, po_timer p with
  | true, None =>
      mkPoll (po_data p) (Some (po_next p)) (po_next p :: po_live p) (S (po_next p)) (po_mounted p)
  | false, Some t =>
      mkPoll (po_data p) None (filter (fun x => x <> t) (po_live p)) (po_next p) (po_mounted p)
  | _, _ => p
  end.

(** Setup, with the first answer; the watcher runs at once ([immediate]). *)
Definition mountPoll (d : D) : Poll D := watched (active d) (mkPoll d None [] 0 true).

(** An answer arrives: the watcher runs when the watched value changed. *)
Definition arrive (d : D) (p : Poll D) : Poll D :=
  let p' := mkPoll d (po_timer p) (po_live p) (po_next p) (po_mounted p) in
  if negb (po_mounted p) || (active d === active (po_data p)) then p' else watched (active d) p'.

(** [onUnmounted]: the watcher stops, the interval is cleared. *)
Definition unmountPoll (p : Poll D) : Poll D :=
  mkPoll (po_data p) (po_timer p)
    (match po_timer p with Some t => filter (fun x => x <> t) (po_live p) | None => po_live p end)
    (po_next p) false.

(** ** The invariant *)

Record poll_inv (p : Poll D) : Prop := {
  pi_live : po_live p = if po_mounted p then match po_timer p with Some t => [t] | None => [] end else [];
  pi_timer : po_mounted p = true -> (is_Some (po_timer p) <-> active (po_data p) = true) }.

Lemma watched_inv b p :
  po_mounted p = true -> po_live p = (match po_timer p with Some t => [t] | None => [] end) ->
  active (po_data p) = b -> poll_inv (watched b p).
Proof.
  intros Hm Hl Hb. unfold watched. destruct b, (po_timer p) as [t|] eqn:Ht.
  - split; rewrite ?Hm, ?Ht; [done|]. intros _. split; eauto.
  - split; simpl; rewrite ?Hm, ?Hl; [done|]. intros _. split; eauto.
  - split; simpl; rewrite ?Hm, ?Hl.
    + rewrite filter_cons_False by auto. done.
    + intros _. split; [by intros [? ?]|congruence].
  - split; rewrite ?Hm, ?Ht; [done|]. intros _. split; [by intros [? ?]|congruence].
Qed.

Lemma mount_inv d : poll_inv (mountPoll d).
Proof. by apply watched_inv. Qed.

Lemma arrive_inv d p : poll_inv p -> poll_inv (arrive d p).
Proof.
  intros [Hl Ht]. unfold arrive. destruct (po_mounted p) eqn:Hm; simpl.
  - case_bool_decide as Heq.
    + split; simpl; [done|]. intros _. rewrite Heq. by apply Ht.
    + by apply watched_inv.
  - split; simpl; done.
Qed.

Lemma unmount_inv p : poll_inv p -> poll_inv (unmountPoll p).
Proof.
  intros [Hl Ht]. split; simpl; [|done]. rewrite Hl. destruct (po_mounted p); destruct (po_timer p); try done.
  by rewrite filter_cons_False by auto.
Qed.

(** ** Executions *)

(** What happens to the page: the answer to a refresh handled in state [k] of the
    server arrives, a refresh sent in state [k] fails, the user leaves, or something
    else happens. *)
Inductive PollEvent := Arrived (k : nat) | Failed_refresh (k : nat) | Left_page | Elsewhere.

Definition refresh_state (e : PollEvent) : option nat :=
  match e with Arrived k | Failed_refresh k => Some k | _ => None end.

(** The page over time; [answer k] is what the server in state [k] answers, [default] the
    data after a failure. *)
Record execution (default : D) (answer : nat -> D) (ev : nat -> PollEvent) (page : nat -> Poll D) : Prop := {
  ex_start : exists d, page 0 = mountPoll d;
  ex_step n : page (S n) =
    match ev n with
    | Arrived k => arrive (answer k) (page n)
    | Failed_refresh _ => arrive default (page n)
    | Left_page => unmountPoll (page n)
    | Elsewhere => page n
    end;
  (** a newer refresh cancels an older one, so they end in order *)
  ex_order i j k k' : i < j -> refresh_state (ev i) = Some k -> refresh_state (ev j) = Some k' -> k <= k';
  (** while the interval runs, a refresh is sent and is answered or fails, unless the user leaves *)
  ex_fair n : po_live (page n) <> [] ->
    exists m, n <= m /\ (ev m = Left_page \/ exists k, n <= k /\ refresh_state (ev m) = Some k) }.

Section Executions.
Context (default : D) (answer : nat -> D) (ev : nat -> PollEvent) (page : nat -> Poll D).
Context (Hex : execution default answer ev page).

Lemma page_inv_all n : poll_inv (page n).
Proof.
  induction n as [|n IH].
  - destruct (ex_start _ _ _ _ Hex) as [d ->]. apply mount_inv.
  - rewrite (ex_step _ _ _ _ Hex). destruct (ev n); [by apply arrive_inv|by apply arrive_inv|by apply unmount_inv|done].
Qed.

Lemma arrive_data d p : po_data (arrive d p) = d.
Proof.
  unfold arrive, watched. destruct (negb _ || _); [done|]. simpl.
  destruct (active d), (po_timer p); done.
Qed.

Lemma arrive_mounted d p : po_mounted (arrive d p) = po_mounted p.
Proof.
  unfold arrive, watched. destruct (negb _ || _); [done|]. simpl.
  destruct (active d), (po_timer p); done.
Qed.

Lemma unmounted_stays n m : n <= m -> po_mounted (page n) = false -> po_mounted (page m) = false.
Proof.
  induction 1 as [|m _ IH]; [done|]. intros Hn. rewrite (ex_step _ _ _ _ Hex).
  destruct (ev m); [rewrite arrive_mounted; by apply IH|rewrite arrive_mounted; by apply IH|done|by apply IH].
Qed.

Lemma unmounted_dead n : po_mounted (page n) = false -> po_live (page n) = [].
Proof. intros Hm. destruct (page_inv_all n) as [-> _]. by rewrite Hm. Qed.

(** The data is an answer from [N] on, or that of a failed refresh. *)
Definition data_from (N n : nat) (d : D) : Prop :=
  (exists k, N <= k /\ d = answer k) \/ d = default /\ exists i k, i < n /\ ev i = Failed_refresh k.

(** Once a refresh of a final state has ended, only final answers arrive. *)
Lemma final_stays N m k :
  (forall k, N <= k -> active (answer k) = false) -> active default = false ->
  N <= k -> refresh_state (ev m) = Some k ->
  forall n, m < n -> active (po_data (page n)) = false /\ data_from N n (po_data (page n)).
Proof.
  intros Hfin Hdef Hk Hm.
  assert (Hend : forall n k', refresh_state (ev n) = Some k' -> N <= k' ->
    active (po_data (page (S n))) = false /\ data_from N (S n) (po_data (page (S n)))).
  { intros n k' Hn Hk'. rewrite (ex_step _ _ _ _ Hex). destruct (ev n) as [k0|k0| |] eqn:Hev; try done;
      injection Hn as ->; rewrite arrive_data.
    - split; [by apply Hfin|]. left. eauto.
    - split; [done|]. right. split; [done|]. exists n, k'. split; [lia|done]. }
  intros n Hn. induction Hn as [|n Hn IH]; [by apply (Hend m k)|].
  destruct (refresh_state (ev n)) as [k'|] eqn:Hev.
  - apply (Hend n k'); [done|]. assert (k <= k') by (eapply (ex_order _ _ _ _ Hex m n); done). lia.
  - assert (po_data (page (S n)) = po_data (page n)) as -> by (rewrite (ex_step _ _ _ _ Hex); by destruct (ev n)).
    destruct IH as [Ha Hd]. split; [done|]. destruct Hd as [Hd|(Hd & i & k' & Hi & He)]; [by left|].
    right. split; [done|]. exists i, k'. split; [lia|done].
Qed.

(** Polling stops: when the server's answers are final from [N] on, an interval that
    runs at some later time is stopped for good, and a page that is still open then
    shows a final answer, or that its last refresh failed. *)
Lemma polling_stops N n :
  (forall k, N <= k -> active (answer k) = false) -> active default = false -> N <= n -> po_live (page n) <> [] ->
  exists m, n <= m /\ forall n', m <= n' ->
    po_live (page n') = [] /\
    (po_mounted (page n') = true -> active (po_data (page n')) = false /\ data_from N n' (po_data (page n'))).
Proof.
  intros Hfin Hdef HN Hlive. destruct (ex_fair _ _ _ _ Hex n Hlive) as (m & Hm & [Hleft|(k & Hk & Harr)]).
  - exists (S m). split; [lia|]. intros n' Hn'.
    assert (po_mounted (page n') = false) as Hdead.
    { apply (unmounted_stays (S m)); [done|]. by rewrite (ex_step _ _ _ _ Hex), Hleft. }
    split; [by apply unmounted_dead|congruence].
  - exists (S m). split; [lia|]. intros n' Hn'.
    destruct (final_stays N m k Hfin Hdef ltac:(lia) Harr n' ltac:(lia)) as [Hna Hd].
    split; [|done]. destruct (page_inv_all n') as [-> Ht]. destruct (po_mounted (page n')) eqn:Hmount; [|done].
    destruct (po_timer (page n')) as [t|]; [|done]. destruct (Ht eq_refl) as [Hact _].
    by rewrite Hact in Hna.
Qed.
End Executions.
End Polling.

(** ** The pages *)

(** [useFetch] of a run: its data, or nothing when the request fails. *)
Definition inFlight (r : option RunWithDetails) : bool :=
  match r with
  | Some d => (rn_status (run d) === Queued) || (rn_status (run d) === Running)
  | None => false
  end.

Definition hasActive (runs : list RunRow) : bool :=
  js_some (fun r => (rn_status r === Queued) || (rn_status r === Running)) runs.

Definition statusBadge (s : option RunStatus) : string * string :=
  match s with
  | Some Succeeded => ("green", "Succeeded")
  | Some Failed => ("red", "Failed")
  | Some Running => ("blue", "Running")
  | Some Canceled => ("gray", "Canceled")
  | _ => ("yellow", "Queued")
  end.

Definition isOwner (r : option RunWithDetails) (user : option SessionUser) : bool :=
  match r with
  | Some d => match user with Some u => u_id u === rn_ownerId (run d) | None => false end
  | None => false
  end.

Record SharePanel := mkSharePanel { sp_email : string; sp_busy : bool; sp_msg : option string }.

Section RunPage.
Context {DB : Type} `{Sql DB} {env : Env} {cfg : RouterConfig} {net : ClientEnv}.

(** What a refresh of the run page yields in a state of the server. *)
Definition run_answer (session : option SessionUser) (id : string) (w : World DB) : option RunWithDetails :=
  match (handle session (GetRun (Some id)) w).2 with
  | Ok (RRunDetails d) => Some d
  | _ => None
  end.

Abbreviation Browser := (M (Client DB (SharePanel * option RunWithDetails)) JsError).

Definition set_panel (f : SharePanel -> SharePanel) : Browser unit := set_page (fun p => (f p.1, p.2)).

(** [setVisibility]: the update, then a refresh of the page's data. *)
Definition setVisibility (session : option SessionUser) (id : string) (v : Visibility) : Browser unit :=
  _ ← fetch session (PutRun (Some id) (Some v));
  try_catch
    (r ← fetch session (GetRun (Some id));
     d ← expect (fun r => match r with RRunDetails d => Some d | _ => None end) r;
     set_page (fun p => (p.1, Some d)))
    (fun _ => set_page (fun p => (p.1, None))).

Definition shareWith (session : option SessionUser) (id : string) : Browser unit :=
  c ← get_state;
  let email := sp_email (cl_page c).1 in
  if negb (truthy email) then mret tt
  else
    _ ← set_panel (fun p => mkSharePanel (sp_email p) true None);
    try_finally
      (_ ← fetch session (ShareRun (Some id) (Some email) None);
       set_panel (fun p => mkSharePanel "" (sp_busy p) (Some ("Shared with " +:+ email))))
      (fun e p => (mkSharePanel (sp_email p.1) (sp_busy p.1) (Some (nullish_message e "Could not share")), p.2))
      (fun p => (mkSharePanel (sp_email p.1) false (sp_msg p.1), p.2)).
End RunPage.

(** ** The run page against the server *)

Section Against.
Context {DB : Type} `{SqlLaws DB} {env : Env} {cfg : RouterConfig}.

Lemma run_answer_final user id w :
  keys_ok (db_rows (w_db w)) ->
  (forall r, r ∈ rows (db_rows (w_db w)) TRuns -> rn_id r = id -> RunRepo.finished (rn_status r) = true) ->
  inFlight (run_answer (Some user) id w) = false.
Proof.
  intros Hk Hfin. unfold run_answer.
  destruct (handle (Some user) (GetRun (Some id)) w) as [w' [resp|e]] eqn:Hrun; [|done]. simpl.
  apply respond_inv in Hrun as (d & Hrun & ->). apply (get_row_inv user) in Hrun as (i & Hi & Hget & _).
  injection Hi as <-. unfold RunRepo.getWithDetails in Hget.
  destruct (getByIdForUser id (u_id user) (w_db w)) as [r|] eqn:E; [|done]. injection Hget as <-.
  destruct (run_reads (w_db w) Hk) as [Hg _ _ _]. apply Hg in E as (Hr & Hid & _). simpl.
  specialize (Hfin r Hr Hid). by destruct (rn_status r).
Qed.

(** C23. The run page stops polling.  Take any execution of the page of a run, with a
    server that changes meanwhile in any way: at all times the page runs one interval
    while the run it shows is queued or running, and none otherwise or after it was
    left.  If from some time on every stored run of this id is finished, then an
    interval that is still running is stopped for good, provided a refresh that is
    sent while it runs eventually ends; and a page that is still open then shows
    no longer a running run, but an answer given after the run had finished, unless a
    refresh failed, after which it shows none. *)
Theorem run_page_stops user id (server : nat -> World DB) ev page N :
  execution inFlight None (fun k => run_answer (Some user) id (server k)) ev page ->
  (forall k, keys_ok (db_rows (w_db (server k)))) ->
  (forall k r, N <= k -> r ∈ rows (db_rows (w_db (server k))) TRuns -> rn_id r = id ->
     RunRepo.finished (rn_status r) = true) ->
  (forall n, length (po_live (page n)) = if po_mounted (page n) && inFlight (po_data (page n)) then 1 else 0) /\
  forall n, N <= n -> po_live (page n) <> [] ->
    exists m, n <= m /\ forall n', m <= n' ->
      po_live (page n') = [] /\
      (po_mounted (page n') = true -> inFlight (po_data (page n')) = false /\
         ((exists k, N <= k /\ po_data (page n') = run_answer (Some user) id (server k)) \/
          po_data (page n') = None /\ exists i k, i < n' /\ ev i = Failed_refresh k)).
Proof.
  intros Hex Hk Hfin.
  assert (Hans : forall k, N <= k -> inFlight (run_answer (Some user) id (server k)) = false).
  { intros k HN. apply run_answer_final; [done|]. intros r. by apply Hfin. }
  split.
  - intros n. destruct (page_inv_all inFlight _ _ ev page Hex n) as [-> Ht].
    destruct (po_mounted (page n)); [|done]. specialize (Ht eq_refl). simpl.
    destruct (po_timer (page n)) as [t|]; destruct (inFlight (po_data (page n))); try done.
    + by specialize (proj1 Ht (mk_is_Some _ _ eq_refl)).
    + by destruct (proj2 Ht eq_refl) as [? ?].
  - intros n HN Hlive. by apply (polling_stops inFlight None _ ev page Hex N n Hans).
Qed.
End Against.
