(* ===== verification/Callback.v ===== *)
(** * The worker's callback among other requests

    [PATCH /api/runs/:id] ([web_ui/server/api/runs/[id]/index.patch.ts]) waits for the
    database once per file, once per log and once for the status, and other requests
    are served meanwhile.  Here the handler is the list of these steps, and an
    execution interleaves them with the requests of users; a run that shows a final
    status has everything the callback brought, in particular on a page that has
    stopped polling. *)

From S2P Require Export Polling.

(** ** What requests of users do to the status of runs *)

(** Runs stay, with their status; a new run has a new id. *)
Record statuses (c c' : contents) : Prop := {
  st_stay r : r ∈ rows c TRuns -> exists r', r' ∈ rows c' TRuns /\ rn_id r' = rn_id r;
  st_from r' : r' ∈ rows c' TRuns ->
    (exists r, r ∈ rows c TRuns /\ rn_id r = rn_id r' /\ rn_status r = rn_status r') \/
    (forall r, r ∈ rows c TRuns -> rn_id r <> rn_id r') }.

Lemma statuses_same c c' : rows c' TRuns ≡ₚ rows c TRuns -> statuses c c'.
Proof.
  intros Hs. split.
  - intros r Hr. exists r. by rewrite Hs.
  - intros r Hr. left. exists r. by rewrite <-Hs.
Qed.

Lemma statuses_fmap c c' (f : RunRow -> RunRow) :
  (forall r, rn_id (f r) = rn_id r /\ rn_status (f r) = rn_status r) ->
  rows c' TRuns ≡ₚ f <$> rows c TRuns -> statuses c c'.
Proof.
  intros Hf Hs. split.
  - intros r Hr. exists (f r). rewrite Hs. split; [by apply list_elem_of_fmap_2 | apply Hf].
  - intros r'. rewrite Hs. intros (r & -> & Hr)%list_elem_of_fmap. left. exists r.
    destruct (Hf r) as [-> ->]. done.
Qed.

Section Operations.
Context {DB : Type} `{SqlLaws DB}.
Implicit Types db : DB.

(** An operation that keeps the statuses, on a database that satisfies its constraints. *)
Definition OpStatus {A} (op : DB -> DB * result string A) : Prop :=
  forall db db' r, keys_ok (db_rows db) -> op db = (db', r) -> statuses (db_rows db) (db_rows db').

Lemma insert_status t r : t <> TRuns -> OpStatus (sql_insert t r).
Proof.
  intros Ht db db' o _ Hrun. apply statuses_same.
  destruct (insert_outcome t r db) as [(db1 & Hi & Hs)|(e & Hi)]; rewrite Hi in Hrun; simplify_eq; [|done].
  by rewrite (Hs TRuns), rows_set_ne.
Qed.

Lemma run_create_status now input : OpStatus (RunRepo.create now input).
Proof.
  intros db db' o _. unfold RunRepo.create. match goal with |- context [sql_insert TRuns ?r _] => set (r0 := r) end.
  intros Hrun. destruct (js_some (conflict TRuns r0) (rows (db_rows db) TRuns)) eqn:Hc.
  { destruct (law_insert_error TRuns r0 db) as [e He]; [by left|]. rewrite He in Hrun. simplify_eq. by apply statuses_same. }
  destruct (insert_outcome TRuns r0 db) as [(db1 & Hi & Hs)|(e & Hi)]; rewrite Hi in Hrun; simplify_eq; [|by apply statuses_same].
  assert (Hin : forall r, r ∈ rows (db_rows db') TRuns <-> r ∈ rows (db_rows db) TRuns \/ r = r0).
  { intros r. rewrite (Hs TRuns), rows_set_eq. by rewrite elem_of_app, list_elem_of_singleton. }
  rewrite js_some_false in Hc. split; intros r.
  - intros Hr. exists r. rewrite Hin. auto.
  - intros [Hr| ->]%Hin; [left; eauto|right]. intros x Hx. specialize (Hc x Hx).
    simpl in Hc. bool_prop. simpl. congruence.
Qed.

Lemma update_status {A} t (p : row t -> bool) f (k : list (row t) -> A) :
  (forall c c', rows c' t ≡ₚ (fun x => if p x then f x else x) <$> rows c t -> (t <> TRuns -> rows c' TRuns ≡ₚ rows c TRuns) ->
     statuses c c') ->
  OpStatus (fun db => match sql_update t p f db with
                      | (db', Ok out) => (db', Ok (k out))
                      | (db', Throw e) => (db', Throw e)
                      end).
Proof.
  intros Hf db db' o _ Hrun. pose proof (law_update t p f db) as Hl.
  destruct (sql_update t p f db) as [db1 [out|e]]; simplify_eq; [|by apply statuses_same].
  destruct Hl as [_ Hs]. apply Hf; [by rewrite (Hs t), rows_set_eq|]. intros Ht. by rewrite (Hs TRuns), rows_set_ne.
Qed.

Lemma pipeline_update_status now id u patch : OpStatus (PipelineRepo.update now id u patch).
Proof. apply (update_status TPipelines _ _ head). intros c c' _ Hs. by apply statuses_same, Hs. Qed.

Lemma run_visibility_status now id u vis : OpStatus (RunRepo.setVisibility now id u vis).
Proof.
  apply (update_status TRuns _ _ head). intros c c' Hs _. eapply statuses_fmap; [|exact Hs].
  intros r. simpl. by destruct (_ && _).
Qed.

Lemma pipeline_delete_status id u : OpStatus (PipelineRepo.delete id u).
Proof.
  intros db db' o _ Hrun. unfold PipelineRepo.delete in Hrun.
  destruct (law_delete TPipelines (fun y => (pl_id y === id) && (pl_ownerId y === u)) db) as (db1 & out & Hd & _ & Hs); [done|].
  rewrite Hd in Hrun. injection Hrun as <- _. eapply statuses_fmap.
  2:{ rewrite (Hs TRuns). cbn [cascade]. rewrite rows_set_eq, (rows_set_ne TPipelines) by done. reflexivity. }
  intros r. unfold unlink_run. destruct (rn_pipelineId r); [|done]. by case_match.
Qed.

Lemma dataFile_delete_status id u : OpStatus (DataFileRepo.delete id u).
Proof.
  intros db db' o _ Hrun. unfold DataFileRepo.delete in Hrun.
  destruct (law_delete TDataFiles (fun y => (df_id y === id) && (df_ownerId y === u)) db) as (db1 & out & Hd & _ & Hs); [done|].
  rewrite Hd in Hrun. injection Hrun as <- _. apply statuses_same. rewrite (Hs TRuns). cbn [cascade].
  by rewrite !rows_set_ne by done.
Qed.

Lemma share_status {R : Resource} {RL : ResourceLaws R} now id u v perm :
  r_shares <> TRuns -> OpStatus (acl_share (R := R) now id u v perm).
Proof.
  intros Ht db db' res Hk Hrun. apply statuses_same.
  destruct (acl_share_foreign now id u v perm db db' res Hk Hrun) as [Honly _]. by apply Honly.
Qed.

Lemma unshare_status {R : Resource} {RL : ResourceLaws R} id u v :
  (forall c l, cascade r_shares c l = c) -> r_shares <> TUsers -> r_shares <> TRuns -> OpStatus (acl_unshare (R := R) id u v).
Proof.
  intros Hc Hu Ht db db' res _ Hrun. apply statuses_same.
  destruct (acl_unshare_foreign id u v db db' res Hc Hu Hrun) as [Honly _]. by apply Honly.
Qed.

Lemma block_upsert_status t0 t1 label mf : OpStatus (BlockRepo.upsert t0 t1 label mf).
Proof.
  intros db db' res Hk Hrun. apply statuses_same. unfold BlockRepo.upsert in Hrun.
  set (target := fun a b : row TBlocks => bk_name a === bk_name b) in *. set (new := new_block t0 t1 label mf) in *.
  change (sql_upsert TBlocks target new (replace_block new) db = (db', res)) in Hrun.
  destruct (js_some (fun x => target x new) (rows (db_rows db) TBlocks)) eqn:E.
  - apply js_some_true in E as (old & Hold & Hm).
    destruct (law_upsert_update TBlocks target new (replace_block new) db old) as (db1 & Hup & Hs); try done.
    { intros a b Ha Hb. unfold target in *. bool_prop. simpl. rewrite Ha, Hb, eqb_refl_js. apply orb_true_r. }
    rewrite Hup in Hrun. simplify_eq. by rewrite (Hs TRuns), rows_set_ne.
  - rewrite law_upsert_insert in Hrun by done.
    destruct (insert_outcome TBlocks new db) as [(db1 & Hi & Hs)|(e & Hi)]; rewrite Hi in Hrun; simplify_eq; [|done].
    by rewrite (Hs TRuns), rows_set_ne.
Qed.
End Operations.

Section Handlers.
Context {DB : Type} `{SqlLaws DB} {env : Env} {cfg : RouterConfig}.
Implicit Types w : World DB.

Definition KeepsStatus {A} (m : M (World DB) HttpError A) : Prop :=
  forall w w' r, keys_ok (db_rows (w_db w)) -> m w = (w', r) -> statuses (db_rows (w_db w)) (db_rows (w_db w')).

Lemma status_pure {A} (m : M (World DB) HttpError A) : PureStep m -> KeepsStatus m.
Proof. intros Hm w w' r _ Hrun. destruct (Hm w w' r Hrun) as [-> _]. by apply statuses_same. Qed.

Lemma status_bind_l {A B} (m : M (World DB) HttpError A) (k : A -> M (World DB) HttpError B) :
  PureStep m -> (forall a, KeepsStatus (k a)) -> KeepsStatus (m ≫= k).
Proof.
  intros Hm Hk w w' r Hkeys. rewrite run_bind. destruct (m w) as [w1 [a|e]] eqn:E; intros Hr;
    destruct (Hm w w1 _ E) as [Hdb _].
  - rewrite <-Hdb in *. by eapply Hk.
  - injection Hr as <- _. rewrite Hdb. by apply statuses_same.
Qed.

Lemma status_bind_r {A B} (m : M (World DB) HttpError A) (k : A -> M (World DB) HttpError B) :
  KeepsStatus m -> (forall a w w' r, k a w = (w', r) -> w_db w' = w_db w) -> KeepsStatus (m ≫= k).
Proof.
  intros Hm Hk w w' r Hkeys. rewrite run_bind. destruct (m w) as [w1 [a|e]] eqn:E; intros Hr.
  - rewrite (Hk a w1 w' r Hr). by eapply Hm.
  - injection Hr as <- _. by eapply Hm.
Qed.

Lemma pure_db {A} (m : M (World DB) HttpError A) w w' r : PureStep m -> m w = (w', r) -> w_db w' = w_db w.
Proof. intros Hm Hrun. by destruct (Hm w w' r Hrun). Qed.

Lemma status_write {A} (op : DB -> DB * result string A) : OpStatus op -> KeepsStatus (write op).
Proof.
  intros Hop w w' r Hk. unfold write. destruct (op (w_db w)) as [db' o] eqn:E. intros Heq. simplify_eq/=.
  by eapply Hop.
Qed.
End Handlers.

#[export] Hint Resolve run_create_status pipeline_update_status run_visibility_status pipeline_delete_status
  dataFile_delete_status block_upsert_status : spade.

Ltac status_step := repeat first
  [ apply status_pure; solve [pure_step]
  | apply status_bind_l; [solve [pure_step] | intros ?]
  | apply status_bind_r; [|intros ? ? ? ?; apply pure_db; solve [pure_step]]
  | apply status_write; solve [auto with spade]
  | case_match ].

Section Requests.
Context {DB : Type} `{SqlLaws DB} {env : Env} {cfg : RouterConfig}.
Implicit Types w : World DB.

Lemma pipeline_share_status now id u v perm : OpStatus (DB := DB) (PipelineRepo.share now id u v perm).
Proof. by apply (share_status (R := pipeline_resource)). Qed.
Lemma dataFile_share_status now id u v perm : OpStatus (DB := DB) (DataFileRepo.share now id u v perm).
Proof. by apply (share_status (R := dataFile_resource)). Qed.
Lemma run_share_status now id u v perm : OpStatus (DB := DB) (RunRepo.share now id u v perm).
Proof. by apply (share_status (R := run_resource)). Qed.
Lemma pipeline_unshare_status id u v : OpStatus (DB := DB) (PipelineRepo.unshare id u v).
Proof. by apply (unshare_status (R := pipeline_resource)). Qed.
Lemma run_unshare_status id u v : OpStatus (DB := DB) (RunRepo.unshare id u v).
Proof. by apply (unshare_status (R := run_resource)). Qed.
Lemma pipeline_create_status now input : OpStatus (DB := DB) (PipelineRepo.create now input).
Proof. by refine (insert_status TPipelines _ _). Qed.
Lemma dataFile_create_status now input : OpStatus (DB := DB) (DataFileRepo.create now input).
Proof. by refine (insert_status TDataFiles _ _). Qed.

#[local] Hint Resolve pipeline_share_status dataFile_share_status run_share_status pipeline_unshare_status
  run_unshare_status pipeline_create_status dataFile_create_status : spade.

Lemma delete_data_status session id : KeepsStatus (delete_data (DB := DB) session id).
Proof.
  unfold delete_data. do 2 (apply status_bind_l; [solve [pure_step]|intros ?]).
  apply status_bind_r; [status_step|]. intros found w w' r. unfold orThrow.
  destruct found as [d|]; [|intros Hr; by injection Hr as <- _]. rewrite run_bind, run_ret.
  unfold try_catch, s3_delete. destruct (s3_delete_fails _); intros Hr; by injection Hr as <- _.
Qed.

(** No request of a user changes the status of a run, or takes a run away. *)
Lemma handle_status session req : from_worker req = false -> KeepsStatus (handle (DB := DB) session req).
Proof.
  intros Hw. destruct req; try discriminate Hw; unfold handle, done, respond;
    (apply status_bind_r; [|intros ? ? ? ? Hr; by injection Hr as <- _]).
  all: try apply delete_data_status.
  all: unfold submit, list_runs, get_run, get_file, get_zip, put_run, share_run, unshare_run, create_pipeline,
    list_pipelines, get_pipeline, put_pipeline, delete_pipeline, share_pipeline, unshare_pipeline,
    list_data, get_data, share_data, upload_init, upload_complete, list_blocks, get_block,
    submit_source, upload_block, upload_manifest.
  all: status_step.
Qed.
End Requests.

(** ** The steps of the callback *)

Inductive callback_step :=
  | AppendFile (e : option FileEntry)
  | AppendLog (e : option LogEntry)
  | SetStatus (status : RunStatus).

Section Callback.
Context {DB : Type} `{SqlLaws DB} {env : Env} {cfg : RouterConfig}.
Context (text_le_total : forall a b, text_le a b = true \/ text_le b a = true).
Context (text_le_trans : forall a b c, text_le a b = true -> text_le b c = true -> text_le a c = true).
Implicit Types w : World DB.
Context (id : string) (body : option PatchBody).

Definition do_step (s : callback_step) : M (World DB) HttpError unit :=
  match s with
  | AppendFile e => append_entry id e
  | AppendLog e => append_log id e
  | SetStatus status =>
      t0 ← now; t1 ← now; t2 ← now;
      _ ← write (RunRepo.updateStatus t0 t1 t2 id status (Some <$> (body ≫= pb_error)));
      mret tt
  end.

Definition body_files : list (option FileEntry) := (body ≫= pb_files) ⁇ [].
Definition body_logs : list (option LogEntry) := (body ≫= pb_logs) ⁇ [].

Definition callback_steps : list callback_step :=
  (AppendFile <$> body_files) ++ (AppendLog <$> body_logs) ++
  match body ≫= pb_status with Some status => [SetStatus status] | None => [] end.

(** The steps, one after the other, are the handler behind its checks. *)
Lemma forM_fmap {A B} (g : A -> B) (l : list A) (f : B -> M (World DB) HttpError unit) w :
  forM (g <$> l) f w = forM l (fun x => f (g x)) w.
Proof.
  revert w. induction l as [|x l IH]; intros w; [done|]. simpl. rewrite !run_bind.
  destruct (f (g x) w) as [w1 [[]|e]]; [|done]. by rewrite IH.
Qed.

Lemma forM_steps w :
  forM callback_steps do_step w =
    (forM body_files (append_entry id) ≫= fun _ => forM body_logs (append_log id) ≫= fun _ =>
     match body ≫= pb_status with Some status => do_step (SetStatus status) | None => mret tt end) w.
Proof.
  unfold callback_steps. rewrite forM_app, !run_bind, forM_fmap.
  change (fun x => do_step (AppendFile x)) with (append_entry (DB := DB) id).
  destruct (forM body_files (append_entry id) w) as [w1 [[]|e]]; [|done].
  rewrite forM_app, !run_bind, forM_fmap.
  change (fun x => do_step (AppendLog x)) with (append_log (DB := DB) id).
  destruct (forM body_logs (append_log id) w1) as [w2 [[]|e]]; [|done].
  destruct (body ≫= pb_status) as [status|]; [|done]. cbn [forM]. rewrite run_bind.
  by destruct (do_step (SetStatus status) w2) as [w3 [[]|e]].
Qed.

Lemma patch_run_steps configured env_secret auth w :
  let secret := patch_secret configured env_secret in
  secret <> "" -> strip_bearer (auth ⁇ "") = secret -> truthy id = true ->
  (exists r, r ∈ rows (db_rows (w_db w)) TRuns /\ rn_id r = id) ->
  patch_run configured env_secret auth (Some id) body w = forM callback_steps do_step w.
Proof.
  intros secret Hs Htok Hid (r & Hr & Hrid).
  assert (exists r, RunRepo.getById id (w_db w) = Some r) as [r' Hget].
  { destruct (RunRepo.getById id (w_db w)) as [r'|] eqn:E; [eauto|]. unfold RunRepo.getById in E.
    rewrite (first_row_select_None TRuns) in E. specialize (E r Hr). by bool_prop. }
  rewrite forM_steps. unfold patch_run. fold (patch_secret configured env_secret). fold secret.
  rewrite (proj2 (truthy_spec secret) Hs), Htok, eqb_refl_js. cbv zeta.
  do 2 (erewrite run_bind_ok; [|reflexivity]). unfold routerId. rewrite Hid.
  erewrite run_bind_ok; [|reflexivity]. erewrite run_bind_ok; [|reflexivity]. rewrite Hget.
  erewrite run_bind_ok; [|reflexivity]. reflexivity.
Qed.

(** What one step leaves behind. *)
Definition step_files (s : callback_step) : list (option FileEntry) :=
  match s with AppendFile e => js_filter keep_file [e] | _ => [] end.
Definition step_logs (s : callback_step) : list (option LogEntry) :=
  match s with AppendLog e => [e] | _ => [] end.

Lemma insert_ok_inv t (r r' : row t) (db db' : DB) :
  keys_ok (db_rows db) -> sql_insert t r db = (db', Ok r') ->
  keys_ok (db_rows db') /\ same_rows (db_rows db') (set_rows t (db_rows db) (rows (db_rows db) t ++ [r])).
Proof.
  intros Hk Hrun. destruct (js_some (conflict t r) (rows (db_rows db) t)) eqn:Hc.
  { destruct (law_insert_error t r db) as [e He]; [by left|]. by rewrite He in Hrun. }
  destruct (insert_outcome t r db) as [(db1 & Hi & Hs)|(e & Hi)]; rewrite Hi in Hrun; simplify_eq.
  split; [|done]. eapply keys_ok_same; [by symmetry|]. by apply keys_ok_insert.
Qed.

Lemma insert_throw_inv t (r : row t) (db db' : DB) e : sql_insert t r db = (db', Throw e) -> db' = db.
Proof. intros Hrun. destruct (insert_outcome t r db) as [(db1 & Hi & _)|(e' & Hi)]; rewrite Hi in Hrun; by simplify_eq. Qed.

(** The rows of the three tables after a step that succeeds: the entries it stands for
    are stored, and only [SetStatus] touches the runs. *)
Record step_effect (s : callback_step) (c c' : contents) : Prop := {
  se_keys : keys_ok c';
  se_files : exists nf, Forall2 (file_row id) (step_files s) nf /\ rows c' TRunFiles ≡ₚ rows c TRunFiles ++ nf;
  se_logs : exists nl, Forall2 (log_row id) (step_logs s) nl /\ rows c' TRunLogs ≡ₚ rows c TRunLogs ++ nl;
  se_runs : (forall status, s <> SetStatus status) -> rows c' TRuns ≡ₚ rows c TRuns }.

Lemma step_effect_nothing s c :
  keys_ok c -> step_files s = [] -> step_logs s = [] -> step_effect s c c.
Proof. intros Hk Hf Hl. split; [done|exists []|exists []|done]; rewrite app_nil_r, ?Hf, ?Hl; (split; [constructor|done]). Qed.

Lemma do_step_spec s w w' r :
  keys_ok (db_rows (w_db w)) -> do_step s w = (w', r) ->
  match r with Ok _ => step_effect s (db_rows (w_db w)) (db_rows (w_db w')) | Throw _ => w_db w' = w_db w end.
Proof.
  intros Hk. destruct s as [e|e|status]; unfold do_step.
  - unfold append_entry. destruct e as [f|]; [|intros Heq; injection Heq as <- <-; by apply step_effect_nothing].
    destruct (otruthy (fe_name f) && otruthy (fe_s3Key f)) eqn:Hkeep.
    2:{ intros Heq. injection Heq as <- <-. apply step_effect_nothing; [done| |done].
        unfold step_files. rewrite js_filter_cons. simpl. by rewrite Hkeep. }
    unfold v7, now, write, RunRepo.appendFile, mbind, M_bind, mret, M_ret. cbn [w_db w_uuids w_ticks].
    match goal with |- context [sql_insert TRunFiles ?r _] => set (r0 := r) end.
    destruct (sql_insert TRunFiles r0 (w_db w)) as [db' [r1|e]] eqn:E; intros Heq; injection Heq as <- <-; simpl.
    2:{ by apply insert_throw_inv in E. }
    apply insert_ok_inv in E as [Hk' Hs]; [|done]. split; [done| | |by intros _; rewrite (Hs TRuns), rows_set_ne].
    + exists [r0]. split; [|by rewrite (Hs TRunFiles), rows_set_eq]. unfold step_files. rewrite js_filter_cons.
      cbn [keep_file]. rewrite Hkeep. constructor; [|constructor]. exists f. apply andb_true_iff in Hkeep as [Hn Hk3].
      unfold r0. simpl. destruct (fe_name f), (fe_s3Key f); done.
    + exists []. rewrite app_nil_r, (Hs TRunLogs), rows_set_ne by done. split; [constructor|done].
  - unfold append_log. destruct e as [l|]; [|intros Heq; by injection Heq as <- <-].
    unfold v7, now, write, RunRepo.appendLog, mbind, M_bind, mret, M_ret. cbn [w_db w_uuids w_ticks].
    match goal with |- context [sql_insert TRunLogs ?r _] => set (r0 := r) end.
    destruct (sql_insert TRunLogs r0 (w_db w)) as [db' [r1|e]] eqn:E; intros Heq; injection Heq as <- <-; simpl.
    2:{ by apply insert_throw_inv in E. }
    apply insert_ok_inv in E as [Hk' Hs]; [|done]. split; [done| | |by intros _; rewrite (Hs TRuns), rows_set_ne].
    + exists []. rewrite app_nil_r, (Hs TRunFiles), rows_set_ne by done. split; [constructor|done].
    + exists [r0]. split; [|by rewrite (Hs TRunLogs), rows_set_eq]. constructor; [by exists l|constructor].
  - unfold now, write, RunRepo.updateStatus, mbind, M_bind, mret, M_ret. cbn [w_db w_uuids w_ticks].
    match goal with |- context [sql_update TRuns ?p ?f ?db] =>
      pose proof (law_update TRuns p f db) as Hl; pose proof (law_update_keys TRuns p f db Hk) as Hk';
      destruct (sql_update TRuns p f db) as [db' [out|e]] end; intros Heq; injection Heq as <- <-; simpl in *; [|done].
    destruct Hl as [_ Hs]. split; [done| | |intros Hne; by destruct (Hne status)].
    + exists []. rewrite app_nil_r, (Hs TRunFiles), rows_set_ne by done. split; [constructor|done].
    + exists []. rewrite app_nil_r, (Hs TRunLogs), rows_set_ne by done. split; [constructor|done].
Qed.

(** ** The callback among the requests of users *)

(** The world and the steps the callback still has to do: it does one, or fails and
    stops, or somebody else's request is served. *)
Inductive interleaves : World DB * list callback_step -> World DB * list callback_step -> Prop :=
  | interleaves_step w w' s rest : do_step s w = (w', Ok tt) -> interleaves (w, s :: rest) (w', rest)
  | interleaves_fail w w' s rest e : do_step s w = (w', Throw e) -> interleaves (w, s :: rest) (w', [])
  | interleaves_request w rest session req :
      from_worker req = false -> interleaves (w, rest) ((handle session req w).1, rest).

(** The callback alone is one way to go on. *)
Lemma interleaves_alone steps w w' :
  forM steps do_step w = (w', Ok tt) -> rtc interleaves (w, steps) (w', []).
Proof.
  revert w. induction steps as [|s steps IH]; intros w; cbn [forM].
  - intros Heq. injection Heq as ->. apply rtc_refl.
  - rewrite run_bind. destruct (do_step s w) as [w1 [[]|e]] eqn:E; [|done]. intros Hrest.
    eapply rtc_l; [by apply interleaves_step|]. by apply IH.
Qed.

(** A request that does not come from the worker. *)
Lemma request_keeps session req w :
  from_worker req = false -> keys_ok (db_rows (w_db w)) ->
  let w' := (handle session req w).1 in
  keys_ok (db_rows (w_db w')) /\ statuses (db_rows (w_db w)) (db_rows (w_db w')) /\
  rows (db_rows (w_db w')) TRunFiles ≡ₚ rows (db_rows (w_db w)) TRunFiles /\
  rows (db_rows (w_db w')) TRunLogs ≡ₚ rows (db_rows (w_db w)) TRunLogs.
Proof.
  intros Hw Hk. destruct (handle session req w) as [w' r] eqn:E. simpl.
  pose proof (handle_status session req Hw w w' r Hk E) as Hst. destruct session as [user|].
  - destruct (handle_keeps user req Hw w w' r Hk E) as [Hk' Hf _].
    split_and!; [done|done|apply (Hf TRunFiles)|apply (Hf TRunLogs)].
  - assert (w_db w' = w_db w) as ->; [|split_and!; [done|by apply statuses_same|done|done]].
    destruct (anonymous req) eqn:Ha.
    + eapply pure_db; [|exact E]. destruct req; try discriminate; unfold handle, respond, list_blocks, get_block; pure_step.
    + assert (handle None req w = (w, Throw (Http 401 "Not authenticated"))) as Heq; [|rewrite Heq in E; by injection E as <- _].
      destruct req; try discriminate Ha; reflexivity.
Qed.

Context (w0 : World DB) (s0 : RunStatus).
Context (Hk0 : keys_ok (db_rows (w_db w0))).
Context (Hrun0 : exists r, r ∈ rows (db_rows (w_db w0)) TRuns /\ rn_id r = id /\ rn_status r = s0).

(** The state between the steps: what has been done is stored, and the run keeps its
    status until the last step. *)
Record between (w : World DB) (past todo : list callback_step) : Prop := {
  bt_keys : keys_ok (db_rows (w_db w));
  bt_files : exists nf, Forall2 (file_row id) (past ≫= step_files) nf /\
    rows (db_rows (w_db w)) TRunFiles ≡ₚ rows (db_rows (w_db w0)) TRunFiles ++ nf;
  bt_logs : exists nl, Forall2 (log_row id) (past ≫= step_logs) nl /\
    rows (db_rows (w_db w)) TRunLogs ≡ₚ rows (db_rows (w_db w0)) TRunLogs ++ nl;
  bt_status : (forall status, SetStatus status ∉ past) ->
    (exists r, r ∈ rows (db_rows (w_db w)) TRuns /\ rn_id r = id) /\
    forall r, r ∈ rows (db_rows (w_db w)) TRuns -> rn_id r = id -> rn_status r = s0 }.

Lemma between_start : between w0 [] callback_steps.
Proof.
  split; [done|exists []; rewrite app_nil_r; split; [constructor|done]..|]. intros _.
  destruct Hrun0 as (r & Hr & Hid & Hs). split; [eauto|]. intros r' Hr' Hid'.
  by rewrite (row_unique (R := run_resource) (w_db w0) r' r Hk0 Hr' Hr (eq_trans Hid' (eq_sym Hid))).
Qed.

Lemma between_step w w' s past todo :
  between w past (s :: todo) -> do_step s w = (w', Ok tt) -> between w' (past ++ [s]) todo.
Proof.
  intros [Hk (nf & Hf & Hfiles) (nl & Hl & Hlogs) Hst] Hrun.
  destruct (do_step_spec s w w' _ Hk Hrun) as [Hk' (nf' & Hf' & Hfiles') (nl' & Hl' & Hlogs') Hruns]. split; [done|..].
  - exists (nf ++ nf'). rewrite bind_app, bind_singleton. split; [by apply Forall2_app|].
    by rewrite Hfiles', Hfiles, app_assoc.
  - exists (nl ++ nl'). rewrite bind_app, bind_singleton. split; [by apply Forall2_app|].
    by rewrite Hlogs', Hlogs, app_assoc.
  - intros Hno. assert (Hs : forall status, s <> SetStatus status).
    { intros status ->. apply (Hno status). apply elem_of_app. right. by apply list_elem_of_singleton. }
    setoid_rewrite (Hruns Hs). apply Hst. intros status Hin. apply (Hno status), elem_of_app. by left.
Qed.

Lemma between_same w w' past todo : w_db w' = w_db w -> between w past todo -> between w' past todo.
Proof. intros Hdb [H1 H2 H3 H4]. split; by rewrite Hdb. Qed.

Lemma between_request w past todo session req :
  from_worker req = false -> between w past todo -> between (handle session req w).1 past todo.
Proof.
  intros Hw [Hk (nf & Hf & Hfiles) (nl & Hl & Hlogs) Hst].
  destruct (request_keeps session req w Hw Hk) as (Hk' & [Hstay Hfrom] & Hfiles' & Hlogs'). split; [done|..].
  - exists nf. by rewrite Hfiles'.
  - exists nl. by rewrite Hlogs'.
  - intros Hno. destruct (Hst Hno) as [(r & Hr & Hid) Hall]. split.
    + destruct (Hstay r Hr) as (r' & Hr' & Hid'). exists r'. split; [done|congruence].
    + intros r' Hr' Hid'. destruct (Hfrom r' Hr') as [(x & Hx & Hxid & <-)|Hnew].
      * apply Hall; [done|congruence].
      * destruct (Hnew r Hr). congruence.
Qed.

Lemma interleaves_between y :
  rtc interleaves (w0, callback_steps) y ->
  exists past todo, callback_steps = past ++ todo /\ (y.2 = todo \/ y.2 = []) /\ between y.1 past todo.
Proof.
  revert y. apply (rtc_ind_r (fun y => exists past todo,
    callback_steps = past ++ todo /\ (y.2 = todo \/ y.2 = []) /\ between y.1 past todo)).
  { exists [], callback_steps. split_and!; [done|by left|apply between_start]. }
  intros y z _ Hstep (past & todo & Heq & Hrest & Hbt).
  destruct Hstep as [w w' s rest Hrun|w w' s rest e Hrun|w rest session req Hw]; simpl in *.
  - destruct Hrest as [<-|?]; [|done]. exists (past ++ [s]), rest. rewrite <-app_assoc.
    split_and!; [done|by left|]. by eapply between_step.
  - destruct Hrest as [<-|?]; [|done]. exists past, (s :: rest). split_and!; [done|by right|].
    eapply between_same; [|exact Hbt]. exact (do_step_spec s w w' _ (bt_keys _ _ _ Hbt) Hrun).
  - exists past, todo. split_and!; [done|done|]. by apply between_request.
Qed.

(** The last step comes after all the others. *)
Lemma status_last past todo status :
  callback_steps = past ++ todo -> SetStatus status ∈ past ->
  past ≫= step_files = js_filter keep_file body_files /\ past ≫= step_logs = body_logs.
Proof.
  intros Heq Hin. assert (todo = []) as ->.
  { destruct todo as [|x todo' _] using rev_ind; [done|]. exfalso. unfold callback_steps in Heq.
    destruct (body ≫= pb_status) as [st|]; rewrite ?app_assoc in Heq.
    - apply app_inj_2 in Heq as [Heq _]; [|done]. assert (SetStatus status ∈ past ++ todo') as Hno by set_solver.
      rewrite <-Heq in Hno. apply elem_of_app in Hno as [Hno|Hno]; by apply list_elem_of_fmap in Hno as (? & ? & _).
    - rewrite app_nil_r in Heq. assert (SetStatus status ∈ past ++ todo' ++ [x]) as Hno by set_solver.
      rewrite app_assoc, <-Heq in Hno. apply elem_of_app in Hno as [Hno|Hno]; by apply list_elem_of_fmap in Hno as (? & ? & _). }
  rewrite app_nil_r in Heq. subst past. unfold callback_steps. rewrite !bind_app.
  assert (Hf : forall l, (AppendFile <$> l) ≫= step_files = js_filter keep_file l).
  { induction l as [|e l IH]; [done|]. rewrite fmap_cons, bind_cons, IH, js_filter_cons. simpl step_files.
    rewrite js_filter_cons. by destruct (keep_file e). }
  assert (Hl : forall l, (AppendLog <$> l) ≫= step_logs = l).
  { induction l as [|e l IH]; [done|]. by rewrite fmap_cons, bind_cons, IH. }
  assert (Hfn : forall l, (AppendLog <$> l) ≫= step_files = []) by (by induction l).
  assert (Hln : forall l, (AppendFile <$> l) ≫= step_logs = []) by (by induction l).
  rewrite Hf, Hl, Hfn, Hln. destruct (body ≫= pb_status); simpl; by rewrite ?app_nil_r.
Qed.

(** In whatever state a run shows another status than before, everything the callback
    brought is stored. *)
Lemma new_status_complete w rest r :
  rtc interleaves (w0, callback_steps) (w, rest) -> r ∈ rows (db_rows (w_db w)) TRuns -> rn_id r = id ->
  rn_status r <> s0 ->
  exists nf nl,
    Forall2 (file_row id) (js_filter keep_file body_files) nf /\ Forall2 (log_row id) body_logs nl /\
    rows (db_rows (w_db w)) TRunFiles ≡ₚ rows (db_rows (w_db w0)) TRunFiles ++ nf /\
    rows (db_rows (w_db w)) TRunLogs ≡ₚ rows (db_rows (w_db w0)) TRunLogs ++ nl.
Proof.
  intros Hreach Hr Hid Hne. destruct (interleaves_between _ Hreach) as (past & todo & Heq & _ & Hbt).
  destruct Hbt as [Hk (nf & Hf & Hfiles) (nl & Hl & Hlogs) Hst]. simpl in *.
  assert (exists status, SetStatus status ∈ past) as [status Hin].
  { destruct (js_some (fun s => match s with SetStatus _ => true | _ => false end) past) eqn:E.
    - apply js_some_true in E as ([| |status] & Hin & Hp); try discriminate Hp. by exists status.
    - rewrite js_some_false in E. destruct Hne. apply Hst; [|done|done]. intros status Hin. by specialize (E _ Hin). }
  destruct (status_last past todo status Heq Hin) as [Hf' Hl']. rewrite Hf' in Hf. rewrite Hl' in Hl. eauto 10.
Qed.

(** What a page of the run shows in such a state. *)
Lemma new_status_shown user w rest d :
  rtc interleaves (w0, callback_steps) (w, rest) -> run_answer (Some user) id w = Some d -> rn_status (run d) <> s0 ->
  exists nf nl,
    Forall2 (file_row id) (js_filter keep_file body_files) nf /\ Forall2 (log_row id) body_logs nl /\
    nf ⊆+ files d /\ nl ⊆+ logs d.
Proof.
  intros Hreach Hans Hne. assert (Hk : keys_ok (db_rows (w_db w))).
  { destruct (interleaves_between _ Hreach) as (past & todo & _ & _ & Hbt). exact (bt_keys _ _ _ Hbt). }
  unfold run_answer in Hans. destruct (handle (Some user) (GetRun (Some id)) w) as [w' [resp|e]] eqn:Hrun; [|done].
  apply respond_inv in Hrun as (d' & Hrun & ->). injection Hans as ->.
  apply (get_row_inv user) in Hrun as (i & Hi & Hget & _). injection Hi as <-.
  unfold RunRepo.getWithDetails in Hget.
  destruct (getByIdForUser id (u_id user) (w_db w)) as [r|] eqn:E; [|done]. injection Hget as <-.
  destruct (run_reads (w_db w) Hk) as [Hg _ _ _]. apply Hg in E as (Hr & Hid & _). simpl in *.
  destruct (new_status_complete w rest r Hreach Hr Hid Hne) as (nf & nl & Hnf & Hnl & Hfiles & Hlogs).
  exists nf, nl. split_and!; [done|done|..].
  - destruct (law_ordered TRunFiles (fun f => rf_runId f === id) (fun a b => text_le (rf_name a) (rf_name b)) (w_db w))
      as [Hp _]; [intros; apply text_le_total|intros a b e; apply text_le_trans|].
    unfold js_filter in Hp. rewrite Hp, Hfiles, filter_app, (filter_all _ nf); [by apply submseteq_inserts_l|].
    intros f Hf. destruct (proj1 (list_elem_of_lookup _ _) Hf) as [i Hi].
    destruct (Forall2_lookup_r _ _ _ _ _ Hnf Hi) as (e & _ & x & _ & Hrid & _). by bool_prop.
  - destruct (law_ordered TRunLogs (fun l => rl_runId l === id) (oldest_first rl_createdAt) (w_db w))
      as [Hp _]; [intros a b; unfold oldest_first; rewrite !Z.leb_le; lia
                 |intros a b e; unfold oldest_first; rewrite !Z.leb_le; lia|].
    unfold js_filter in Hp. rewrite Hp, Hlogs, filter_app, (filter_all _ nl); [by apply submseteq_inserts_l|].
    intros f Hf. destruct (proj1 (list_elem_of_lookup _ _) Hf) as [i Hi].
    destruct (Forall2_lookup_r _ _ _ _ _ Hnl Hi) as (e & _ & x & _ & Hrid & _). by bool_prop.
Qed.

(** What a page shows is an answer of the server, or that a refresh failed. *)
Lemma page_answer {D} (active : D -> bool) default answer ev page n :
  execution active default answer ev page -> po_data (page 0) = answer 0 ->
  po_data (page n) = default \/ exists k, po_data (page n) = answer k.
Proof.
  intros Hex H00. induction n as [|n IH]; [right; by exists 0|]. rewrite (ex_step _ _ _ _ _ Hex).
  destruct (ev n) as [k'|k'| |]; [|by left; apply arrive_data|done..]. right. exists k'. apply arrive_data.
Qed.
End Callback.

(** C8. A finished run is complete.  An accepted callback is the sequence of its steps:
    one per file, one per log, and last the new status.  Interleave these steps with any
    requests of users, and let any step fail.  Whenever the page of the run, polling
    meanwhile, shows the run as finished (before, it was not), the files and logs it
    shows include one row for every usable file entry and every log entry the callback
    brought, so when the page stops polling nothing is missing on it. *)
Theorem callback_complete {DB} `{SqlLaws DB} {env : Env} {cfg : RouterConfig}
    (text_le_total : forall a b, text_le a b = true \/ text_le b a = true)
    (text_le_trans : forall a b c, text_le a b = true -> text_le b c = true -> text_le a c = true)
    user configured env_secret auth id body (w0 : World DB) s0 :
  let secret := patch_secret configured env_secret in
  secret <> "" -> strip_bearer (auth ⁇ "") = secret -> truthy id = true -> keys_ok (db_rows (w_db w0)) ->
  (exists r, r ∈ rows (db_rows (w_db w0)) TRuns /\ rn_id r = id /\ rn_status r = s0) -> finished s0 = false ->
  patch_run configured env_secret auth (Some id) body w0 = forM (callback_steps body) (do_step id body) w0 /\
  forall (server : nat -> World DB) ev page,
    (forall k, exists rest, rtc (interleaves id body) (w0, callback_steps body) (server k, rest)) ->
    execution inFlight None (fun k => run_answer (Some user) id (server k)) ev page ->
    po_data (page 0) = run_answer (Some user) id (server 0) ->
    forall n d, po_data (page n) = Some d -> finished (rn_status (run d)) = true ->
    exists nf nl,
      Forall2 (file_row id) (js_filter keep_file ((body ≫= pb_files) ⁇ [])) nf /\
      Forall2 (log_row id) ((body ≫= pb_logs) ⁇ []) nl /\ nf ⊆+ files d /\ nl ⊆+ logs d.
Proof.
  intros secret Hs Htok Hid Hk Hrun Hfin. split.
  { apply patch_run_steps; [done..|]. destruct Hrun as (r & Hr & Hrid & _). eauto. }
  intros server ev page Hreach Hex H00 n d Hd Hdone.
  destruct (page_answer inFlight None _ ev page n Hex H00) as [Hnone|[k Hans]]; [by rewrite Hnone in Hd|].
  destruct (Hreach k) as [rest Hk'].
  apply (new_status_shown text_le_total text_le_trans id body w0 s0 Hk Hrun user (server k) rest d); [done|congruence|].
  intros Heq. by rewrite Heq, Hfin in Hdone.
Qed.
