(* ===== verification/DataPage.v ===== *)
(** * The data page ([web_ui/pages/data/index.vue])

    The upload of a file in three steps (ask for a presigned URL, put the bytes there,
    write the row), deletion, download, and the sizes the table shows. *)

From S2P Require Export ClientSpec.

(** ** Sizes *)

(** [x.toFixed(digits)] for [x = num / den] with [den] a power of two, which double
    arithmetic computes exactly: the nearest multiple of [10 ^ -digits], the
    larger of two. *)
Definition fixed_digits (digits num den : Z) : Z := ((2 * num * 10 ^ digits + den) / (2 * den))%Z.

Fixpoint pad_zeros (n : nat) (s : string) : string :=
  match n with
  | O => s
  | S n' => if Nat.ltb (String.length s) n then String (Ascii.ascii_of_nat 48) (pad_zeros n' s) else s
  end.

Definition decimal (digits m : Z) : string :=
  pretty (m / 10 ^ digits)%Z +:+ "." +:+ pad_zeros (Z.to_nat digits) (pretty (m mod 10 ^ digits)%Z).

Definition toFixed (digits num den : Z) : string := decimal digits (fixed_digits digits num den).

Definition formatBytes (n : Z) : string :=
  if (n <? 1024)%Z then pretty n +:+ " B"
  else if (n <? 1024 ^ 2)%Z then toFixed 1 n 1024 +:+ " KB"
  else if (n <? 1024 ^ 3)%Z then toFixed 1 n (1024 ^ 2)%Z +:+ " MB"
  else toFixed 2 n (1024 ^ 3)%Z +:+ " GB".

(** ** The page *)

Record File := mkFile { fl_name : string; fl_type : string; fl_size : Z }.

(** [dp_puts] are the PUT requests the browser sent to the object store. *)
Record DataPage := mkDataPage {
  dp_tab : string; dp_items : list DataFileRow; dp_uploading : bool; dp_uploadProgress : Z;
  dp_errorMessage : option string; dp_puts : list string }.

Definition dp_set_items (l : list DataFileRow) (p : DataPage) : DataPage :=
  mkDataPage (dp_tab p) l (dp_uploading p) (dp_uploadProgress p) (dp_errorMessage p) (dp_puts p).
Definition dp_set_error (e : option string) (p : DataPage) : DataPage :=
  mkDataPage (dp_tab p) (dp_items p) (dp_uploading p) (dp_uploadProgress p) e (dp_puts p).
Definition dp_start (p : DataPage) : DataPage :=
  mkDataPage (dp_tab p) (dp_items p) true 0 None (dp_puts p).
Definition dp_finish (p : DataPage) : DataPage :=
  mkDataPage (dp_tab p) (dp_items p) false 0 (dp_errorMessage p) (dp_puts p).
Definition dp_put (url : string) (percent : Z) (p : DataPage) : DataPage :=
  mkDataPage (dp_tab p) (dp_items p) (dp_uploading p) percent (dp_errorMessage p) (dp_puts p ++ [url]).

(** How the object store answers the PUT. *)
Inductive PutOutcome := PutStatus (status : Z) | PutError.

Section DataPage.
Context {DB : Type} `{Sql DB} {env : Env} {cfg : RouterConfig} {net : ClientEnv}.
Abbreviation Browser := (M (Client DB DataPage) JsError).

(** [refresh()] of the page's [useFetch]; a failure leaves the default list. *)
Definition refreshData (session : option SessionUser) : Browser unit :=
  c ← get_state;
  try_catch
    (r ← fetch session (ListData (Some (dp_tab (cl_page c))));
     l ← expect (fun r => match r with RDataFiles l => Some l | _ => None end) r;
     set_page (dp_set_items l))
    (fun _ => set_page (dp_set_items [])).

(** The XMLHttpRequest; [percent] is the last progress shown. *)
Definition put_file (url : string) (percent : Z) (put : PutOutcome) : Browser unit :=
  _ ← set_page (dp_put url percent);
  match put with
  | PutStatus status =>
      if (200 <=? status)%Z && (status <? 300)%Z then mret tt
      else throw (js_error ("S3 upload failed: " +:+ pretty status))
  | PutError => throw (js_error "Network error")
  end.

Definition upload_attempt (session : option SessionUser) (file : File) (percent : Z) (put : PutOutcome)
    : Browser unit :=
  let mimeType := js_or (fl_type file) "application/octet-stream" in
  r ← fetch session (UploadInit (Some (mkInitBody (Some (fl_name file)) (Some mimeType) (Some (fl_size file)))));
  init ← expect (fun r => match r with RUpload u => Some u | _ => None end) r;
  _ ← put_file (ir_uploadUrl init) percent put;
  _ ← fetch session (UploadComplete (Some (mkCompleteBody (Some (ir_dataFileId init)) (Some (ir_s3Key init))
         (Some (fl_name file)) (Some mimeType) (Some (fl_size file)) (Some Private))));
  refreshData session.

(** [handleFile]; no file picked is [None]. *)
Definition handleFile (session : option SessionUser) (picked : option File) (percent : Z) (put : PutOutcome)
    : Browser unit :=
  match picked with
  | None => mret tt
  | Some file =>
      _ ← set_page dp_start;
      try_finally (upload_attempt session file percent put)
        (fun e => dp_set_error (Some (js_or (er_message e ⁇ "") "Upload failed."))) dp_finish
  end.

Definition handleDeleteData (session : option SessionUser) (confirmed : bool) (id : string) : Browser unit :=
  if negb confirmed then mret tt
  else
    _ ← fetch session (DeleteData (Some id));
    refreshData session.

(** The link the browser follows: its target and the suggested name. *)
Definition handleDownload (session : option SessionUser) (id : string) : Browser (string * string) :=
  r ← fetch session (GetData (Some id));
  expect (fun r => match r with RDataUrl d url => Some (url, df_name d) | _ => None end) r.
End DataPage.

(** ** The sizes shown *)

(** The nearest number with the given digits. *)
Lemma fixed_digits_near digits num den :
  (0 < den)%Z ->
  (2 * fixed_digits digits num den * den - den <= 2 * num * 10 ^ digits < 2 * fixed_digits digits num den * den + den)%Z.
Proof.
  intros Hd. unfold fixed_digits. set (x := (2 * num * 10 ^ digits)%Z).
  pose proof (Z.div_mod (x + den) (2 * den) ltac:(lia)) as Hdm.
  pose proof (Z.mod_pos_bound (x + den) (2 * den) ltac:(lia)) as Hb. nia.
Qed.

Lemma fixed_digits_mono digits n1 n2 den :
  (0 < den)%Z -> (0 <= digits)%Z -> (n1 <= n2)%Z -> (fixed_digits digits n1 den <= fixed_digits digits n2 den)%Z.
Proof.
  intros Hd Hg Hn. unfold fixed_digits. apply Z.div_le_mono; [lia|].
  pose proof (Z.pow_nonneg 10 digits ltac:(lia)). nia.
Qed.

Lemma fixed_digits_exact digits k den :
  (0 < den)%Z -> fixed_digits digits (k * den) den = (k * 10 ^ digits)%Z.
Proof.
  intros Hd. unfold fixed_digits.
  replace (2 * (k * den) * 10 ^ digits + den)%Z with (k * 10 ^ digits * (2 * den) + den)%Z by ring.
  rewrite Z.div_add_l by lia. rewrite Z.div_small; lia.
Qed.

(** The unit of a size: its bytes, its name, and the digits shown. *)
Definition size_unit (n : Z) : Z * string * Z :=
  if (n <? 1024 ^ 2)%Z then (1024, " KB", 1)%Z
  else if (n <? 1024 ^ 3)%Z then (1024 ^ 2, " MB", 1)%Z
  else (1024 ^ 3, " GB", 2)%Z.

(** C33. The sizes in the table.  A size below 1024 is shown exactly; any other is shown
    in the largest unit that it reaches (bytes times 1024, at most the third power), as
    a decimal number that is off by at most half a unit of its last digit, is at least
    1, in KB and MB at most 1024 (which rounding does reach; in GB there is no bound, 2
    TiB show as 2048.00 GB), and exact for whole multiples; within a unit larger sizes never show as smaller ones. *)
Theorem formatBytes_bounds n :
  (0 <= n)%Z ->
  if (n <? 1024)%Z then formatBytes n = pretty n +:+ " B"
  else
    let '(unit, name, digits) := size_unit n in
    exists m, formatBytes n = decimal digits m +:+ name /\
      (2 * Z.abs (m * unit - n * 10 ^ digits) <= unit)%Z /\
      (10 ^ digits <= m)%Z /\ (name <> " GB" -> m <= 1024 * 10 ^ digits)%Z /\
      (forall k, n = (k * unit)%Z -> m = (k * 10 ^ digits)%Z) /\
      (forall n', (n <= n')%Z -> size_unit n' = size_unit n ->
         exists m', formatBytes n' = decimal digits m' +:+ name /\ (m <= m')%Z).
Proof.
  intros Hn. assert (Hf : forall x, (1024 <= x)%Z -> let '(unit, name, digits) := size_unit x in
    formatBytes x = decimal digits (fixed_digits digits x unit) +:+ name).
  { intros x Hx. unfold formatBytes, size_unit. assert ((x <? 1024)%Z = false) as -> by lia.
    destruct (x <? 1024 ^ 2)%Z; [done|]. by destruct (x <? 1024 ^ 3)%Z. }
  destruct (n <? 1024)%Z eqn:Hb; [unfold formatBytes; by rewrite Hb|]. apply Z.ltb_ge in Hb.
  pose proof (Hf n Hb) as Hfn.
  assert (Hu : let '(unit, name, digits) := size_unit n in (0 < unit)%Z /\ (0 <= digits)%Z /\ (unit <= n)%Z /\
    (name <> " GB" -> n < 1024 * unit)%Z).
  { unfold size_unit. destruct (n <? 1024 ^ 2)%Z eqn:H2; [|destruct (n <? 1024 ^ 3)%Z eqn:H3]; split_and!; try lia; done. }
  destruct (size_unit n) as [[unit name] digits] eqn:Hs. destruct Hu as (Hpos & Hdig & Hle & Hlt).
  exists (fixed_digits digits n unit). pose proof (fixed_digits_near digits n unit Hpos) as Hnear.
  split; [done|]. split; [lia|]. split; [|split; [|split]].
  - pose proof (fixed_digits_mono digits (1 * unit) n unit Hpos Hdig ltac:(lia)) as Hm.
    rewrite fixed_digits_exact in Hm by done. lia.
  - intros Hgb. pose proof (fixed_digits_mono digits n (1024 * unit) unit Hpos Hdig ltac:(specialize (Hlt Hgb); lia)) as Hm.
    by rewrite fixed_digits_exact in Hm.
  - intros k ->. by apply fixed_digits_exact.
  - intros n' Hn' Hs'. specialize (Hf n' ltac:(lia)). rewrite Hs' in Hf.
    exists (fixed_digits digits n' unit). split; [done|]. by apply fixed_digits_mono.
Qed.

(** Rounding reaches the next unit's number: just under a megabyte shows as 1024.0 KB. *)
Lemma formatBytes_examples :
  formatBytes 1023 = "1023 B" /\ formatBytes 1536 = "1.5 KB" /\ formatBytes 1048575 = "1024.0 KB" /\
  formatBytes 1048576 = "1.0 MB" /\ formatBytes 5368709120 = "5.00 GB".
Proof. repeat split; vm_compute; reflexivity. Qed.

(** ** The upload against the server *)

Section UploadFlow.
Context {DB : Type} `{SqlLaws DB} {env : Env} {cfg : RouterConfig} {net : ClientEnv}.
Implicit Types w : World DB.

Definition put_accepted (put : PutOutcome) : bool :=
  match put with PutStatus status => (200 <=? status)%Z && (status <? 300)%Z | PutError => false end.

Lemma fetch_delivered {P} session req (c : Client DB P) w r :
  net_fate (cl_requests c) = Delivered -> handle session req (cl_world c) = (w, Ok r) ->
  fetch session req c = (mkClient (cl_flow c) (cl_page c) (S (cl_requests c)) (cl_visited c) w, Ok r).
Proof. intros Hn Hh. unfold fetch. by rewrite Hn, Hh. Qed.

(** The list the page shows after a refresh. *)
Lemma refresh_items user c :
  keys_ok (db_rows (w_db (cl_world c))) -> net_fate (cl_requests c) = Delivered ->
  exists items, refreshData (Some user) c =
      (mkClient (cl_flow c) (dp_set_items items (cl_page c)) (S (cl_requests c)) (cl_visited c) (cl_world c), Ok tt) /\
    (dp_tab (cl_page c) = "mine" -> forall d, d ∈ items <->
       d ∈ rows (db_rows (w_db (cl_world c))) TDataFiles /\ df_ownerId d = u_id user).
Proof.
  intros Hk Hn. destruct (dataFile_reads (w_db (cl_world c)) Hk) as [_ Hown _ _].
  unfold refreshData, get_state, try_catch, mbind, M_bind.
  assert (exists items, handle (Some user) (ListData (Some (dp_tab (cl_page c)))) (cl_world c) =
      (cl_world c, Ok (RDataFiles items)) /\
    (dp_tab (cl_page c) = "mine" -> items = DataFileRepo.listOwnedBy (u_id user) (w_db (cl_world c))))
    as (items & Hh & Hmine).
  { unfold handle, respond, list_data, requireUser, orThrow, read, mbind, M_bind, mret, M_ret. simpl.
    destruct (bool_decide _) eqn:E1; [|destruct (bool_decide (_ = "public")) eqn:E2];
      eexists; (split; [reflexivity|]); intros Heq; try done; rewrite Heq in *; done. }
  rewrite (fetch_delivered _ _ c _ _ Hn Hh). exists items. split; [done|].
  intros Htab d. rewrite (Hmine Htab). apply Hown.
Qed.

(** Uploading from the data page.  With a known user's session and the requests
    delivered, picking a named file that is not empty sends its bytes once, to the URL
    presigned for a fresh key under the user's prefix.  If the store accepts them,
    exactly one row is added: private, of this user, with the file's name, size and
    type and that key, no error is shown, and the user's own list shows it; if the
    store does not, an error is shown and the database is unchanged.  An empty file
    is refused before any bytes are sent.  In every case the page stops being busy. *)
Theorem upload_from_page user file percent put c :
  let w := cl_world c in
  let id := uuidv7 (w_uuids w) in
  let key := "data/" +:+ u_id user +:+ "/" +:+ id +:+ "/" +:+ fl_name file in
  let mime := js_or (fl_type file) "application/octet-stream" in
  truthy (fl_name file) = true -> truthy id = true ->
  (forall i, i < 4 -> net_fate (cl_requests c + i) = Delivered) ->
  keys_ok (db_rows (w_db w)) -> has_user (db_rows (w_db w)) (u_id user) = true ->
  (forall d, d ∈ rows (db_rows (w_db w)) TDataFiles -> df_id d <> id) ->
  exists c', handleFile (Some user) (Some file) percent put c = (c', Ok tt) /\
    dp_uploading (cl_page c') = false /\ dp_uploadProgress (cl_page c') = 0%Z /\
    cl_visited c' = cl_visited c /\ cl_flow c' = cl_flow c /\
    if (fl_size file <=? 0)%Z then
      w_db (cl_world c') = w_db w /\ is_Some (dp_errorMessage (cl_page c')) /\ dp_puts (cl_page c') = dp_puts (cl_page c)
    else
      dp_puts (cl_page c') = dp_puts (cl_page c) ++ [presign "PUT" key (Some mime) (60 * 30)] /\
      if put_accepted put then
        dp_errorMessage (cl_page c') = None /\
        exists row,
          (df_id row, df_ownerId row, df_name row, df_sizeBytes row, df_mimeType row, df_s3Key row, df_visibility row) =
            (id, u_id user, fl_name file, fl_size file, mime, key, Private) /\
          same_rows (db_rows (w_db (cl_world c')))
            (set_rows TDataFiles (db_rows (w_db w)) (rows (db_rows (w_db w)) TDataFiles ++ [row])) /\
          (dp_tab (cl_page c) = "mine" -> row ∈ dp_items (cl_page c'))
      else w_db (cl_world c') = w_db w /\ is_Some (dp_errorMessage (cl_page c')).
Proof.
  intros w id key mime Hname Hid Hnet Hk Hu Hfresh.
  assert (Hmime : truthy mime = true) by (unfold mime, js_or; by destruct (truthy (fl_type file)) eqn:E).
  assert (Hn : forall i, i < 4 -> net_fate (i + cl_requests c) = Delivered) by (intros i Hi; rewrite Nat.add_comm; auto).
  pose proof (Hn 0 ltac:(lia)) as Hn0. pose proof (Hn 1 ltac:(lia)) as Hn1. pose proof (Hn 2 ltac:(lia)) as Hn2. clear Hn Hnet.
  unfold handleFile, try_finally, try_catch, upload_attempt, put_file, put_accepted, expect, set_page, modify.
  fold mime. destruct (fl_size file <=? 0)%Z eqn:Hsz.
  - assert (Hi : handle (Some user) (UploadInit (Some (mkInitBody (Some (fl_name file)) (Some mime) (Some (fl_size file))))) w =
      (w, Throw (Http 400 "sizeBytes must be > 0"))).
    { unfold handle, respond, upload_init, requireUser, orThrow. simpl. by rewrite Hname, Hmime, Hsz. }
    unfold fetch, mbind, M_bind, mret, M_ret. cbn [cl_flow cl_page cl_requests cl_visited cl_world Nat.add] in *.
    fold w. rewrite Hn0, Hi. eexists. split; [reflexivity|]. cbn. split_and!; solve [done | by eexists].
  - pose proof (init_offers user (fl_name file) mime (fl_size file) w id key Hname Hmime ltac:(lia) eq_refl eq_refl) as Hi.
    set (w1 := mkWorld (w_db w) (S (w_uuids w)) (w_ticks w) (w_s3_deleted w)) in Hi.
    unfold mbind, M_bind, mret, M_ret. cbv beta.
    set (c1 := mkClient (cl_flow c) (dp_start (cl_page c)) (cl_requests c) (cl_visited c) (cl_world c)).
    rewrite (fetch_delivered _ _ c1 w1 _ Hn0 Hi). cbn [cl_flow cl_page cl_requests cl_visited cl_world c1].
    destruct put as [status|]; [destruct ((200 <=? status)%Z && (status <? 300)%Z)|].
    2,3: eexists; split; [reflexivity|]; cbn; split_and!; solve [done | by eexists].
    destruct (complete_creates user id key (fl_name file) mime (fl_size file) (Some Private) w1)
      as (w2 & row & Hc & Hrow & Hs & Hk2 & _); [done|by unfold key|done|done|lia|done|done|done|].
    unfold complete_body in Hc. cbn [ir_dataFileId ir_s3Key ir_uploadUrl].
    set (c2 := mkClient _ _ _ _ w1). rewrite (fetch_delivered _ _ c2 w2 _ Hn1 Hc).
    cbn [cl_flow cl_page cl_requests cl_visited cl_world c2].
    set (c3 := mkClient _ _ _ _ w2). destruct (refresh_items user c3 Hk2 Hn2) as (items & Hr & Hitems). rewrite Hr.
    eexists. split; [reflexivity|]. cbn. split_and!; try done. exists row. split; [exact Hrow|]. split; [exact Hs|].
    intros Htab. apply (Hitems Htab). injection Hrow as _ Ho _ _ _ _ _. split; [|done].
    cbn [c3 cl_world]. rewrite (Hs TDataFiles), rows_set_eq. apply elem_of_app. right. by apply list_elem_of_singleton.
Qed.
End UploadFlow.
