(* ===== verification/FileViewer.v ===== *)
(** * The viewer of a result file ([web_ui/components/results/RunFileViewer.vue])

    The viewer presigns the file when it is first expanded, and downloads its bytes
    into the page only for small files it can show. *)

From S2P Require Export ClientSpec Access.
From Stdlib Require Import Ascii.

(** ** What kind of file it is *)

(** [s.split(".").pop()]: what follows the last dot, or everything. *)
Definition last_part (s : string) : string :=
  match split_dot s with
  | Some (_, String _ ext) => ext
  | _ => s
  end.

Inductive FileKind := KImage | KCsv | KJson | KText | KBinary.

#[export] Instance FileKind_eq_dec : EqDecision FileKind.
Proof. solve_decision. Defined.

Definition ext (name : string) : string := toLowerCase (last_part name).

Definition file_kind (name : string) (mimeType : option string) : FileKind :=
  let e := ext name in
  let m := mimeType ⁇ "" in
  if startsWith "image/" m || bool_decide (e ∈ ["png"; "jpg"; "jpeg"; "gif"; "webp"; "svg"]) then KImage
  else if (e === "csv") || (m === "text/csv") then KCsv
  else if (e === "json") || (e === "geojson") || includes "json" m then KJson
  else if bool_decide (e ∈ ["txt"; "log"; "md"; "yaml"; "yml"; "wkt"; "tsv"]) || startsWith "text/" m then KText
  else KBinary.

(** 2 MB *)
Definition INLINE_LIMIT : Z := (2 * 1024 * 1024)%Z.

Definition tooBig (sizeBytes : option Z) : bool :=
  match sizeBytes with Some n => (INLINE_LIMIT <? n)%Z | None => false end.

(** ** The component *)

Record FileProps := mkFileProps {
  fp_runId : string; fp_name : string; fp_mimeType : option string; fp_sizeBytes : option Z }.

(** [fv_fetched] are the URLs whose bytes were downloaded into the page, [fv_opened]
    those opened in a new window. *)
Record Viewer := mkViewer {
  fv_url : option string; fv_textBody : option string; fv_rows : option Json; fv_error : option string;
  fv_loading : bool; fv_expanded : bool; fv_fetched : list string; fv_opened : list string }.

Definition initial_viewer : Viewer := mkViewer None None None None false false [] [].

Definition fv_start (v : Viewer) : Viewer :=
  mkViewer (fv_url v) (fv_textBody v) (fv_rows v) None true (fv_expanded v) (fv_fetched v) (fv_opened v).
Definition fv_done (v : Viewer) : Viewer :=
  mkViewer (fv_url v) (fv_textBody v) (fv_rows v) (fv_error v) false (fv_expanded v) (fv_fetched v) (fv_opened v).
Definition fv_set_url (u : string) (v : Viewer) : Viewer :=
  mkViewer (Some u) (fv_textBody v) (fv_rows v) (fv_error v) (fv_loading v) (fv_expanded v) (fv_fetched v) (fv_opened v).
Definition fv_set_text (t : string) (v : Viewer) : Viewer :=
  mkViewer (fv_url v) (Some t) (fv_rows v) (fv_error v) (fv_loading v) (fv_expanded v) (fv_fetched v) (fv_opened v).
Definition fv_set_rows (r : Json) (v : Viewer) : Viewer :=
  mkViewer (fv_url v) (fv_textBody v) (Some r) (fv_error v) (fv_loading v) (fv_expanded v) (fv_fetched v) (fv_opened v).
Definition fv_set_error (e : string) (v : Viewer) : Viewer :=
  mkViewer (fv_url v) (fv_textBody v) (fv_rows v) (Some e) (fv_loading v) (fv_expanded v) (fv_fetched v) (fv_opened v).
Definition fv_toggle (v : Viewer) : Viewer :=
  mkViewer (fv_url v) (fv_textBody v) (fv_rows v) (fv_error v) (fv_loading v) (negb (fv_expanded v)) (fv_fetched v) (fv_opened v).
Definition fv_get (u : string) (v : Viewer) : Viewer :=
  mkViewer (fv_url v) (fv_textBody v) (fv_rows v) (fv_error v) (fv_loading v) (fv_expanded v) (fv_fetched v ++ [u]) (fv_opened v).
Definition fv_open (u : string) (v : Viewer) : Viewer :=
  mkViewer (fv_url v) (fv_textBody v) (fv_rows v) (fv_error v) (fv_loading v) (fv_expanded v) (fv_fetched v) (fv_opened v ++ [u]).

(** Package [csv-simple-parser], and the built-in [JSON.parse] and
    [JSON.stringify(_, null, 2)]. *)
Class ViewerEnv := {
  csv_parse : string -> result JsError Json;
  json_parse : string -> option Json;
  json_pretty : Json -> string }.

(** What a suspended call of the component awaits: [load] its URL, [load] the bytes at
    a URL, or [download] its URL. *)
Inductive ViewerTask := LoadUrl | LoadBody (u : string) | DownloadUrl.

#[export] Instance ViewerTask_eq_dec : EqDecision ViewerTask.
Proof. solve_decision. Defined.

Section Viewer.
Context {DB : Type} `{Sql DB} {env : Env} {cfg : RouterConfig} {net : ClientEnv} {ven : ViewerEnv}.
Context (session : option SessionUser) (props : FileProps).
Abbreviation Browser := (M (Client DB Viewer) JsError).

Definition viewer_presign : Browser string :=
  r ← fetch session (GetRunFile (Some (fp_runId props)) (Some (encodeURIComponent (fp_name props))) None);
  expect (fun r => match r with RFile (FileUrl url _ _ _) => Some url | _ => None end) r.

Definition await {A} (r : result JsError A) : Browser A :=
  match r with Ok a => mret a | Throw e => throw e end.

(** Each part of [load] runs up to the next [await] and leaves the calls it suspends on.
    [load_end] is the [finally] block, [load_catch] the [catch] block before it. *)
Definition load : Browser (list ViewerTask) :=
  _ ← set_page fv_start; mret [LoadUrl].

Definition load_end : Browser (list ViewerTask) :=
  _ ← set_page fv_done; mret [].

Definition load_catch (e : JsError) : Browser (list ViewerTask) :=
  _ ← set_page (fv_set_error (er_message e ⁇ "Failed to load file")); load_end.

Definition load_url : Browser (list ViewerTask) :=
  try_catch
    (u ← viewer_presign;
     _ ← set_page (fv_set_url u);
     let kind := file_kind (fp_name props) (fp_mimeType props) in
     if (kind === KImage) || (kind === KBinary) || tooBig (fp_sizeBytes props) then load_end
     else _ ← set_page (fv_get u); mret [LoadBody u])
    load_catch.

(** [got] is the text the object store sends, or the exception of reading it. *)
Definition load_body (got : result JsError string) : Browser (list ViewerTask) :=
  try_catch
    (body ← await got;
     _ ← match file_kind (fp_name props) (fp_mimeType props) with
         | KCsv => rows ← await (csv_parse body); set_page (fv_set_rows rows)
         | KJson =>
             set_page (fv_set_text (match json_parse body with Some j => json_pretty j | None => body end))
         | _ => set_page (fv_set_text body)
         end;
     load_end)
    load_catch.

Definition toggle : Browser (list ViewerTask) :=
  _ ← set_page fv_toggle;
  c ← get_state;
  if fv_expanded (cl_page c) && bool_decide (fv_url (cl_page c) = None) then load else mret [].

(** [download] opens the known URL, or presigns one without keeping it. *)
Definition view_download : Browser (list ViewerTask) :=
  c ← get_state;
  match fv_url (cl_page c) with
  | Some u => _ ← set_page (fv_open u); mret []
  | None => mret [DownloadUrl]
  end.

Definition download_url : Browser (list ViewerTask) :=
  u ← viewer_presign;
  _ ← set_page (fv_open u); mret [].

Definition resume_task (t : ViewerTask) (got : result JsError string) : Browser (list ViewerTask) :=
  match t with
  | LoadUrl => load_url
  | LoadBody _ => load_body got
  | DownloadUrl => download_url
  end.

(** The component with its suspended calls. *)
Record ViewerMachine := mkViewerMachine { vm_client : Client DB Viewer; vm_tasks : list ViewerTask }.

(** A click, or the answer to any one of the suspended calls. *)
Inductive ViewerEvent := Toggle | Download | Replied (i : nat) (got : result JsError string).

Definition suspending (tasks : list ViewerTask) (r : Client DB Viewer * result JsError (list ViewerTask)) : ViewerMachine :=
  mkViewerMachine r.1 (tasks ++ match r.2 with Ok new => new | Throw _ => [] end).

Definition viewer_step (m : ViewerMachine) (e : ViewerEvent) : ViewerMachine :=
  match e with
  | Toggle => suspending (vm_tasks m) (toggle (vm_client m))
  | Download => suspending (vm_tasks m) (view_download (vm_client m))
  | Replied i got =>
      match vm_tasks m !! i with
      | Some t => suspending (delete i (vm_tasks m)) (resume_task t got (vm_client m))
      | None => m
      end
  end.
End Viewer.
Arguments ViewerMachine DB : clear implicits.
Arguments mkViewerMachine {DB}.
Arguments vm_client {DB}. Arguments vm_tasks {DB}.

(** ** What the viewer fetches *)

Section Spec.
Context {DB : Type} `{SqlLaws DB} {env : Env} {cfg : RouterConfig} {net : ClientEnv} {ven : ViewerEnv}.
Context (user : SessionUser) (props : FileProps).
Context (Hname : utf8 (fp_name props) = true).

(** The presigned URL of a stored file of this run with this name, which the user may see. *)
Definition legit (c : contents) (u : string) : Prop :=
  exists f, sees_file c (u_id user) f /\ rf_runId f = fp_runId props /\ rf_name f = fp_name props /\
    u = download (rf_s3Key f).

(** Small enough and of a kind the page can show. *)
Definition inlinable : Prop :=
  file_kind (fp_name props) (fp_mimeType props) ∈ [KCsv; KJson; KText] /\
  forall n, fp_sizeBytes props = Some n -> (n <= 2097152)%Z.

Definition pending_load (t : ViewerTask) : bool :=
  match t with DownloadUrl => false | _ => true end.
Definition pending_urls (tasks : list ViewerTask) : nat := length (filter (eq LoadUrl) tasks).

(** The invariant of the machine; [n] is the number of loads begun so far. *)
Record viewer_ok (c : contents) (n : nat) (v : Viewer) (tasks : list ViewerTask) : Prop := {
  vo_loading : fv_loading v = true -> exists t, t ∈ tasks /\ pending_load t = true;
  vo_url : forall u, fv_url v = Some u -> legit c u;
  vo_bodies : forall u, LoadBody u ∈ tasks -> u ∈ fv_fetched v;
  vo_fetched : Forall (legit c) (fv_fetched v);
  vo_known : fv_fetched v <> [] -> inlinable /\ is_Some (fv_url v);
  vo_count : (length (fv_fetched v) + pending_urls tasks <= n)%nat;
  vo_opened : Forall (legit c) (fv_opened v) }.

Lemma get_file_named w w' resp :
  keys_ok (db_rows (w_db w)) ->
  get_file (Some user) (Some (fp_runId props)) (Some (encodeURIComponent (fp_name props))) None w = (w', resp) ->
  w' = w /\ forall r, resp = Ok r -> exists url name mime size, r = FileUrl url name mime size /\ legit (db_rows (w_db w)) url.
Proof.
  intros Hk. unfold get_file, requireUser, orThrow, read, throw, mbind, M_bind, mret, M_ret.
  destruct (negb _); [intros Heq; by simplify_eq|]. cbn [default from_option id].
  destruct (getByIdForUser (fp_runId props) (u_id user) (w_db w)) as [r|] eqn:Hr; [|intros Heq; by simplify_eq].
  rewrite decode_encodeURI by done. destruct (RunRepo.getFile (fp_runId props) (fp_name props) (w_db w)) as [f|] eqn:Hf; [|intros Heq; by simplify_eq].
  simpl. intros Heq. simplify_eq. split; [done|]. intros r' Heq. simplify_eq. eexists _, _, _, _. split; [reflexivity|].
  destruct (run_reads (w_db w') Hk) as [Hget _ _ _]. apply Hget in Hr as (Hr & Hid & Hview). simpl in Hid.
  unfold RunRepo.getFile in Hf. apply first_row_Some in Hf. apply (elem_select TRunFiles) in Hf as [Hp Hf].
  bool_prop. exists f. split; [|split_and!; done]. split; [done|]. exists r. split; [done|]. simpl in *. congruence.
Qed.

Lemma presign_spec (c : Client DB Viewer) c' res :
  keys_ok (db_rows (w_db (cl_world c))) ->
  viewer_presign (Some user) props c = (c', res) ->
  cl_page c' = cl_page c /\ w_db (cl_world c') = w_db (cl_world c) /\
  forall u, res = Ok u -> legit (db_rows (w_db (cl_world c))) u.
Proof.
  intros Hk. unfold viewer_presign, fetch, expect, handle, respond, mbind, M_bind, mret, M_ret.
  destruct (get_file (Some user) _ _ _ (cl_world c)) as [w' r] eqn:Hg.
  apply get_file_named in Hg as [-> Hr]; [|done].
  destruct (net_fate (cl_requests c)); [|intros Heq; by simplify_eq|destruct r; intros Heq; by simplify_eq].
  destruct r as [resp|e]; [|intros Heq; by simplify_eq].
  destruct (Hr resp eq_refl) as (url & name & mime & size & -> & Hl). simpl.
  intros Heq. simplify_eq. split; [done|]. split; [done|]. intros u Hu. by simplify_eq.
Qed.

Lemma viewer_ok_perm c n v tasks tasks' : tasks ≡ₚ tasks' -> viewer_ok c n v tasks -> viewer_ok c n v tasks'.
Proof.
  intros Hp [Hl Hu Hb Hf Hk Hc Ho]. split; try done.
  - intros Hlo. destruct (Hl Hlo) as (t & Ht & ?). exists t. by rewrite <-Hp.
  - intros u Hin. apply Hb. by rewrite Hp.
  - unfold pending_urls in *. by rewrite <-Hp.
Qed.

Lemma pending_urls_cons t tasks : pending_urls (t :: tasks) = (if decide (t = LoadUrl) then 1 else 0) + pending_urls tasks.
Proof. unfold pending_urls. rewrite filter_cons. by repeat case_decide; subst. Qed.

Lemma pending_urls_snoc t tasks : pending_urls (tasks ++ [t]) = (if decide (t = LoadUrl) then 1 else 0) + pending_urls tasks.
Proof. rewrite <-pending_urls_cons. unfold pending_urls. by rewrite <-Permutation_cons_append. Qed.

(** The end of a load, in whatever way: [loading] is reset though another load may be
    pending. *)
Lemma viewer_ok_end c n v t tasks e :
  viewer_ok c n v (t :: tasks) ->
  viewer_ok c n (fv_done v) tasks /\ viewer_ok c n (fv_done (fv_set_error e v)) tasks.
Proof.
  intros [Hl Hu Hb Hf Hk Hc Ho]. rewrite pending_urls_cons in Hc.
  split; split; simpl; try done; try (intros u Hin; apply Hb; by right); lia.
Qed.

(** What a resumption makes of the machine. *)
Definition resumes (c : Client DB Viewer) (n : nat) (tasks : list ViewerTask) (r : Client DB Viewer * result JsError (list ViewerTask)) : Prop :=
  let m := suspending tasks r in
  w_db (cl_world (vm_client m)) = w_db (cl_world c) /\
  viewer_ok (db_rows (w_db (cl_world c))) n (cl_page (vm_client m)) (vm_tasks m).

Lemma load_url_ok (c : Client DB Viewer) n tasks :
  keys_ok (db_rows (w_db (cl_world c))) -> viewer_ok (db_rows (w_db (cl_world c))) n (cl_page c) (LoadUrl :: tasks) ->
  resumes c n tasks (load_url (Some user) props c).
Proof.
  intros Hk Hv. unfold resumes, load_url, try_catch. rewrite run_bind.
  destruct (viewer_presign (Some user) props c) as [c1 [u|e]] eqn:Hp; apply presign_spec in Hp as (Hpage & Hdb & Hl); try done.
  2:{ unfold load_catch, load_end, set_page, modify, mbind, M_bind, mret, M_ret. simpl. rewrite Hpage, app_nil_r.
      split; [done|]. eapply viewer_ok_end in Hv as [_ Hv]. exact Hv. }
  specialize (Hl u eq_refl). unfold load_end, set_page, modify, mbind, M_bind, mret, M_ret.
  destruct ((_ === KImage) || _ || _) eqn:Hkind; simpl; (split; [done|]); rewrite Hpage; destruct Hv as [Hlo Hu Hb Hf Hkn Hc Ho].
  - rewrite app_nil_r. rewrite pending_urls_cons in Hc. split; simpl; try done.
    + intros u' Hu'. by simplify_eq.
    + intros u' Hin. apply Hb. by right.
    + intros Hne. destruct (Hkn Hne). eauto.
    + simpl in *. lia.
  - apply orb_false_iff in Hkind as [Hkind Hbig]. apply orb_false_iff in Hkind as [Hi Hbin]. bool_prop.
    assert (Hinl : inlinable).
    { split.
      - destruct (file_kind _ _); try done; set_solver.
      - intros k Hn. unfold tooBig in Hbig. rewrite Hn in Hbig. unfold INLINE_LIMIT in Hbig. lia. }
    split; simpl; try done.
    + intros _. exists (LoadBody u). split; [|done]. apply elem_of_app. right. by left.
    + intros u' Hu'. by simplify_eq.
    + intros u' [Hin|Hin%list_elem_of_singleton]%elem_of_app; apply elem_of_app; [left; apply Hb; by right|right].
      injection Hin as ->. by left.
    + apply Forall_app. split; [done|]. by apply Forall_singleton.
    + rewrite length_app, pending_urls_snoc. rewrite pending_urls_cons in Hc. simpl in *. lia.
Qed.

Lemma load_body_ok (c : Client DB Viewer) n tasks u got :
  viewer_ok (db_rows (w_db (cl_world c))) n (cl_page c) (LoadBody u :: tasks) ->
  resumes c n tasks (load_body props got c).
Proof.
  intros Hv. pose proof (fun e => viewer_ok_end _ _ _ _ _ e Hv) as Hend.
  assert (Hset : forall e, viewer_ok (db_rows (w_db (cl_world c))) n (fv_done (fv_set_error e (cl_page c))) (tasks ++ [])).
  { intros e. rewrite app_nil_r. apply Hend. }
  destruct (Hend "") as [[Hlo Hu Hb Hf Hkn Hc Ho] _].
  unfold resumes, load_body, load_catch, load_end, try_catch, await, throw, set_page, modify, mbind, M_bind, mret, M_ret.
  destruct got as [body|e]; [|by split; [|apply Hset]].
  destruct (file_kind _ _); simpl; try destruct (csv_parse body); simpl;
    (split; [done|]); try apply Hset; rewrite app_nil_r; by split.
Qed.

Lemma download_url_ok (c : Client DB Viewer) n tasks :
  keys_ok (db_rows (w_db (cl_world c))) -> viewer_ok (db_rows (w_db (cl_world c))) n (cl_page c) (DownloadUrl :: tasks) ->
  resumes c n tasks (download_url (Some user) props c).
Proof.
  intros Hk [Hlo Hu Hb Hf Hkn Hc Ho]. unfold resumes, download_url. rewrite run_bind.
  assert (Hrest : viewer_ok (db_rows (w_db (cl_world c))) n (cl_page c) tasks).
  { split; try done.
    - intros Hl. destruct (Hlo Hl) as (t & [->|Ht]%elem_of_cons & Hp); [done|by exists t].
    - intros u Hin. apply Hb. by right. }
  destruct (viewer_presign (Some user) props c) as [c1 [u|e]] eqn:Hp; apply presign_spec in Hp as (Hpage & Hdb & Hl); try done;
    unfold set_page, modify, mbind, M_bind, mret, M_ret; simpl; rewrite Hpage, app_nil_r; (split; [done|]); [|done].
  destruct Hrest as [Hlo' Hu' Hb' Hf' Hkn' Hc' Ho']. split; simpl; try done.
  apply Forall_app. split; [done|]. apply Forall_singleton. by apply Hl.
Qed.

(** A toggle begins a load only while no URL is known; then nothing was read yet. *)
Lemma toggle_ok (c : Client DB Viewer) n n' tasks :
  viewer_ok (db_rows (w_db (cl_world c))) n (cl_page c) tasks ->
  n <= n' -> (fv_expanded (cl_page c) = false -> S (pending_urls tasks) <= n') ->
  resumes c n' tasks (toggle c).
Proof.
  intros [Hlo Hu Hb Hf Hkn Hc Ho] Hn Hn'.
  unfold resumes, toggle, load, set_page, modify, get_state, mbind, M_bind, mret, M_ret. simpl.
  destruct (negb (fv_expanded _) && _) eqn:Hexp; simpl; (split; [done|]).
  - apply andb_true_iff in Hexp as [Hexp Hnone]. apply negb_true_iff in Hexp. bool_prop.
    assert (Hempty : fv_fetched (cl_page c) = []).
    { destruct (fv_fetched (cl_page c)) as [|u l]; [done|]. destruct Hkn as [_ [u' Hu']]; [done|congruence]. }
    specialize (Hn' Hexp). split; simpl; try done.
    + intros _. exists LoadUrl. split; [|done]. apply elem_of_app. right. by left.
    + intros u [Hin|Hin%list_elem_of_singleton]%elem_of_app; [by apply Hb|done].
    + rewrite Hempty, pending_urls_snoc. simpl. lia.
  - rewrite app_nil_r. split; simpl; try done. lia.
Qed.

Lemma view_download_ok (c : Client DB Viewer) n tasks :
  viewer_ok (db_rows (w_db (cl_world c))) n (cl_page c) tasks -> resumes c n tasks (view_download c).
Proof.
  intros [Hlo Hu Hb Hf Hkn Hc Ho]. unfold resumes, view_download, get_state, set_page, modify, mbind, M_bind, mret, M_ret.
  destruct (fv_url (cl_page c)) as [u|] eqn:Hurl; simpl; (split; [done|]).
  - rewrite app_nil_r. split; simpl; rewrite ?Hurl; try done. apply Forall_app. split; [done|]. apply Forall_singleton. by apply Hu.
  - split; simpl; rewrite ?Hurl; try done.
    + intros Hl. destruct (Hlo Hl) as (t & Ht & ?). exists t. split; [|done]. apply elem_of_app. by left.
    + intros u [Hin|Hin%list_elem_of_singleton]%elem_of_app; [by apply Hb|done].
    + rewrite pending_urls_snoc. simpl. lia.
Qed.

Abbreviation step := (viewer_step (Some user) props).
Abbreviation rows_of m := (db_rows (w_db (cl_world (vm_client m)))).

Definition machine_ok (n : nat) (m : ViewerMachine DB) : Prop :=
  viewer_ok (rows_of m) n (cl_page (vm_client m)) (vm_tasks m).

Lemma viewer_step_ok n n' m e :
  keys_ok (rows_of m) -> machine_ok n m -> n <= n' ->
  (e = Toggle -> fv_expanded (cl_page (vm_client m)) = false -> S (pending_urls (vm_tasks m)) <= n') ->
  w_db (cl_world (vm_client (step m e))) = w_db (cl_world (vm_client m)) /\ machine_ok n' (step m e).
Proof.
  intros Hk Hv Hn Hn'. unfold machine_ok in *.
  enough (Hr : w_db (cl_world (vm_client (step m e))) = w_db (cl_world (vm_client m)) /\
    viewer_ok (rows_of m) n' (cl_page (vm_client (step m e))) (vm_tasks (step m e))).
  { destruct Hr as [Hdb Hok]. split; [done|]. by rewrite Hdb. }
  assert (Hv' : viewer_ok (rows_of m) n' (cl_page (vm_client m)) (vm_tasks m)).
  { destruct Hv. split; try done. lia. }
  destruct e as [| |i got]; simpl.
  - apply (toggle_ok _ n); auto.
  - by apply view_download_ok.
  - destruct (vm_tasks m !! i) as [t|] eqn:Hi; [|by split].
    apply (viewer_ok_perm _ _ _ _ (t :: delete i (vm_tasks m))) in Hv'; [|by apply delete_Permutation].
    destruct t; [by apply load_url_ok|by eapply load_body_ok|by apply download_url_ok].
Qed.

(** The expansions among the events, from a viewer that is [expanded] or not. *)
Fixpoint expansions (expanded : bool) (es : list ViewerEvent) : nat :=
  match es with
  | [] => 0
  | Toggle :: es => (if expanded then 0 else 1) + expansions (negb expanded) es
  | _ :: es => expansions expanded es
  end.

(** The user never clicks the file's name while a load of it is pending. *)
Fixpoint patient (m : ViewerMachine DB) (es : list ViewerEvent) : Prop :=
  match es with
  | [] => True
  | e :: es => (e = Toggle -> Forall (fun t => pending_load t = false) (vm_tasks m)) /\ patient (step m e) es
  end.

Lemma step_expanded m e :
  fv_expanded (cl_page (vm_client (step m e))) =
    match e with Toggle => negb (fv_expanded (cl_page (vm_client m))) | _ => fv_expanded (cl_page (vm_client m)) end.
Proof.
  assert (Hpre : forall c : Client DB Viewer, cl_page (viewer_presign (Some user) props c).1 = cl_page c).
  { intros c. unfold viewer_presign, fetch, expect, mbind, M_bind, throw, mret, M_ret. repeat (case_match; simplify_eq/=; try done). }
  destruct e as [| |i got]; simpl.
  - unfold toggle, load, set_page, modify, get_state, mbind, M_bind, mret, M_ret. simpl. by case_match.
  - unfold view_download, set_page, modify, get_state, mbind, M_bind, mret, M_ret. simpl. by case_match.
  - destruct (vm_tasks m !! i) as [[|u|]|]; simpl; [| | |done].
    + specialize (Hpre (vm_client m)). unfold load_url, try_catch. rewrite run_bind.
      destruct (viewer_presign _ _ _) as [c1 [u|e]]; simpl in Hpre;
        unfold load_catch, load_end, set_page, modify, mbind, M_bind, mret, M_ret; simpl; [|by rewrite Hpre].
      destruct (_ || _ || _); simpl; by rewrite Hpre.
    + unfold load_body, load_catch, load_end, try_catch, await, throw, set_page, modify, mbind, M_bind, mret, M_ret.
      destruct got; [|done]. destruct (file_kind _ _); simpl; try done. by destruct (csv_parse a).
    + specialize (Hpre (vm_client m)). unfold download_url. rewrite run_bind.
      destruct (viewer_presign _ _ _) as [c1 [u|e]]; simpl in Hpre;
        unfold set_page, modify, mbind, M_bind, mret, M_ret; simpl; by rewrite Hpre.
Qed.

Lemma machine_run es : forall n m,
  keys_ok (rows_of m) -> machine_ok n m ->
  let m' := foldl step m es in
  w_db (cl_world (vm_client m')) = w_db (cl_world (vm_client m)) /\
  machine_ok (n + expansions (fv_expanded (cl_page (vm_client m))) es) m'.
Proof.
  induction es as [|e es IH]; intros n m Hk Hok m'; subst m'; simpl; [by rewrite Nat.add_0_r|].
  set (d := match e with Toggle => if fv_expanded (cl_page (vm_client m)) then 0 else 1 | _ => 0 end).
  destruct (viewer_step_ok n (n + d) m e) as [Hdb Hok']; [done|done|lia| |].
  { intros -> Hf. unfold d. rewrite Hf. destruct Hok as [_ _ _ _ _ Hc _]. lia. }
  destruct (IH (n + d) (step m e)) as [Hdb' Hok'']; [by rewrite Hdb|done|].
  split; [by rewrite Hdb'|]. rewrite step_expanded in Hok''.
  revert Hok''. subst d. destruct e; simpl; by rewrite <-?Nat.add_assoc, ?Nat.add_0_l.
Qed.

Lemma machine_run_patient es : forall m,
  keys_ok (rows_of m) -> machine_ok 1 m -> patient m es -> machine_ok 1 (foldl step m es).
Proof.
  induction es as [|e es IH]; intros m Hk Hok; simpl; [done|]. intros [Hp Hes].
  destruct (viewer_step_ok 1 1 m e) as [Hdb Hok']; [done|done|lia| |apply IH; [by rewrite Hdb|done|done]].
  intros He _. specialize (Hp He). enough (pending_urls (vm_tasks m) = 0) by lia.
  induction (vm_tasks m) as [|t tasks IHt]; [done|]. apply Forall_cons in Hp as [Ht Hp].
  rewrite pending_urls_cons, (IHt Hp). by destruct t.
Qed.

(** C24. The viewer's downloads.  Whatever the user clicks, and whenever and however the
    suspended requests are answered, every URL the viewer keeps, opens or reads is the
    presigned URL of a stored file of this run with this name that the user may see;
    bytes are read into the page only when the file is of a kind the page shows as text
    and is not recorded as larger than 2 MiB (a file of unrecorded size counts as small);
    they are read at most as often as the file is expanded, and at most once for a user
    who waits for a pending load before clicking the name again; the database is not
    changed, and with no request pending the viewer is not left loading. *)
Theorem viewer_downloads c es :
  keys_ok (db_rows (w_db (cl_world c))) -> cl_page c = initial_viewer ->
  let m0 := mkViewerMachine c [] in
  let m := foldl step m0 es in
  let v := cl_page (vm_client m) in
  w_db (cl_world (vm_client m)) = w_db (cl_world c) /\
  (forall u, fv_url v = Some u \/ u ∈ fv_opened v \/ u ∈ fv_fetched v -> legit (db_rows (w_db (cl_world c))) u) /\
  (fv_fetched v <> [] -> inlinable) /\
  length (fv_fetched v) <= expansions false es /\
  (patient m0 es -> length (fv_fetched v) <= 1) /\
  (vm_tasks m = [] -> fv_loading v = false).
Proof.
  intros Hk Hinit m0 m v.
  assert (Hok : forall n, machine_ok n m0).
  { intros n. unfold machine_ok. simpl. rewrite Hinit. split; simpl; try done; try constructor.
    - by intros u ?%elem_of_nil.
    - unfold pending_urls. simpl. lia. }
  destruct (machine_run es 0 m0 Hk (Hok 0)) as [Hdb Hrun]. simpl in Hdb. fold m in Hdb, Hrun.
  unfold machine_ok in Hrun. rewrite Hdb in Hrun. fold v in Hrun. simpl in Hrun. rewrite Hinit in Hrun.
  destruct Hrun as [Hlo Hu Hb Hf Hkn Hc Ho]. rewrite Forall_forall in Hf, Ho. split_and!; [done| | | | |].
  - intros u [?|[?|?]]; eauto.
  - intros Hne. by apply Hkn.
  - simpl in Hc. lia.
  - intros Hp. destruct (machine_run_patient es m0 Hk (Hok 1) Hp) as [_ _ _ _ _ Hc1 _]. fold m v in Hc1. lia.
  - intros Hnil. destruct (fv_loading v); [|done]. destruct (Hlo eq_refl) as (t & Ht & _). rewrite Hnil in Ht. by apply elem_of_nil in Ht.
Qed.
End Spec.
