(* ===== verification/Views.v ===== *)
(** * What the pages show and offer

    (The templates of [web_ui/pages/results/[id].vue], [results/index.vue],
    [pipelines/index.vue], [data/index.vue], and [blocks/index.vue] with its filter.)
    A view is what a template draws from the refs of its page, without the styling:
    the texts, the links, and the controls with their conditions. *)

From S2P Require Export ConnectPage Polling DataPage FileViewer Uploads.
From Stdlib Require Import Ascii.

(** A nullable text under [v-if]. *)
Definition shown (o : option string) : option string :=
  match o with Some s => if truthy s then Some s else None | None => None end.

(** ** The page of a run *)

Record LogView := mkLogView { lv_block : option string; lv_stdout : option string; lv_stderr : option string }.

Definition log_view (l : RunLogRow) : LogView :=
  mkLogView (shown (rl_blockId l)) (shown (rl_stdout l)) (shown (rl_stderr l)).

(** The panel of the owner: the buttons, each with whether it is drawn as the current
    visibility, the e-mail field, whether Share is busy, and the message. *)
Record SharingView := mkSharingView {
  sg_buttons : list (Visibility * bool); sg_email : string; sg_busy : bool; sg_message : option string }.

Definition sharing_view (visibility : Visibility) (p : SharePanel) : SharingView :=
  mkSharingView ((fun v => (v, visibility === v)) <$> [Private; Shared; Public]) (sp_email p) (sp_busy p) (shown (sp_msg p)).

(** [rp_failure] is the failed run's message, [rp_zip] whether the archive is offered,
    [rp_no_files] the text in place of the files. *)
Record RunPanel := mkRunPanel {
  rp_title : string; rp_id : string; rp_badge : string * string; rp_refreshing : bool;
  rp_failure : option string; rp_zip : bool; rp_no_files : option string;
  rp_files : list FileProps; rp_logs : list LogView; rp_sharing : option SharingView }.

Inductive RunView := RunNotFound | RunBlank | RunShown (p : RunPanel).

Definition file_props (d : RunWithDetails) (f : RunFileRow) : FileProps :=
  mkFileProps (rn_id (run d)) (rf_name f) (rf_mimeType f) (rf_sizeBytes f).

Definition run_panel (pending : bool) (d : RunWithDetails) (user : option SessionUser) (share : SharePanel) : RunPanel :=
  let r := run d in
  let has_files := negb (length (files d) === 0) in
  mkRunPanel (js_or (rn_name r ⁇ "") "Untitled run") (rn_id r) (statusBadge (Some (rn_status r)))
    (pending && inFlight (Some d))
    (if rn_status r === Failed then shown (rn_error r) else None)
    has_files
    (if has_files then None
     else Some (if inFlight (Some d) then "No files yet — the run is still going." else "No output files."))
    (file_props d <$> files d) (log_view <$> logs d)
    (if isOwner (Some d) user then Some (sharing_view (rn_visibility r) share) else None).

Definition run_view (error pending : bool) (r : option RunWithDetails) (user : option SessionUser) (share : SharePanel) : RunView :=
  if error then RunNotFound
  else match r with Some d => RunShown (run_panel pending d user share) | None => RunBlank end.

(** ** The lists *)

Inductive ListView (A : Type) := ListLoading | ListEmpty (message : string) | ListRows (l : list A).
Arguments ListLoading {A}. Arguments ListEmpty {A}. Arguments ListRows {A}.

Definition list_view {A B} (message : string) (draw : A -> B) (pending : bool) (l : list A) : ListView B :=
  if pending then ListLoading
  else match l with [] => ListEmpty message | _ => ListRows (draw <$> l) end.

(** [rk_time] is the time that is printed. *)
Record RunCard := mkRunCard {
  rk_to : string; rk_title : string; rk_id : string; rk_time : Z; rk_badge : string * string }.

Definition run_card (r : RunRow) : RunCard :=
  mkRunCard ("/results/" +:+ rn_id r) (js_or (rn_name r ⁇ "") "Untitled run") (rn_id r)
    (rn_finishedAt r ⁇ rn_createdAt r) (statusBadge (Some (rn_status r))).

Definition runs_view : bool -> list RunRow -> ListView RunCard :=
  list_view "No runs here yet. Build a pipeline in the editor and submit it." run_card.

Record PipelineCard := mkPipelineCard {
  pk_name : string; pk_version : string; pk_badge : string * string; pk_description : string;
  pk_open : string; pk_delete : option string }.

(** [pk_open] and [pk_delete] are the ids the buttons act on, if enabled. *)
Definition pipeline_card (tab : string) (p : PipelineRow) : PipelineCard :=
  mkPipelineCard (pl_name p) ("v" +:+ pl_version p) (pipelineBadge (pl_visibility p))
    (js_or (pl_description p ⁇ "") "No description") (pl_id p)
    (if tab === "mine" then Some (pl_id p) else None).

Definition pipelines_view (tab : string) : bool -> list PipelineRow -> ListView PipelineCard :=
  list_view "No pipelines here yet." (pipeline_card tab).

Record DataCard := mkDataCard {
  dk_name : string; dk_size : string; dk_type : string; dk_visibility : Visibility;
  dk_download : string; dk_delete : option string }.

Definition data_card (tab : string) (d : DataFileRow) : DataCard :=
  mkDataCard (df_name d) (formatBytes (df_sizeBytes d)) (df_mimeType d) (df_visibility d) (df_id d)
    (if tab === "mine" then Some (df_id d) else None).

Definition data_view (tab : string) : bool -> list DataFileRow -> ListView DataCard :=
  list_view "Nothing here yet." (data_card tab).

(** The panel above the table: the progress while a file is uploaded, and the error. *)
Record UploadPanel := mkUploadPanel { up_progress : option string; up_width : option string; up_error : option string }.

Definition upload_panel (p : DataPage) : UploadPanel :=
  let percent := pretty (dp_uploadProgress p) +:+ "%" in
  mkUploadPanel (if dp_uploading p then Some ("Uploading… " +:+ percent) else None)
    (if dp_uploading p then Some percent else None) (shown (dp_errorMessage p)).

(** ** The block catalogue *)

(** The filter: a text, a kind ([None] is "all"), network blocks only. *)
Record BlockFilter := mkBlockFilter { bf_search : string; bf_kind : option BlockKind; bf_networkOnly : bool }.

Definition haystack (b : BlockListItem) : string :=
  toLowerCase (bl_name b +:+ " " +:+ bl_label b +:+ " " +:+ (bl_description b ⁇ "")).

Definition block_matches (f : BlockFilter) (b : BlockListItem) : bool :=
  if match bf_kind f with Some k => negb (bl_kind b === k) | None => false end then false
  else if bf_networkOnly f && negb (bl_network b) then false
  else if truthy (bf_search f) then includes (toLowerCase (bf_search f)) (haystack b)
  else true.

Definition filtered (f : BlockFilter) (blocks : list BlockListItem) : list BlockListItem :=
  js_filter (block_matches f) blocks.

(** The collection of a block: the text of its id before the first dot. *)
Fixpoint collection (id : string) : option string :=
  match id with
  | EmptyString => None
  | String c id' => if c === "."%char then Some "" else String c <$> collection id'
  end.

(** [new Set()], [set.add] in turn and [Array.from(set).sort()]. *)
Definition set_add (c : string) (set : list string) : list string :=
  if bool_decide (c ∈ set) then set else set ++ [c].

Definition collections (blocks : list BlockListItem) : list string :=
  js_sort (foldl (fun set b => match collection (bl_id b) with Some c => set_add c set | None => set end) [] blocks).

(** The collections of the catalogue, each once and in order. *)
Theorem collections_spec blocks :
  (forall c, c ∈ collections blocks <-> exists b, b ∈ blocks /\ collection (bl_id b) = Some c) /\
  NoDup (collections blocks) /\ Sorted js_before (collections blocks).
Proof.
  unfold collections. set (add := fun set b => match collection (bl_id b) with Some c => set_add c set | None => set end).
  assert (Hfold : forall set, (forall c, c ∈ foldl add set blocks <->
      c ∈ set \/ exists b, b ∈ blocks /\ collection (bl_id b) = Some c) /\
    (NoDup set -> NoDup (foldl add set blocks))).
  { induction blocks as [|b blocks IH]; intros set; simpl; [split; [set_solver|done]|].
    destruct (IH (add set b)) as [Hin Hnd]. split.
    - intros c. rewrite Hin. unfold add at 1, set_add.
      destruct (collection (bl_id b)) as [d|] eqn:Hd; [case_bool_decide|]; set_solver.
    - intros Hs. apply Hnd. unfold add, set_add. destruct (collection (bl_id b)) as [d|]; [|done].
      case_bool_decide; [done|]. apply NoDup_app. split; [done|]. split; [set_solver|apply NoDup_singleton]. }
  destruct (Hfold []) as [Hin Hnd]. split; [|split].
  - intros c. rewrite elem_js_sort, Hin. set_solver.
  - rewrite js_sort_perm. by apply Hnd, NoDup_nil.
  - apply js_sort_sorted.
Qed.

Definition kindOptions : list (string * string) :=
  [("all", "All kinds"); ("standard", "Standard"); ("map", "Map"); ("reduce", "Reduce")].

Record BlockCard := mkBlockCard {
  bc_to : string; bc_label : string; bc_kind : string * BlockKind; bc_net : bool; bc_id : string; bc_description : string }.

Definition block_card (encode : string -> string) (b : BlockListItem) : BlockCard :=
  mkBlockCard ("/blocks/" +:+ encode (bl_name b)) (bl_label b)
    (match bl_kind b with MapKind => "blue" | ReduceKind => "green" | Standard => "gray" end, bl_kind b)
    (bl_network b) (bl_id b) (js_or (bl_description b ⁇ "") "No description").

Definition blocks_view (encode : string -> string) (f : BlockFilter) (pending : bool)
    (blocks : list BlockListItem) : ListView BlockCard :=
  list_view "No blocks match these filters." (block_card encode) pending (filtered f blocks).

(** ** The offers and the server *)

Lemma entry_names_length seen l : length (entry_names seen l) = length l.
Proof.
  revert seen. induction l as [|f l IH]; intros seen; [done|]. simpl.
  destruct (entryName seen (rf_name f)). simpl. by rewrite IH.
Qed.

Section Offers.
Context {DB : Type} `{SqlLaws DB} {env : Env} {cfg : RouterConfig}.
Context (text_le_total : forall a b, text_le a b = true \/ text_le b a = true).
Context (text_le_trans : forall a b c, text_le a b = true -> text_le b c = true -> text_le a c = true).
Context (user : SessionUser) (w : World DB).
Context (Hk : keys_ok (db_rows (w_db w))).

(** The run behind an answer. *)
Lemma run_answer_row id d :
  run_answer (Some user) id w = Some d ->
  truthy id = true /\ RunRepo.getWithDetails text_le id (u_id user) (w_db w) = Some d /\
  rn_id (run d) = id /\ discloses_only (db_rows (w_db w)) (u_id user) (RRunDetails d).
Proof.
  unfold run_answer, handle, respond, get_run, requireUser, orThrow, routerId, read, throw, mbind, M_bind, mret, M_ret.
  cbn [default from_option]. destruct (truthy id); [|done].
  destruct (RunRepo.getWithDetails text_le id (u_id user) (w_db w)) as [d'|] eqn:E; [|done].
  simpl. intros Heq. injection Heq as <-. split; [done|]. split; [done|].
  by apply (details_visible text_le_total text_le_trans (w_db w) (u_id user)).
Qed.

Lemma set_visibility_owned r v :
  truthy (rn_id r) = true -> r ∈ rows (db_rows (w_db w)) TRuns -> rn_ownerId r = u_id user ->
  exists w', handle (Some user) (PutRun (Some (rn_id r)) (Some v)) w =
    (w', Ok (RRun (visibility_patch (clock (w_ticks w)) v r))).
Proof.
  intros Ht Hr Ho. destruct (setVisibility_owned (w_db w) (clock (w_ticks w)) (u_id user) v r Hk Hr Ho)
    as (db' & Hrun & _).
  unfold handle, respond, put_run, requireUser, orThrow, routerId, now, write, mbind, M_bind, mret, M_ret.
  rewrite Ht. cbn [w_db]. rewrite Hrun. eauto.
Qed.

Lemma set_visibility_foreign r v :
  truthy (rn_id r) = true -> r ∈ rows (db_rows (w_db w)) TRuns -> rn_ownerId r <> u_id user ->
  exists w', handle (Some user) (PutRun (Some (rn_id r)) (Some v)) w = (w', Throw (Http 403 "Not your run")) /\
    same_rows (db_rows (w_db w')) (db_rows (w_db w)).
Proof.
  intros Ht Hr Ho. destruct (setVisibility_refused (w_db w) (clock (w_ticks w)) (rn_id r) (u_id user) v Hk)
    as (db' & Hrun & Hs).
  { intros (r' & Hr' & Hid & Ho'). simpl in *. apply Ho. rewrite <-Ho'. f_equal.
    by apply (row_unique (R := run_resource) (w_db w)). }
  unfold handle, respond, put_run, requireUser, orThrow, routerId, now, write, throw, mbind, M_bind, mret, M_ret.
  rewrite Ht. cbn [w_db]. rewrite Hrun. eexists. split; [reflexivity|done].
Qed.

(** Sharing with an e-mail address, for the owner of the run and for others. *)
Lemma share_by_email r email permission :
  truthy (rn_id r) = true -> r ∈ rows (db_rows (w_db w)) TRuns -> truthy email = true ->
  let share := handle (Some user) (ShareRun (Some (rn_id r)) (Some email) permission) w in
  match findUser email (w_db w) with
  | None => share = (w, Throw (Http 404 "No user with that email"))
  | Some target => exists w',
      (rn_ownerId r = u_id user -> share = (w', Ok ROk) /\
         shared_with (R := run_resource) (db_rows (w_db w')) (rn_id r) (us_id target)) /\
      (rn_ownerId r <> u_id user -> share = (w', Throw (Http 403 "Not your run")) /\ w_db w' = w_db w)
  end.
Proof.
  intros Ht Hr He share. subst share.
  unfold handle, Router.done, respond, share_run, requireUser, orThrow, routerId, now, read, write, guard_http, throw,
    mbind, M_bind, mret, M_ret. rewrite Ht. cbn [otruthy negb default from_option id]. rewrite He. cbn [negb].
  destruct (findUser email (w_db w)) as [target|] eqn:Hu; [|done]. cbn [w_db].
  destruct (run_shares (w_db w) Hk) as [Hno Hyes].
  destruct (decide (rn_ownerId r = u_id user)) as [Ho|Ho].
  - destruct (Hyes (clock (w_ticks w)) (rn_id r) (u_id user) (us_id target) (permission ⁇ View)) as (db' & Hrun & _ & Hs).
    + exists r. by split_and!.
    + unfold findUser in Hu. apply first_row_Some, (elem_select TUsers) in Hu as [_ Hu]. unfold has_user.
      apply js_some_true. exists target. split; [done|]. by bool_prop.
    + rewrite Hrun. eexists. split; [|done]. intros _. split; [reflexivity|]. apply Hs. by right.
  - assert (RunRepo.share (clock (w_ticks w)) (rn_id r) (u_id user) (us_id target) (permission ⁇ View) (w_db w) = (w_db w, Ok false)) as Hrun.
    { apply Hno. intros (r' & Hr' & Hid & Ho'). simpl in *. apply Ho. rewrite <-Ho'. f_equal.
      by apply (row_unique (R := run_resource) (w_db w)). }
    rewrite Hrun. eexists. split; [done|]. intros _. split; reflexivity.
Qed.

(** A file of a run the user sees has a URL. *)
Lemma file_served d f :
  discloses_only (db_rows (w_db w)) (u_id user) (RRunDetails d) -> truthy (rn_id (run d)) = true ->
  f ∈ files d -> truthy (rf_name f) = true -> utf8 (rf_name f) = true ->
  exists url mime size, handle (Some user) (GetRunFile (Some (rn_id (run d))) (Some (encodeURIComponent (rf_name f))) None) w
    = (w, Ok (RFile (FileUrl url (rf_name f) mime size))).
Proof.
  intros ([Hr Hview] & Hfiles & _) Ht Hf Hn Hu. destruct (Hfiles f Hf) as [[Hin _] Hid].
  destruct (run_reads (w_db w) Hk) as [Hget _ _ _].
  assert (getByIdForUser (rn_id (run d)) (u_id user) (w_db w) = Some (run d)) as Hrun by (by apply Hget).
  destruct (RunRepo.getFile (rn_id (run d)) (rf_name f) (w_db w)) as [g|] eqn:Hg.
  - unfold handle, respond, get_file, requireUser, orThrow, read, mbind, M_bind, mret, M_ret.
    simpl. rewrite Ht, encode_truthy, Hn. simpl. rewrite Hrun, decode_encodeURI, Hg by done. simpl.
    unfold RunRepo.getFile in Hg. apply first_row_Some in Hg. apply (elem_select TRunFiles) in Hg as [Hp _].
    bool_prop. simpl in *. eexists _, _, _. do 4 f_equal. congruence.
  - unfold RunRepo.getFile in Hg. rewrite (first_row_select_None TRunFiles) in Hg.
    specialize (Hg f Hin). simpl in Hg. by rewrite Hid, !eqb_refl_js in Hg.
Qed.

Lemma zip_served id d :
  truthy id = true -> RunRepo.getWithDetails text_le id (u_id user) (w_db w) = Some d -> files d <> [] ->
  exists entries, handle (Some user) (GetRunZip (Some id)) w = (w, Ok (RArchive entries)) /\
    length entries = length (files d).
Proof.
  intros Ht Hd Hne. exists (entry_names [] (files d)). split; [|apply entry_names_length].
  unfold handle, respond, get_zip, requireUser, orThrow, routerId, read, guard_http, mbind, M_bind, mret, M_ret.
  rewrite Ht, Hd. by rewrite bool_decide_eq_true_2.
Qed.

Lemma delete_pipeline_owned p :
  truthy (pl_id p) = true -> p ∈ rows (db_rows (w_db w)) TPipelines -> pl_ownerId p = u_id user ->
  exists w', handle (Some user) (DeletePipeline (Some (pl_id p))) w = (w', Ok ROk) /\
    forall y, y ∈ rows (db_rows (w_db w')) TPipelines <->
      y ∈ rows (db_rows (w_db w)) TPipelines /\ pl_id y <> pl_id p.
Proof.
  intros Ht Hp Ho. destruct (pipeline_delete_owned (w_db w) p Hk Hp) as (db' & Hrun & Hrows & _).
  unfold handle, Router.done, respond, delete_pipeline, requireUser, orThrow, routerId, write, guard_http.
  unfold mbind, M_bind, mret, M_ret. rewrite Ht, <-Ho, Hrun. eexists. split; [reflexivity|exact Hrows].
Qed.

Lemma get_pipeline_served p :
  truthy (pl_id p) = true -> sees_pipeline (db_rows (w_db w)) (u_id user) p ->
  handle (Some user) (GetPipeline (Some (pl_id p))) w = (w, Ok (RPipeline p)).
Proof.
  intros Ht [Hp Hv]. destruct (pipeline_reads (w_db w) Hk) as [Hg _ _ _].
  assert (PipelineRepo.getByIdForUser (pl_id p) (u_id user) (w_db w) = Some p) as Hget by (by apply Hg).
  unfold handle, respond, get_pipeline, requireUser, orThrow, routerId, read, mbind, M_bind, mret, M_ret.
  by rewrite Ht, Hget.
Qed.

(** The rows of a list, and whose they are on the first tab. *)
Lemma listed_pipelines tab w' l p :
  handle (Some user) (ListPipelines (Some tab)) w = (w', Ok (RPipelines l)) -> p ∈ l ->
  sees_pipeline (db_rows (w_db w)) (u_id user) p /\ (tab = "mine" -> pl_ownerId p = u_id user).
Proof.
  intros Hrun Hp. destruct (pipeline_reads (w_db w) Hk) as [_ Hown Hview _].
  unfold handle, respond, list_pipelines, requireUser, orThrow, read, mbind, M_bind, mret, M_ret in Hrun. simpl in Hrun.
  destruct (tab === "shared") eqn:E1; [|destruct (tab === "public") eqn:E2]; injection Hrun as _ <-; bool_prop;
    (split; [apply Hview; auto|]); intros Htab; try congruence. by apply Hown in Hp as [_ ?].
Qed.

Lemma listed_data tab w' l d :
  handle (Some user) (ListData (Some tab)) w = (w', Ok (RDataFiles l)) -> d ∈ l ->
  sees_data (db_rows (w_db w)) (u_id user) d /\ (tab = "mine" -> df_ownerId d = u_id user).
Proof.
  intros Hrun Hd. destruct (dataFile_reads (w_db w) Hk) as [_ Hown Hview _].
  unfold handle, respond, list_data, requireUser, orThrow, read, mbind, M_bind, mret, M_ret in Hrun. simpl in Hrun.
  destruct (tab === "shared") eqn:E1; [|destruct (tab === "public") eqn:E2]; injection Hrun as _ <-; bool_prop;
    (split; [apply Hview; auto|]); intros Htab; try congruence. by apply Hown in Hd as [_ ?].
Qed.

Lemma listed_runs tab w' l r :
  handle (Some user) (ListRuns (Some tab)) w = (w', Ok (RRuns l)) -> r ∈ l ->
  sees_run (db_rows (w_db w)) (u_id user) r.
Proof.
  intros Hrun Hr. destruct (run_reads (w_db w) Hk) as [_ _ Hview _].
  unfold handle, respond, list_runs, requireUser, orThrow, read, mbind, M_bind, mret, M_ret in Hrun. simpl in Hrun.
  destruct (tab === "shared"); [|destruct (tab === "public")]; injection Hrun as _ <-; apply Hview; auto.
Qed.

Lemma run_page_served r :
  truthy (rn_id r) = true -> sees_run (db_rows (w_db w)) (u_id user) r ->
  exists d, run_answer (Some user) (rn_id r) w = Some d /\ run d = r.
Proof.
  intros Ht [Hr Hv]. destruct (run_reads (w_db w) Hk) as [Hg _ _ _].
  assert (RunRepo.getByIdForUser (rn_id r) (u_id user) (w_db w) = Some r) as Hget by (by apply Hg).
  unfold run_answer, handle, respond, get_run, requireUser, orThrow, routerId, read, RunRepo.getWithDetails.
  unfold mbind, M_bind, mret, M_ret. rewrite Ht, Hget. eexists. split; reflexivity.
Qed.

(** C15. The controls the pages offer, and what the server answers.  For rows whose ids and
    names are not empty: on the page of a run, every listed file can be shown, the
    archive is offered exactly when there are files and then has one entry per file, and
    the sharing panel is shown exactly when the server accepts a change of visibility,
    which then has the effect its button names; its Share button shares the run with the
    user of the e-mail address in the field, and is refused only when no user has that
    address; every card of the run list leads to a page that shows that run;
    every Open and Download button of the pipeline and data lists gets its row,
    and every Delete button that is enabled deletes it. *)
Theorem offered_actions_accepted :
  (forall id d panel, run_answer (Some user) id w = Some d ->
     exists p, run_view false false (Some d) (Some user) panel = RunShown p /\ rp_id p = id /\
       (forall f, f ∈ rp_files p -> truthy (fp_name f) = true -> utf8 (fp_name f) = true ->
          exists url mime size,
            handle (Some user) (GetRunFile (Some (fp_runId f)) (Some (encodeURIComponent (fp_name f))) None) w =
              (w, Ok (RFile (FileUrl url (fp_name f) mime size)))) /\
       (rp_zip p = true <-> rp_files p <> []) /\
       (rp_zip p = true -> exists entries, handle (Some user) (GetRunZip (Some id)) w = (w, Ok (RArchive entries)) /\
          length entries = length (rp_files p)) /\
       let share e := handle (Some user) (ShareRun (Some id) (Some e) None) w in
       match rp_sharing p with
       | Some view =>
           (forall v solid, (v, solid) ∈ sg_buttons view ->
              exists w' r, handle (Some user) (PutRun (Some id) (Some v)) w = (w', Ok (RRun r)) /\
                rn_id r = id /\ rn_visibility r = v) /\
           (truthy (sg_email view) = true ->
              match findUser (sg_email view) (w_db w) with
              | Some target => exists w', share (sg_email view) = (w', Ok ROk) /\
                  shared_with (R := run_resource) (db_rows (w_db w')) id (us_id target)
              | None => share (sg_email view) = (w, Throw (Http 404 "No user with that email"))
              end)
       | None =>
           (forall v, exists w',
              handle (Some user) (PutRun (Some id) (Some v)) w = (w', Throw (Http 403 "Not your run")) /\
              same_rows (db_rows (w_db w')) (db_rows (w_db w))) /\
           (forall e, exists w' error, share e = (w', Throw error) /\ w_db w' = w_db w)
       end) /\
  (forall tab w' l cards c, handle (Some user) (ListRuns (Some tab)) w = (w', Ok (RRuns l)) ->
     runs_view false l = ListRows cards -> c ∈ cards -> truthy (rk_id c) = true ->
     exists d, run_answer (Some user) (rk_id c) w = Some d /\ run_card (run d) = c) /\
  (forall tab w' l cards c, handle (Some user) (ListPipelines (Some tab)) w = (w', Ok (RPipelines l)) ->
     pipelines_view tab false l = ListRows cards -> c ∈ cards -> truthy (pk_open c) = true ->
     (exists p, handle (Some user) (GetPipeline (Some (pk_open c))) w = (w, Ok (RPipeline p)) /\ pipeline_card tab p = c) /\
     forall id, pk_delete c = Some id ->
       exists w'', handle (Some user) (DeletePipeline (Some id)) w = (w'', Ok ROk) /\
         forall p, p ∈ rows (db_rows (w_db w'')) TPipelines -> pl_id p <> pk_open c) /\
  (forall tab w' l cards c, handle (Some user) (ListData (Some tab)) w = (w', Ok (RDataFiles l)) ->
     data_view tab false l = ListRows cards -> c ∈ cards -> truthy (dk_download c) = true ->
     (exists d url, handle (Some user) (GetData (Some (dk_download c))) w = (w, Ok (RDataUrl d url)) /\ data_card tab d = c) /\
     forall id, dk_delete c = Some id ->
       exists w'', handle (Some user) (DeleteData (Some id)) w = (w'', Ok ROk) /\
         forall d, d ∈ rows (db_rows (w_db w'')) TDataFiles -> df_id d <> dk_download c).
Proof.
  split; [|split; [|split]].
  - intros id d panel Hans. apply run_answer_row in Hans as (Ht & Hd & Hid & Hdis). eexists. split; [reflexivity|].
    split; [exact Hid|]. cbn [run_panel rp_files rp_zip rp_sharing]. split; [|split; [|split]].
    + intros f0 (f & -> & Hf)%list_elem_of_fmap. cbn [file_props fp_name fp_runId]. intros Hn Hu.
      apply (file_served d f); [done|by rewrite Hid|done|done|done].
    + destruct (files d); simpl; split; done.
    + intros Hz. rewrite length_fmap. apply zip_served; [done|done|]. by destruct (files d).
    + destruct Hdis as [[Hr _] _]. rewrite <-Hid in *.
      pose proof (fun e He => share_by_email (run d) e None Ht Hr He) as Hshare.
      unfold isOwner. simpl. case_bool_decide as Ho.
      * split.
        -- intros v solid _. destruct (set_visibility_owned (run d) v) as (w' & Hrun); [done|done|done|].
           eexists _, _. split; [exact Hrun|]. split; reflexivity.
        -- cbn [sg_email sharing_view]. intros He. specialize (Hshare (sp_email panel) He). cbv zeta in Hshare.
           destruct (findUser (sp_email panel) (w_db w)); [|exact Hshare].
           destruct Hshare as (w' & Hyes & _). exists w'. by apply Hyes.
      * split; [intros v; apply set_visibility_foreign; [done|done|congruence]|].
        intros e. destruct (truthy e) eqn:He.
        -- specialize (Hshare e He). cbv zeta in Hshare. destruct (findUser e (w_db w)); [|by eexists _, _].
           destruct Hshare as (w' & _ & Hno). eexists w', _. apply Hno. congruence.
        -- eexists w, _. split; [|done].
           unfold Router.done, respond, share_run, requireUser, orThrow, routerId, throw, mbind, M_bind, mret, M_ret.
           rewrite Ht. cbn [otruthy]. rewrite He. reflexivity.
  - intros tab w' l cards c Hrun Hview Hc Ht. unfold runs_view, list_view in Hview.
    destruct l as [|r0 l0] eqn:El; [done|]. rewrite <-El in *. injection Hview as <-.
    apply list_elem_of_fmap in Hc as (r & -> & Hr). cbn [run_card rk_id] in Ht |- *.
    destruct (run_page_served r Ht (listed_runs _ _ _ _ Hrun Hr)) as (d & Hd & Heq). exists d. by rewrite Heq.
  - intros tab w' l cards c Hrun Hview Hc Ht. unfold pipelines_view, list_view in Hview.
    destruct l as [|p0 l0] eqn:El; [done|]. rewrite <-El in *. injection Hview as <-.
    apply list_elem_of_fmap in Hc as (p & -> & Hp). cbn [pipeline_card pk_open pk_delete] in *.
    destruct (listed_pipelines _ _ _ _ Hrun Hp) as [Hsees Hmine]. split.
    + exists p. split; [by apply get_pipeline_served|done].
    + intros id. case_bool_decide as Htab; [|done]. intros Heq. injection Heq as <-.
      destruct (delete_pipeline_owned p Ht (proj1 Hsees) (Hmine Htab)) as (w2 & Hdel & Hrows).
      exists w2. split; [exact Hdel|]. intros y Hy. by apply Hrows in Hy as [_ ?].
  - intros tab w' l cards c Hrun Hview Hc Ht. unfold data_view, list_view in Hview.
    destruct l as [|d0 l0] eqn:El; [done|]. rewrite <-El in *. injection Hview as <-.
    apply list_elem_of_fmap in Hc as (d & -> & Hd). cbn [data_card dk_download dk_delete] in *.
    destruct (listed_data _ _ _ _ Hrun Hd) as [Hsees Hmine]. split.
    + exists d, (download (df_s3Key d)). split; [by apply get_data_serves|done].
    + intros id. case_bool_decide as Htab; [|done]. intros Heq. injection Heq as <-.
      destruct (delete_data_owned user d w Hk Ht (proj1 Hsees) (Hmine Htab)) as (w2 & Hdel & _ & Hrows & _).
      exists w2. split; [exact Hdel|]. intros y Hy. by apply Hrows in Hy as [_ ?].
Qed.
End Offers.

(** ** The filter of the catalogue *)

(** A text keeps what its extensions keep, and kinds split the list. *)
Lemma filtered_spec f blocks b :
  b ∈ filtered f blocks <->
  b ∈ blocks /\ (forall k, bf_kind f = Some k -> bl_kind b = k) /\
  (bf_networkOnly f = true -> bl_network b = true) /\
  (truthy (bf_search f) = true -> includes (toLowerCase (bf_search f)) (haystack b) = true).
Proof.
  unfold filtered. rewrite elem_of_js_filter. unfold block_matches.
  destruct (bf_kind f) as [k|], (bf_networkOnly f), (truthy (bf_search f)), (bl_network b); simpl;
    try (destruct (bl_kind b === k) eqn:E; bool_prop; simpl); naive_solver.
Qed.
