(* ===== verification/ListPages.v ===== *)
(** * The lists with tabs ([web_ui/pages/results/index.vue], [pipelines/index.vue], [data/index.vue])

    The three pages hold the active tab and the rows of the last answer of a [useFetch]
    that follows the tab: choosing a tab sends a request for its scope, and while a
    request is in flight the rows are hidden.  A newer request cancels an older one, whose
    answer is then ignored.  The page of the runs also polls.  Clicks, ticks of the timer and
    answers come in any order, and each answer was right at some state of the server. *)

From S2P Require Export Views.

(** ** The page *)

Definition tabs : list (string * string) :=
  [("mine", "Mine"); ("shared", "Shared with me"); ("public", "Public")].

(** [ls_poll] holds the rows with the watcher of the timer; [ls_request] is the request in
    flight with its scope, [ls_next] numbers the next one. *)
Record ListPage (R : Type) := mkListPage {
  ls_tab : string; ls_poll : Poll (list R); ls_request : option (nat * string); ls_next : nat }.
Arguments mkListPage {R}. Arguments ls_tab {R}. Arguments ls_poll {R}.
Arguments ls_request {R}. Arguments ls_next {R}.

Section ListPage.
(** [active] is the watched value; [answers scope rows] when the server may answer so. *)
Context {R : Type} (active : list R -> bool) (answers : string -> list R -> Prop).
Implicit Types p : ListPage R.

(** The page opens with the first answer; a failed request leaves the default, no rows. *)
Definition open_list (first : option (list R)) : ListPage R :=
  mkListPage "mine" (mountPoll active (first ⁇ [])) None 0.

(** [refresh()], or the watcher of the query. *)
Definition send p : ListPage R :=
  mkListPage (ls_tab p) (ls_poll p) (Some (ls_next p, ls_tab p)) (S (ls_next p)).

(** [@change="(i) => (activeTab = tabs[i].key)"]; an equal value does not trigger. *)
Definition select_tab (i : nat) p : ListPage R :=
  match tabs !! i with
  | Some (key, _) =>
      if key === ls_tab p then p
      else send (mkListPage key (ls_poll p) (ls_request p) (ls_next p))
  | None => p
  end.

(** [tabs.findIndex((t) => t.key === activeTab)] *)
Definition selected p : option nat := indexOf (ls_tab p) (fst <$> tabs).

(** The answer to request [n], or its failure. *)
Definition answered (n : nat) (rows : option (list R)) p : ListPage R :=
  match ls_request p with
  | Some (m, _) =>
      if n === m then mkListPage (ls_tab p) (arrive active (rows ⁇ []) (ls_poll p)) None (ls_next p) else p
  | None => p
  end.

(** The interval's callback, while one runs. *)
Definition tick p : ListPage R := match po_live (ls_poll p) with [] => p | _ => send p end.

Definition leave_list p : ListPage R :=
  mkListPage (ls_tab p) (unmountPoll (ls_poll p)) (ls_request p) (ls_next p).

Definition pending p : bool := bool_decide (ls_request p <> None).

(** What the template draws. *)
Definition list_shown {A} (view : string -> bool -> list R -> ListView A) p : ListView A :=
  view (ls_tab p) (pending p) (po_data (ls_poll p)).

Inductive list_step p : ListPage R -> Prop :=
  | LsSelect i : list_step p (select_tab i p)
  | LsTick : list_step p (tick p)
  | LsRefresh : list_step p (send p)
  | LsAnswer n scope rows :
      ls_request p = Some (n, scope) -> answers scope rows -> list_step p (answered n (Some rows) p)
  | LsFail n : list_step p (answered n None p)
  | LsCancelled n rows : (forall scope, ls_request p <> Some (n, scope)) -> list_step p (answered n rows p)
  | LsLeave : list_step p (leave_list p).

Inductive list_reachable : ListPage R -> Prop :=
  | LrOpen first : (forall rows, first = Some rows -> answers "mine" rows) -> list_reachable (open_list first)
  | LrStep p p' : list_reachable p -> list_step p p' -> list_reachable p'.

(** ** The invariant *)

Record list_inv p : Prop := {
  li_poll : poll_inv active (ls_poll p);
  li_tab : is_Some (selected p);
  li_request n scope : ls_request p = Some (n, scope) -> scope = ls_tab p;
  li_rows : ls_request p = None -> po_data (ls_poll p) <> [] -> answers (ls_tab p) (po_data (ls_poll p)) }.

Lemma send_inv p : poll_inv active (ls_poll p) -> is_Some (selected p) -> list_inv (send p).
Proof. intros Hp Ht. split; [done|done| |done]. intros n scope Heq. by injection Heq as _ <-. Qed.

Lemma mounted_data d : po_data (mountPoll active d) = d.
Proof. unfold mountPoll, watched. by destruct (active d). Qed.

Lemma answered_inv n scope rows p :
  list_inv p -> ls_request p = Some (n, scope) ->
  (forall l, rows = Some l -> answers scope l) -> list_inv (answered n rows p).
Proof.
  intros [Hp Ht Hr Hd] Hreq Hans. unfold answered. rewrite Hreq, eqb_refl_js.
  split; simpl; [by apply arrive_inv|done|done|]. intros _ Hne. rewrite arrive_data in *.
  rewrite <-(Hr _ _ Hreq). destruct rows as [l|]; [by apply Hans|done].
Qed.

(** An answer to another request changes nothing. *)
Lemma answered_late n rows p : (forall scope, ls_request p <> Some (n, scope)) -> answered n rows p = p.
Proof.
  intros Hn. unfold answered. destruct (ls_request p) as [[m scope]|]; [|done].
  rewrite eqb_ne_js; [done|]. intros ->. by destruct (Hn scope).
Qed.

Lemma selected_tab i key label p poll request next :
  tabs !! i = Some (key, label) -> selected (mkListPage (R := R) key poll request next) = Some i.
Proof. destruct i as [|[|[|i]]]; intros Hi; simplify_eq/=; vm_compute; reflexivity. Qed.

Lemma list_step_inv p p' : list_inv p -> list_step p p' -> list_inv p'.
Proof.
  intros Hinv Hstep. pose proof Hinv as [Hp Ht Hr Hd]. destruct Hstep as [i| | |n scope rows Hreq Hans|n|n rows Hn|].
  - unfold select_tab. destruct (tabs !! i) as [[key label]|] eqn:Hi; [|done].
    destruct (key === ls_tab p); [done|]. apply send_inv; [done|]. rewrite (selected_tab i key label p) by done. eauto.
  - unfold tick. destruct (po_live (ls_poll p)); [done|]. by apply send_inv.
  - by apply send_inv.
  - apply (answered_inv n scope); [done..|]. by intros l [= <-].
  - destruct (ls_request p) as [[m scope]|] eqn:Hreq; [destruct (decide (n = m)) as [->|Hne]|].
    + by apply (answered_inv m scope).
    + rewrite answered_late; [done|]. rewrite Hreq. congruence.
    + rewrite answered_late; [done|]. by rewrite Hreq.
  - by rewrite answered_late.
  - split; [by apply unmount_inv|done..].
Qed.

Lemma list_reachable_inv p : list_reachable p -> list_inv p.
Proof.
  induction 1 as [first Hfirst|p p' _ IH Hstep]; [|by eapply list_step_inv].
  split; simpl; [apply mount_inv|by vm_compute; eauto|done|]. intros _. rewrite mounted_data.
  destruct first as [l|]; [intros _; by apply Hfirst|done].
Qed.

(** The rows that are drawn are an answer for the active tab. *)
Lemma shown_rows {A} (view : string -> bool -> list R -> ListView A) message (card : string -> R -> A) p cards c :
  (forall tab, view tab = list_view message (card tab)) -> list_reachable p ->
  list_shown view p = ListRows cards -> c ∈ cards ->
  exists rows r, answers (ls_tab p) rows /\ r ∈ rows /\ c = card (ls_tab p) r.
Proof.
  intros Hview [_ _ _ Hrows]%list_reachable_inv Hshown Hc. unfold list_shown, pending in Hshown.
  rewrite Hview in Hshown. unfold list_view in Hshown. case_bool_decide as Hreq; [done|].
  destruct (po_data (ls_poll p)) as [|r0 l] eqn:E; [done|]. rewrite <-E in *. injection Hshown as <-.
  apply list_elem_of_fmap in Hc as (r & -> & Hr). eexists _, r. split; [|done]. apply Hrows; [|congruence].
  by destruct (ls_request p).
Qed.

(** A tab that is chosen is the selected one, and its rows are awaited. *)
Lemma select_spec i key label p :
  tabs !! i = Some (key, label) ->
  ls_tab (select_tab i p) = key /\ selected (select_tab i p) = Some i /\
  (key <> ls_tab p -> pending (select_tab i p) = true).
Proof.
  intros Hi. unfold select_tab. rewrite Hi. case_bool_decide as Hk.
  - split; [done|]. split; [|done]. subst key. unfold selected. by apply (selected_tab i _ _ p (ls_poll p) None 0) in Hi.
  - split; [done|]. split; [by eapply (selected_tab i key label p)|]. done.
Qed.

(** The timer runs exactly while the page is open and its rows are active; each of its
    ticks hides the rows until the answer. *)
Lemma list_polls p :
  list_reachable p ->
  length (po_live (ls_poll p)) = (if po_mounted (ls_poll p) && active (po_data (ls_poll p)) then 1 else 0) /\
  (po_live (ls_poll p) <> [] -> pending (tick p) = true).
Proof.
  intros [[Hlive Htimer] _ _ _]%list_reachable_inv. split.
  - rewrite Hlive. destruct (po_mounted (ls_poll p)); [|done]. specialize (Htimer eq_refl).
    destruct (po_timer (ls_poll p)), (active (po_data (ls_poll p))); simpl; try done.
    + by destruct Htimer as [Ht _]; discriminate Ht; eauto.
    + by destruct Htimer as [_ [? ?]].
  - unfold tick. by destruct (po_live (ls_poll p)).
Qed.
End ListPage.

(** ** The three pages against the server *)

Section Pages.
Context {DB : Type} `{SqlLaws DB} {env : Env} {cfg : RouterConfig} (user : SessionUser).
(** The server's states over time, whatever others do to it. *)
Context (server : nat -> World DB) (server_keys : forall k, keys_ok (db_rows (w_db (server k)))).

(** What the server answers to a list request, at some time. *)
Definition answered_by {R} (req : string -> request) (resp : list R -> response) (scope : string) (l : list R) : Prop :=
  exists k w', handle (Some user) (req scope) (server k) = (w', Ok (resp l)).

(** The pages of pipelines and of data have no timer; that of the runs watches [hasActive]. *)
Definition pipelines_page : ListPage PipelineRow -> Prop :=
  list_reachable (fun _ => false) (answered_by (fun s => ListPipelines (Some s)) RPipelines).
Definition data_list_page : ListPage DataFileRow -> Prop :=
  list_reachable (fun _ => false) (answered_by (fun s => ListData (Some s)) RDataFiles).
Definition runs_page : ListPage RunRow -> Prop :=
  list_reachable hasActive (answered_by (fun s => ListRuns (Some s)) RRuns).

(** A list request is answered with the rows of its scope. *)
Lemma pipelines_scope w w' tab l row :
  handle (Some user) (ListPipelines (Some tab)) w = (w', Ok (RPipelines l)) -> row ∈ l ->
  in_scope pipeline_resource (db_rows (w_db w)) (u_id user) (Some tab) row.
Proof.
  intros Hrun Hrow.
  pose proof (list_served user (Some tab) PipelineRepo.listSharedWith PipelineRepo.listOwnedBy PipelineRepo.listPublic RPipelines w) as Hl.
  change (handle (Some user) (ListPipelines (Some tab)) w =
    (w, Ok (RPipelines (if tab === "shared" then PipelineRepo.listSharedWith (u_id user) (w_db w)
       else if tab === "public" then PipelineRepo.listPublic (w_db w) else PipelineRepo.listOwnedBy (u_id user) (w_db w))))) in Hl.
  rewrite Hrun in Hl. injection Hl as _ Hl. subst l. by apply (elem_scope pipeline_resource (w_db w) (u_id user) (Some tab) row) in Hrow as [_ ?].
Qed.

Lemma data_scope w w' tab l row :
  handle (Some user) (ListData (Some tab)) w = (w', Ok (RDataFiles l)) -> row ∈ l ->
  in_scope dataFile_resource (db_rows (w_db w)) (u_id user) (Some tab) row.
Proof.
  intros Hrun Hrow.
  pose proof (list_served user (Some tab) DataFileRepo.listSharedWith DataFileRepo.listOwnedBy DataFileRepo.listPublic RDataFiles w) as Hl.
  change (handle (Some user) (ListData (Some tab)) w =
    (w, Ok (RDataFiles (if tab === "shared" then DataFileRepo.listSharedWith (u_id user) (w_db w)
       else if tab === "public" then DataFileRepo.listPublic (w_db w) else DataFileRepo.listOwnedBy (u_id user) (w_db w))))) in Hl.
  rewrite Hrun in Hl. injection Hl as _ Hl. subst l. by apply (elem_scope dataFile_resource (w_db w) (u_id user) (Some tab) row) in Hrow as [_ ?].
Qed.

Lemma runs_scope w w' tab l row :
  handle (Some user) (ListRuns (Some tab)) w = (w', Ok (RRuns l)) -> row ∈ l ->
  in_scope run_resource (db_rows (w_db w)) (u_id user) (Some tab) row.
Proof.
  intros Hrun Hrow.
  pose proof (list_served user (Some tab) RunRepo.listSharedWith RunRepo.listOwnedBy RunRepo.listPublic RRuns w) as Hl.
  change (handle (Some user) (ListRuns (Some tab)) w =
    (w, Ok (RRuns (if tab === "shared" then RunRepo.listSharedWith (u_id user) (w_db w)
       else if tab === "public" then RunRepo.listPublic (w_db w) else RunRepo.listOwnedBy (u_id user) (w_db w))))) in Hl.
  rewrite Hrun in Hl. injection Hl as _ Hl. subst l. by apply (elem_scope run_resource (w_db w) (u_id user) (Some tab) row) in Hrow as [_ ?].
Qed.

(** C26. The lists with tabs.  In whatever order clicks on tabs, ticks of the timer, answers, failed
    and cancelled requests come, and however the server changes meanwhile: every card drawn
    is that of a row the server listed, at some time, for the tab that is selected now: a row
    that was then in the scope the tab names (owned, shared with the user, or public) and that
    the user could see; a Delete button that is enabled is that of a row the user owned; and the page of
    the runs polls exactly while it is open and a run it holds is queued or running, each tick
    hiding the list until the answer is there. *)
Theorem lists_follow_tab :
  (forall p cards c, pipelines_page p -> list_shown pipelines_view p = ListRows cards -> c ∈ cards ->
     exists k w' l row, handle (Some user) (ListPipelines (Some (ls_tab p))) (server k) = (w', Ok (RPipelines l)) /\
       row ∈ l /\ in_scope pipeline_resource (db_rows (w_db (server k))) (u_id user) (Some (ls_tab p)) row /\
       sees_pipeline (db_rows (w_db (server k))) (u_id user) row /\
       c = pipeline_card (ls_tab p) row /\
       (forall id, pk_delete c = Some id -> id = pl_id row /\ pl_ownerId row = u_id user)) /\
  (forall p cards c, data_list_page p -> list_shown data_view p = ListRows cards -> c ∈ cards ->
     exists k w' l row, handle (Some user) (ListData (Some (ls_tab p))) (server k) = (w', Ok (RDataFiles l)) /\
       row ∈ l /\ in_scope dataFile_resource (db_rows (w_db (server k))) (u_id user) (Some (ls_tab p)) row /\
       sees_data (db_rows (w_db (server k))) (u_id user) row /\
       c = data_card (ls_tab p) row /\
       (forall id, dk_delete c = Some id -> id = df_id row /\ df_ownerId row = u_id user)) /\
  (forall p, runs_page p ->
     (forall cards c, list_shown (fun _ => runs_view) p = ListRows cards -> c ∈ cards ->
        exists k w' l row, handle (Some user) (ListRuns (Some (ls_tab p))) (server k) = (w', Ok (RRuns l)) /\
          row ∈ l /\ in_scope run_resource (db_rows (w_db (server k))) (u_id user) (Some (ls_tab p)) row /\
          sees_run (db_rows (w_db (server k))) (u_id user) row /\ c = run_card row) /\
     length (po_live (ls_poll p)) = (if po_mounted (ls_poll p) && hasActive (po_data (ls_poll p)) then 1 else 0) /\
     (po_live (ls_poll p) <> [] -> list_shown (fun _ => runs_view) (tick p) = ListLoading)).
Proof.
  split; [|split].
  - intros p cards c Hp Hshown Hc.
    destruct (shown_rows _ _ pipelines_view "No pipelines here yet." pipeline_card p cards c (fun _ => eq_refl) Hp Hshown Hc)
      as (l & row & (k & w' & Hrun) & Hrow & ->).
    destruct (listed_pipelines user (server k) (server_keys k) _ _ _ _ Hrun Hrow) as [Hsees Hmine].
    exists k, w', l, row. do 2 (split; [done|]). split; [by eapply pipelines_scope|]. do 2 (split; [done|]).
    intros id. simpl. case_bool_decide as Htab; [|done]. intros [= <-]. auto.
  - intros p cards c Hp Hshown Hc.
    destruct (shown_rows _ _ data_view "Nothing here yet." data_card p cards c (fun _ => eq_refl) Hp Hshown Hc)
      as (l & row & (k & w' & Hrun) & Hrow & ->).
    destruct (listed_data user (server k) (server_keys k) _ _ _ _ Hrun Hrow) as [Hsees Hmine].
    exists k, w', l, row. do 2 (split; [done|]). split; [by eapply data_scope|]. do 2 (split; [done|]).
    intros id. simpl. case_bool_decide as Htab; [|done]. intros [= <-]. auto.
  - intros p Hp. destruct (list_polls _ _ p Hp) as [Hlive Htick]. split; [|split; [done|]].
    + intros cards c Hshown Hc.
      destruct (shown_rows _ _ (fun _ => runs_view) _ (fun _ => run_card) p cards c (fun _ => eq_refl) Hp Hshown Hc)
        as (l & row & (k & w' & Hrun) & Hrow & ->).
      exists k, w', l, row. do 2 (split; [done|]). split; [by eapply runs_scope|]. split; [|done].
      exact (listed_runs user (server k) (server_keys k) _ _ _ _ Hrun Hrow).
    + intros Hl. unfold list_shown. by rewrite Htick.
Qed.
End Pages.
