(* ===== verification/BlockPages.v ===== *)
(** * The page of a block and the clients of the block service

    ([web_ui/pages/blocks/[id].vue], and the requests of [wiring.ts] and
    [ConnectionResolver.vue] for a manifest.)  Pages put the name of a block into the
    address with [encodeURIComponent]; the handler looks up the segment as it is. *)

From S2P Require Export Views.

(** ** What the page shows *)

(** A port: its name, its type with the format, its description. *)
Record PortView := mkPortView { pv_name : string; pv_type : string; pv_description : option string }.

Definition port_view (entry : string * PortDecl) : PortView :=
  let '(k, decl) := entry in
  mkPortView k (port_type_name (pt_type decl) +:+ match shown (pt_format decl) with Some f => ": " +:+ f | None => "" end)
    (shown (pt_description decl)).

(** [None] is the text "(none)". *)
Definition ports_view (ports : option (jsmap PortDecl)) : option (list PortView) :=
  match ports ⁇ [] with [] => None | l => Some (port_view <$> l) end.

Definition kind_badge (k : BlockKind) : string * BlockKind :=
  (match k with MapKind => "blue" | ReduceKind => "green" | Standard => "gray" end, k).

Record BlockPanel := mkBlockPanel {
  bp_title : string; bp_kind : string * BlockKind; bp_network : bool; bp_version : string;
  bp_description : option string; bp_inputs : option (list PortView); bp_outputs : option (list PortView);
  bp_example : list string }.

Definition block_panel (m : BlockManifest) : BlockPanel :=
  mkBlockPanel (mf_id m) (kind_badge (mf_kind m)) (mf_network m) ("v" +:+ mf_version m)
    (shown (mf_description m)) (ports_view (mf_inputs m)) (ports_view (mf_outputs m))
    ["- id: 019cf4bc-0000-7000-0000-000000000000"; "  name: " +:+ mf_id m; "  inputs: []"; "  args: {}"].

Inductive BlockView := BlockLoading | BlockMissing | BlockShown (p : BlockPanel) | BlockBlank.

Definition block_view (pending error : bool) (data : option BlockManifest) : BlockView :=
  if pending then BlockLoading
  else if error then BlockMissing
  else match data with Some m => BlockShown (block_panel m) | None => BlockBlank end.

(** ** Asking for a manifest *)

Section Service.
Context {DB : Type} `{SqlLaws DB} {env : Env} {cfg : RouterConfig}.
Implicit Types w : World DB.
Context (text_le_total : forall a b, text_le a b = true \/ text_le b a = true).
Context (text_le_trans : forall a b c, text_le a b = true -> text_le b c = true -> text_le a c = true).

(** [loadManifest]; [None] stands for [null]. *)
Definition served (session : option SessionUser) (w : World DB) (name : string) : option BlockManifest :=
  match (handle session (GetBlock (Some (encodeURIComponent name))) w).2 with Ok (RManifest m) => Some m | _ => None end.

(** The page, when its request has been answered; [name] is the decoded parameter of
    the route. *)
Definition block_page (session : option SessionUser) (w : World DB) (name : string) : BlockView :=
  let answer := served session w name in
  block_view false (negb (bool_decide (is_Some answer))) answer.

Lemma served_by_name session w name :
  served session w name =
    if truthy name then bk_manifest <$> BlockRepo.getByName (encodeURIComponent name) (w_db w) else None.
Proof.
  unfold served, handle, respond, get_block, routerId, orThrow, read, throw, mbind, M_bind, mret, M_ret.
  rewrite encode_truthy. destruct (truthy name); [|done]. simpl. by destruct (BlockRepo.getByName _ _).
Qed.

(** The items of the list are the rows. *)
Lemma listed_blocks session w w' l b :
  handle session ListBlocks w = (w', Ok (RBlocks l)) -> b ∈ l ->
  exists row, row ∈ rows (db_rows (w_db w)) TBlocks /\
    b = mkListItem (mf_id (bk_manifest row)) (bk_name row) (bk_label row) (mf_kind (bk_manifest row))
          (mf_network (bk_manifest row)) (mf_description (bk_manifest row)).
Proof.
  unfold handle, respond, list_blocks, read, mbind, M_bind, mret, M_ret. intros Heq Hb. injection Heq as _ <-.
  apply list_elem_of_fmap in Hb as (row & -> & Hrow). exists row. split; [|done].
  unfold BlockRepo.listAll in Hrow. by apply (elem_ordered TBlocks) in Hrow as [_ ?]; [|naive_solver..].
Qed.

(** C16. From a card of the catalogue to the page of its block.  A block whose name holds
    no character that addresses escape has a page: it shows the block the card showed,
    with the same id, kind and network badge (the heading of the card is the label, that
    of the page the id).  A block whose name holds one, when no block is registered under
    the escaped name, has none: its page says the block is missing, and every request of
    the editor for its manifest fails. *)
Theorem catalogue_links session w w' l b :
  keys_ok (db_rows (w_db w)) -> registered (w_db w) ->
  handle session ListBlocks w = (w', Ok (RBlocks l)) -> b ∈ l -> truthy (bl_name b) = true ->
  (addressable (bl_name b) -> exists m,
     served session w (bl_name b) = Some m /\ block_page session w (bl_name b) = BlockShown (block_panel m) /\
     bp_title (block_panel m) = bc_id (block_card encodeURIComponent b) /\
     bp_kind (block_panel m) = bc_kind (block_card encodeURIComponent b) /\
     bp_network (block_panel m) = bc_net (block_card encodeURIComponent b) /\
     bc_to (block_card encodeURIComponent b) = "/blocks/" +:+ bl_name b) /\
  (~ addressable (bl_name b) ->
     (forall other, other ∈ l -> bl_name other <> encodeURIComponent (bl_name b)) ->
     served session w (bl_name b) = None /\ block_page session w (bl_name b) = BlockMissing).
Proof.
  intros Hk Hreg Hrun Hb Ht. unfold block_page. rewrite (served_by_name session w (bl_name b)), Ht. split.
  - intros Ha%encode_plain. rewrite Ha. destruct (listed_blocks _ _ _ _ _ Hrun Hb) as (row & Hrow & Heq).
    rewrite Heq. cbn [bl_name]. rewrite (getByName_unique (w_db w) (bk_name row) row Hrow eq_refl).
    + exists (bk_manifest row). cbn [fmap option_fmap option_map block_card bc_to bc_id bc_kind bc_net bl_id bl_kind bl_network bl_name].
      rewrite bool_decide_eq_true_2 by eauto. split_and!; try done. rewrite Heq in Ha. cbn [bl_name] in Ha. by rewrite Ha.
    + intros x Hx Hn. by eapply (block_by_name (w_db w)).
  - intros _ Hother. destruct (BlockRepo.getByName (encodeURIComponent (bl_name b)) (w_db w)) as [row|] eqn:E; [|done].
    exfalso. unfold BlockRepo.getByName in E. apply first_row_Some in E. apply (elem_select TBlocks) in E as [Hn Hrow]. bool_prop.
    unfold handle, respond, list_blocks, read, mbind, M_bind, mret, M_ret in Hrun. injection Hrun as _ Hl.
    refine (Hother (mkListItem (mf_id (bk_manifest row)) (bk_name row) (bk_label row) (mf_kind (bk_manifest row))
      (mf_network (bk_manifest row)) (mf_description (bk_manifest row))) _ Hn).
    rewrite <-Hl. apply list_elem_of_fmap. exists row. split; [reflexivity|].
    unfold BlockRepo.listAll. apply (elem_ordered TBlocks); [naive_solver..|]. by split.
Qed.
End Service.
