(* ===== verification/EditorViews.v ===== *)
(** * What the editor shows and offers

    (The templates of [web_ui/components/flow/Base.vue], [flow/CustomBlock.vue],
    [flow/ConnectionResolver.vue], [flow/BlockEditor.vue], [flow/Problems.vue],
    [SchemaForm.vue], [SchemaField.vue], [FormInput.vue], [Export.vue],
    [SavePipeline.vue] and [results/RunFileViewer.vue].)
    As in [Views], a view is what a template draws, without the styling. *)

From S2P Require Export Views BlockPages.

(** ** The card of a block on the canvas ([CustomBlock.vue]) *)

(** A badge: its text, its colour, its tooltip. *)
Record Badge := mkBadge { bg_label : string; bg_color : string; bg_title : option string }.

(** [cv_classes] are the classes the state adds; the warnings are lines of text. *)
Record CardView := mkCardView {
  cv_classes : list string; cv_name : string; cv_badges : list Badge; cv_warnings : list string }.

Definition nested_warning : string := "nested map not allowed".
Definition unresolved_warning : string := "unresolved connection".

Definition when {A} (b : bool) (x : A) : list A := if b then [x] else [].

Definition in_map_title (ctx : option string) : string :=
  "Runs once per item in the map context opened by '" +:+ (ctx ⁇ "a map block") +:+ "'.".

(** [mapCtx] is the value of [useMapContext]. *)
Section Card.
Context (ct : Catalogue) (st : FlowState) (mapCtx : MapContextResult).

Definition card_view (name id : string) : CardView :=
  let style := kindStyles ct st id in
  let in_map := inMapContext mapCtx id in
  let nested := isNestedMap mapCtx id in
  let unres := hasUnresolved st id in
  mkCardView
    ([ks_ring style; ks_accent style; (if in_map then "bg-spade-blue/5" else "bg-spade-white");
      (if unres then "border-spade-red ring-1 ring-spade-red/40" else "");
      (if nested then "border-spade-red ring-2 ring-spade-red/50" else "")])
    name
    (match ks_badge style with Some (color, label) => [mkBadge label color None] | None => [] end ++
     when (match card_meta ct st id with Some m => bl_network m | None => false end)
       (mkBadge "net" "amber" (Some "Requires network access")) ++
     when in_map (mkBadge "in map" "blue" (Some (in_map_title (contextMapName st mapCtx id)))) ++
     when (hasBroadcastInput st mapCtx id)
       (mkBadge "broadcast" "gray"
          (Some "Has a broadcast input — a non-mapped dependency that feeds every mapped invocation.")))
    (when nested nested_warning ++ when unres unresolved_warning).

(** ** The page ([Base.vue]) *)

(** The overlays that are open, with what they are given. *)
Inductive Overlay :=
  | BlockEditorOverlay (target : option string) | ExportOverlay | ImportOverlay | SaveOverlay
  | ResolverOverlay (target : option (string * string)).

Definition toolbar : list string := ["Add Block"; "Import"; "Save"; "Export"].

Record CanvasView := mkCanvasView {
  ca_toolbar : list string; ca_problems : list string; ca_cards : list (string * CardView);
  ca_overlays : list Overlay }.

(** [v7] is the id the problems' builder makes. *)
Definition canvas_view (v7 : string) (b : BaseState) : CanvasView :=
  mkCanvasView toolbar (problems v7 st)
    (map (fun n : Node => (n_id n, card_view ((n_data n ≫= nd_label) ⁇ "") (n_id n))) (nodes st))
    (when (showBlock b) (BlockEditorOverlay (editorTarget b)) ++ when (showExport b) ExportOverlay ++
     when (showImport b) ImportOverlay ++ when (showSave b) SaveOverlay ++
     when (showResolver b) (ResolverOverlay (resolverTarget b))).
End Card.

(** The problems box ([Problems.vue]): its head and, when open, its lines. *)
Definition problems_box (open : bool) (errors : list string) : option (string * list string) :=
  match errors with
  | [] => None
  | _ => Some (pretty (length errors) +:+ " problem" +:+ (if length errors === 1 then "" else "s"),
               if open then errors else [])
  end.

(** ** The resolver dialog ([ConnectionResolver.vue]) *)

Record RadioView := mkRadio { ra_option : string; ra_description : option string; ra_checked : bool }.
Record RadioGroup := mkGroup { rg_input : string; rg_description : option string; rg_options : list RadioView }.
Record DialogView := mkDialogView {
  dv_title : option string; dv_message : option string; dv_groups : list RadioGroup; dv_confirm : bool }.

(** A text of a map of optional texts, under [v-if]. *)
Definition text_of (k : string) (m : jsmap (option string)) : option string := jm_get k m ≫= shown.

Definition radio_group (d : Dialog) (entry : string * list string) : RadioGroup :=
  mkGroup entry.1 (text_of entry.1 (dg_inputDescriptions d))
    ((fun o => mkRadio o (text_of o (dg_outputDescriptions d)) (jm_get entry.1 (dg_selections d) === Some o)) <$> entry.2).

Definition dialog_view (d : Dialog) : DialogView :=
  let message := shown (dg_errorMessage d) in
  mkDialogView
    (match dg_upstream d, dg_downstream d with
     | Some u, Some w => Some (mf_id u +:+ " → " +:+ mf_id w)
     | _, _ => None
     end)
    message
    (match message with Some _ => [] | None => radio_group d <$> dg_candidates d end)
    (allInputsBound d).

(** ** The block editor and its form *)

(** A control with what it holds: a text, or whether a box is checked. *)
Inductive ControlView := TextControl (c : Control) (value : string) | BoxControl (checked : bool).

(** A bound value as the DOM holds it: nothing for [undefined] and [null]. *)
Definition dom_value (v : option Json) : string :=
  match v with None | Some JNull => "" | Some j => js_String j end.

Definition js_truthy (v : option Json) : bool :=
  match v with
  | None | Some JNull => false
  | Some (JBool b) => b
  | Some (JNum n) => negb (n === 0%Z)
  | Some (JStr s) => truthy s
  | Some _ => true
  end.

Definition control_view (v : option Json) (c : Control) : ControlView :=
  match c with Checkbox => BoxControl (js_truthy v) | _ => TextControl c (dom_value v) end.

Record FieldView := mkFieldView { fd_name : string; fd_controls : list ControlView }.

(** One field per property of the schema.  The schemas the editor makes have scalar
    fields only. *)
Definition field_view (data : option ArgKeyValueStore) (entry : string * FieldSchema) : FieldView :=
  mkFieldView entry.1 (control_view (data ≫= jm_get entry.1) <$> controls entry.2).

Record BlockEditorView := mkBlockEditorView {
  be_options : list string; be_network : bool; be_description : option string; be_form : option (list FieldView) }.

Definition block_editor_view (st : FlowState) (ed : EditorState) : BlockEditorView :=
  mkBlockEditorView (bl_label <$> ed_blocks ed)
    (match ed_selected ed with Some b => bl_network b | None => false end)
    (ed_selected ed ≫= fun b => shown (bl_description b))
    ((fun schema => field_view (ed_form ed ≫= deref st ed) <$> fs_properties schema) <$> ed_schema ed).

(** ** Export and save *)

(** The buttons with whether they are enabled. *)
Record ExportView := mkExportView {
  ev_errors : list string; ev_text : list string; ev_submitError : option string;
  ev_download : bool; ev_submit : bool; ev_loading : bool }.

Definition export_view (st : FlowState) (p : ExportPage) : ExportView :=
  mkExportView (ex_errors p) (ex_text p) (shown (ex_submitError p))
    (negb (export_disabled st p)) (negb (export_disabled st p)) (ex_submitting p).

Record SaveView := mkSaveView {
  sw_fields : list (string * string); sw_visibility : Visibility; sw_error : option string; sw_loading : bool }.

Definition save_view (p : SavePage) : SaveView :=
  mkSaveView [("Name", sv_name p); ("Description", sv_description p); ("Version", sv_version p)]
    (sv_visibility p) (shown (sv_errorMessage p)) (sv_submitting p).

(** ** A file of a run ([RunFileViewer.vue]) *)

Inductive Preview :=
  | PreviewLoading | PreviewError (e : string) | PreviewTooBig (size : string) | PreviewImage (url : string)
  | PreviewTable (rows : Json) | PreviewText (t : string) | PreviewNone.

Record FileView := mkFileView { fz_name : string; fz_size : option string; fz_preview : option Preview }.

(** [(n / d).toFixed(1)] for a size in bytes. *)
Definition one_decimal (d n : Z) : string := toFixed 1 n d.

Definition preview (props : FileProps) (v : Viewer) : Preview :=
  let kind := file_kind (fp_name props) (fp_mimeType props) in
  if fv_loading v then PreviewLoading
  else match shown (fv_error v) with
  | Some e => PreviewError e
  | None =>
      if tooBig (fp_sizeBytes props) then PreviewTooBig (one_decimal (1024 * 1024) (fp_sizeBytes props ⁇ 0%Z) +:+ " MB")
      else match (if kind === KImage then fv_url v ≫= fun u => shown (Some u) else None),
                 (if kind === KCsv then fv_rows v else None), fv_textBody v with
           | Some u, _, _ => PreviewImage u
           | None, Some rows, _ => PreviewTable rows
           | None, None, Some t => PreviewText t
           | None, None, None => PreviewNone
           end
  end.

Definition file_view (props : FileProps) (v : Viewer) : FileView :=
  mkFileView (fp_name props) ((fun n => one_decimal 1024 n +:+ " KB") <$> fp_sizeBytes props)
    (if fv_expanded v then Some (preview props v) else None).

(** ** What a drawing must be for the buttons *)

Lemma drawn_blocks v7 v7' st :
  NoDup (node_ids st) -> p_blocks (drawn_pipeline v7 st) = p_blocks (drawn_pipeline v7' st).
Proof. intros Hnd. unfold drawn_pipeline. by rewrite !builder_export. Qed.

Lemma drawn_valid v7 v7' st :
  NoDup (node_ids st) ->
  (validatePipeline (drawn_pipeline v7 st) None = Valid <-> validatePipeline (drawn_pipeline v7' st) None = Valid).
Proof. intros Hnd. by rewrite !validatePipeline_WellFormed, (drawn_blocks v7 v7'). Qed.

Lemma split_lines_length s : length (split_lines s) <> 0.
Proof. induction s as [|c s IH]; [done|]. simpl. case_bool_decide; [done|]. by destruct (split_lines s). Qed.

(** An invalid result has a message. *)
Lemma invalid_message p m : validatePipeline p m <> Invalid [].
Proof. unfold validatePipeline. by destruct (validation_errors _ _). Qed.

Lemma elem_when {A} b (x y : A) : x ∈ when b y <-> b = true /\ x = y.
Proof.
  unfold when. destruct b; [rewrite list_elem_of_singleton; tauto|]. split; [by intros ?%elem_of_nil|by intros []].
Qed.

Lemma cards_unresolved ct st mapCtx v7 b :
  consistent st ->
  (exists id c, (id, c) ∈ ca_cards (canvas_view ct st mapCtx v7 b) /\ unresolved_warning ∈ cv_warnings c) <->
  unresolved_edges st = true.
Proof.
  intros [_ _ _ Hends]. rewrite Forall_forall in Hends.
  assert (Hwarn : forall id c, (id, c) ∈ ca_cards (canvas_view ct st mapCtx v7 b) ->
    unresolved_warning ∈ cv_warnings c <-> hasUnresolved st id = true).
  { intros id c Hin. apply list_elem_of_fmap in Hin as (n & Heq & _). injection Heq as -> ->. simpl.
    rewrite elem_of_app, !elem_when. split; [by intros [[_ ?]|[? _]]|by right]. }
  unfold unresolved_edges, hasUnresolvedEdges. rewrite js_some_true. split.
  - intros (id & c & Hin & Hw). apply (Hwarn id c Hin) in Hw. unfold hasUnresolved in Hw. apply js_some_true in Hw as (e & He & Hu).
    apply andb_true_iff in Hu as [_ Hu].
    exists (e_data e). split; [by apply list_elem_of_fmap_2|done].
  - intros (d & (e & -> & He)%list_elem_of_fmap & Hu). destruct (Hends e He) as [Hs _].
    apply list_elem_of_fmap in Hs as (n & Hn & Hin).
    eexists (n_id n), _. assert (Hcard : (n_id n, card_view ct st mapCtx ((n_data n ≫= nd_label) ⁇ "") (n_id n))
       ∈ ca_cards (canvas_view ct st mapCtx v7 b)).
    { apply list_elem_of_fmap. by exists n. }
    split; [exact Hcard|]. apply (Hwarn _ _ Hcard), js_some_true. exists e. by rewrite Hu, Hn, eqb_refl_js.
Qed.

(** C22. The editor's signals agree.  On a consistent drawing the problems box
    is empty exactly when, after Export, the buttons Download and Submit are enabled; then
    the text is shown and no message; and some card on the canvas warns of an unresolved
    connection exactly when the box asks for a disambiguation, which by itself disables
    both buttons. *)
Theorem editor_signals {env : Env} ct st mapCtx v7 v7' b p :
  consistent st ->
  let canvas := canvas_view ct st mapCtx v7 b in
  let exported := export_view st (exportText v7' st p) in
  (ca_problems canvas = [] <-> ev_submit exported = true) /\
  ev_download exported = ev_submit exported /\
  (ev_submit exported = true -> ev_errors exported = [] /\ ev_text exported <> []) /\
  ((exists id c, (id, c) ∈ ca_cards canvas /\ unresolved_warning ∈ cv_warnings c) <->
   unresolved_edges st = true) /\
  (unresolved_edges st = true -> disambiguation_problem ∈ ca_problems canvas /\ ev_submit exported = false).
Proof.
  intros Hst canvas exported. pose proof (drawn_valid v7 v7' st (cs_nodes _ Hst)) as Hv.
  split; [|split; [done|split; [|split; [by apply cards_unresolved|]]]].
  - unfold canvas, exported. simpl. unfold problems, export_disabled, exportText.
    destruct (validatePipeline (drawn_pipeline v7' st) None) as [|errs'] eqn:E'; simpl.
    + rewrite (proj2 Hv eq_refl). simpl. rewrite eqb_ne_js by apply split_lines_length. simpl.
      by destruct (unresolved_edges st).
    + destruct (validatePipeline (drawn_pipeline v7 st) None) as [|errs] eqn:E; [discriminate (proj1 Hv eq_refl)|].
      split; [|done]. intros Hnil. apply app_eq_nil in Hnil as [-> _]. by apply invalid_message in E.
  - unfold exported. simpl. unfold export_disabled, exportText.
    destruct (validatePipeline (drawn_pipeline v7' st) None); simpl; [|done]. intros _. split; [done|]. intros Hn.
    apply (split_lines_length (yaml_stringify (drawn_pipeline v7' st))). by rewrite Hn.
  - intros Hu. unfold canvas, exported. simpl. unfold problems, export_disabled. rewrite Hu. split; [|by rewrite orb_true_r].
    apply elem_of_app. right. left.
Qed.

(** ** The dialog and the form *)

(** In the dialog, each group's checked button is the selection, and Confirm is enabled
    exactly when every group has one. *)
Lemma dialog_confirmable d :
  dg_errorMessage d = None -> selections_ok (dg_candidates d) (dg_selections d) -> NoDup (jm_keys (dg_candidates d)) ->
  (forall i options o, (i, options) ∈ dg_candidates d -> o ∈ options -> truthy o = true) ->
  (dv_confirm (dialog_view d) = true <->
     forall g, g ∈ dv_groups (dialog_view d) -> exists r, r ∈ rg_options g /\ ra_checked r = true) /\
  (forall g r, g ∈ dv_groups (dialog_view d) -> r ∈ rg_options g ->
     (ra_checked r = true <-> jm_get (rg_input g) (dg_selections d) = Some (ra_option r))).
Proof.
  intros Hm [_ Hsel] Hnd Ht. unfold dialog_view. rewrite Hm. simpl. split.
  - rewrite allInputsBound_true. split.
    + intros Hall g ([i options] & -> & Hg)%list_elem_of_fmap. simpl.
      destruct (Hall i) as (o & Ho & _); [by apply (list_elem_of_fmap_2 fst) in Hg|].
      destruct (Hsel i o Ho) as (options' & Hin & Hoin).
      apply (elem_jm_get i) in Hg; [|done]. apply (elem_jm_get i) in Hin; [|done].
      assert (options' = options) as -> by congruence. eexists. split; [by apply list_elem_of_fmap_2|]. simpl.
      by rewrite Ho, eqb_refl_js.
    + intros Hall i (entry & -> & Hi)%list_elem_of_fmap. destruct (Hall (radio_group d entry)) as (r & Hr & Hc); [by apply list_elem_of_fmap_2|].
      simpl in Hr. apply list_elem_of_fmap in Hr as (o & -> & Ho). simpl in Hc. bool_prop. exists o. split; [done|].
      destruct entry as [i options]. by apply (Ht i options).
  - intros g r ([i options] & -> & Hg)%list_elem_of_fmap Hr. simpl in *.
    apply list_elem_of_fmap in Hr as (o & -> & Ho). simpl. by rewrite bool_decide_eq_true.
Qed.

(** A manifest's form: a field for every scalar input, with one control, which shows the
    value the arguments hold. *)
Lemma block_form m data :
  NoDup (jm_keys (mf_inputs m ⁇ [])) ->
  let fields := field_view data <$> fs_properties (manifestToFormSchema m) in
  (fd_name <$> fields) = scalar_names m /\
  forall f, f ∈ fields -> exists decl c, jm_get (fd_name f) (mf_inputs m ⁇ []) = Some decl /\
    fd_controls f = [control_view (data ≫= jm_get (fd_name f)) c] /\
    c = match pt_type decl with T_number => NumberInput | T_boolean => Checkbox | _ => TextArea end.
Proof.
  intros Hnd fields. split.
  - rewrite <-(form_schema_keys m Hnd). unfold fields, jm_keys. rewrite <-list_fmap_compose. by apply list_fmap_ext.
  - intros f ([k s] & -> & Hs)%list_elem_of_fmap. simpl. apply (elem_jm_get k) in Hs.
    2:{ rewrite form_schema_keys by done. by apply NoDup_filter_keys. }
    rewrite form_schema_get in Hs by done. apply bind_Some in Hs as (decl & Hd & Hf). exists decl. unfold scalar_field in Hf.
    destruct (pt_type decl) eqn:Ht; simplify_eq; eexists; (split; [done|split; [reflexivity|by rewrite ?Ht]]).
Qed.

(** ** What the viewer shows *)

(** The picture it shows is the file's, and of a file recorded as large it has no bytes. *)
Lemma preview_legit {DB : Type} `{SqlLaws DB} {env : Env} user props (c : contents) n v tasks :
  viewer_ok user props c n v tasks ->
  (forall u, preview props v = PreviewImage u -> legit user props c u) /\
  (forall size, preview props v = PreviewTooBig size -> fv_fetched v = []).
Proof.
  intros [_ Hurl _ _ Hfet _ _]. unfold preview. destruct (fv_loading v); [done|]. destruct (shown (fv_error v)); [done|].
  destruct (tooBig (fp_sizeBytes props)) eqn:Hbig.
  - split; [done|]. intros _ _. destruct (fv_fetched v) as [|u l]; [done|]. destruct Hfet as [[_ Hsmall] _]; [done|].
    unfold tooBig in Hbig. destruct (fp_sizeBytes props) as [k|]; [|done]. specialize (Hsmall k eq_refl).
    unfold INLINE_LIMIT in Hbig. lia.
  - split.
    + intros u. destruct (file_kind _ _ === KImage).
      * destruct (fv_url v) as [u'|] eqn:Hu; simpl; [destruct (truthy u')|]; repeat case_match; intros; simplify_eq; auto.
      * repeat case_match; intros; simplify_eq.
    + intros size. repeat case_match; intros; simplify_eq.
Qed.
