(* ===== verification/ClientAuth.v ===== *)
(** * Signing in and out in the browser

    ([web_ui/composables/useAuth.ts], [middleware/auth.ts], [layouts/default.vue],
    [components/Login.vue], [SignUp.vue], [AppHeader.vue] and the pages
    [account.vue], [confirm.vue], [device.vue] and [forgot-password.vue].)

    The auth service is reached over the network and the calls of several components
    overlap, so the part around [useAuth] is a machine: its state holds the suspended
    calls, and an event answers any one of them, in any order and in any way. *)

From S2P Require Export Client.

Record AuthUser := mkAuthUser {
  au_id : string; au_name : option string; au_email : string; au_role : option string }.

(** What a call of the auth client comes to: it throws, or it returns [data?.user] and
    [error], which may lack a [message]. *)
Inductive Answer :=
| Threw (e : JsError)
| Returned (user : option AuthUser) (error : option (option string)).

(** [(config.public.betterAuthUrl as string) || window.location.origin] *)
Definition client_baseURL (betterAuthUrl origin : string) : string := js_or betterAuthUrl origin.

(** ** The machine *)

(** The value of [useState("auth")]. *)
Record AuthState := mkAuthState { as_user : option AuthUser; as_loading : bool }.

Definition initial_auth : AuthState := mkAuthState None true.
Definition isAuthenticated (a : AuthState) : bool := bool_decide (is_Some (as_user a)).

(** An instance of the component [Login] or [SignUp]. *)
Inductive FormKind := LoginForm | SignUpForm.
Record Form := mkForm {
  fm_kind : FormKind; fm_username : string; fm_name : string; fm_passwd : string;
  fm_passwdConfirm : string; fm_errorMessage : option string; fm_submitting : bool }.

Definition fresh_form (k : FormKind) : Form := mkForm k "" "" "" "" None false.
Definition set_message (m : option string) (f : Form) : Form :=
  mkForm (fm_kind f) (fm_username f) (fm_name f) (fm_passwd f) (fm_passwdConfirm f) m (fm_submitting f).
Definition set_submitting (b : bool) (f : Form) : Form :=
  mkForm (fm_kind f) (fm_username f) (fm_name f) (fm_passwd f) (fm_passwdConfirm f) (fm_errorMessage f) b.
Definition type_in (username name passwd passwdConfirm : string) (f : Form) : Form :=
  mkForm (fm_kind f) username name passwd passwdConfirm (fm_errorMessage f) (fm_submitting f).

(** Who awaits the call: nobody ([void refresh()]), the page [confirm], a form, or the
    handler [handleSignOut] of a button. *)
Inductive Caller := Nobody | ConfirmPage | FormOf (i : nat) | SignOutButton.

(** The suspended calls of the auth client. *)
Inductive Task :=
| GetSession (k : Caller)
| PostSignIn (i : nat) (email password : string)
| PostSignUp (i : nat) (email password name : string)
| PostSignOut.

Record App := mkApp { ap_auth : AuthState; ap_path : string; ap_forms : list Form; ap_pending : list Task }.

Definition set_auth (a : AuthState) (s : App) : App := mkApp a (ap_path s) (ap_forms s) (ap_pending s).
Definition goto (path : string) (s : App) : App := mkApp (ap_auth s) path (ap_forms s) (ap_pending s).
Definition on_form (i : nat) (g : Form -> Form) (s : App) : App :=
  mkApp (ap_auth s) (ap_path s) (alter g i (ap_forms s)) (ap_pending s).
Definition suspend (t : Task) (s : App) : App :=
  mkApp (ap_auth s) (ap_path s) (ap_forms s) (ap_pending s ++ [t]).

(** [refresh], up to its [await]. *)
Definition refresh (k : Caller) (s : App) : App :=
  suspend (GetSession k) (set_auth (mkAuthState (as_user (ap_auth s)) true) s).

(** The rest of the caller once what it awaits is over. *)
Definition submit_fallback (k : FormKind) : string :=
  match k with
  | LoginForm => "Could not sign in. Please try again."
  | SignUpForm => "Sign-up failed. Please try again."
  end.

Definition form_failed (e : JsError) (f : Form) : Form :=
  set_message (Some (js_or (er_message e ⁇ "") (submit_fallback (fm_kind f)))) f.

Definition resume (k : Caller) (r : result JsError unit) (s : App) : App :=
  match k, r with
  | FormOf i, Ok _ => on_form i (set_submitting false) (goto "/" s)
  | FormOf i, Throw e => on_form i (set_submitting false) (on_form i (form_failed e) s)
  | ConfirmPage, Ok _ => if isAuthenticated (ap_auth s) then goto "/" s else s
  | SignOutButton, Ok _ => goto "/login" s
  | _, _ => s
  end.

(** [signIn] and [signUp] after their first [await]. *)
Definition signed (i : nat) (fallback : string) (a : Answer) (s : App) : App :=
  match a with
  | Threw e => resume (FormOf i) (Throw e) s
  | Returned _ (Some message) => resume (FormOf i) (Throw (js_error (message ⁇ fallback))) s
  | Returned _ None => refresh (FormOf i) s
  end.

Definition reply (t : Task) (a : Answer) (s : App) : App :=
  match t with
  | GetSession k =>
      match a with
      | Threw e => resume k (Throw e) (set_auth (mkAuthState (as_user (ap_auth s)) false) s)
      | Returned user _ => resume k (Ok tt) (set_auth (mkAuthState user false) s)
      end
  | PostSignIn i _ _ => signed i "Sign-in failed" a s
  | PostSignUp i _ _ _ => signed i "Sign-up failed" a s
  | PostSignOut =>
      match a with
      | Threw e => resume SignOutButton (Throw e) s
      | Returned _ _ => resume SignOutButton (Ok tt) (set_auth (mkAuthState None (as_loading (ap_auth s))) s)
      end
  end.

(** The setup of a component that calls [useAuth]. *)
Definition useAuth (s : App) : App :=
  if as_loading (ap_auth s) && negb (isAuthenticated (ap_auth s)) then refresh Nobody s else s.

(** [name ?? email], where the form always gives a name. *)
Definition sign_up_name (name : option string) (email : string) : string := name ⁇ email.

(** [handleSubmit] of [Login] and [SignUp], up to their [await]. *)
Definition handleSubmitForm (i : nat) (s : App) : App :=
  match ap_forms s !! i with
  | None => s
  | Some f =>
      let s := on_form i (set_message None) s in
      match fm_kind f with
      | LoginForm =>
          suspend (PostSignIn i (fm_username f) (fm_passwd f)) (on_form i (set_submitting true) s)
      | SignUpForm =>
          if negb (fm_passwd f === fm_passwdConfirm f)
          then on_form i (set_message (Some "Passwords do not match")) s
          else suspend (PostSignUp i (fm_username f) (fm_passwd f) (sign_up_name (Some (fm_name f)) (fm_username f)))
                 (on_form i (set_submitting true) s)
      end
  end.

Inductive AuthEvent :=
| Mounted (form : option FormKind)     (** a component that calls [useAuth] is set up *)
| Visited (path : string)              (** a link is followed *)
| Typed (i : nat) (username name passwd passwdConfirm : string)
| Submitted (i : nat)
| ConfirmOpened                        (** [confirm] without a token *)
| SignOutClicked
| Answered (j : nat) (a : Answer).

Definition auth_step (s : App) (e : AuthEvent) : App :=
  match e with
  | Mounted None => useAuth s
  | Mounted (Some k) =>
      useAuth (mkApp (ap_auth s) (ap_path s) (ap_forms s ++ [fresh_form k]) (ap_pending s))
  | Visited path => goto path s
  | Typed i u n p c => on_form i (type_in u n p c) s
  | Submitted i => handleSubmitForm i s
  | ConfirmOpened => refresh ConfirmPage s
  | SignOutClicked => suspend PostSignOut s
  | Answered j a =>
      match ap_pending s !! j with
      | None => s
      | Some t => reply t a (mkApp (ap_auth s) (ap_path s) (ap_forms s) (delete j (ap_pending s)))
      end
  end.

Definition opened (path : string) : App := mkApp initial_auth path [] [].
Definition auth_run (path : string) (events : list AuthEvent) : App := foldl auth_step (opened path) events.

(** ** What the layout shows *)

Definition PUBLIC_ROUTES : list string := ["/login"; "/signup"; "/forgot-password"; "/confirm"].
Definition isAuthRoute (path : string) : bool := bool_decide (path ∈ PUBLIC_ROUTES).

(** A placeholder, the page below the header, a page on its own, or the login form. *)
Inductive View := LoadingText | InsideLayout | BarePage | LoginBox.

#[export] Instance View_eq_dec : EqDecision View.
Proof. solve_decision. Defined.

Definition layout (s : App) : View :=
  if as_loading (ap_auth s) && negb (isAuthRoute (ap_path s)) then LoadingText
  else if isAuthenticated (ap_auth s) then InsideLayout
  else if isAuthRoute (ap_path s) then BarePage
  else LoginBox.

(** The route middleware, given what a refresh would leave; it yields the path it
    redirects to. *)
Definition auth_middleware (to : string) (refreshed a : AuthState) : option string :=
  if isAuthRoute to then None
  else
    let a := if as_loading a && negb (isAuthenticated a) then refreshed else a in
    if isAuthenticated a then None else Some "/login".

(** [isActive] of the header. *)
Definition isActive (route_path to : string) : bool :=
  if to === "/" then route_path === "/"
  else (route_path === to) || startsWith (to +:+ "/") route_path.

(** ** The other pages of an account *)

Record AccountPage := mkAccountPage {
  ac_current : string; ac_new : string; ac_confirm : string;
  ac_message : option string; ac_error : option string; ac_submitting : bool }.

(** [handleChangePassword]; [call] is the auth client's [changePassword]. *)
Definition handleChangePassword (call : string -> string -> Answer) (p : AccountPage) : AccountPage :=
  let fields m e := mkAccountPage (ac_current p) (ac_new p) (ac_confirm p) m e (ac_submitting p) in
  if negb (ac_new p === ac_confirm p) then fields None (Some "Passwords do not match.")
  else if String.length (ac_new p) <? 8 then fields None (Some "New password must be at least 8 characters.")
  else
    let failed (m : string) :=
      mkAccountPage (ac_current p) (ac_new p) (ac_confirm p) None (Some (js_or m "Could not update password.")) false in
    match call (ac_current p) (ac_new p) with
    | Threw e => failed (er_message e ⁇ "")
    | Returned _ (Some m) => failed (m ⁇ "")
    | Returned _ None => mkAccountPage "" "" "" (Some "Password updated.") None false
    end.

Inductive ConfirmStatus := Pending | Verified | NotVerified.

(** The token of the address, [token || t]. *)
Definition confirm_token (token t : option string) : option string :=
  match js_or (token ⁇ "") (t ⁇ "") with "" => None | x => Some x end.

(** [onMounted] of [confirm] with a token; without one it is the event [ConfirmOpened]. *)
Definition verify_email (post : string -> result JsError unit) (token : string) : ConfirmStatus * string :=
  match post token with
  | Ok _ => (Verified, "Your email is verified.")
  | Throw e => (NotVerified, js_or (er_message e ⁇ "") "Verification failed.")
  end.

Inductive DeviceStatus := DeviceIdle | DeviceSubmitting | DeviceApproved | DeviceDenied | DeviceError.
Record DevicePage := mkDevicePage { dv_code : string; dv_status : DeviceStatus; dv_error : option string }.

Inductive DeviceCall := ApproveDevice | DenyDevice.

(** [approve] and [deny]; [trim] is the method of strings, [post] the request with its
    answer, [data_message] is [e.data.message]. *)
Definition decide_device (trim : string -> string) (post : DeviceCall -> string -> result JsError unit)
    (data_message : JsError -> option string) (call : DeviceCall) (p : DevicePage) : DevicePage :=
  if negb (truthy (trim (dv_code p))) then p
  else
    match post call (trim (dv_code p)) with
    | Ok _ =>
        mkDevicePage (dv_code p) (match call with ApproveDevice => DeviceApproved | DenyDevice => DeviceDenied end) None
    | Throw e =>
        mkDevicePage (dv_code p) DeviceError
          (Some (data_message e ⁇ (er_message e ⁇
            match call with ApproveDevice => "Authorization failed." | DenyDevice => "Request failed." end)))
    end.

Inductive ForgotStatus := ForgotIdle | ForgotSent | ForgotError.
Record ForgotPage := mkForgotPage {
  fg_email : string; fg_status : ForgotStatus; fg_error : option string; fg_submitting : bool }.

(** [handleSubmit] of [forgot-password]; the request names the page the mail leads to. *)
Definition forgot_submit (call : string -> string -> Answer) (p : ForgotPage) : ForgotPage :=
  let failed (m : string) :=
    mkForgotPage (fg_email p) ForgotError (Some (js_or m "Could not send reset email.")) false in
  match call (fg_email p) "/reset-password" with
  | Threw e => failed (er_message e ⁇ "")
  | Returned _ (Some m) => failed (m ⁇ "")
  | Returned _ None => mkForgotPage (fg_email p) ForgotSent None false
  end.

(** ** The invariant of the machine *)

Definition is_session (t : Task) : Prop := match t with GetSession _ => True | _ => False end.
Definition owner (t : Task) : option nat :=
  match t with
  | GetSession (FormOf i) | PostSignIn i _ _ | PostSignUp i _ _ _ => Some i
  | _ => None
  end.
Definition serves (i : nat) (t : Task) : Prop := owner t = Some i.

Definition waits (P : Task -> Prop) (s : App) : Prop := exists t, t ∈ ap_pending s /\ P t.

(** [u] is the user of an answer among the events. *)
Definition reported (events : list AuthEvent) (u : AuthUser) : Prop :=
  exists j err, Answered j (Returned (Some u) err) ∈ events.

(** A form that is submitting waits for a call of its own; [x] is a form left out. *)
Definition forms_ok (x : option nat) (s : App) : Prop :=
  forall i f, ap_forms s !! i = Some f -> fm_submitting f = true -> x <> Some i -> waits (serves i) s.

Lemma elem_delete {A} (l : list A) j x y : l !! j = Some x -> y ∈ l -> y = x \/ y ∈ delete j l.
Proof.
  intros Hj Hy. rewrite <- (take_drop_middle l j x Hj) in Hy. rewrite delete_take_drop.
  apply elem_of_app in Hy as [Hy|Hy]; [right; set_solver|]. apply elem_of_cons in Hy as [->|Hy]; [by left|].
  right. set_solver.
Qed.

Lemma lookup_on_form i g s j f :
  ap_forms (on_form i g s) !! j = Some f ->
  (i <> j /\ ap_forms s !! j = Some f) \/ (i = j /\ exists f', ap_forms s !! i = Some f' /\ f = g f').
Proof.
  simpl. destruct (decide (i = j)) as [->|Hne].
  - rewrite list_lookup_alter, decide_True by done. intros Heq. apply fmap_Some in Heq as (f0 & Hf0 & ->). right. split; [done|]. by exists f0.
  - rewrite list_lookup_alter_ne by done. auto.
Qed.

(** What an event leaves of the user. *)
Lemma resume_auth k r s : ap_auth (resume k r s) = ap_auth s.
Proof. destruct k, r; simpl; try done. by destruct (isAuthenticated _). Qed.

Lemma resume_pending k r s : ap_pending (resume k r s) = ap_pending s.
Proof. destruct k, r; simpl; try done. by destruct (isAuthenticated _). Qed.

Lemma submit_auth i s : ap_auth (handleSubmitForm i s) = ap_auth s.
Proof. unfold handleSubmitForm. destruct (ap_forms s !! i) as [f|]; [|done]. destruct (fm_kind f); [done|]. by destruct (negb _). Qed.

Lemma submit_pending i s t : t ∈ ap_pending s -> t ∈ ap_pending (handleSubmitForm i s).
Proof.
  unfold handleSubmitForm. destruct (ap_forms s !! i) as [f|]; [|done].
  destruct (fm_kind f); [simpl; set_solver|]. destruct (negb _); simpl; set_solver.
Qed.

Lemma step_user s e u :
  as_user (ap_auth (auth_step s e)) = Some u -> as_user (ap_auth s) = Some u \/ reported [e] u.
Proof.
  destruct e as [form| | |i| | |j a]; simpl; auto.
  - destruct form; unfold useAuth; simpl; destruct (_ && _); auto.
  - rewrite submit_auth. auto.
  - destruct (ap_pending s !! j) as [t|]; [|auto].
    destruct t, a as [e|u' [m|]]; simpl; rewrite ?resume_auth; simpl; auto; try done;
      intros ->; right; exists j; eexists; by apply list_elem_of_singleton.
Qed.

Lemma run_user s es u :
  as_user (ap_auth (foldl auth_step s es)) = Some u -> as_user (ap_auth s) = Some u \/ reported es u.
Proof.
  revert s. induction es as [|e es IH]; intros s; simpl; [auto|]. intros Hu.
  destruct (IH _ Hu) as [Hu'|(j & err & Hin)]; [|right; exists j, err; set_solver].
  destruct (step_user _ _ _ Hu') as [?|(j & err & Hin)]; [by left|]. right. exists j, err. set_solver.
Qed.

(** A spinner is waited for. *)
Definition loading_ok (s : App) : Prop := as_loading (ap_auth s) = true -> waits is_session s.

Lemma waits_suspend P t s : waits P s -> waits P (suspend t s).
Proof. intros (t' & Hin & HP). exists t'. simpl. split; [set_solver|done]. Qed.

Lemma refresh_loading k s : loading_ok (refresh k s).
Proof. intros _. exists (GetSession k). simpl. split; [set_solver|done]. Qed.

Lemma step_loading s e : loading_ok s -> loading_ok (auth_step s e).
Proof.
  intros Hok. destruct e as [form| | |i| | |j a]; simpl; try done.
  - destruct form; unfold useAuth; destruct (_ && _); (apply refresh_loading || exact Hok).
  - intros Hl. rewrite submit_auth in Hl. destruct (Hok Hl) as (t & Hin & Ht). exists t. split; [by apply submit_pending|done].
  - apply refresh_loading.
  - intros Hl. by apply waits_suspend, Hok.
  - destruct (ap_pending s !! j) as [t|] eqn:Hj; [|done].
    assert (Hrest : ~ is_session t -> as_loading (ap_auth s) = true ->
      exists t', t' ∈ delete j (ap_pending s) /\ is_session t').
    { intros Ht Hl. destruct (Hok Hl) as (t' & Hin & Ht').
      destruct (elem_delete _ _ _ _ Hj Hin) as [->|]; [done|eauto]. }
    unfold loading_ok, waits. destruct t, a as [e|u [m|]]; simpl; rewrite ?resume_auth, ?resume_pending; simpl; try done;
      try (intros Hl; apply Hrest; [by intros []|done]).
    all: intros _; eexists; split; [apply elem_of_app; right; by apply list_elem_of_singleton|done].
Qed.

Lemma on_form_ok x i g s :
  (forall f, fm_submitting (g f) = true -> fm_submitting f = true) -> forms_ok x s -> forms_ok x (on_form i g s).
Proof.
  intros Hg Hok j f Hf Hsub Hx. destruct (lookup_on_form _ _ _ _ _ Hf) as [[_ Hf']|(-> & f' & Hf' & ->)].
  - by apply (Hok j f).
  - apply (Hok j f'); auto.
Qed.

Lemma finished_ok i s : forms_ok (Some i) s -> forms_ok None (on_form i (set_submitting false) s).
Proof.
  intros Hok j f Hf Hsub _. destruct (lookup_on_form _ _ _ _ _ Hf) as [[Hne Hf']|(-> & f' & Hf' & ->)].
  - apply (Hok j f); [done|done|congruence].
  - done.
Qed.

Lemma started_ok i t s :
  serves i t -> forms_ok (Some i) s -> forms_ok None (suspend t s).
Proof.
  intros Ht Hok j f Hf Hsub _. destruct (decide (i = j)) as [->|Hne].
  - exists t. simpl. split; [set_solver|done].
  - apply waits_suspend. apply (Hok j f); [done|done|congruence].
Qed.

Lemma suspend_ok x t s : forms_ok x s -> forms_ok x (suspend t s).
Proof. intros Hok j f Hf Hsub Hx. apply waits_suspend. by apply (Hok j f). Qed.

Lemma set_auth_ok x a s : forms_ok x s -> forms_ok x (set_auth a s).
Proof. exact id. Qed.

(** Resuming a form ends its submission; no other caller has one. *)
Lemma resume_ok k r s :
  forms_ok (match k with FormOf i => Some i | _ => None end) s -> forms_ok None (resume k r s).
Proof.
  destruct k as [| |i|], r; simpl; try done.
  - by destruct (isAuthenticated _).
  - intros Hok. by apply finished_ok.
  - intros Hok. apply finished_ok. by apply on_form_ok.
Qed.

Lemma signed_ok i m a s : forms_ok (Some i) s -> forms_ok None (signed i m a s).
Proof.
  intros Hok. destruct a as [e|u [e|]]; simpl; [exact (resume_ok (FormOf i) (Throw e) s Hok)| |].
  - exact (resume_ok (FormOf i) (Throw _) s Hok).
  - by apply (started_ok i).
Qed.

Lemma reply_ok t a s : forms_ok (owner t) s -> forms_ok None (reply t a s).
Proof.
  destruct t as [k|i ? ?|i ? ? ?|]; simpl; try apply signed_ok.
  - destruct a; intros Hok; by apply resume_ok, set_auth_ok.
  - destruct a; intros Hok; done.
Qed.

Lemma delete_ok s j t :
  ap_pending s !! j = Some t -> forms_ok None s ->
  forms_ok (owner t) (mkApp (ap_auth s) (ap_path s) (ap_forms s) (delete j (ap_pending s))).
Proof.
  intros Hj Hok i f Hf Hsub Hx. destruct (Hok i f Hf Hsub) as (t' & Hin & Ht'); [done|].
  destruct (elem_delete _ _ _ _ Hj Hin) as [->|Hrest]; [done|]. by exists t'.
Qed.

Lemma submit_ok i s : forms_ok None s -> forms_ok None (handleSubmitForm i s).
Proof.
  intros Hok. unfold handleSubmitForm. destruct (ap_forms s !! i) as [f|] eqn:Hf; [|done].
  assert (Hmsg : forms_ok None (on_form i (set_message None) s)) by by apply on_form_ok.
  assert (Hgo : forall t, serves i t ->
    forms_ok None (suspend t (on_form i (set_submitting true) (on_form i (set_message None) s)))).
  { intros t Ht. apply (started_ok i); [done|]. intros j g Hg Hsub Hx.
    destruct (lookup_on_form _ _ _ _ _ Hg) as [[_ Hg']|(-> & g' & Hg' & ->)]; [|done]. by apply (Hmsg j g). }
  destruct (fm_kind f); [by apply Hgo|]. destruct (negb _); [by apply on_form_ok|by apply Hgo].
Qed.

Lemma useAuth_ok s : forms_ok None s -> forms_ok None (useAuth s).
Proof. unfold useAuth. destruct (_ && _); [|done]. intros Hok. by apply suspend_ok. Qed.

Lemma step_forms s e : forms_ok None s -> forms_ok None (auth_step s e).
Proof.
  intros Hok. destruct e as [form| |i u n pw c|i| | |j a]; simpl.
  - destruct form as [k|]; [|by apply useAuth_ok]. apply useAuth_ok. intros i f Hf Hsub Hx. simpl in Hf.
    apply lookup_app_Some in Hf as [Hf|[_ Hf]]; [by apply (Hok i f)|].
    apply list_lookup_singleton_Some in Hf as [_ <-]. done.
  - exact Hok.
  - by apply on_form_ok.
  - by apply submit_ok.
  - by apply suspend_ok.
  - by apply suspend_ok.
  - destruct (ap_pending s !! j) as [t|] eqn:Hj; [|done]. by apply reply_ok, delete_ok.
Qed.

Lemma run_forms es s : forms_ok None s -> forms_ok None (foldl auth_step s es).
Proof. revert s. induction es as [|e es IH]; intros s Hs; [done|]. simpl. by apply IH, step_forms. Qed.

(** Once a component was mounted, the spinner is always waited for. *)
Lemma run_loading es s : loading_ok s -> loading_ok (foldl auth_step s es).
Proof. revert s. induction es as [|e es IH]; intros s Hs; [done|]. simpl. by apply IH, step_loading. Qed.

Lemma mounted_loading s form : loading_ok s \/ as_user (ap_auth s) = None -> loading_ok (auth_step s (Mounted form)).
Proof.
  intros Hs. assert (Hu : forall s', ap_auth s' = ap_auth s -> ap_pending s' = ap_pending s -> loading_ok (useAuth s')).
  { intros s' Ha Hp. unfold useAuth. destruct (_ && _) eqn:Hb; [apply refresh_loading|].
    rewrite Ha in Hb. intros Hl. rewrite Ha in Hl. rewrite Hl in Hb. simpl in Hb.
    destruct Hs as [Hs|Hnone].
    - unfold waits. rewrite Hp. by apply Hs.
    - unfold isAuthenticated in Hb. rewrite Hnone in Hb. done. }
  destruct form; by apply Hu.
Qed.

(** Before the first component is mounted nothing loads, but nobody is signed in. *)
Definition loading_or_out (s : App) : Prop := loading_ok s \/ as_user (ap_auth s) = None.

Lemma step_or_out s e : loading_or_out s -> loading_or_out (auth_step s e).
Proof.
  intros [Hok|Hnone]; [left; by apply step_loading|].
  destruct (as_loading (ap_auth (auth_step s e))) eqn:Hl; [|left; unfold loading_ok; congruence].
  destruct (as_user (ap_auth (auth_step s e))) as [u|] eqn:Hu; [|by right].
  destruct (step_user _ _ _ Hu) as [Hu'|(j & err & Hin)]; [congruence|].
  apply list_elem_of_singleton in Hin as <-. exfalso. revert Hu Hl. simpl.
  destruct (ap_pending s !! j) as [[k|i ? ?|i ? ? ?|]|]; simpl; try congruence.
  - by rewrite resume_auth.
  - unfold signed. destruct err; rewrite ?resume_auth; simpl; congruence.
  - unfold signed. destruct err; rewrite ?resume_auth; simpl; congruence.
Qed.

Lemma run_mounted es s :
  loading_or_out s -> (exists form, Mounted form ∈ es) -> loading_ok (foldl auth_step s es).
Proof.
  revert s. induction es as [|e es IH]; intros s Hs [form Hin]; [by apply not_elem_of_nil in Hin|]. simpl.
  apply elem_of_cons in Hin as [<-|Hin].
  - by apply run_loading, mounted_loading.
  - apply IH; [by apply step_or_out|eauto].
Qed.

Lemma opened_ok path : forms_ok None (opened path) /\ loading_or_out (opened path).
Proof. split; [|by right]. intros i f Hf. done. Qed.

(** The layout shows a page below the header only to a user. *)
Lemma layout_inside s : layout s = InsideLayout -> exists u, as_user (ap_auth s) = Some u.
Proof.
  unfold layout. destruct (_ && _); [done|]. unfold isAuthenticated. case_bool_decide as Hu; [|by destruct (isAuthRoute _)].
  destruct Hu as [u Hu]. eauto.
Qed.

(** ** What the machine guarantees *)

(** C14. Pages behind the login.  Whatever components are mounted, links followed and
    forms submitted, and in whatever order and way the overlapping calls of the auth
    client are answered: (1) a page outside the public routes is shown only to a user
    whom the auth service reported; (2) after a sign-out was answered, only to one whom
    it reported later; (3) when no call is pending the spinner is gone, if any component
    was mounted, and no form is left submitting; (4) when nothing is loading, the route
    middleware lets a path pass exactly when the layout does not replace the page by
    the login form. *)
Theorem pages_behind_login path events :
  let s := auth_run path events in
  (layout s = InsideLayout -> exists u, as_user (ap_auth s) = Some u /\ reported events u) /\
  (forall es1 es2 j u' err, events = es1 ++ Answered j (Returned u' err) :: es2 ->
     ap_pending (auth_run path es1) !! j = Some PostSignOut -> layout s = InsideLayout ->
     exists u, as_user (ap_auth s) = Some u /\ reported es2 u) /\
  (ap_pending s = [] ->
     ((exists form, Mounted form ∈ events) -> as_loading (ap_auth s) = false) /\
     Forall (fun f => fm_submitting f = false) (ap_forms s)) /\
  (as_loading (ap_auth s) = false ->
     forall refreshed, auth_middleware (ap_path s) refreshed (ap_auth s) = None <-> layout s <> LoginBox).
Proof.
  destruct (opened_ok path) as [Hforms Hload]. split_and!.
  - intros Hin. destruct (layout_inside _ Hin) as [u Hu]. exists u. split; [done|].
    by destruct (run_user _ _ _ Hu) as [?|?].
  - intros es1 es2 j u' err -> Hj Hin. destruct (layout_inside _ Hin) as [u Hu]. exists u. split; [done|].
    unfold auth_run in Hu, Hj. rewrite foldl_app in Hu. simpl in Hu. rewrite Hj in Hu. simpl in Hu.
    by destruct (run_user _ _ _ Hu) as [?|?].
  - intros Hp. split.
    + intros Hm. pose proof (run_mounted _ _ Hload Hm) as Hok. apply not_true_is_false. intros Hl.
      destruct (Hok Hl) as (t & Ht & _). unfold auth_run in Hp. rewrite Hp in Ht. by apply not_elem_of_nil in Ht.
    + apply Forall_lookup. intros i f Hf. apply not_true_is_false. intros Hsub.
      destruct (run_forms events _ Hforms i f Hf Hsub) as (t & Ht & _); [done|].
      unfold auth_run in Hp. rewrite Hp in Ht. by apply not_elem_of_nil in Ht.
  - intros Hl refreshed. unfold auth_middleware, layout. rewrite Hl. simpl.
    destruct (isAuthRoute _), (isAuthenticated _); done.
Qed.

(** ** The account page *)

(** The service is only asked about equal passwords of at least eight characters. *)
Lemma new_password_sent call call' p :
  (ac_new p = ac_confirm p -> 8 <= String.length (ac_new p) -> call (ac_current p) (ac_new p) = call' (ac_current p) (ac_new p)) ->
  handleChangePassword call p = handleChangePassword call' p.
Proof.
  intros Heq. unfold handleChangePassword. case_bool_decide as Hsame; simpl; [|done].
  destruct (String.length (ac_new p) <? 8)%nat eqn:Hlen; [done|]. apply Nat.ltb_ge in Hlen. by rewrite Heq.
Qed.

(** ** Executions *)

Definition ada : AuthUser := mkAuthUser "u1" (Some "Ada") "ada@example.org" None.

(** Signing in on the login page leads home. *)
Example sign_in_flow :
  let s := auth_run "/login" [Mounted None; Mounted (Some LoginForm); Answered 0 (Returned None None);
    Answered 0 (Returned None None); Typed 0 "ada@example.org" "" "secret" ""; Submitted 0;
    Answered 0 (Returned None None); Answered 0 (Returned (Some ada) None)] in
  (layout s, ap_path s, ap_pending s) = (InsideLayout, "/", []).
Proof. vm_compute. reflexivity. Qed.

(** A rejected one shows the service's message. *)
Example sign_in_rejected :
  let s := auth_run "/login" [Mounted (Some LoginForm); Answered 0 (Returned None None); Submitted 0;
    Answered 0 (Returned None (Some (Some "Invalid email or password")))] in
  (layout s, fm_errorMessage <$> head (ap_forms s)) = (BarePage, Some (Some "Invalid email or password")).
Proof. vm_compute. reflexivity. Qed.

(** Two refreshes overlap; the second is answered as before the sign-out. *)
Example late_session_answer :
  let s := auth_run "/" [Mounted None; Mounted None; Answered 0 (Returned (Some ada) None); SignOutClicked;
    Answered 1 (Returned None None); Answered 0 (Returned (Some ada) None)] in
  as_user (ap_auth s) = Some ada.
Proof. vm_compute. reflexivity. Qed.
