(* ===== verification/AccountViews.v ===== *)
(** * What the pages around an account show

    (The templates of [web_ui/components/Login.vue], [SignUp.vue], [AppHeader.vue],
    [layouts/default.vue] and the pages [account.vue], [confirm.vue], [device.vue],
    [forgot-password.vue] and [index.vue].)  Views as in [Views]. *)

From S2P Require Export ClientAuth Views.

(** ** Forms *)

(** A field: its label, its kind, whether it is required, its value. *)
Record FormField := mkFormField { ff_label : string; ff_type : string; ff_required : bool; ff_value : string }.

(** [fo_links] are the links of the footer. *)
Record FormPanel := mkFormPanel {
  fo_title : string; fo_fields : list FormField; fo_error : option string; fo_submit : string * bool;
  fo_links : list (string * string) }.

Definition form_panel (f : Form) : FormPanel :=
  let email := mkFormField "Email" "email" true (fm_username f) in
  let password := mkFormField "Password" "password" true (fm_passwd f) in
  let error := shown (fm_errorMessage f) in
  match fm_kind f with
  | LoginForm =>
      mkFormPanel "Sign in" [email; password] error ("Sign in", fm_submitting f)
        [("Create one", "/signup"); ("Forgot password?", "/forgot-password")]
  | SignUpForm =>
      mkFormPanel "Create your account"
        [mkFormField "Name" "text" false (fm_name f); email; password;
         mkFormField "Confirm password" "password" true (fm_passwdConfirm f)]
        error ("Create account", fm_submitting f) [("Sign in", "/login")]
  end.

(** ** The header ([AppHeader.vue]) and the home page ([index.vue]) *)

Definition header_links : list (string * string) :=
  [("Home", "/"); ("Editor", "/editor"); ("Pipelines", "/pipelines"); ("Blocks", "/blocks"); ("Data", "/data");
   ("Results", "/results")].

(** The links with whether they are drawn as the current page, and the account's label. *)
Record HeaderView := mkHeaderView { hd_links : list (string * string * bool); hd_account : string }.

Definition header_view (path : string) (user : option AuthUser) : HeaderView :=
  mkHeaderView ((fun l => (l.1, l.2, isActive path l.2)) <$> header_links)
    (js_or ((user ≫= au_name) ⁇ "") (js_or ((au_email <$> user) ⁇ "") "Account")).

Record HomeCard := mkHomeCard { hc_title : string; hc_description : string; hc_icon : string; hc_to : string; hc_cta : string }.

Definition home_cards : list HomeCard :=
  [mkHomeCard "New Pipeline" "Open the editor and build a workflow from scratch." "i-heroicons-plus-circle" "/editor" "Start building →";
   mkHomeCard "Browse Pipelines" "Open, run, or share a pipeline you saved earlier." "i-heroicons-rectangle-stack" "/pipelines" "Browse library →";
   mkHomeCard "Recent Runs" "View results, logs, and downloads from your recent runs." "i-heroicons-chart-bar-square" "/results" "View results →"].

(** The buttons of the hero and the cards. *)
Definition home_targets : list string := ["/editor"; "/pipelines"] ++ (hc_to <$> home_cards).

(** ** The layout ([layouts/default.vue]) *)

(** [P] is what the page's own template draws. *)
Inductive Screen (P : Type) :=
  | ScreenLoading | ScreenPage (h : HeaderView) (page : P) | ScreenBare (page : P) | ScreenLogin (f : FormPanel).
Arguments ScreenLoading {P}. Arguments ScreenPage {P}. Arguments ScreenBare {P}. Arguments ScreenLogin {P}.

(** [login] is the form of the layout's own [Login]. *)
Definition screen {P} (s : App) (login : Form) (page : P) : Screen P :=
  match layout s with
  | LoadingText => ScreenLoading
  | InsideLayout => ScreenPage (header_view (ap_path s) (as_user (ap_auth s))) page
  | BarePage => ScreenBare page
  | LoginBox => ScreenLogin (form_panel login)
  end.

(** ** The pages of an account *)

Record AccountView := mkAccountView {
  av_profile : list (string * string); av_fields : list FormField;
  av_message : option string; av_error : option string; av_submit : string * bool }.

Definition account_view (user : option AuthUser) (p : AccountPage) : AccountView :=
  mkAccountView
    [("Name", js_or ((user ≫= au_name) ⁇ "") "—"); ("Email", (au_email <$> user) ⁇ "");
     ("Role", js_or ((user ≫= au_role) ⁇ "") "user")]
    [mkFormField "Current password" "password" true (ac_current p);
     mkFormField "New password" "password" true (ac_new p);
     mkFormField "Confirm new password" "password" true (ac_confirm p)]
    (shown (ac_message p)) (shown (ac_error p)) ("Update password", ac_submitting p).

(** A line of text, with the link it offers. *)
Definition confirm_view (s : ConfirmStatus) (message : string) : string * option (string * string) :=
  match s with
  | Pending => ("Checking your verification link…", None)
  | Verified => (message, Some ("Continue to sign in", "/login"))
  | NotVerified => (message, None)
  end.

(** Two buttons: Authorize with its spinner, Deny with whether it is enabled. *)
Inductive DeviceView :=
  | DeviceText (head detail : string)
  | DeviceForm (code : FormField) (error : option string) (loading deny_enabled : bool).

#[export] Instance DeviceStatus_eq_dec : EqDecision DeviceStatus.
Proof. solve_decision. Defined.

Definition device_view (p : DevicePage) : DeviceView :=
  match dv_status p with
  | DeviceApproved => DeviceText "Device authorized." "You can close this tab and return to your terminal."
  | DeviceDenied => DeviceText "Access denied." "The request was rejected. Run spade login again if this was a mistake."
  | st => DeviceForm (mkFormField "Device code" "text" true (dv_code p)) (shown (dv_error p))
            (st === DeviceSubmitting) (negb (st === DeviceSubmitting))
  end.

Inductive ForgotView := ForgotText (line : string) | ForgotForm (email : FormField) (error : option string) (submit : string * bool).

Definition forgot_view (p : ForgotPage) : ForgotView :=
  match fg_status p with
  | ForgotSent => ForgotText ("If an account exists for " +:+ fg_email p +:+ ", you'll receive a reset link shortly.")
  | _ => ForgotForm (mkFormField "Email" "email" true (fg_email p)) (shown (fg_error p)) ("Send reset link", fg_submitting p)
  end.

(** ** Properties *)

Lemma isActive_inv path to :
  isActive path to = true -> path = to \/ (to <> "/" /\ exists r, path = (to +:+ "/") +:+ r).
Proof.
  unfold isActive. destruct (to === "/") eqn:E; bool_prop; [intros H; bool_prop; left; congruence|].
  intros [H|H]%orb_true_iff; bool_prop; [by left|]. right. split; [done|]. by apply startsWith_app.
Qed.

(** On any page at most one link of the header is drawn as the current one. *)
Lemma header_one_active path user a b :
  a ∈ hd_links (header_view path user) -> b ∈ hd_links (header_view path user) ->
  a.2 = true -> b.2 = true -> a = b.
Proof.
  assert (H : forall l l', l ∈ header_links -> l' ∈ header_links -> isActive path l.2 = true -> isActive path l'.2 = true -> l = l').
  { intros l l' Hl Hl' H H'.
    repeat (apply elem_of_cons in Hl as [->|Hl]; [|]); [..|by apply elem_of_nil in Hl];
    (repeat (apply elem_of_cons in Hl' as [->|Hl']; [|]); [..|by apply elem_of_nil in Hl']);
    first [reflexivity | exfalso];
    apply isActive_inv in H as [->|[? [r ->]]]; apply isActive_inv in H' as [H'|[? [r' H']]]; first [discriminate | congruence]. }
  intros (l & -> & Hl)%list_elem_of_fmap (l' & -> & Hl')%list_elem_of_fmap Ha Hb. simpl in *.
  by rewrite (H l l' Hl Hl' Ha Hb).
Qed.

(** Where the home page leads, the header leads too, and the page there is marked. *)
Lemma home_targets_linked to user :
  to ∈ home_targets -> exists label, (label, to, true) ∈ hd_links (header_view to user).
Proof.
  intros H. repeat (apply elem_of_cons in H as [->|H]; [|]); [..|by apply elem_of_nil in H];
    [exists "Editor"|exists "Pipelines"|exists "Editor"|exists "Pipelines"|exists "Results"];
    apply (bool_decide_unpack _); vm_compute; exact I.
Qed.

(** The device page offers its form again after a failure, with the message, and not
    after a decision. *)
Lemma device_view_decided trim post data_message call p :
  truthy (trim (dv_code p)) = true ->
  let p' := decide_device trim post data_message call p in
  match post call (trim (dv_code p)), device_view p' with
  | Ok _, DeviceText head _ => head = match call with ApproveDevice => "Device authorized." | DenyDevice => "Access denied." end
  | Throw _, DeviceForm code _ loading deny => ff_value code = dv_code p /\ loading = false /\ deny = true
  | _, _ => False
  end.
Proof.
  intros Ht p'. unfold p', decide_device. rewrite Ht. simpl. destruct (post call (trim (dv_code p))), call; simpl; done.
Qed.

(** A form shows its message until the next submission. *)
Lemma form_error_cleared i s f :
  ap_forms s !! i = Some f -> fm_kind f = LoginForm ->
  exists f', ap_forms (handleSubmitForm i s) !! i = Some f' /\ fo_error (form_panel f') = None /\ (fo_submit (form_panel f')).2 = true.
Proof.
  intros Hi Hk. unfold handleSubmitForm. rewrite Hi. simpl. rewrite Hk. simpl. rewrite !list_lookup_alter_eq, Hi. simpl.
  eexists. split; [reflexivity|]. unfold form_panel. simpl. by rewrite Hk.
Qed.
