(* ===== verification/Services.v ===== *)
(** * Clients of services, the webhook, and the small stores

    ([web_ui/server/db/index.ts], [server/storage.ts], [server/auth.ts],
    [web_ui/hooks/runs.ts], [composables/useBlockArgs.ts], [stores/pipeline.ts].)
    The database, the object store and the auth library are third-party packages: a
    client is what it was configured with and the number of its construction. *)

From S2P Require Export JsMap Monad Types.

(** [(config.x as string) || process.env.X] *)
Definition config_or_env (config env : option string) : option string :=
  if otruthy config then config else env.

(** ** One client per process *)

Record Lazy (C : Type) := mkLazy { lz_cached : option (C * nat); lz_made : nat }.
Arguments mkLazy {C}. Arguments lz_cached {C}. Arguments lz_made {C}.

Definition never {C} : Lazy C := mkLazy None 0.

(** [if (cached) return cached; cached = create()], where [create] may throw. *)
Definition lazily {C} (create : result string C) : M (Lazy C) string (C * nat) := fun s =>
  match lz_cached s with
  | Some c => (s, Ok c)
  | None =>
      match create with
      | Ok c => (mkLazy (Some (c, lz_made s)) (S (lz_made s)), Ok (c, lz_made s))
      | Throw e => (s, Throw e)
      end
  end.

Definition no_database : string := "DATABASE_URL is not configured (set it in .env or Nuxt runtimeConfig).".

Definition database_url (config env : option string) : result string string :=
  match config_or_env config env with
  | Some url => if truthy url then Ok url else Throw no_database
  | None => Throw no_database
  end.

Definition useDb (config env : option string) : M (Lazy string) string (string * nat) := lazily (database_url config env).

Record S3Config := mkS3Config { s3_endpoint : string; s3_region : string; s3_accessKeyId : string; s3_secretAccessKey : string; s3_bucket : string }.
Definition useS3 (config : S3Config) : M (Lazy S3Config) string (S3Config * nat) := lazily (Ok config).
Definition s3Bucket (config : S3Config) : string := s3_bucket config.

(** ** The configuration of the auth library ([server/auth.ts]) *)

Record AuthConfig := mkAuthConfig {
  ac_secret : option string; ac_baseURL : string; ac_database : string * nat; ac_verificationUri : string;
  ac_validateClient : string -> bool; ac_requireVerification : bool; ac_defaultRole : string }.

Definition validateClient (clientId : string) : bool := clientId === "spade-cli".

(** What the process knows: the runtime configuration and the environment. *)
Record Process := mkProcess {
  ps_databaseUrl : option string; ps_DATABASE_URL : option string;
  ps_secret : option string; ps_SECRET : option string; ps_betterAuthUrl : option string }.

Definition createAuth (p : Process) (db : string * nat) : AuthConfig :=
  mkAuthConfig (config_or_env (ps_secret p) (ps_SECRET p)) (js_or (ps_betterAuthUrl p ⁇ "") "http://localhost:3000")
    db "/device" validateClient false "user".

(** The two cached clients. *)
Record Clients := mkClients { cs_db : Lazy string; cs_auth : Lazy AuthConfig }.

Definition useAuth (p : Process) : M Clients string (AuthConfig * nat) := fun s =>
  match lz_cached (cs_auth s) with
  | Some a => (s, Ok a)
  | None =>
      match useDb (ps_databaseUrl p) (ps_DATABASE_URL p) (cs_db s) with
      | (db, Throw e) => (mkClients db (cs_auth s), Throw e)
      | (db, Ok h) =>
          let '(auth, r) := lazily (Ok (createAuth p h)) (cs_auth s) in (mkClients db auth, r)
      end
  end.

(** ** The webhook ([hooks/runs.ts]) *)

Record Post := mkPost { po_url : string; po_headers : list (string * string); po_body : jsmap Json }.

Definition nullable (o : option string) : Json := match o with Some s => JStr s | None => JNull end.

(** [afterCreate]: the request it sends, without waiting for the answer.  A content
    of [undefined] is left out of the JSON. *)
Definition afterCreate (webhookUrl : option string) (run_id : string) (user_id : option string) (content : option Json) : option Post :=
  if otruthy webhookUrl then
    Some (mkPost (webhookUrl ⁇ "") [("Content-Type", "application/json")]
            ([("run_id", JStr run_id); ("user_id", nullable user_id)] ++
             match content with Some c => [("content", c)] | None => [] end))
  else None.

(** ** Stores that nothing reads ([useBlockArgs.ts], [stores/pipeline.ts]) *)

Definition BlockArgs := jsmap Json.
Definition updateArgs (id : string) (value : Json) (s : BlockArgs) : BlockArgs := jm_set id value s.

(** [argsById.value[id] || {}] *)
Definition json_falsy (j : Json) : bool :=
  match j with JNull => true | JBool b => negb b | JNum n => n === 0%Z | JStr s => negb (truthy s) | _ => false end.
Definition blockArgsById (id : string) (s : BlockArgs) : Json :=
  match jm_get id s with Some v => if json_falsy v then JObj [] else v | None => JObj [] end.

Record PipelineStore := mkPipelineStore { st_text : string }.
Definition initial_pipeline_store : PipelineStore := mkPipelineStore "".

(** ** Properties *)

Section Once.
Context {C : Type}.

Fixpoint asks (creates : list (result string C)) (s : Lazy C) : Lazy C * list (result string (C * nat)) :=
  match creates with
  | [] => (s, [])
  | create :: creates =>
      let '(s, r) := lazily create s in
      let '(s, rs) := asks creates s in (s, r :: rs)
  end.

Lemma asks_cached creates c n :
  asks creates (mkLazy (Some c) n) = (mkLazy (Some c) n, (fun _ => Ok c) <$> creates).
Proof. induction creates as [|create creates IH]; [done|]. simpl. by rewrite IH. Qed.

(** A client is made at most once.  Requests fail until the process is configured; the
    first that succeeds makes the client, and everyone who asks later gets that one,
    whatever the configuration is by then. *)
Theorem client_made_once (errs : list string) (c : C) (later : list (result string C)) :
  asks ((Throw <$> errs) ++ Ok c :: later) never =
    (mkLazy (Some (c, 0)) 1, (Throw <$> errs) ++ Ok (c, 0) :: ((fun _ => Ok (c, 0)) <$> later)).
Proof.
  induction errs as [|e errs IH]; [simpl; by rewrite asks_cached|]. rewrite fmap_cons, <-!app_comm_cons.
  cbn [asks]. change (lazily (Throw e) (@never C)) with (@never C, @Throw string (C * nat) e). cbv iota beta. by rewrite IH.
Qed.

Lemma never_made (errs : list string) : asks (Throw <$> errs) (@never C) = (never, Throw <$> errs).
Proof.
  induction errs as [|e errs IH]; [done|]. rewrite !fmap_cons.
  cbn [asks]. change (lazily (Throw e) (@never C)) with (@never C, @Throw string (C * nat) e). cbv iota beta. by rewrite IH.
Qed.
End Once.

(** The auth library works on the process's database client. *)
Lemma useAuth_database p s s' a n :
  lz_cached (cs_auth s) = None -> useAuth p s = (s', Ok (a, n)) ->
  lz_cached (cs_db s') = Some (ac_database a) /\ lz_cached (cs_auth s') = Some (a, n) /\
  (forall id, ac_validateClient a id = true <-> id = "spade-cli").
Proof.
  intros Hnone. unfold useAuth. rewrite Hnone. unfold useDb, lazily. rewrite Hnone.
  destruct (lz_cached (cs_db s)) as [h|] eqn:Hdb; [|destruct (database_url _ _)]; intros Heq; simplify_eq; simpl;
    (split; [done|]); (split; [done|]); intros id; unfold validateClient; by rewrite bool_decide_eq_true.
Qed.

(** A process without a database address has neither client. *)
Lemma unconfigured p s :
  otruthy (ps_databaseUrl p) = false -> otruthy (ps_DATABASE_URL p) = false ->
  lz_cached (cs_db s) = None -> lz_cached (cs_auth s) = None ->
  (useAuth p s).2 = Throw no_database.
Proof.
  intros H1 H2 Hdb Ha. unfold useAuth, useDb, lazily, database_url, config_or_env. rewrite Ha, H1, Hdb.
  destruct (ps_DATABASE_URL p) as [u|]; [|done]. simpl in H2. by rewrite H2.
Qed.

(** The webhook gets the run's id and content, once, if there is an address. *)
Lemma afterCreate_sent url run user content post :
  afterCreate url run user content = Some post ->
  otruthy url = true /\ Some (po_url post) = url /\ jm_get "run_id" (po_body post) = Some (JStr run) /\
  jm_get "content" (po_body post) = content.
Proof.
  unfold afterCreate. destruct (otruthy url) eqn:Hu; [|done]. intros [= <-]. simpl.
  destruct url as [u|]; [|done]. split_and!; [done..|]. by destruct content.
Qed.

Lemma blockArgs_get id v s :
  json_falsy v = false -> blockArgsById id (updateArgs id v s) = v.
Proof. intros Hv. unfold blockArgsById, updateArgs. by rewrite jm_get_set_eq, Hv. Qed.
