(* ===== verification/ServerDemo.v ===== *)
(** * A running server: the witnesses of the theorems on the handlers

    A concrete environment (counters for UUIDs and the clock, a two-document YAML
    parser, URLs as text) over the list database, and one run of each theorem's
    operation in it. *)

From S2P Require Import Repositories RunsSpec ZipSpec Isolation Access Noninterference Uploads.

#[export] Instance demo_env : Env := {
  uuidv7 := uuid_example;
  clock n := Z.of_nat (100 + n);
  yaml_parse s := if s === "yaml" then Ok (Some doc_example) else Throw "unexpected token";
  yaml_stringify p := "text";
  presign method key mime expires := method +:+ " " +:+ key;
  s3_delete_fails key := false;
  text_le a b := Nat.leb (String.length a) (String.length b) }.

#[export] Instance demo_config : RouterConfig := {
  rc_secret := Some "secret";
  rc_env_secret := None;
  rc_parse_manifest s := Throw "not a manifest" }.

Definition ann : SessionUser := mkSessionUser "u1" "user".
Definition bob : SessionUser := mkSessionUser "u2" "user".
Definition root : SessionUser := mkSessionUser "u1" "admin".

Definition demo_data : DataFileRow := mkDataFile "d1" "u1" "map.tif" 10 "image/tiff" "data/u1/d1/map.tif" Private 4 4.
Definition demo_file (id name : string) : RunFileRow := mkRunFile id "r1" None name None None ("runs/r1/" +:+ id) 5.

Definition demo_db : contents :=
  set_rows TRunFiles (set_rows TDataFiles demo [demo_data]) [demo_file "f1" "a.txt"; demo_file "f2" "a.txt"].

Definition demo_world : World contents := mkWorld demo_db 0 0 [].

Lemma demo_db_keys : keys_ok (db_rows (w_db demo_world)).
Proof. intros t. destruct t; vm_compute; reflexivity. Defined.

Lemma demo_text_le_total (a b : string) : text_le a b = true \/ text_le b a = true.
Proof. simpl. rewrite !Nat.leb_le. lia. Qed.

Lemma demo_text_le_trans (a b c : string) : text_le a b = true -> text_le b c = true -> text_le a c = true.
Proof. simpl. rewrite !Nat.leb_le. lia. Qed.

(** ** Runs *)

Lemma submit_spec_witness :
  keys_ok demo_db /\
  exists w' r, submit (Some ann) (Some (mkSubmitBody (Some "p1") None None)) demo_world = (w', Ok r) /\
    rn_ownerId r = "u1" /\ rn_status r = Queued /\
    same_rows (db_rows (w_db w')) (set_rows TRuns demo_db (rows demo_db TRuns ++ [r])).
Proof.
  split; [exact demo_db_keys|].
  destruct (submit (Some ann) (Some (mkSubmitBody (Some "p1") None None)) demo_world) as [w' [r|e]] eqn:E;
    [|vm_compute in E; discriminate E].
  destruct (submit_spec (Some ann) _ demo_world w' (Ok r) demo_db_keys E)
    as (user & yaml & doc & resolved & n & Hu & _ & _ & _ & _ & _ & _ & Ho & Hs & _ & Hrows).
  injection Hu as <-. exists w', r. split; [reflexivity|]. split; [exact Ho|]. split; [exact Hs|exact Hrows].
Defined.

Lemma submit_accepts_witness :
  (exists w' r, submit (Some bob) (Some (mkSubmitBody None (Some "yaml") None)) demo_world = (w', Ok r)) <->
  (forall r, r ∈ rows demo_db TRuns -> rn_id r <> "u-2").
Proof.
  destruct (resolveShortCodes uuid_example doc_example 0) as [n [p|e]] eqn:E; [|vm_compute in E; discriminate E].
  vm_compute in E. injection E as <- <-.
  exact (submit_accepts bob "yaml" None doc_example _ 2 demo_world eq_refl eq_refl
    ltac:(vm_compute; reflexivity) ltac:(vm_compute; reflexivity) ltac:(vm_compute; reflexivity)).
Defined.

Definition demo_patch : PatchBody :=
  mkPatchBody (Some Succeeded) None
    (Some [Some (mkFileEntry (Some "out.tif") (Some "runs/r1/out.tif") None None None); None])
    (Some [Some (mkLogEntry None (Some "done") None)]).

Lemma demo_patchable : patchable "r1" demo_world.
Proof.
  split; [exact demo_db_keys|vm_compute; reflexivity|]. intros k _. split.
  - intros f Hf. change (f ∈ [demo_file "f1" "a.txt"; demo_file "f2" "a.txt"]) in Hf.
    apply elem_of_cons in Hf as [->|Hf]; [discriminate|]. apply list_elem_of_singleton in Hf as ->. discriminate.
  - intros l Hl. change (l ∈ (@nil RunLogRow)) in Hl. by apply elem_of_nil in Hl.
Defined.

Definition broken_patch : PatchBody :=
  mkPatchBody (Some Succeeded) None (pb_files demo_patch) (Some [Some (mkLogEntry None (Some "done") None); None]).

Lemma patch_applied_witness :
  patchable "r1" demo_world /\
  (exists w', patch_run (Some "secret") None (Some "Bearer secret") (Some "r1") (Some demo_patch) demo_world = (w', Ok tt) /\
     exists logs, rows (db_rows (w_db w')) TRunLogs ≡ₚ [] ++ logs /\ length logs = 1) /\
  exists w', patch_run (Some "secret") None (Some "Bearer secret") (Some "r1") (Some broken_patch) demo_world =
      (w', Throw (Uncaught "TypeError")) /\
    (exists logs, rows (db_rows (w_db w')) TRunLogs ≡ₚ [] ++ logs /\ length logs = 1) /\
    rows (db_rows (w_db w')) TRuns ≡ₚ rows demo_db TRuns.
Proof.
  split; [exact demo_patchable|]. split.
  - destruct (patch_applied (env := demo_env) uuid_example_inj (Some "secret") None (Some "Bearer secret") "r1" (Some demo_patch) demo_world)
      as [Hok _]; [discriminate|vm_compute; reflexivity|reflexivity|exact demo_patchable|].
    destruct (Hok [mkLogEntry None (Some "done") None] eq_refl)
      as (w' & fs & logs & t0 & t1 & t2 & Hrun & _ & Hl & _ & Hrl & _).
    exists w'. split; [exact Hrun|]. exists logs. split; [exact Hrl|]. apply Forall2_length in Hl. symmetry. exact Hl.
  - destruct (patch_applied (env := demo_env) uuid_example_inj (Some "secret") None (Some "Bearer secret") "r1" (Some broken_patch) demo_world)
      as [_ Hthrow]; [discriminate|vm_compute; reflexivity|reflexivity|exact demo_patchable|].
    destruct (Hthrow [mkLogEntry None (Some "done") None] [] eq_refl) as (w' & fs & logs & Hrun & _ & Hl & _ & Hrl & Ho).
    exists w'. split; [exact Hrun|]. split.
    + exists logs. split; [exact Hrl|]. apply Forall2_length in Hl. symmetry. exact Hl.
    + exact (Ho TRuns ltac:(discriminate) ltac:(discriminate)).
Defined.

Lemma get_zip_spec_witness :
  keys_ok demo_db /\
  exists entries, get_zip (Some ann) (Some "r1") demo_world = (demo_world, Ok entries) /\
    fst <$> entries = ["a.txt"; "a_1.txt"] /\ snd <$> entries = ["runs/r1/f1"; "runs/r1/f2"].
Proof.
  split; [exact demo_db_keys|].
  destruct (get_zip (Some ann) (Some "r1") demo_world) as [w' [entries|e]] eqn:E; [|vm_compute in E; discriminate E].
  destruct (get_zip_spec demo_text_le_total demo_text_le_trans (Some ann) (Some "r1") demo_world w' (Ok entries)
    demo_db_keys E) as [-> _].
  exists entries. split; [reflexivity|]. vm_compute in E. injection E as <-. split; reflexivity.
Defined.

(** ** Isolation *)

Lemma tenant_isolation_witness :
  keys_ok demo_db /\
  exists w', handle (Some bob) (DeletePipeline (Some "p1")) demo_world = (w', Throw (Http 403 "Not your pipeline")) /\
    demo_pipeline ∈ rows (db_rows (w_db w')) TPipelines.
Proof.
  split; [exact demo_db_keys|].
  destruct (handle (Some bob) (DeletePipeline (Some "p1")) demo_world) as [w' res] eqn:E.
  destruct (tenant_isolation bob (DeletePipeline (Some "p1")) demo_world w' res demo_db_keys eq_refl E) as (_ & Hf & _).
  exists w'. split; [vm_compute in E; injection E as <- <-; reflexivity|].
  apply (Hf TPipelines); [left|discriminate].
Defined.

Lemma serve_isolation_witness :
  keys_ok demo_db /\
  demo_data ∈ rows (db_rows (w_db (serve [(Some bob, DeleteData (Some "d1")); (None, ListBlocks);
    (Some bob, PostRun (Some (mkSubmitBody None (Some "yaml") None)))] demo_world))) TDataFiles.
Proof.
  split; [exact demo_db_keys|].
  destruct (serve_isolation "u1" [(Some bob, DeleteData (Some "d1")); (None, ListBlocks);
    (Some bob, PostRun (Some (mkSubmitBody None (Some "yaml") None)))] demo_world demo_db_keys) as [_ Hu].
  { repeat constructor. }
  apply (ut_dataFiles _ _ _ Hu); [left|reflexivity].
Defined.

Lemma responses_visible_witness :
  keys_ok demo_db /\
  discloses_only demo_db "u1" (RDataUrl demo_data "GET data/u1/d1/map.tif") /\
  exists d, handle (Some ann) (GetRun (Some "r1")) demo_world = (demo_world, Ok (RRunDetails d)) /\
    files d ≡ₚ [demo_file "f1" "a.txt"; demo_file "f2" "a.txt"].
Proof.
  split; [exact demo_db_keys|].
  destruct (responses_visible demo_text_le_total demo_text_le_trans ann demo_world demo_db_keys)
    as (H & _ & _ & _ & Hrun & _). split.
  - apply (H (GetData (Some "d1")) demo_world); [reflexivity|]. vm_compute. reflexivity.
  - destruct (rows demo_db TRuns) as [|r l] eqn:E; [vm_compute in E; discriminate|].
    assert (Hr : r ∈ rows demo_db TRuns) by (rewrite E; left).
    assert (Hid : rn_id r = "r1" /\ rn_ownerId r = "u1") by (vm_compute in E; injection E as <- _; split; reflexivity).
    destruct Hid as [Hid Ho]. destruct (Hrun r) as [(d & Hd & Hdet) _]; [by rewrite Hid|split; [exact Hr|by left]|].
    rewrite Hid in Hd. exists d. split; [exact Hd|]. destruct Hdet as [_ Hf _ _ _]. rewrite Hid in Hf. exact Hf.
Defined.

(** The same server without the private data file and the result files of Ann's
    private run, as Bob sees it. *)
Definition emptied_world : World contents := mkWorld (set_rows TRunFiles (set_rows TDataFiles demo_db []) []) 7 0 [].

Lemma emptied_keys : keys_ok (db_rows (w_db emptied_world)).
Proof. intros t. destruct t; vm_compute; reflexivity. Defined.

Lemma bob_sees_no_run r : ~ sees_run demo_db "u2" r.
Proof.
  intros [Hr Hv]. apply list_elem_of_singleton in Hr as ->.
  destruct Hv as [?|[?|(s & Hs & _)]]; [discriminate..|]. by apply elem_of_nil in Hs.
Qed.

Lemma bob_sees_no_data d : d ∈ rows demo_db TDataFiles -> ~ can_view (R := dataFile_resource) demo_db "u2" d.
Proof.
  intros Hd. apply list_elem_of_singleton in Hd as ->.
  intros [?|[?|(s & Hs & _)]]; [discriminate..|]. by apply elem_of_nil in Hs.
Qed.

Lemma demo_alike : alike "u2" (db_rows (w_db demo_world)) (db_rows (w_db emptied_world)).
Proof.
  split.
  - by split.
  - split.
    + intros d. split; [intros [Hd Hv]; by destruct (bob_sees_no_data d Hd) | by intros [?%elem_of_nil _]].
    + intros d Hd Hv. by destruct (bob_sees_no_data d Hd).
  - by split.
  - intros f. split; [intros [_ (r & Hr & _)]; by destruct (bob_sees_no_run r) | by intros [?%elem_of_nil _]].
  - done.
  - done.
Qed.

Lemma noninterference_witness :
  alike "u2" (db_rows (w_db demo_world)) (db_rows (w_db emptied_world)) /\
  handle (Some bob) (GetData (Some "d1")) demo_world = (demo_world, Throw (Http 404 "Not found")) /\
  handle (Some bob) (GetData (Some "d1")) emptied_world = (emptied_world, Throw (Http 404 "Not found")).
Proof.
  split; [exact demo_alike|].
  destruct (noninterference demo_text_le_total demo_text_le_trans bob (GetData (Some "d1")) demo_world emptied_world
    demo_db_keys emptied_keys demo_alike eq_refl I) as (o1 & o2 & H1 & H2 & Hsame).
  rewrite H1, H2. vm_compute in H1. injection H1 as <-. destruct o2 as [r|e]; [contradiction|].
  simpl in Hsame. subst e. split; reflexivity.
Defined.

(** ** Uploads, ownership, publication *)

Lemma upload_lifecycle_witness :
  keys_ok demo_db /\
  exists w1 offer, handle (Some ann) (UploadInit (Some (mkInitBody (Some "x.csv") (Some "text/csv") (Some 3%Z)))) demo_world
      = (w1, Ok (RUpload offer)) /\
    ir_s3Key offer = "data/u1/u-0/x.csv" /\ ir_uploadUrl offer = "PUT data/u1/u-0/x.csv".
Proof.
  split; [exact demo_db_keys|].
  destruct (upload_lifecycle ann bob "x.csv" "text/csv" 3 demo_world) as (w1 & offer & w2 & row & w3 & Hinit & Hkey & Hurl & _).
  1-4: reflexivity.
  - discriminate.
  - exact demo_db_keys.
  - reflexivity.
  - intros d Hd. apply list_elem_of_singleton in Hd as ->. discriminate.
  - intros s Hs. by apply elem_of_nil in Hs.
  - exists w1, offer. split; [exact Hinit|]. vm_compute in Hinit. injection Hinit as <- <-. split; reflexivity.
Defined.

Lemma upload_complete_any_key_witness :
  exists w1 row w2,
    handle (Some bob) (GetData (Some "d1")) demo_world = (demo_world, Throw (Http 404 "Not found")) /\
    handle (Some bob) (UploadComplete (Some (complete_body "d2" "data/u1/d1/map.tif" "n" "m" 1 None))) demo_world
      = (w1, Ok (RData row)) /\
    handle (Some bob) (GetData (Some "d2")) w1 = (w1, Ok (RDataUrl row "GET data/u1/d1/map.tif")) /\
    handle (Some bob) (DeleteData (Some "d2")) w1 = (w2, Ok ROk) /\ w_s3_deleted w2 = ["data/u1/d1/map.tif"].
Proof.
  destruct (upload_complete_any_key bob demo_data "d2" "n" "m" 1 demo_world) as (w1 & row & w2 & Hc & Hg & Hd & Hs & _).
  1-6: reflexivity.
  - exact demo_db_keys.
  - reflexivity.
  - intros d Hd. apply list_elem_of_singleton in Hd as ->. discriminate.
  - left.
  - intros [_ [Ho|[Hv|(s & Hs & _)]]]; [discriminate Ho|discriminate Hv|]. by apply elem_of_nil in Hs.
  - exists w1, row, w2. split; [vm_compute; reflexivity|]. split; [exact Hc|]. split; [exact Hg|]. split; [exact Hd|exact Hs].
Defined.

Definition give_away : PipelineRepo.PipelinePatch :=
  PipelineRepo.mkPipelinePatch None (Some "u2") None None None None None None.

Lemma put_pipeline_writes_any_column_witness :
  keys_ok demo_db /\
  exists w' p', handle (Some ann) (PutPipeline (Some "p1") give_away) demo_world = (w', Ok (RPipeline p')) /\
    pl_ownerId p' = "u2" /\
    exists w3, handle (Some ann) (PutPipeline (Some "p1") give_away) w' = (w3, Throw (Http 403 "Not your pipeline")).
Proof.
  split; [exact demo_db_keys|].
  destruct (put_pipeline_writes_any_column ann demo_pipeline give_away demo_world) as (w' & Hrun & _ & _ & Hlost).
  - exact demo_db_keys.
  - reflexivity.
  - left.
  - reflexivity.
  - reflexivity.
  - reflexivity.
  - eexists w', _. split; [exact Hrun|]. split; [reflexivity|].
    apply (Hlost ltac:(discriminate) give_away w' eq_refl).
Defined.

(** ** Refusals *)

Lemma patch_refused_witness :
  patch_run None None (Some "Bearer x") (Some "r1") None demo_world =
    (demo_world, Throw (Http 503 "Worker callback secret not configured")) /\
  patch_run (Some "secret") None (Some "Bearer x") (Some "r1") None demo_world =
    (demo_world, Throw (Http 401 "Unauthorized")) /\
  patch_run (Some "secret") None (Some "bearer   secret") (Some "r9") None demo_world =
    (demo_world, Throw (Http 404 "Run not found")).
Proof.
  split; [|split].
  - apply (patch_refused None None (Some "Bearer x") (Some "r1") None demo_world). reflexivity.
  - destruct (patch_refused (Some "secret") None (Some "Bearer x") (Some "r1") None demo_world) as (_ & H & _).
    apply H; [discriminate|]. vm_compute. discriminate.
  - destruct (patch_refused (Some "secret") None (Some "bearer   secret") (Some "r9") None demo_world) as (_ & _ & _ & H).
    apply H; [discriminate|vm_compute; reflexivity|reflexivity|].
    intros r Hr. apply list_elem_of_singleton in Hr as ->. discriminate.
Defined.

Lemma publish_block_witness :
  handle (Some bob) (PostBlock (JsonBody None)) demo_world = (demo_world, Throw (Http 403 "Admin only")) /\
  exists w' b, handle (Some root) (PostBlock (JsonBody (Some (None, Some (mkManifest "b" "2" Standard false None None None None)))))
      demo_world = (w', Ok (RBlock b)) /\ bk_label b = "b" /\
    handle None (GetBlock (Some "b")) w' = (w', Ok (RManifest (mkManifest "b" "2" Standard false None None None None))).
Proof.
  split.
  - apply (publish_block bob None (mkManifest "b" "2" Standard false None None None None) demo_world). discriminate.
  - destruct (publish_block root None (mkManifest "b" "2" Standard false None None None None) demo_world) as [_ H].
    destruct H as (w' & b & Hrun & Hl & _ & Hget & _); [reflexivity|reflexivity|reflexivity|exact demo_db_keys| |].
    + intros x Hx. apply list_elem_of_singleton in Hx as ->. reflexivity.
    + exists w', b. split; [exact Hrun|]. split; [exact Hl|exact (Hget None)].
Defined.
