(* ===== verification/ConcurrentDemo.v ===== *)
(** * Requests between the statements of others, on concrete databases

    The witness of the theorem on access to runs, and two things that do happen: a
    user who can see a run all along is told it does not exist, and an owner who
    gives a pipeline away can still share it. *)

From S2P Require Import ServerDemo Concurrent.

(** The run of ann, shared with bob. *)
Definition shared_db : contents := set_rows TRunShares demo_db [mkShare "r1" "u2" View 9].

Lemma shared_db_keys : keys_ok (db_rows shared_db).
Proof. intros t. destruct t; vm_compute; reflexivity. Defined.

Definition third_file : RunFileRow := demo_file "f3" "later.txt".

(** The worker's callback stores a file after the row of the run was read. *)
Definition filled_db : contents := (sql_insert TRunFiles third_file shared_db).1.

Definition bobs_details : RunWithDetails :=
  mkDetails demo_run [demo_file "f1" "a.txt"; demo_file "f2" "a.txt"; third_file] [].

Lemma bobs_lists :
  mkDetails demo_run
    (sql_select_ordered TRunFiles (fun f => rf_runId f === "r1") (fun a b => text_le (rf_name a) (rf_name b)) filled_db)
    (sql_select_ordered TRunLogs (fun l => rl_runId l === "r1") (oldest_first rl_createdAt) filled_db) = bobs_details.
Proof. vm_compute. reflexivity. Qed.

Lemma filled_read :
  exists seen, (forall s, s ∈ seen -> s = shared_db \/ s = filled_db) /\
    among (p_getWithDetails text_le false "r1" "u2") shared_db seen [] (Some bobs_details) filled_db.
Proof.
  rewrite <-bobs_lists. eexists. split.
  2:{ unfold p_getWithDetails, p_getByIdForUser. cbn [pbind]. apply AmQuery. cbn -[sql_select sql_select_ordered].
      eapply AmQuery. eapply (AmOther _ shared_db filled_db); [apply StInsert|].
      eapply AmQuery. eapply AmQuery. apply AmRet. }
  intros s Hs. rewrite !elem_of_cons in Hs. destruct Hs as [->|[->|[->|[->|[->|[->|Hs]]]]]]; auto.
  by apply elem_of_nil in Hs.
Qed.

Lemma concurrent_access_witness :
  keys_ok (db_rows shared_db) /\
  exists seen s1 s2, among (p_getWithDetails text_le false "r1" "u2") shared_db seen [] (Some bobs_details) filled_db /\
    s1 ∈ seen /\ s2 ∈ seen /\ demo_run ∈ rows (db_rows s1) TRuns /\ visible_in "u2" "r1" "u1" (db_rows s2).
Proof.
  split; [exact shared_db_keys|]. destruct filled_read as (seen & _ & Hrun).
  destruct (concurrent_access text_le demo_text_le_total demo_text_le_trans "r1" "u2" shared_db shared_db_keys)
    as (Hread & _ & _).
  destruct (Hread false seen [] (Some bobs_details) filled_db Hrun) as (_ & Hfound & _).
  destruct (Hfound bobs_details eq_refl) as (s1 & s2 & H1 & H2 & Hr & _ & Hvis & _).
  exists seen, s1, s2. split; [exact Hrun|]. split; [exact H1|]. split; [exact H2|]. split; [exact Hr|exact Hvis].
Defined.

(** ** A run that is visible all along is not found *)

Definition published_db : contents :=
  (sql_update TRuns (fun r => rn_id r === "r1") (RunRepo.visibility_patch 11 Public) shared_db).1.
Definition unshared_db : contents := (sql_delete TRunShares (fun _ => true) published_db).1.

(** Ann publishes the run and takes the share back between the two statements of bob's check. *)
Theorem visible_but_not_found :
  exists seen, among (p_getWithDetails text_le false "r1" "u2") shared_db seen [] None unshared_db /\
    forall s, s ∈ seen -> visible_in "u2" "r1" "u1" (db_rows s).
Proof.
  eexists. split.
  - unfold p_getWithDetails, p_getByIdForUser. cbn [pbind]. apply AmQuery. cbn -[sql_select sql_select_ordered].
    eapply (AmOther _ shared_db published_db); [by apply StRuns|].
    eapply (AmOther _ published_db unshared_db); [by apply StDelete|].
    eapply AmQuery. apply AmRet.
  - intros s Hs. rewrite !elem_of_cons in Hs.
    destruct Hs as [->|[->|[->|[->|[->|Hs]]]]]; [| | | | |by apply elem_of_nil in Hs].
    1,2: exists demo_run; split; [left|]; do 2 (split; [done|]); right; right;
      exists (mkShare "r1" "u2" View 9); split; [left|done].
    all: exists (RunRepo.visibility_patch 11 Public demo_run); split; [left|]; do 2 (split; [done|]); right; by left.
Qed.

(** ** A pipeline that was given away is shared *)

Definition given_db : contents :=
  (sql_update TPipelines (fun p => pl_id p === "p1")
     (PipelineRepo.apply_patch 11 (PipelineRepo.mkPipelinePatch None (Some "u2") None None None None None None)) demo_db).1.

(** Ann shares her pipeline; between the check and the write another request of hers makes
    bob its owner ([PUT] takes any column).  The share is written all the same. *)
Theorem given_away_but_shared :
  exists seen a db', among (p_share (R := pipeline_resource) 12 "p1" "u1" "u1" View) demo_db seen [(given_db, a)] (Ok true) db' /\
    ~ owns (R := pipeline_resource) (db_rows given_db) "u1" "p1" /\
    mkShare "p1" "u1" View 12 ∈ rows (db_rows a) TPipelineShares.
Proof.
  eexists _, _, _. split; [|split].
  - unfold p_share, p_checked. apply AmQuery. cbn -[sql_upsert].
    eapply (AmOther _ demo_db given_db); [apply StPipelines|].
    eapply AmExec; [vm_compute; reflexivity|]. cbn. apply AmRet.
  - intros (p & Hp & _ & Ho). vm_compute in Hp. apply list_elem_of_singleton in Hp as ->. discriminate Ho.
  - simpl. vm_compute. right. left.
Qed.
