(* ===== verification/ZipDemo.v ===== *)
(** * A concrete archive library, and a download *)

From S2P Require Import ServerDemo ZipStream.
Import Byte.

(** ** A small archive format

    A byte is written after [x01], [x02] ends a name, [x03] an entry and [x00] the archive. *)

Definition marked (bs : Chunk) : Chunk := flat_map (fun b => [x01; b]) bs.

#[export] Instance demo_zip : ZipLib unit := {
  zip_new := tt;
  zip_call k _ := (tt, match k with
    | ZAdd name => [ZData (marked (String.list_byte_of_string name) ++ [x02]) false]
    | ZPush _ data final => [ZData (marked data ++ (if final then [x03] else [])) false]
    | ZEnd => [ZData [x00] true]
    end) }.

Fixpoint unpack (name : option Chunk) (acc : Chunk) (bs : Chunk) : option (list (string * Chunk)) :=
  match bs, name with
  | [x00], None => Some []
  | x01 :: b :: bs', _ => unpack name (acc ++ [b]) bs'
  | x02 :: bs', None => unpack (Some acc) [] bs'
  | x03 :: bs', Some n => (fun l => (String.string_of_list_byte n, acc) :: l) <$> unpack None [] bs'
  | _, _ => None
  end.

Definition demo_unzip : Chunk -> option (list (string * Chunk)) := unpack None [].

Lemma unpack_marked name acc data bs : unpack name acc (marked data ++ bs) = unpack name (acc ++ data) bs.
Proof.
  revert acc. induction data as [|b data IH]; intros acc; [by rewrite app_nil_r|].
  simpl. rewrite IH, <-app_assoc. done.
Qed.

Lemma demo_outputs calls : outputs unit calls = flat_map (fun k => snd (zip_call k tt)) calls.
Proof.
  unfold outputs. change (@zip_new unit demo_zip) with tt. induction calls as [|k calls IH]; [done|].
  cbn [zip_run flat_map]. rewrite <-IH. destruct k; simpl; by destruct (zip_run tt calls).
Qed.

Lemma demo_datas a b : concat (datas (a ++ b)) = concat (datas a) ++ concat (datas b).
Proof. by rewrite datas_app, concat_app. Qed.

Lemma demo_pushes n chunks :
  concat (datas (flat_map (fun k => snd (zip_call k tt)) (pushes n chunks))) = marked (concat chunks).
Proof.
  induction chunks as [|c chunks IH]; [done|]. simpl. rewrite app_nil_r. simpl in IH. rewrite IH.
  unfold marked. by rewrite flat_map_app.
Qed.

Lemma demo_archive n entries :
  demo_unzip (concat (datas (flat_map (fun k => snd (zip_call k tt)) (zip_calls n entries)))) =
    Some ((fun '(name, chunks) => (name, concat chunks)) <$> entries).
Proof.
  revert n. induction entries as [|[name chunks] rest IH]; intros n; [done|].
  cbn [zip_calls flat_map]. rewrite flat_map_app, demo_datas, demo_datas, demo_pushes. cbn [flat_map].
  specialize (IH (S n)). revert IH. generalize (flat_map (fun k => snd (zip_call k tt)) (zip_calls (S n) rest)).
  intros tail IH. rewrite demo_datas. simpl. rewrite !app_nil_r, <-app_assoc. unfold demo_unzip. rewrite unpack_marked. simpl.
  rewrite unpack_marked. simpl. unfold demo_unzip in IH. rewrite IH. simpl.
  by rewrite String.string_of_list_byte_of_string.
Qed.

Lemma demo_no_final calls : ZEnd ∉ calls -> existsb is_final (flat_map (fun k => snd (zip_call k tt)) calls) = false.
Proof. induction calls as [|[] calls IH]; simpl; intros Hn; [done|apply IH; set_solver..|set_solver]. Qed.

#[export] Instance demo_zip_laws : ZipLaws unit demo_unzip (fun _ => true).
Proof.
  split.
  - intros calls Hn. rewrite demo_outputs. by apply demo_no_final.
  - intros calls pre cb post Hn Ho Hcb. rewrite demo_outputs, flat_map_app in Ho.
    destruct post as [|x post _] using rev_ind; [done|]. rewrite app_comm_cons, app_assoc in Ho.
    apply (app_inj_tail _ _ (ZData [x00] true)) in Ho as [Ho _]. apply demo_no_final in Hn.
    rewrite Ho, existsb_app in Hn. simpl in Hn. by rewrite Hcb, orb_true_r in Hn.
  - intros entries _. rewrite demo_outputs. split; [|split; [|apply demo_archive]].
    + apply List.Forall_forall. intros cb (k & _ & Hin)%in_flat_map.
      destruct k; simpl in Hin; by destruct Hin as [<-|[]].
    + generalize 0 as n. induction entries as [|[name chunks] rest IH]; intros n; [done|].
      cbn [zip_calls flat_map]. rewrite flat_map_app, !existsb_app. cbn [flat_map]. rewrite existsb_app, IH.
      by rewrite !orb_true_r.
Qed.

(** ** A download *)

(** Two objects, one of which comes in two chunks. *)
Definition demo_object (key : string) : list Chunk * option string :=
  if key === "runs/r1/f1" then ([[x61; x62]; [x63]], None)
  else if key === "runs/r1/f2" then ([[x00]], None)
  else ([], Some "NoSuchKey").

(** Some reads, a chunk taken, the rest of the reads, and the client takes the rest. *)
Definition demo_reads : list ZipEvent := [ChunkRead; Pulled; ChunkRead; ChunkRead; Pulled; ChunkRead; ChunkRead].
Definition demo_pulls : list ZipEvent := replicate 8 Pulled.

Lemma zip_download_witness :
  keys_ok demo_db /\
  exists resp, zip_handler demo_object (Some ann) (Some "r1") demo_world = (demo_world, Ok resp) /\
    zr_disposition resp = "attachment; filename=" +:+ quoted "run-r1.zip" /\
    let s := foldl (zip_event demo_object) (zr_body resp) (demo_reads ++ demo_pulls) in
    c_state (z_ctl s) = Closed /\
    demo_unzip (concat (c_taken (z_ctl s))) = Some [("a.txt", [x61; x62; x63]); ("a_1.txt", [x00])].
Proof.
  split; [exact demo_db_keys|].
  destruct (zip_handler demo_object (Some ann) (Some "r1") demo_world) as [w' [resp|e]] eqn:E;
    [|vm_compute in E; discriminate E].
  pose proof (zip_download demo_text_le_total demo_text_le_trans demo_unzip (fun _ => true) demo_object
    (Some ann) (Some "r1") demo_world w' resp demo_db_keys E)
    as [-> (user & r & fs & _ & _ & _ & _ & _ & Hkeys & _ & Hclosed & Hends & _)].
  assert (Hf : zr_files resp = [("a.txt", "runs/r1/f1"); ("a_1.txt", "runs/r1/f2")]).
  { vm_compute in E. injection E as <-. reflexivity. }
  assert (Hd : zr_disposition resp = "attachment; filename=" +:+ quoted "run-r1.zip").
  { vm_compute in E. injection E as <-. reflexivity. }
  clear E. exists resp. split; [reflexivity|]. split; [exact Hd|].
  assert (Hnc : Cancelled ∉ demo_reads ++ demo_pulls) by (vm_compute; intros Hin; by repeat (apply elem_of_cons in Hin as [Hin|Hin]; [discriminate|]); apply elem_of_nil in Hin).
  rewrite Hf in Hkeys, Hclosed, Hends.
  assert (Hw : Forall (whole demo_object) (rf_s3Key <$> fs)).
  { rewrite <-Hkeys. repeat constructor. }
  assert (Hcl := Hends demo_reads demo_pulls Hnc Hw eq_refl ltac:(vm_compute; lia) ltac:(vm_compute; lia)).
  split; [exact Hcl|]. destruct (Hclosed _ Hnc Hcl) as [_ Hz]. rewrite (Hz eq_refl). vm_compute. reflexivity.
Defined.
