(* ===== verification/PagesDemo.v ===== *)
(** * The pages at work: the witnesses of the theorems on the client

    A network that delivers every request, a YAML package that reads back one
    document, and one run of each theorem's operation against the server of
    [ServerDemo.v]. *)

From S2P Require Import FlowGraph ServerDemo Callback Views ListPages EditorViews ClientAuth.

#[export] Instance calm_net : ClientEnv := {
  net_fate n := Delivered;
  fetch_error e := mkJsError (match e with Http _ m => Some m | Uncaught _ => None end) None;
  network_error := mkJsError None (Some "Network error") }.

(** Reads the text of [p], the one document it writes. *)
Definition pages_env (p : Pipeline) : Env := {|
  uuidv7 := uuid_example;
  clock n := Z.of_nat (100 + n);
  yaml_parse s := if s === "text" then Ok (Some p) else Throw "unexpected token";
  yaml_stringify q := "text";
  presign method key mime expires := method +:+ " " +:+ key;
  s3_delete_fails key := false;
  text_le a b := Nat.leb (String.length a) (String.length b) |}.

Definition client {P} (st : FlowState) (page : P) : Client contents P := mkClient st page 0 [] demo_world.

(** The session's connection, resolved. *)
Definition wired : FlowState := (resolveAndApply example_manifests session session "a" "b").1.

Lemma wired_consistent : consistent wired.
Proof. apply consistent_write, session_consistent. Qed.

(** ** Export and submit *)

Definition shown : Pipeline := drawn_pipeline "doc" wired.
Definition export_page : ExportPage := mkExportPage [] [] false None.

Lemma export_then_submit_witness :
  exists w' run,
    submitRun (env := pages_env shown) (Some bob) (client wired (exportText (env := pages_env shown) "doc" wired export_page)) =
      (mkClient wired (mkExportPage ["text"] [] false None) 1 ["/results/doc"] w', Ok tt) /\
    rn_ownerId run = "u2" /\ rn_status run = Queued /\
    rows (db_rows (w_db w')) TRuns ≡ₚ rows demo_db TRuns ++ [run].
Proof.
  destruct (export_then_submit (env := pages_env shown) bob wired "doc" export_page
    (client wired (exportText (env := pages_env shown) "doc" wired export_page)))
    as (w' & run & Hrun & _ & _ & Ho & _ & Hs & _ & Hrows).
  - exact wired_consistent.
  - apply (bool_decide_unpack _). vm_compute. exact I.
  - vm_compute. reflexivity.
  - vm_compute. reflexivity.
  - vm_compute. reflexivity.
  - reflexivity.
  - reflexivity.
  - reflexivity.
  - vm_compute. reflexivity.
  - intros r Hr. apply list_elem_of_singleton in Hr as ->. discriminate.
  - exists w', run. split; [exact Hrun|]. split; [exact Ho|]. split; [exact Hs|].
    exact (Hrows TRuns).
Defined.

(** A stored text that is no document is refused, and the refusal shown. *)
Lemma submitRun_outcome_witness :
  keys_ok demo_db /\
  exists c', submitRun (Some bob) (client wired (mkExportPage ["nonsense"] [] false None)) = (c', Ok tt) /\
    ex_submitting (cl_page c') = false /\ is_Some (ex_submitError (cl_page c')) /\ w_db (cl_world c') = demo_db.
Proof.
  split; [exact demo_db_keys|].
  destruct (submitRun (Some bob) (client wired (mkExportPage ["nonsense"] [] false None))) as [c' res] eqn:E.
  destruct (submitRun_outcome (Some bob) (client wired (mkExportPage ["nonsense"] [] false None)) c' res demo_db_keys E) as (-> & _ & _ & _ & Hsub & Hcases).
  exists c'. split; [reflexivity|]. split; [exact Hsub|].
  destruct Hcases as [(run & _ & Hno & _)|(Herr & _ & [Hlost|Hdb])].
  - exfalso. vm_compute in E. injection E as <-. discriminate Hno.
  - discriminate Hlost.
  - split; [exact Herr|exact Hdb].
Defined.

(** ** Save and open *)

Definition save_page : SavePage := mkSavePage "flood" "" "0.1.0" Private None false false.

Lemma save_then_open_witness :
  let p := saved_pipeline "doc" save_page wired in
  exists c1 c3, handleSave (env := pages_env p) (Some bob) "doc" (client wired save_page) = (c1, Ok tt) /\
    handleOpen (env := pages_env p) (Some bob) "doc"
      (mkClient initial_flow (mkLibraryPage "mine" []) 0 [] (cl_world c1)) = (c3, Ok tt) /\
    cl_visited c3 = ["/editor"] /\
    exists blocks, p_blocks (exportPipelineObject "new" (cl_flow c3)) = Some blocks /\ length blocks = 2.
Proof.
  intros p.
  destruct (save_then_open (env := pages_env p) bob wired "doc" save_page (client wired save_page))
    as (c1 & Hsave & _ & _ & _ & _ & Hopen).
  - exact wired_consistent.
  - apply (bool_decide_unpack _). vm_compute. exact I.
  - apply (bool_decide_unpack _). vm_compute. exact I.
  - reflexivity.
  - reflexivity.
  - vm_compute. reflexivity.
  - vm_compute. reflexivity.
  - vm_compute. reflexivity.
  - vm_compute. reflexivity.
  - reflexivity.
  - reflexivity.
  - reflexivity.
  - exact demo_db_keys.
  - vm_compute. reflexivity.
  - intros r Hr. apply list_elem_of_singleton in Hr as ->. discriminate.
  - destruct (Hopen (mkClient initial_flow (mkLibraryPage "mine" []) 0 [] (cl_world c1)) eq_refl eq_refl)
      as (c3 & Hrun & Hvis & _ & Hexp).
    exists c1, c3. split; [exact Hsave|]. split; [exact Hrun|]. split; [exact Hvis|].
    destruct (Hexp "new") as (blocks & Heq & Hall). exists blocks. rewrite Heq. split; [reflexivity|].
    apply Forall2_length in Hall. symmetry. exact Hall.
Defined.

(** ** The resolver dialog *)

Definition ambiguous_manifests (name : string) : option BlockManifest :=
  if name === "src" then Some up_example
  else if name === "dst" then Some (down_example ins_two_any) else None.

Lemma ambiguous_manifests_typed name m : ambiguous_manifests name = Some m -> well_typed_manifest m.
Proof.
  unfold ambiguous_manifests. repeat case_bool_decide; intros; simplify_eq;
    [apply up_example_typed | apply down_two_any_typed].
Qed.

Definition undecided : FlowState := (resolveAndApply ambiguous_manifests session session "a" "b").1.
Definition asking : BaseState := mkBase None false false false false true (Some ("a", "b")).

Definition ready_dialog_example : Dialog :=
  (manifestsArrived (Some up_example) (Some (down_example ins_two_any)) (mountDialog "a" "b" undecided)).1.

Lemma resolver_dialog_witness :
  resolveAndApply ambiguous_manifests session session "a" "b" = (undecided, Ambiguous) /\
  (handleResolverCancel (undecided, asking)).1 = disconnect "a" "b" undecided /\
  edgeData (handleConfirm "a" "b" (mountDialog "a" "b" undecided) (undecided, asking)).1 "a" "b" =
    Some (mkEdgeData (Some []) (Some false)) /\
  exists bs, edgeData (handleConfirm "a" "b" (foldl pick_option ready_dialog_example [("x", "b")]) (undecided, asking)).1 "a" "b" =
    Some (mkEdgeData (Some bs) (Some false)) /\ NoDup (bd_input <$> bs).
Proof.
  assert (Hrun : resolveAndApply ambiguous_manifests session session "a" "b" = (undecided, Ambiguous))
    by (vm_compute; reflexivity).
  split; [exact Hrun|].
  destruct (resolver_dialog ambiguous_manifests session session "a" "b" undecided asking)
    as (un & dn & up & down & partial & Hup & Hdown & _ & Hnames & Hearly & (_ & _ & _ & Hready) & Hcancel).
  - exact ambiguous_manifests_typed.
  - vm_compute. eauto.
  - reflexivity.
  - reflexivity.
  - exact Hrun.
  - split; [apply Hcancel; reflexivity|]. split.
    + rewrite (Hearly _ (or_introl eq_refl)). vm_compute. reflexivity.
    + assert (Hn : (un, dn) = ("src", "dst")) by (vm_compute in Hnames; congruence). injection Hn as -> ->.
      assert (up = up_example) as -> by (vm_compute in Hup; vm_compute; congruence).
      assert (down = down_example ins_two_any) as -> by (vm_compute in Hdown; vm_compute; congruence).
      destruct (Hready [("x", "b")]) as (_ & _ & Hok).
      * intros i o Hin. apply list_elem_of_singleton in Hin. injection Hin as -> ->.
        exists ["a"; "b"]. split; [|right; left]. vm_compute. left.
      * destruct Hok as (bs & Hdata & _ & Hnd & _); [vm_compute; reflexivity|].
        exists bs. split; [exact Hdata|exact Hnd].
Defined.

(** ** The editor page *)

Definition page_a : EditorPage :=
  mkPage initial_flow (handleBlockButtonClick initial_base) (Some (mountEditor None [form_item] initial_flow)) None [] None.
Definition page_b : EditorPage :=
  mkPage (handleSubmit "n1" (QArith_base.Qmake 0 1) (QArith_base.Qmake 0 1) (initial_flow, mountEditor None [form_item] initial_flow))
    (closeModals (handleBlockButtonClick initial_base)) None None [] None.

Lemma page_b_reached : rtc page_step initial_page page_b.
Proof.
  apply (rtc_l _ _ page_a); [apply ps_add_block|]. apply rtc_once. apply ps_submit.
  intros _. vm_compute. apply not_elem_of_nil.
Qed.

Definition doc_page (pipe : Pipeline) (blocks : list Block) (pg : EditorPage) : EditorPage :=
  mkPage (importPipeline pipe blocks (pg_flow pg)) (closeModals (pg_base pg)) None None (pg_pending pg) (Some pipe).

Lemma doc_page_reached pipe blocks pg :
  rtc page_step initial_page pg -> p_blocks pipe = Some blocks -> rtc page_step initial_page (doc_page pipe blocks pg).
Proof.
  intros Hreach Hb. eapply rtc_r; [exact Hreach|]. destruct pg as [st b ed dg ps doc].
  apply (ps_import st _ b ed dg ps doc pipe (fun _ => Ok (Some pipe)) ""); [done|].
  unfold yamlToNodes. by rewrite Hb.
Qed.

Definition two_blocks (refs : list InputRef) : list Block :=
  [mkBlock "x" "load" None None; mkBlock "y" "save" (Some refs) None].
Definition two_block_doc (refs : list InputRef) : Pipeline := mkPipeline None None None None (Some (two_blocks refs)).

Lemma editor_page_invariant_witness :
  let pg := doc_page (two_block_doc [Bare "x"]) (two_blocks [Bare "x"]) page_b in
  rtc page_step initial_page pg /\ consistent (pg_flow pg) /\ ends <$> edges (pg_flow pg) = [("x", "y")].
Proof.
  intros pg.
  assert (Hreach : rtc page_step initial_page pg) by (apply doc_page_reached; [apply page_b_reached|reflexivity]).
  split; [exact Hreach|]. split; [|vm_compute; reflexivity].
  apply (editor_page_invariant pg Hreach). intros pipe Hp. injection Hp as <-. vm_compute. reflexivity.
Defined.

(** A document that validation refuses is drawn all the same, here with an edge from a
    block that is not there. *)
Example dangling_import :
  let pg := doc_page (two_block_doc [Bare "z"]) (two_blocks [Bare "z"]) page_b in
  rtc page_step initial_page pg /\ ends <$> edges (pg_flow pg) = [("z", "y")] /\
  validatePipeline (two_block_doc [Bare "z"]) None <> Valid /\ ~ consistent (pg_flow pg).
Proof.
  intros pg. split; [apply doc_page_reached; [apply page_b_reached|reflexivity]|].
  split; [vm_compute; reflexivity|]. split; [vm_compute; discriminate|].
  intros [_ _ _ Hends]. rewrite Forall_forall in Hends.
  destruct (Hends (mkEdge "z->y" "z" "y" (Some no_bindings))) as [Hz _]; [vm_compute; left|].
  vm_compute in Hz. set_solver.
Qed.

(** ** Polling *)

(** The server: a run that is running, and has succeeded from state 1 on. *)
Definition with_status (status : RunStatus) (r : RunRow) : RunRow :=
  mkRun (rn_id r) (rn_pipelineId r) (rn_ownerId r) (rn_name r) (rn_yaml r) status (rn_error r) (rn_visibility r)
    (rn_startedAt r) (rn_finishedAt r) (rn_createdAt r) (rn_updatedAt r).
Definition world_with (status : RunStatus) : World contents :=
  mkWorld (set_rows TRuns demo_db (with_status status <$> rows demo_db TRuns)) 0 0 [].
Definition demo_server (k : nat) : World contents := world_with (match k with 0 => Running | S _ => Succeeded end).

Definition demo_answer (k : nat) : option RunWithDetails := run_answer (Some ann) "r1" (demo_server k).

(** The page is opened while the run is running; the second event is the answer to a
    refresh that the server handled in state 1. *)
Definition demo_events (n : nat) : PollEvent := match n with 1 => Arrived 1 | _ => Elsewhere end.
Fixpoint opened (answer : nat -> option RunWithDetails) (n : nat) : Poll (option RunWithDetails) :=
  match n with
  | 0 => mountPoll inFlight (answer 0)
  | S n =>
      match demo_events n with
      | Arrived k => arrive inFlight (answer k) (opened answer n)
      | Failed_refresh _ => arrive inFlight None (opened answer n)
      | Left_page => unmountPoll (opened answer n)
      | Elsewhere => opened answer n
      end
  end.
Definition demo_page : nat -> Poll (option RunWithDetails) := opened demo_answer.

Lemma opened_later answer n : opened answer (S (S n)) = opened answer 2.
Proof. induction n as [|n IH]; [done|]. simpl. simpl in IH. by destruct n. Qed.

Lemma opened_execution answer :
  po_live (opened answer 2) = [] -> execution inFlight None answer demo_events (opened answer).
Proof.
  intros Hlast. split.
  - eexists. reflexivity.
  - reflexivity.
  - intros i j k k' Hij Hi Hj. destruct i as [|[|i]], j as [|[|j]]; simpl in *; try discriminate; lia.
  - intros n Hlive. exists 1. destruct n as [|[|n]].
    1,2: split; [lia|]; right; exists 1; split; [lia|reflexivity].
    by rewrite opened_later in Hlive.
Qed.

Lemma demo_execution : execution inFlight None demo_answer demo_events demo_page.
Proof. apply opened_execution. vm_compute. reflexivity. Qed.

Lemma run_page_stops_witness :
  execution inFlight None demo_answer demo_events demo_page /\ length (po_live (demo_page 1)) = 1 /\
  exists m, 1 <= m /\ forall n, m <= n -> po_live (demo_page n) = [].
Proof.
  split; [exact demo_execution|].
  destruct (run_page_stops ann "r1" demo_server demo_events demo_page 1) as [Hlen Hstop].
  - exact demo_execution.
  - intros k t. destruct k, t; vm_compute; reflexivity.
  - intros k r Hk Hr _. destruct k; [lia|]. apply list_elem_of_singleton in Hr as ->. reflexivity.
  - split; [rewrite Hlen; vm_compute; reflexivity|].
    destruct (Hstop 1) as (m & Hm & Hdead); [lia|vm_compute; discriminate|].
    exists m. split; [exact Hm|]. intros n Hn. apply (Hdead n Hn).
Defined.

(** The same page while the worker reports. *)
Definition reported : World contents :=
  (forM (callback_steps (Some demo_patch)) (do_step "r1" (Some demo_patch)) (world_with Running)).1.
Definition reporting_server (k : nat) : World contents := match k with 0 => world_with Running | S _ => reported end.
Definition reporting_answer (k : nat) : option RunWithDetails := run_answer (Some ann) "r1" (reporting_server k).

Lemma reporting_reachable k : exists rest,
  rtc (interleaves "r1" (Some demo_patch)) (world_with Running, callback_steps (Some demo_patch)) (reporting_server k, rest).
Proof.
  destruct k as [|k]; [exists (callback_steps (Some demo_patch)); apply rtc_refl|].
  exists []. apply interleaves_alone. vm_compute. reflexivity.
Qed.

Lemma callback_complete_witness :
  exists d nf, po_data (opened reporting_answer 2) = Some d /\ rn_status (run d) = Succeeded /\
    length nf = 1 /\ nf ⊆+ files d.
Proof.
  destruct (po_data (opened reporting_answer 2)) as [d|] eqn:Hd; [|vm_compute in Hd; discriminate Hd].
  assert (Hs : rn_status (run d) = Succeeded) by (vm_compute in Hd; injection Hd as <-; reflexivity).
  destruct (callback_complete demo_text_le_total demo_text_le_trans ann (Some "secret") None (Some "Bearer secret") "r1"
    (Some demo_patch) (world_with Running) Running) as [_ Hpage].
  - discriminate.
  - reflexivity.
  - reflexivity.
  - intros t. destruct t; vm_compute; reflexivity.
  - exists (with_status Running demo_run). split_and!; [left|reflexivity|reflexivity].
  - reflexivity.
  - destruct (Hpage reporting_server demo_events (opened reporting_answer)) with (n := 2) (d := d) as (nf & nl & Hnf & _ & Hin & _).
    + exact reporting_reachable.
    + apply opened_execution. vm_compute. reflexivity.
    + vm_compute. reflexivity.
    + exact Hd.
    + rewrite Hs. reflexivity.
    + exists d, nf. split; [reflexivity|]. split; [exact Hs|]. split; [|exact Hin].
      apply Forall2_length in Hnf. rewrite <-Hnf. vm_compute. reflexivity.
Defined.

(** ** The data page *)

Lemma formatBytes_bounds_witness :
  (0 <= 1048575)%Z /\ formatBytes 1048575 = "1024.0 KB" /\
  exists m, formatBytes 1048575 = decimal 1 m +:+ " KB" /\ (m <= 10240)%Z.
Proof.
  split; [lia|]. split; [vm_compute; reflexivity|].
  destruct (formatBytes_bounds 1048575 ltac:(lia)) as (m & Hm & _ & _ & Hle & _).
  exists m. split; [exact Hm|]. apply Hle. discriminate.
Defined.

Definition data_page : DataPage := mkDataPage "mine" [] false 0 None [].

Lemma upload_from_page_witness :
  exists c', handleFile (Some bob) (Some (mkFile "x.csv" "" 3)) 100 (PutStatus 200) (client wired data_page) = (c', Ok tt) /\
    dp_puts (cl_page c') = ["PUT data/u2/u-0/x.csv"] /\ dp_errorMessage (cl_page c') = None /\
    exists row, row ∈ dp_items (cl_page c').
Proof.
  destruct (upload_from_page bob (mkFile "x.csv" "" 3) 100 (PutStatus 200) (client wired data_page))
    as (c' & Hrun & _ & _ & _ & _ & Hputs & Herr & row & _ & _ & Hin).
  - reflexivity.
  - reflexivity.
  - reflexivity.
  - exact demo_db_keys.
  - vm_compute. reflexivity.
  - intros d Hd. apply list_elem_of_singleton in Hd as ->. discriminate.
  - exists c'. split; [exact Hrun|]. split; [exact Hputs|]. split; [exact Herr|].
    exists row. apply Hin. reflexivity.
Defined.

(** ** The file viewer *)

#[export] Instance demo_viewer : ViewerEnv := {
  csv_parse s := Ok (JStr s);
  json_parse s := None;
  json_pretty j := "" }.

Definition viewer_run (es : list ViewerEvent) : ViewerMachine _ :=
  foldl (viewer_step (cfg := demo_config) (Some ann) (mkFileProps "r1" "a.txt" None None))
    (mkViewerMachine (client wired initial_viewer) []) es.

Lemma viewer_downloads_witness :
  let es := [Toggle; FileViewer.Download; Replied 0 (Ok ""); Replied 0 (Ok ""); Replied 0 (Ok "hello"); Toggle; Toggle] in
  let v := cl_page (vm_client (viewer_run es)) in
  keys_ok demo_db /\ fv_fetched v = ["GET runs/r1/f1"] /\ fv_opened v = ["GET runs/r1/f1"] /\
  fv_textBody v = Some "hello" /\ fv_loading v = false /\ inlinable (mkFileProps "r1" "a.txt" None None).
Proof.
  intros es v. split; [exact demo_db_keys|].
  destruct (viewer_downloads (cfg := demo_config) ann (mkFileProps "r1" "a.txt" None None) eq_refl (client wired initial_viewer) es)
    as (_ & _ & Hinl & _ & _ & Hidle); [exact demo_db_keys|reflexivity|].
  split; [vm_compute; reflexivity|]. split; [vm_compute; reflexivity|]. split; [vm_compute; reflexivity|].
  split; [apply Hidle; vm_compute; reflexivity|apply Hinl; vm_compute; discriminate].
Defined.

(** Expanding, collapsing and expanding again before the first answer begins a second
    load; the first to finish resets [loading] while the other is still reading. *)
Example impatient_viewer :
  let v := cl_page (vm_client (viewer_run [Toggle; Toggle; Toggle; Replied 0 (Ok ""); Replied 0 (Ok "")])) in
  fv_fetched v = ["GET runs/r1/f1"; "GET runs/r1/f1"] /\
  let w := viewer_run [Toggle; Toggle; Toggle; Replied 0 (Ok ""); Replied 1 (Ok "hello")] in
  fv_loading (cl_page (vm_client w)) = false /\ vm_tasks w = [LoadUrl].
Proof. vm_compute. repeat split. Qed.

(** ** The offers *)

Lemma offered_actions_accepted_witness :
  keys_ok demo_db /\
  (exists d p, run_answer (Some ann) "r1" demo_world = Some d /\ run_view false false (Some d) (Some ann) (mkSharePanel "" false None) = RunShown p /\
     rp_zip p = true /\
     exists entries, handle (Some ann) (GetRunZip (Some "r1")) demo_world = (demo_world, Ok (RArchive entries)) /\
       length entries = 2) /\
  exists w', handle (Some ann) (DeletePipeline (Some "p1")) demo_world = (w', Ok ROk).
Proof.
  split; [exact demo_db_keys|].
  destruct (offered_actions_accepted demo_text_le_total demo_text_le_trans ann demo_world demo_db_keys)
    as (Hpage & _ & Hlist & _).
  split.
  - destruct (run_answer (Some ann) "r1" demo_world) as [d|] eqn:E; [|vm_compute in E; discriminate E].
    destruct (Hpage "r1" d (mkSharePanel "" false None) E) as (p & Hview & _ & _ & _ & Hzip & _). exists d, p.
    vm_compute in E. injection E as <-. injection Hview as <-.
    split; [reflexivity|]. split; [reflexivity|]. split; [reflexivity|]. exact (Hzip eq_refl).
  - destruct (Hlist "mine" demo_world [demo_pipeline] [pipeline_card "mine" demo_pipeline] (pipeline_card "mine" demo_pipeline))
      as [_ Hdel].
    + vm_compute. reflexivity.
    + reflexivity.
    + left.
    + reflexivity.
    + destruct (Hdel "p1" eq_refl) as (w' & Hrun & _). exists w'. exact Hrun.
Defined.

(** ** The signals of the editor *)

Definition wired_base : BaseState := handleExportButtonClick initial_base.

Definition wired_map : MapContextResult := mkContext [] [] [] [].

Lemma editor_signals_witness :
  consistent wired /\
  ca_problems (canvas_view initial_catalogue wired wired_map "p" wired_base) = [] /\
  ev_submit (export_view wired (exportText (env := pages_env shown) "q" wired export_page)) = true.
Proof.
  split; [exact wired_consistent|].
  assert (Hp : ca_problems (canvas_view initial_catalogue wired wired_map "p" wired_base) = []) by (vm_compute; reflexivity).
  split; [exact Hp|].
  exact (proj1 (proj1 (editor_signals (env := pages_env shown) initial_catalogue wired wired_map "p" "q" wired_base
    export_page wired_consistent)) Hp).
Defined.

(** ** The lists with tabs *)

(** The list of pipelines: opened, "shared" chosen, "mine" chosen again; the answer for
    "shared" comes late and is ignored. *)
Definition demo_list : ListPage PipelineRow :=
  let active := fun _ : list PipelineRow => false in
  answered active 1 (Some [demo_pipeline])
    (answered active 0 (Some [])
      (select_tab 0 (select_tab 1 (open_list active (Some [demo_pipeline]))))).

Lemma demo_list_reachable : pipelines_page ann (fun _ => demo_world) demo_list.
Proof.
  assert (Hmine : handle (Some ann) (ListPipelines (Some "mine")) demo_world = (demo_world, Ok (RPipelines [demo_pipeline])))
    by (vm_compute; reflexivity).
  unfold pipelines_page, demo_list. eapply LrStep; [eapply LrStep; [eapply LrStep; [eapply LrStep|]|]|].
  - apply (LrOpen _ _ (Some [demo_pipeline])). intros rows Hr. injection Hr as <-. exists 0, demo_world. exact Hmine.
  - apply (LsSelect _ _ _ 1).
  - apply (LsSelect _ _ _ 0).
  - apply (LsCancelled _ _ _ 0 (Some [])). intros scope Hreq. discriminate Hreq.
  - apply (LsAnswer _ _ _ 1 "mine"); [reflexivity|]. exists 0, demo_world. exact Hmine.
Defined.

Lemma lists_follow_tab_witness :
  exists card row, list_shown pipelines_view demo_list = ListRows [card] /\
    sees_pipeline demo_db (u_id ann) row /\ card = pipeline_card "mine" row /\
    pk_delete card = Some (pl_id row) /\ pl_ownerId row = u_id ann.
Proof.
  destruct (lists_follow_tab ann (fun _ => demo_world) (fun _ => demo_db_keys)) as [Hpl _].
  destruct (Hpl demo_list [pipeline_card "mine" demo_pipeline] (pipeline_card "mine" demo_pipeline)
    demo_list_reachable eq_refl ltac:(left)) as (k & w' & l & row & _ & _ & _ & Hsees & Hcard & Hdel).
  exists (pipeline_card "mine" demo_pipeline), row. split; [reflexivity|]. split; [exact Hsees|].
  split; [exact Hcard|]. destruct (Hdel _ eq_refl) as [Hid Ho]. split; [|exact Ho].
  rewrite <-Hid. reflexivity.
Defined.
