(* ===== verification/NodeFs.v ===== *)
(** * Files and paths, as [node:fs] and [node:path] give them to the block library

    A file system maps locations (the names from the root) to nodes.  Paths are the
    strings the program builds; [resolve] gives the location of a path.  There are no
    links, permissions or limits on names. *)

From S2P Require Export Monad Regex JsMap.
From Stdlib Require Import Ascii.

Abbreviation location := (list string).

Inductive node := FileNode (content : string) | DirNode.

#[export] Instance node_eq_dec : EqDecision node.
Proof. solve_decision. Defined.

Definition isDirectory (n : node) : bool := match n with DirNode => true | FileNode _ => false end.
Definition isFile (n : node) : bool := match n with FileNode _ => true | DirNode => false end.

Abbreviation fs := (gmap location node).

(** The code of a system error, or an exception of the program. *)
Inductive FsError :=
  | ENOENT | ENOTDIR | EISDIR | EEXIST
  | Thrown (message : string)
  | NoFuel.

Class Process := { cwd : location; env_var : string -> option string }.

(** ** Paths *)

Definition slash : ascii := "/"%char.

Fixpoint split_slash (s : string) : list string :=
  match s with
  | EmptyString => [""]
  | String c s' =>
      if c === slash then "" :: split_slash s'
      else match split_slash s' with
           | x :: l => String c x :: l
           | [] => [String c ""]
           end
  end.

Definition is_absolute (s : string) : bool :=
  match s with String c _ => c === slash | EmptyString => false end.

Definition drop_name (l : location) : location := take (length l - 1) l.

Definition walk (l : location) (segment : string) : location :=
  if (segment === "") || (segment === ".") then l
  else if segment === ".." then drop_name l
  else l ++ [segment].

(** [path.join(a, b)], up to the normalisation that [resolve] does. *)
Definition join (a b : string) : string := a +:+ "/" +:+ b.

Definition basename (s : string) : string :=
  match last (js_filter truthy (split_slash s)) with Some x => x | None => "" end.

(** ** Operations *)

Section Operations.
Context {proc : Process}.
Abbreviation IO := (M fs FsError).

Definition resolve (s : string) : location :=
  foldl walk (if is_absolute s then [] else cwd) (split_slash s).

Definition node_at (f : fs) (s : string) : option node := if truthy s then f !! resolve s else None.

(** The names in a directory, in the order of the map. *)
Definition child_of (l q : location) : option string :=
  match last q with
  | Some e => if q === l ++ [e] then Some e else None
  | None => None
  end.

Definition children (f : fs) (l : location) : list string := omap (fun x => child_of l x.1) (map_to_list f).

Definition existsSync (s : string) : IO bool := fun f => (f, Ok (bool_decide (is_Some (node_at f s)))).

Definition statSync (s : string) : IO node := fun f =>
  (f, match node_at f s with Some n => Ok n | None => Throw ENOENT end).

Definition readFileSync (s : string) : IO string := fun f =>
  (f, match node_at f s with
      | Some (FileNode c) => Ok c
      | Some DirNode => Throw EISDIR
      | None => Throw ENOENT
      end).

Definition readdirSync (s : string) : IO (list string) := fun f =>
  (f, match node_at f s with
      | Some DirNode => Ok (children f (resolve s))
      | Some (FileNode _) => Throw ENOTDIR
      | None => Throw ENOENT
      end).

(** Makes the directory [made] if it is missing, then the ones below it. *)
Fixpoint mkdirs (made todo : location) : IO unit := fun f =>
  match f !! made with
  | Some (FileNode _) => (f, Throw (match todo with [] => EEXIST | _ => ENOTDIR end))
  | found =>
      let f' := match found with None => <[made := DirNode]> f | Some _ => f end in
      match todo with
      | [] => (f', Ok tt)
      | e :: rest => mkdirs (made ++ [e]) rest f'
      end
  end.

(** [mkdirSync(s, { recursive: true })] *)
Definition mkdirSync (s : string) : IO unit := fun f =>
  if truthy s then mkdirs [] (resolve s) f else (f, Throw ENOENT).

Definition copyFileSync (src dest : string) : IO unit := fun f =>
  match node_at f src with
  | None => (f, Throw ENOENT)
  | Some DirNode => (f, Throw EISDIR)
  | Some (FileNode c) =>
      if negb (truthy dest) then (f, Throw ENOENT)
      else match f !! resolve dest with
           | Some DirNode => (f, Throw EISDIR)
           | _ =>
               match f !! drop_name (resolve dest) with
               | Some DirNode => (<[resolve dest := FileNode c]> f, Ok tt)
               | Some (FileNode _) => (f, Throw ENOTDIR)
               | None => (f, Throw ENOENT)
               end
           end
  end.

Definition writeFileSync (dest content : string) : IO unit := fun f =>
  if negb (truthy dest) then (f, Throw ENOENT)
  else match f !! resolve dest with
       | Some DirNode => (f, Throw EISDIR)
       | _ =>
           match f !! drop_name (resolve dest) with
           | Some DirNode => (<[resolve dest := FileNode content]> f, Ok tt)
           | Some (FileNode _) => (f, Throw ENOTDIR)
           | None => (f, Throw ENOENT)
           end
       end.
End Operations.

(** ** Lemmas on paths *)

Definition plain (e : string) : Prop := char_free slash e = true /\ e <> "" /\ e <> "." /\ e <> "..".

Lemma split_slash_nonnil s : split_slash s <> [].
Proof. destruct s as [|c s]; simpl; [done|]. destruct (c === slash); [done|]. by destruct (split_slash s). Qed.

Lemma split_slash_free e : char_free slash e = true -> split_slash e = [e].
Proof.
  induction e as [|c e IH]; [done|]. unfold char_free. simpl. intros H. apply andb_true_iff in H as [Hc He].
  apply negb_true_iff in Hc. rewrite Hc, IH; done.
Qed.

Lemma split_slash_app a b : split_slash (join a b) = split_slash a ++ split_slash b.
Proof.
  unfold join. induction a as [|c a IH].
  - rewrite string_app_nil_l, string_app_cons, string_app_nil_l. simpl. by destruct (split_slash b).
  - rewrite string_app_cons. simpl. rewrite IH. destruct (c === slash); [done|].
    destruct (split_slash a) eqn:E; [by apply split_slash_nonnil in E|done].
Qed.

Lemma split_slash_join a e : char_free slash e = true -> split_slash (join a e) = split_slash a ++ [e].
Proof. intros He. by rewrite split_slash_app, (split_slash_free e). Qed.

Lemma walk_plain l e : plain e -> walk l e = l ++ [e].
Proof. intros (_ & H1 & H2 & H3). unfold walk. by rewrite !eqb_ne_js. Qed.

Lemma drop_name_snoc l e : drop_name (l ++ [e]) = l.
Proof. unfold drop_name. rewrite length_app. simpl. by rewrite Nat.add_sub, take_app_length. Qed.

Lemma basename_join a e : plain e -> basename (join a e) = e.
Proof.
  intros (He & Hne & _). unfold basename. rewrite split_slash_join by done. unfold js_filter.
  rewrite filter_app. apply truthy_spec in Hne.
  assert (filter (fun x => truthy x = true) [e] = [e]) as -> by (by rewrite filter_cons_True).
  by rewrite last_snoc.
Qed.

Section Paths.
Context {proc : Process}.

Lemma resolve_app a b : a <> "" -> resolve (join a b) = foldl walk (resolve a) (split_slash b).
Proof. intros Ha. unfold resolve. rewrite split_slash_app, foldl_app. by destruct a. Qed.

Lemma resolve_join a e : a <> "" -> plain e -> resolve (join a e) = resolve a ++ [e].
Proof.
  intros Ha He. rewrite resolve_app, split_slash_free by (done || apply He). simpl. by apply walk_plain.
Qed.

Lemma truthy_join a e : truthy (join a e) = true.
Proof. destruct a; [done|]. unfold join. by rewrite string_app_cons. Qed.

Lemma node_at_join f a e : a <> "" -> plain e -> node_at f (join a e) = f !! (resolve a ++ [e]).
Proof. intros Ha He. unfold node_at. by rewrite truthy_join, resolve_join. Qed.
End Paths.

(** ** Lemmas on directories *)

Lemma child_of_Some l q e : child_of l q = Some e <-> q = l ++ [e].
Proof.
  unfold child_of. split.
  - destruct (last q); [|done]. case_bool_decide; intros; by simplify_eq.
  - intros ->. rewrite last_snoc. by rewrite eqb_refl_js.
Qed.

Lemma elem_children (f : fs) l e : e ∈ children f l <-> is_Some (f !! (l ++ [e])).
Proof.
  unfold children. rewrite list_elem_of_omap. split.
  - intros ([q n] & Hq & Hc). apply child_of_Some in Hc. simpl in Hc. subst q.
    apply elem_of_map_to_list in Hq. by exists n.
  - intros [n Hn]. exists (l ++ [e], n). split; [by apply elem_of_map_to_list|]. by apply child_of_Some.
Qed.

Lemma NoDup_omap_inj {A B} (g : A -> option B) l :
  (forall x y b, x ∈ l -> y ∈ l -> g x = Some b -> g y = Some b -> x = y) -> NoDup l -> NoDup (omap g l).
Proof.
  intros Hinj Hnd. induction Hnd as [|x l Hx Hnd IH]; simpl; [constructor|].
  assert (NoDup (omap g l)) by (apply IH; intros; eapply Hinj; eauto; by right).
  destruct (g x) as [b|] eqn:E; [|done]. constructor; [|done].
  intros (y & Hy & Hb)%list_elem_of_omap. apply Hx. rewrite (Hinj x y b); [done|by left|by right|done|done].
Qed.

Lemma NoDup_children (f : fs) l : NoDup (children f l).
Proof.
  apply NoDup_omap_inj; [|apply NoDup_map_to_list].
  intros [q1 n1] [q2 n2] b H1 H2 Hq1 Hq2. simpl in *. apply child_of_Some in Hq1, Hq2. subst.
  apply elem_of_map_to_list in H1, H2. congruence.
Qed.

(** A file system as systems keep it: the root is a directory, every node is in a
    directory, names are plain. *)
Record fs_ok (f : fs) : Prop := {
  fo_root : f !! [] = Some DirNode;
  fo_parent l e n : f !! (l ++ [e]) = Some n -> f !! l = Some DirNode;
  fo_plain l e n : f !! (l ++ [e]) = Some n -> plain e }.
