(* ===== verification/BlockLib.v ===== *)
(** * The block library: types, metadata, manifests, inputs ([libs/typescript/src])

    [types.ts], [metadata.ts], [build.ts], [scanning.ts].  A value of one of the library's
    classes is a [Value] that carries its class; classes of the user that extend
    them are [Sub...] classes with their name. *)

From S2P Require Export NodeFs.
From Stdlib Require Import Ascii.

(** ** [types.ts] *)

Inductive SpadeClass :=
  | File | RasterFile | VectorFile | TabularFile | JsonFile
  | Directory
  | FileCollection | RasterFileCollection | VectorFileCollection | TabularFileCollection
  | SubFile (name : string) | SubDirectory (name : string) | SubFileCollection (name : string).

(** The base class an [instanceof] test finds. *)
Inductive Base := BaseFile | BaseDirectory | BaseCollection.

Definition base_of (c : SpadeClass) : Base :=
  match c with
  | File | RasterFile | VectorFile | TabularFile | JsonFile | SubFile _ => BaseFile
  | Directory | SubDirectory _ => BaseDirectory
  | FileCollection | RasterFileCollection | VectorFileCollection | TabularFileCollection
  | SubFileCollection _ => BaseCollection
  end.

Inductive SpadeTypeClass := Class_ (c : SpadeClass) | String_ | Number_ | Boolean_.

(** ** YAML values, as [js-yaml] gives them

    A number is given by its [String(n)]. *)

Inductive Yaml :=
  | YNull | YBool (b : bool) | YNumber (text : string) | YString (s : string)
  | YSeq (l : list Yaml) | YMap (m : jsmap Yaml).

(** The own enumerable properties of a value: what spreading it or [Object.keys] see. *)
Definition own (y : Yaml) : jsmap Yaml :=
  match y with
  | YMap m => m
  | YSeq l => imap (fun i x => (pretty i, x)) l
  | YString s => imap (fun i c => (pretty i, YString (String c ""))) (String.list_ascii_of_string s)
  | YNull | YBool _ | YNumber _ => []
  end.

Class YamlLib := { yaml_load : string -> result string Yaml }.

(** A value a block receives or returns: an instance of a class, or plain data. *)
Inductive Value :=
  | FileObj (c : SpadeClass) (path : string)
  | DirObj (c : SpadeClass) (path : string)
  | CollObj (c : SpadeClass) (paths : list string)
  | Plain (y : Yaml).

(** ** [metadata.ts] *)

Record SpadeMetadata := mkMetadata {
  md_inputs : jsmap SpadeTypeClass; md_output : option SpadeTypeClass; md_description : option string }.

(** The store is keyed by the identity of the function. *)
Definition setMetadata (fn : nat) (metadata : SpadeMetadata) (store : gmap nat SpadeMetadata)
    : gmap nat SpadeMetadata := <[fn := metadata]> store.
Definition getMetadata (fn : nat) (store : gmap nat SpadeMetadata) : option SpadeMetadata := store !! fn.
Definition spadeBlock (metadata : SpadeMetadata) (fn : nat) (store : gmap nat SpadeMetadata)
    : gmap nat SpadeMetadata * nat := (setMetadata fn metadata store, fn).

(** ** [build.ts] *)

Definition TS_TYPE_TO_MANIFEST (t : SpadeTypeClass) : option (jsmap string) :=
  match t with
  | Class_ File => Some [("type", "file")]
  | Class_ RasterFile => Some [("type", "file"); ("format", "GeoTIFF")]
  | Class_ VectorFile => Some [("type", "file"); ("format", "GeoJSON")]
  | Class_ TabularFile => Some [("type", "file"); ("format", "CSV")]
  | Class_ JsonFile => Some [("type", "json")]
  | Class_ Directory => Some [("type", "directory")]
  | Class_ FileCollection => Some [("type", "collection"); ("item_type", "file")]
  | Class_ RasterFileCollection => Some [("type", "collection"); ("item_type", "file"); ("format", "GeoTIFF")]
  | Class_ VectorFileCollection => Some [("type", "collection"); ("item_type", "file"); ("format", "GeoJSON")]
  | Class_ TabularFileCollection => Some [("type", "collection"); ("item_type", "file"); ("format", "CSV")]
  | String_ => Some [("type", "string")]
  | Number_ => Some [("type", "number")]
  | Boolean_ => Some [("type", "boolean")]
  | Class_ (SubFile _) | Class_ (SubDirectory _) | Class_ (SubFileCollection _) => None
  end.

Definition TYPE_TO_OUTPUT_NAME (t : SpadeTypeClass) : option string :=
  match t with
  | Class_ File => Some "file"
  | Class_ RasterFile => Some "raster"
  | Class_ VectorFile => Some "vector"
  | Class_ TabularFile => Some "tabular"
  | Class_ JsonFile => Some "json"
  | Class_ Directory => Some "directory"
  | Class_ FileCollection => Some "files"
  | Class_ RasterFileCollection => Some "rasters"
  | Class_ VectorFileCollection => Some "vectors"
  | Class_ TabularFileCollection => Some "tables"
  | _ => None
  end.

Record Manifest := mkBuilt {
  bm_description : option string; bm_inputs : jsmap (jsmap string); bm_outputs : jsmap (jsmap string) }.

Definition add_input (inputs : jsmap (jsmap string)) (param : string * SpadeTypeClass) : jsmap (jsmap string) :=
  match TS_TYPE_TO_MANIFEST param.2 with
  | Some entry => jm_set param.1 entry inputs
  | None => inputs
  end.

Definition build (fn : nat) (store : gmap nat SpadeMetadata) : Manifest :=
  match getMetadata fn store with
  | None => mkBuilt None [] []
  | Some metadata =>
      let inputs := foldl add_input [] (md_inputs metadata) in
      let outputs :=
        match md_output metadata with
        | Some t =>
            match TS_TYPE_TO_MANIFEST t with
            | Some entry => [(TYPE_TO_OUTPUT_NAME t ⁇ "output", entry)]
            | None => []
            end
        | None => []
        end in
      mkBuilt (if otruthy (md_description metadata) then md_description metadata else None) inputs outputs
  end.

(** ** [scanning.ts] *)

Section Scanning.
Context {proc : Process} {yl : YamlLib}.
Abbreviation IO := (M fs FsError).

(** An exception of [js-yaml] is not caught. *)
Definition parse_yaml (content : string) : IO Yaml :=
  match yaml_load content with Ok y => mret y | Throw m => throw (Thrown m) end.

Definition loadParams : IO (jsmap Yaml) :=
  found ← existsSync "params.yaml";
  if negb found then mret []
  else
    content ← readFileSync "params.yaml";
    params ← parse_yaml content;
    mret (own params).

Definition isFileSubclass (t : SpadeTypeClass) : bool :=
  match t with Class_ c => match base_of c with BaseFile => true | _ => false end | _ => false end.
Definition isDirectorySubclass (t : SpadeTypeClass) : bool :=
  match t with Class_ c => match base_of c with BaseDirectory => true | _ => false end | _ => false end.
Definition isFileCollectionSubclass (t : SpadeTypeClass) : bool :=
  match t with Class_ c => match base_of c with BaseCollection => true | _ => false end | _ => false end.

Definition class_of (t : SpadeTypeClass) : SpadeClass := match t with Class_ c => c | _ => File end.

(** The value for the directory of one input, from its type and its files. *)
Definition default_input (subdirPath : string) (files : list string) : result FsError Value :=
  match files with
  | [] => Throw (Thrown ("Input directory '" +:+ subdirPath +:+ "' is empty"))
  | [f] => Ok (FileObj File f)
  | _ => Ok (CollObj FileCollection files)
  end.

Definition input_value (expectedType : option SpadeTypeClass) (name subdirPath : string) (files : list string)
    : result FsError Value :=
  match expectedType with
  | Some t =>
      if isDirectorySubclass t then Ok (DirObj (class_of t) subdirPath)
      else if isFileCollectionSubclass t then Ok (CollObj (class_of t) files)
      else if isFileSubclass t then
        match files with
        | [] => Throw (Thrown ("Input '" +:+ name +:+ "' expects a file but directory '" +:+
                                subdirPath +:+ "' is empty"))
        | f :: _ => Ok (FileObj (class_of t) f)
        end
      else default_input subdirPath files
  | None => default_input subdirPath files
  end.

(** [l.filter((f) => statSync(join(dir, f)).isFile())] *)
Fixpoint keep_files (dir : string) (l : list string) : IO (list string) :=
  match l with
  | [] => mret []
  | f :: l' =>
      st ← statSync (join dir f);
      rest ← keep_files dir l';
      mret (if isFile st then f :: rest else rest)
  end.

(** The loop of [scanInputs], with [result] as accumulator. *)
Fixpoint scan_entries (typeHints : jsmap SpadeTypeClass) (subdirs : list string) (result : jsmap Value)
    : IO (jsmap Value) :=
  match subdirs with
  | [] => mret result
  | name :: subdirs' =>
      let subdirPath := join "inputs" name in
      st ← statSync subdirPath;
      if negb (isDirectory st) then scan_entries typeHints subdirs' result
      else
        names ← readdirSync subdirPath;
        kept ← keep_files subdirPath (js_sort names);
        let files := join subdirPath <$> kept in
        match input_value (jm_get name typeHints) name subdirPath files with
        | Ok v => scan_entries typeHints subdirs' (jm_set name v result)
        | Throw e => throw e
        end
  end.

Definition scanInputs (typeHints : jsmap SpadeTypeClass) : IO (jsmap Value) :=
  found ← existsSync "inputs";
  if negb found then mret []
  else
    names ← readdirSync "inputs";
    scan_entries typeHints (js_sort names) [].

(** [{ ...params, ...inputs }] *)
Definition spread {V} (m1 m2 : jsmap V) : jsmap V := foldl (fun m e => jm_set e.1 e.2 m) m1 m2.

Definition buildFunctionArgs (metadata : option SpadeMetadata) : IO (jsmap Value) :=
  let typeHints := match metadata with Some md => md_inputs md | None => [] end in
  params ← loadParams;
  inputs ← scanInputs typeHints;
  mret (spread (spread [] (prod_map id Plain <$> params)) inputs).
End Scanning.
