(* ===== verification/Outputs.v ===== *)
(** * The block library: outputs and the run of a block ([output.ts], [run.ts]) *)

From S2P Require Export BlockLib.
From Stdlib Require Import Ascii.

(** ** Names *)

Definition TYPE_TO_DEFAULT_NAME (c : SpadeClass) : option string :=
  match c with
  | File => Some "file"
  | RasterFile => Some "raster"
  | VectorFile => Some "vector"
  | TabularFile => Some "tabular"
  | JsonFile => Some "json"
  | Directory => Some "directory"
  | FileCollection => Some "files"
  | RasterFileCollection => Some "rasters"
  | VectorFileCollection => Some "vectors"
  | TabularFileCollection => Some "tables"
  | SubFile _ | SubDirectory _ | SubFileCollection _ => None
  end.

(** [value.constructor.name] of the classes that have no default name. *)
Definition constructor_name (c : SpadeClass) : string :=
  match c with SubFile n | SubDirectory n | SubFileCollection n => n | _ => "" end.

Definition class_name (c : SpadeClass) : string :=
  match TYPE_TO_DEFAULT_NAME c with Some n => n | None => toLowerCase (constructor_name c) end.

(** Of plain data, an array has constructor [Array] and an object [Object]. *)
Definition inferOutputName (v : Value) : string :=
  match v with
  | FileObj c _ | DirObj c _ | CollObj c _ => class_name c
  | Plain (YSeq _) => "array"
  | Plain (YMap _) => "object"
  | Plain _ => "output"
  end.

(** What a block's function returns. *)
Inductive Returned :=
  | RetNothing
  | RetValue (v : Value)
  | RetObject (entries : jsmap Value).

Section Outputs.
Context {proc : Process} {yl : YamlLib}.
Abbreviation IO := (M fs FsError).

(** [manifest?.outputs ?? null] *)
Definition outputs_of (manifest : Yaml) : option Yaml :=
  match manifest with
  | YMap m => match jm_get "outputs" m with Some YNull | None => None | Some y => Some y end
  | _ => None
  end.

Definition read_manifest (path : string) : IO (option Yaml) :=
  content ← readFileSync path;
  manifest ← parse_yaml content;
  mret (outputs_of manifest).

Definition readBlockManifest : IO (option Yaml) :=
  let envPath := env_var "SPADE_BLOCK_MANIFEST" in
  atEnv ← (if otruthy envPath then existsSync (envPath ⁇ "") else mret false);
  if atEnv : bool then read_manifest (envPath ⁇ "")
  else
    found ← existsSync "block.yaml";
    if found : bool then read_manifest "block.yaml" else mret None.

(** The recursion follows the directories of [src]; [fuel] bounds their depth. *)
Fixpoint copyDirRecursive (fuel : nat) (src dest : string) : IO unit :=
  match fuel with
  | 0 => throw NoFuel
  | S fuel' =>
      _ ← mkdirSync dest;
      entries ← readdirSync src;
      forM entries (fun entry =>
        let srcPath := join src entry in
        let destPath := join dest entry in
        st ← statSync srcPath;
        if isDirectory st then copyDirRecursive fuel' srcPath destPath
        else copyFileSync srcPath destPath)
  end.

(** More than the depth of any node. *)
Definition depth (f : fs) : nat := S (max_list (length <$> (fst <$> map_to_list f))).

Definition copy_entry (fuel : nat) (src outputDir entry : string) : IO unit :=
  let srcPath := join src entry in
  let destPath := join outputDir entry in
  st ← statSync srcPath;
  if isDirectory st then copyDirRecursive fuel srcPath destPath
  else copyFileSync srcPath destPath.

Definition writeSingleOutput (name : string) (value : Value) : IO unit :=
  let outputDir := join "outputs" name in
  _ ← mkdirSync outputDir;
  match value with
  | CollObj _ paths => forM paths (fun filePath => copyFileSync filePath (join outputDir (basename filePath)))
  | DirObj _ src =>
      entries ← readdirSync src;
      f ← get_state;
      forM entries (copy_entry (depth f) src outputDir)
  | FileObj _ path => copyFileSync path (join outputDir (basename path))
  | Plain _ => mret tt
  end.

Definition is_instance (v : Value) : bool := match v with Plain _ => false | _ => true end.

(** The name of a single result. *)
Definition output_name (manifestOutputs : option Yaml) (v : Value) : string :=
  match jm_keys <$> (own <$> manifestOutputs) with
  | Some [key] => key
  | _ => inferOutputName v
  end.

Definition writeOutputs (ret : Returned) (manifestOutputs : option Yaml) : IO unit :=
  match ret with
  | RetNothing | RetValue (Plain YNull) => mret tt
  | RetValue v =>
      _ ← mkdirSync "outputs";
      if is_instance v then writeSingleOutput (output_name manifestOutputs v) v
      else
        match v with
        | Plain (YMap m) => forM m (fun e => writeSingleOutput e.1 (Plain e.2))
        | _ => mret tt
        end
  | RetObject entries =>
      _ ← mkdirSync "outputs";
      forM entries (fun e => writeSingleOutput e.1 e.2)
  end.

(** ** [run.ts] *)

Definition filter_args (metadata : option SpadeMetadata) (args : jsmap Value) : jsmap Value :=
  match metadata with
  | Some md =>
      let declaredInputs := js_set_of (jm_keys (md_inputs md)) in
      foldl (fun m e => if js_mem e.1 declaredInputs then jm_set e.1 e.2 m else m) [] args
  | None => args
  end.

(** [fn] is the function of the block, its effect on files included; [metadata] is what
    [getMetadata] finds for it. *)
Definition run (fn : jsmap Value -> IO Returned) (metadata : option SpadeMetadata) : IO unit :=
  args ← buildFunctionArgs metadata;
  ret ← fn (filter_args metadata args);
  manifestOutputs ← readBlockManifest;
  writeOutputs ret manifestOutputs.
End Outputs.
