(* ===== verification/CopyTree.v ===== *)
(** * Copying directories ([copyDirRecursive] of [output.ts])

    The recursive copy overlays the source on the destination and touches nothing
    else, as long as neither is inside the other. *)

From S2P Require Export Outputs.

(** ** Regions of a file system *)

Fixpoint strip (t q : location) : option location :=
  match t, q with
  | [], _ => Some q
  | x :: t', y :: q' => if x === y then strip t' q' else None
  | _ :: _, [] => None
  end.

Lemma strip_Some t q r : strip t q = Some r <-> q = t ++ r.
Proof.
  revert q. induction t as [|x t IH]; intros q; simpl; [split; congruence|].
  destruct q as [|y q]; [split; [done|discriminate]|]. case_bool_decide as Hxy.
  - rewrite IH. split; [by intros ->; subst|by intros [= -> ->]].
  - split; [done|]. intros [= -> _]. done.
Qed.

Lemma strip_app t r : strip t (t ++ r) = Some r.
Proof. by apply strip_Some. Qed.

(** [q] in the tree below [t] is what the tree below [s] has there, if it has something. *)
Definition overlay (f : fs) (s t q : location) : option node :=
  match strip t q with
  | Some r => match f !! (s ++ r) with Some n => Some n | None => f !! q end
  | None => f !! q
  end.

Definition disjoint_locations (s t : location) : Prop := ~ s `prefix_of` t /\ ~ t `prefix_of` s.

(** No file of one tree stands where the other has a directory. *)
Definition compatible (f : fs) (s t : location) : Prop :=
  forall r n m, f !! (s ++ r) = Some n -> f !! (t ++ r) = Some m -> isDirectory n = isDirectory m.

Lemma disjoint_apart s t r1 r2 : disjoint_locations s t -> s ++ r1 <> t ++ r2.
Proof.
  intros [H1 H2] Heq. assert (Hs : s `prefix_of` t ++ r2) by (exists r1; done).
  assert (Ht : t `prefix_of` t ++ r2) by (by exists r2).
  destruct (prefix_weak_total s t _ Hs Ht); done.
Qed.

Lemma disjoint_snoc s t e1 e2 : disjoint_locations s t -> disjoint_locations (s ++ [e1]) (t ++ [e2]).
Proof.
  intros Hd. split; intros [k Hk]; rewrite <-app_assoc in Hk.
  - by apply (disjoint_apart s t ([e1] ++ k) [e2] Hd).
  - by apply (disjoint_apart s t [e1] ([e2] ++ k) Hd).
Qed.

Lemma strip_disjoint s t r : disjoint_locations s t -> strip t (s ++ r) = None.
Proof.
  intros Hd. destruct (strip t (s ++ r)) as [k|] eqn:E; [|done]. apply strip_Some in E.
  by apply (disjoint_apart s t r k Hd) in E.
Qed.

Section Tree.
Implicit Types f g : fs.

Lemma fs_prefix f a b n : fs_ok f -> f !! (a ++ b) = Some n -> b <> [] -> f !! a = Some DirNode.
Proof.
  intros Hok. revert n. induction b as [|e b IH] using rev_ind; intros n Hn Hne; [done|].
  rewrite app_assoc in Hn. apply (fo_parent f Hok) in Hn. destruct b as [|x b]; [by rewrite app_nil_r in Hn|].
  by eapply IH.
Qed.

Lemma snoc_ne {A} (l : list A) e : l <> l ++ [e].
Proof. intros H. apply (f_equal length) in H. rewrite length_app in H. simpl in H. lia. Qed.

Lemma longer_ne {A} (l : list A) x r : l <> l ++ x :: r.
Proof. intros H. apply (f_equal length) in H. rewrite length_app in H. simpl in H. lia. Qed.

Lemma fs_ok_insert f l e n :
  fs_ok f -> f !! l = Some DirNode -> plain e ->
  (forall m, f !! (l ++ [e]) = Some m -> isDirectory m = isDirectory n) -> fs_ok (<[l ++ [e] := n]> f).
Proof.
  intros [Hroot Hpar Hpl] Hl He Hn. split.
  - rewrite lookup_insert_ne; [done|]. by destruct l.
  - intros l' e' n' Hl'. destruct (decide (l' = l ++ [e])) as [->|Hne].
    + rewrite lookup_insert_ne in Hl' by (apply snoc_ne).
      apply Hpar in Hl'. rewrite lookup_insert_eq. specialize (Hn _ Hl'). by destruct n.
    + rewrite lookup_insert_ne by done. destruct (decide (l ++ [e] = l' ++ [e'])) as [Heq|Hne'].
      * apply app_inj_tail in Heq as [-> ->]. done.
      * rewrite lookup_insert_ne in Hl' by done. by eapply Hpar.
  - intros l' e' n' Hl'. destruct (decide (l ++ [e] = l' ++ [e'])) as [Heq|Hne'].
    + by apply app_inj_tail in Heq as [_ <-].
    + rewrite lookup_insert_ne in Hl' by done. by eapply Hpl.
Qed.

(** What the loop over the entries keeps true. *)
Record ready (s t : location) (f g : fs) : Prop := {
  rd_ok : fs_ok g;
  rd_dest : g !! t = Some DirNode;
  rd_compatible : compatible g s t;
  rd_source r : g !! (s ++ r) = f !! (s ++ r) }.

Lemma overlay_source f s t e r : disjoint_locations s t -> overlay f (s ++ [e]) (t ++ [e]) (s ++ r) = f !! (s ++ r).
Proof.
  intros Hd. unfold overlay. destruct (strip (t ++ [e]) (s ++ r)) as [k|] eqn:E; [|done].
  apply strip_Some in E. rewrite <-app_assoc in E. by apply (disjoint_apart s t r ([e] ++ k) Hd) in E.
Qed.

Lemma ready_overlay s t f g g' e :
  disjoint_locations s t -> ready s t f g -> fs_ok g' ->
  (forall q, g' !! q = overlay g (s ++ [e]) (t ++ [e]) q) -> ready s t f g'.
Proof.
  intros Hd [Hok Ht Hc Hs] Hok' Hg'.
  assert (Hsrc : forall r, g' !! (s ++ r) = g !! (s ++ r)) by (intros r; by rewrite Hg', overlay_source).
  split; [done| | |intros r; by rewrite Hsrc, Hs].
  - rewrite Hg'. unfold overlay. destruct (strip _ t) as [k|] eqn:E; [|done].
    apply strip_Some in E. rewrite <-app_assoc in E. apply (f_equal length) in E.
    rewrite !length_app in E. simpl in E. lia.
  - intros r n m. rewrite Hsrc, Hg'. unfold overlay. intros Hn.
    destruct (strip (t ++ [e]) (t ++ r)) as [k|] eqn:E; [|intros Hm; by eapply Hc].
    apply strip_Some in E. rewrite <-app_assoc in E. apply app_inv_head in E as ->.
    rewrite <-app_assoc, Hn. congruence.
Qed.

(** The state after the entries [es] have been copied. *)
Lemma forM_overlay (s t : location) f (body : string -> M fs FsError unit) (es : list string) :
  disjoint_locations s t -> NoDup es ->
  (forall e g, e ∈ es -> ready s t f g ->
     exists g', body e g = (g', Ok tt) /\ fs_ok g' /\ forall q, g' !! q = overlay g (s ++ [e]) (t ++ [e]) q) ->
  forall g, ready s t f g ->
  exists g', forM es body g = (g', Ok tt) /\ ready s t f g' /\
    forall q, g' !! q =
      match strip t q with
      | Some (x :: _) => if decide (x ∈ es) then overlay g s t q else g !! q
      | _ => g !! q
      end.
Proof.
  intros Hd Hnd. induction Hnd as [|e es He Hnd IH]; intros Hbody g Hg.
  { exists g. split; [done|]. split; [done|]. intros q. by destruct (strip t q) as [[|x r]|]. }
  destruct (Hbody e g) as (g1 & Hrun & Hok1 & Hg1); [left|done|].
  pose proof (ready_overlay s t f g g1 e Hd Hg Hok1 Hg1) as Hr1.
  destruct (IH (fun e' g0 Hin => Hbody e' g0 (list_elem_of_further e' e es Hin)) g1 Hr1) as (g' & Hrest & Hr' & Hg').
  exists g'. split; [simpl; by rewrite run_bind, Hrun|]. split; [done|].
  assert (Hsame : forall x r, g1 !! (t ++ x :: r) = if decide (x = e) then overlay g s t (t ++ x :: r) else g !! (t ++ x :: r)).
  { intros x r. rewrite Hg1. unfold overlay. rewrite strip_app. destruct (decide (x = e)) as [->|Hne].
    - replace (t ++ e :: r) with ((t ++ [e]) ++ r) by (by rewrite <-app_assoc).
      rewrite strip_app. by rewrite <-!app_assoc.
    - destruct (strip (t ++ [e]) (t ++ x :: r)) as [k|] eqn:E; [|done].
      apply strip_Some in E. rewrite <-app_assoc in E. apply app_inv_head in E. by simplify_eq/=. }
  intros q. rewrite Hg'. destruct (strip t q) as [[|x r]|] eqn:E.
  - apply strip_Some in E. subst q. rewrite app_nil_r, (rd_dest _ _ _ _ Hg). by apply (rd_dest s t f).
  - apply strip_Some in E. subst q. unfold overlay at 1. rewrite strip_app, Hsame.
    replace (g1 !! (s ++ x :: r)) with (g !! (s ++ x :: r)) by (by rewrite (rd_source _ _ _ _ Hr1), (rd_source _ _ _ _ Hg)).
    destruct (decide (x = e)) as [->|Hxe].
    + rewrite decide_False by done. rewrite decide_True by left. unfold overlay. rewrite strip_app.
      by destruct (g !! (s ++ e :: r)).
    + destruct (decide (x ∈ es)) as [Hin|Hnin].
      * rewrite decide_True by (by right). unfold overlay. rewrite strip_app. by destruct (g !! (s ++ x :: r)).
      * rewrite decide_False; [done|]. by intros [?|?]%elem_of_cons.
  - rewrite Hg1. unfold overlay. destruct (strip (t ++ [e]) q) as [k|] eqn:E'; [|done].
    apply strip_Some in E'. subst q. rewrite <-app_assoc, strip_app in E. done.
Qed.
End Tree.

(** ** The operations on locations the copy uses *)

Section Copy.
Context {proc : Process} {yl : YamlLib}.
Implicit Types f g : fs.

Lemma mkdirs_last f made todo e :
  fs_ok f -> f !! (made ++ todo) = Some DirNode ->
  (forall m, f !! ((made ++ todo) ++ [e]) = Some m -> m = DirNode) ->
  mkdirs made (todo ++ [e]) f = (<[(made ++ todo) ++ [e] := DirNode]> f, Ok tt).
Proof.
  intros Hok Hdir He. revert made Hdir He. induction todo as [|x todo IH]; intros made Hdir He.
  - rewrite app_nil_r in *. simpl. rewrite Hdir. destruct (f !! (made ++ [e])) as [m|] eqn:E; [|done].
    rewrite (He m eq_refl) in *. by rewrite insert_id.
  - simpl. assert (f !! made = Some DirNode) as -> by (by eapply (fs_prefix f made (x :: todo))).
    rewrite IH.
    + by rewrite <-(app_assoc made [x] todo).
    + by rewrite <-app_assoc.
    + by rewrite <-(app_assoc made [x] todo).
Qed.

Lemma mkdir_join f d e :
  fs_ok f -> d <> "" -> plain e -> f !! resolve d = Some DirNode ->
  (forall m, f !! (resolve d ++ [e]) = Some m -> m = DirNode) ->
  mkdirSync (join d e) f = (<[resolve d ++ [e] := DirNode]> f, Ok tt).
Proof.
  intros Hok Hd He Hdir Hm. unfold mkdirSync. rewrite truthy_join, resolve_join by done.
  by apply (mkdirs_last f []).
Qed.

Lemma copyFile_join f s e d x c :
  s <> "" -> plain e -> d <> "" -> plain x -> f !! (resolve s ++ [e]) = Some (FileNode c) ->
  f !! resolve d = Some DirNode -> f !! (resolve d ++ [x]) <> Some DirNode ->
  copyFileSync (join s e) (join d x) f = (<[resolve d ++ [x] := FileNode c]> f, Ok tt).
Proof.
  intros Hs He Hd Hx Hsrc Hdir Hdest. unfold copyFileSync. rewrite node_at_join, Hsrc by done.
  rewrite truthy_join, resolve_join by done. simpl negb. cbn iota. rewrite drop_name_snoc, Hdir.
  by destruct (f !! (resolve d ++ [x])) as [[]|].
Qed.

Lemma join_ne a e : join a e <> "".
Proof. apply truthy_spec, truthy_join. Qed.

Lemma file_below f s c r n : fs_ok f -> f !! s = Some (FileNode c) -> f !! (s ++ r) = Some n -> r = [].
Proof.
  intros Hok Hs Hn. destruct r as [|x r]; [done|]. assert (f !! s = Some DirNode); [|congruence].
  by eapply (fs_prefix f s (x :: r)).
Qed.

(** Copying one file is an overlay. *)
Lemma overlay_file f s t c q :
  fs_ok f -> f !! s = Some (FileNode c) -> <[t := FileNode c]> f !! q = overlay f s t q.
Proof.
  intros Hok Hs. unfold overlay. destruct (strip t q) as [r|] eqn:E.
  - apply strip_Some in E. subst q. destruct (f !! (s ++ r)) as [n|] eqn:Hn.
    + pose proof (file_below f s c r n Hok Hs Hn) as ->. rewrite app_nil_r in *.
      rewrite lookup_insert_eq. congruence.
    + rewrite lookup_insert_ne; [done|]. intros Heq. destruct r as [|x r].
      * rewrite app_nil_r in Hn. congruence.
      * apply (f_equal length) in Heq. rewrite length_app in Heq. simpl in Heq. lia.
  - rewrite lookup_insert_ne; [done|]. intros ->. rewrite <-(app_nil_r q) in E at 2. by rewrite strip_app in E.
Qed.

(** Making the destination first does not change the overlay of a directory. *)
Lemma overlay_mkdir f s t x r :
  f !! s = Some DirNode -> disjoint_locations s t ->
  overlay (<[t := DirNode]> f) s t (t ++ x :: r) = overlay f s t (t ++ x :: r).
Proof.
  intros Hs Hd. unfold overlay. rewrite strip_app.
  rewrite (lookup_insert_ne _ t (s ++ x :: r)).
  2:{ intros Heq. apply (disjoint_apart s t (x :: r) [] Hd). by rewrite app_nil_r. }
  rewrite (lookup_insert_ne _ t (t ++ x :: r)); [done|]. by apply longer_ne.
Qed.

Definition copies (f : fs) (s t : location) (out : fs * result FsError unit) : Prop :=
  exists f', out = (f', Ok tt) /\ fs_ok f' /\ forall q, f' !! q = overlay f s t q.

(** Making the destination directory sets the loop up. *)
Lemma mkdir_ready f s l e :
  fs_ok f -> f !! s = Some DirNode -> f !! l = Some DirNode -> plain e ->
  disjoint_locations s (l ++ [e]) -> compatible f s (l ++ [e]) ->
  (forall m, f !! (l ++ [e]) = Some m -> m = DirNode) /\
  ready s (l ++ [e]) (<[l ++ [e] := DirNode]> f) (<[l ++ [e] := DirNode]> f) /\
  forall r, <[l ++ [e] := DirNode]> f !! (s ++ r) = f !! (s ++ r).
Proof.
  intros Hok Hs Hl He Hdis Hcomp. set (t := l ++ [e]) in *.
  assert (Hdest : forall m, f !! t = Some m -> m = DirNode).
  { intros m Hm. specialize (Hcomp [] DirNode m). rewrite !app_nil_r in Hcomp. specialize (Hcomp Hs Hm). by destruct m. }
  assert (Hsrc : forall r, <[t := DirNode]> f !! (s ++ r) = f !! (s ++ r)).
  { intros r. apply lookup_insert_ne. intros Heq. apply (disjoint_apart s t r [] Hdis). by rewrite app_nil_r. }
  split; [done|]. split; [|done]. split; [|apply lookup_insert_eq| |done].
  - apply fs_ok_insert; [done..|]. intros m Hm. by rewrite (Hdest m Hm).
  - intros r n m. rewrite Hsrc. intros Hn Hm. destruct r as [|x r].
    + rewrite app_nil_r in *. rewrite lookup_insert_eq in Hm. simplify_eq. congruence.
    + rewrite lookup_insert_ne in Hm; [by eapply Hcomp|]. by apply longer_ne.
Qed.

(** The destination and the copies of the entries make up the overlay. *)
Lemma copied_entries f f2 s t :
  fs_ok f -> f !! s = Some DirNode -> disjoint_locations s t ->
  (forall r, <[t := DirNode]> f !! (s ++ r) = f !! (s ++ r)) ->
  (forall q, f2 !! q =
     match strip t q with
     | Some (x :: _) => if decide (x ∈ children (<[t := DirNode]> f) s) then overlay (<[t := DirNode]> f) s t q
                        else <[t := DirNode]> f !! q
     | _ => <[t := DirNode]> f !! q
     end) ->
  forall q, f2 !! q = overlay f s t q.
Proof.
  intros Hok Hs Hdis Hsrc Hf2 q. rewrite Hf2. destruct (strip t q) as [[|x r]|] eqn:E.
  - apply strip_Some in E. subst q. rewrite app_nil_r. unfold overlay.
    rewrite <-(app_nil_r t) at 4. rewrite strip_app, app_nil_r, Hs. apply lookup_insert_eq.
  - apply strip_Some in E. subst q. destruct (decide (x ∈ children _ s)) as [Hin|Hnin].
    + by apply overlay_mkdir.
    + assert (f !! (s ++ x :: r) = None) as Hnone.
      { destruct (f !! (s ++ x :: r)) as [n|] eqn:Hn; [|done]. destruct Hnin. apply elem_children. rewrite Hsrc.
        destruct r as [|y r]; [by exists n|]. exists DirNode.
        apply (fs_prefix f (s ++ [x]) (y :: r) n); [done|by rewrite <-app_assoc|done]. }
      unfold overlay. rewrite strip_app, Hnone. apply lookup_insert_ne. by apply longer_ne.
  - unfold overlay. rewrite E. apply lookup_insert_ne. intros <-.
    rewrite <-(app_nil_r t) in E at 2. by rewrite strip_app in E.
Qed.

(** The recursive copy of a directory into an existing directory [d], under the name [e]. *)
Lemma copyDir_overlay fuel f src d e :
  fs_ok f -> src <> "" -> d <> "" -> plain e ->
  f !! resolve src = Some DirNode -> f !! resolve d = Some DirNode ->
  disjoint_locations (resolve src) (resolve d ++ [e]) -> compatible f (resolve src) (resolve d ++ [e]) ->
  (forall r n, f !! (resolve src ++ r) = Some n -> length r < fuel) ->
  copies f (resolve src) (resolve d ++ [e]) (copyDirRecursive fuel src (join d e) f).
Proof.
  revert f src d e. induction fuel as [|fuel IH]; intros f src d e Hok Hsrc Hd He Hs Ht Hdis Hcomp Hfuel.
  { specialize (Hfuel [] DirNode). rewrite app_nil_r in Hfuel. specialize (Hfuel Hs). lia. }
  destruct (mkdir_ready f (resolve src) (resolve d) e) as (Hdest & Hready & Hsrc1); [done..|].
  set (s := resolve src) in *. set (t := resolve d ++ [e]) in *.
  cbn [copyDirRecursive]. rewrite run_bind, mkdir_join by done. fold t.
  pose proof (rd_ok _ _ _ _ Hready) as Hok1. pose proof (copied_entries f) as Hcopied. set (f1 := <[t := DirNode]> f) in *.
  rewrite run_bind. unfold readdirSync at 1. unfold node_at. fold s.
  assert (truthy src = true) as -> by (by apply truthy_spec).
  assert (f1 !! s = Some DirNode) as -> by (rewrite <-(app_nil_r s), Hsrc1, app_nil_r; done).
  destruct (forM_overlay s t f1 (fun entry =>
    st ← statSync (join src entry);
    if isDirectory st then copyDirRecursive fuel (join src entry) (join (join d e) entry)
    else copyFileSync (join src entry) (join (join d e) entry)) (children f1 s)) with (g := f1)
    as (f2 & Hrun & Hready2 & Hf2); [done|apply NoDup_children| |done|].
  - intros x g Hx Hg. apply elem_children in Hx as [n Hn]. pose proof (fo_plain f1 Hok1 _ _ _ Hn) as Hpx.
    rewrite <-(rd_source _ _ _ _ Hg) in Hn. rewrite run_bind. unfold statSync. rewrite node_at_join by done.
    fold s. rewrite Hn. assert (Hrt : resolve (join d e) = t) by (by apply resolve_join).
    destruct n as [c|]; cbn [isDirectory]; cbv beta iota.
    + rewrite (copyFile_join g src x (join d e) x c); [|done|done|apply join_ne|done|done| |].
      * rewrite Hrt. eexists. split; [reflexivity|]. split.
        -- apply fs_ok_insert; [apply Hg|apply Hg|done|]. intros m Hm. symmetry. apply (rd_compatible _ _ _ _ Hg [x]); done.
        -- intros q. apply overlay_file; [apply Hg|done].
      * rewrite Hrt. apply Hg.
      * rewrite Hrt. intros Hm. by pose proof (rd_compatible _ _ _ _ Hg [x] _ _ Hn Hm).
    + assert (Hrs : resolve (join src x) = s ++ [x]) by (by apply resolve_join).
      rewrite <-Hrs, <-Hrt. apply IH; rewrite ?Hrs, ?Hrt.
      * apply Hg.
      * apply join_ne.
      * apply join_ne.
      * done.
      * done.
      * apply Hg.
      * by apply disjoint_snoc.
      * intros r n m. rewrite <-!app_assoc. apply (rd_compatible _ _ _ _ Hg).
      * intros r n. rewrite <-app_assoc, (rd_source _ _ _ _ Hg), Hsrc1. intros Hr%Hfuel. simpl in Hr. lia.
  - exists f2. split; [exact Hrun|]. split; [apply Hready2|]. by apply Hcopied.
Qed.
End Copy.

(** ** Copying a directory into itself *)

(** No step of the copy turns a directory into a file or removes one. *)
Definition KeepsDirs {A} (m : M fs FsError A) : Prop :=
  forall f f' r, m f = (f', r) -> forall l, f !! l = Some DirNode -> f' !! l = Some DirNode.

Section Divergence.
Context {proc : Process} {yl : YamlLib}.
Implicit Types f g : fs.

Lemma keeps_bind {A B : Type} (m : M fs FsError A) (k : A -> M fs FsError B) :
  KeepsDirs m -> (forall a, KeepsDirs (k a)) -> KeepsDirs (m ≫= k).
Proof.
  intros Hm Hk f f' r. rewrite run_bind. destruct (m f) as [f1 [a|e]] eqn:E; intros Hr l Hl.
  - eapply Hk; [exact Hr|]. by eapply Hm.
  - simplify_eq. by eapply Hm.
Qed.

Lemma keeps_read {A} (g : fs -> result FsError A) : KeepsDirs (fun f => (f, g f)).
Proof. intros f f' r Hr. by injection Hr as <- _. Qed.

Lemma keeps_mkdirs todo : forall made, KeepsDirs (mkdirs made todo).
Proof.
  induction todo as [|e todo IH]; intros made f f' r Hr l Hl; simpl in Hr.
  - destruct (f !! made) as [[]|] eqn:E; simplify_eq; [done|done|].
    rewrite lookup_insert_ne; [done|]. intros ->. congruence.
  - destruct (f !! made) as [[]|] eqn:E; simplify_eq; [done|by eapply IH|].
    eapply IH; [exact Hr|]. rewrite lookup_insert_ne; [done|]. intros ->. congruence.
Qed.

Lemma keeps_mkdir s : KeepsDirs (mkdirSync s).
Proof.
  intros f f' r. unfold mkdirSync. destruct (truthy s); [apply keeps_mkdirs|]. intros Hr. by injection Hr as <- _.
Qed.

Lemma keeps_copyFile a b : KeepsDirs (copyFileSync a b).
Proof.
  intros f f' r Hr l Hl. unfold copyFileSync in Hr. destruct (node_at f a) as [[c|]|]; try (by simplify_eq).
  destruct (negb (truthy b)); [by simplify_eq|].
  destruct (f !! resolve b) as [[]|] eqn:E; [|by simplify_eq|];
    (destruct (f !! drop_name (resolve b)) as [[]|]; [by simplify_eq| |by simplify_eq]; simplify_eq;
     rewrite lookup_insert_ne; [done|]; intros Heq; rewrite Heq in E; congruence).
Qed.

Lemma keeps_forM {A} (l : list A) (body : A -> M fs FsError unit) :
  (forall x, KeepsDirs (body x)) -> KeepsDirs (forM l body).
Proof.
  intros Hb. induction l as [|x l IH]; [apply (keeps_read (fun _ => Ok tt))|]. simpl. by apply keeps_bind.
Qed.

Lemma keeps_copyDir fuel : forall src dest, KeepsDirs (copyDirRecursive fuel src dest).
Proof.
  induction fuel as [|fuel IH]; intros src dest; [apply (keeps_read (fun _ => Throw NoFuel))|]. simpl.
  apply keeps_bind; [apply keeps_mkdir|]. intros _. apply keeps_bind; [apply keeps_read|]. intros es.
  apply keeps_forM. intros e. apply keeps_bind; [apply keeps_read|]. intros n.
  destruct (isDirectory n); [apply IH | apply keeps_copyFile].
Qed.

Lemma mkdirs_makes a b : forall made f f', mkdirs made (a ++ b) f = (f', Ok tt) -> f' !! (made ++ a) = Some DirNode.
Proof.
  induction a as [|e a IH]; intros made f f' Hr.
  - rewrite app_nil_r. assert (Hk : forall g r, mkdirs made b g = (f', r) -> g !! made = Some DirNode -> f' !! made = Some DirNode).
    { intros g r Hg Hd. by eapply keeps_mkdirs. }
    simpl in Hr. destruct b as [|e b]; simpl in Hr; destruct (f !! made) as [[]|] eqn:E; simplify_eq.
    + done.
    + apply lookup_insert_eq.
    + by eapply keeps_mkdirs.
    + eapply keeps_mkdirs; [exact Hr|]. apply lookup_insert_eq.
  - simpl in Hr. replace (made ++ e :: a) with ((made ++ [e]) ++ a) by (by rewrite <-app_assoc).
    destruct (f !! made) as [[]|]; simplify_eq; by eapply IH.
Qed.

Lemma forM_Ok_inv {A} (l : list A) (body : A -> M fs FsError unit) f f' x :
  (forall y, KeepsDirs (body y)) -> forM l body f = (f', Ok tt) -> x ∈ l ->
  exists g g', body x g = (g', Ok tt) /\ forall q, f !! q = Some DirNode -> g !! q = Some DirNode.
Proof.
  intros Hb. revert f. induction l as [|y l IH]; intros f Hr Hx; [by apply elem_of_nil in Hx|].
  simpl in Hr. apply run_bind_Ok_inv in Hr as (f1 & [] & Hy & Hr). apply elem_of_cons in Hx as [->|Hx].
  - by exists f, f1.
  - destruct (IH f1 Hr Hx) as (g & g' & Hg & Hd). exists g, g'. split; [done|].
    intros q Hq. apply Hd. by eapply (Hb y).
Qed.

(** The copy of a directory to a place inside it never succeeds, however deep the
    recursion may go: each level finds the directory the level above has just made. *)
Theorem copyDir_into_itself fuel : forall src dest k f f',
  src <> "" -> dest <> "" -> Forall plain k -> k <> [] -> resolve dest = resolve src ++ k ->
  copyDirRecursive fuel src dest f <> (f', Ok tt).
Proof.
  induction fuel as [|fuel IH]; intros src dest k f f' Hs Hd Hpl Hk Hres Hrun; [done|].
  destruct k as [|x k]; [done|]. apply Forall_cons in Hpl as [Hx Hpl]. cbn [copyDirRecursive] in Hrun.
  apply run_bind_Ok_inv in Hrun as (f1 & [] & Hmk & Hrun).
  unfold mkdirSync in Hmk. destruct (truthy dest) eqn:Ht; [|done]. rewrite Hres in Hmk.
  replace (resolve src ++ x :: k) with ((resolve src ++ [x]) ++ k) in Hmk by (by rewrite <-app_assoc).
  apply (mkdirs_makes _ _ []) in Hmk. simpl in Hmk.
  apply run_bind_Ok_inv in Hrun as (f2 & es & Hread & Hrun). unfold readdirSync in Hread.
  destruct (node_at f1 src) as [[|]|]; try done. injection Hread as <- <-.
  apply (forM_Ok_inv _ _ _ _ x) in Hrun as (g & g' & Hbody & Hkeep).
  - apply run_bind_Ok_inv in Hbody as (g1 & n & Hst & Hbody). unfold statSync in Hst.
    rewrite node_at_join in Hst by done. rewrite (Hkeep _ Hmk) in Hst. injection Hst as <- <-.
    cbn [isDirectory] in Hbody. eapply (IH (join src x) (join dest x) (k ++ [x])); [..|exact Hbody].
    + apply join_ne.
    + apply join_ne.
    + apply Forall_app. by split; [|constructor].
    + by destruct k.
    + rewrite !resolve_join, Hres by done. by rewrite <-!app_assoc.
  - intros e. apply keeps_bind; [apply keeps_read|]. intros n.
    destruct (isDirectory n); [apply keeps_copyDir | apply keeps_copyFile].
  - apply elem_children. by exists DirNode.
Qed.
End Divergence.
