(* ===== verification/SavePipeline.v ===== *)
(** * Saving a pipeline file ([web_ui/server/api/pipeline/save.post.ts])

    The oldest endpoint: it writes the text of a pipeline to a directory named by the
    pipeline's id, without asking who calls. *)

From S2P Require Export CopyTree.

Section Save.
Context {proc : Process} {yl : YamlLib}.
Abbreviation IO := (M fs FsError).

(** [pipeline.id || v7()], with [fresh] the value of [v7()]; [path.join] refuses what
    is not a string. *)
Definition save_id (pipeline : Yaml) (fresh : string) : IO string :=
  match pipeline with
  | YNull => throw (Thrown "TypeError")
  | YMap m =>
      match jm_get "id" m with
      | Some (YString s) => mret (js_or s fresh)
      | None | Some YNull | Some (YBool false) => mret fresh
      | Some (YNumber n) => if (n === "0") || (n === "NaN") then mret fresh else throw (Thrown "ERR_INVALID_ARG_TYPE")
      | Some _ => throw (Thrown "ERR_INVALID_ARG_TYPE")
      end
  | _ => mret fresh
  end.

(** [runsDir] is the configuration's; [pipeline_yaml] the [pipeline] of the body. *)
Definition save (runsDir fresh : string) (pipeline_yaml : option string) : IO string :=
  if negb (truthy runsDir) then throw (Thrown "RUNS_DIR is not configured")
  else
    match pipeline_yaml with
    | None => throw (Thrown "TypeError")
    | Some text =>
        pipeline ← parse_yaml text;
        id ← save_id pipeline fresh;
        let savePath := join runsDir id in
        found ← existsSync savePath;
        _ ← (if found : bool then mret tt else mkdirSync savePath);
        let pipelinePath := join savePath "pipeline.yaml" in
        _ ← writeFileSync pipelinePath text;
        mret id
    end.

Lemma plain_pipeline_yaml : plain "pipeline.yaml".
Proof. split; [reflexivity|]. by split_and!. Qed.

(** The last two steps: the directory exists or is made, then the file is written. *)
Lemma save_into f runsDir fresh text m id :
  truthy runsDir = true -> yaml_load text = Ok (YMap m) -> jm_get "id" m = Some (YString id) -> truthy id = true ->
  f !! resolve (join runsDir id) = Some DirNode ->
  f !! (resolve (join runsDir id) ++ ["pipeline.yaml"]) <> Some DirNode ->
  save runsDir fresh (Some text) f =
    (<[resolve (join runsDir id) ++ ["pipeline.yaml"] := FileNode text]> f, Ok id).
Proof.
  intros Hr Hp Hid Ht Hdir Hfile. unfold save. rewrite Hr. cbn [negb]. rewrite run_bind. unfold parse_yaml. rewrite Hp, run_ret.
  rewrite run_bind. unfold save_id. rewrite Hid. unfold js_or. rewrite Ht, run_ret, run_bind.
  unfold existsSync, node_at. rewrite truthy_join, Hdir, bool_decide_eq_true_2 by eauto. rewrite run_bind, run_ret, run_bind.
  unfold writeFileSync. rewrite truthy_join. cbn [negb].
  rewrite (resolve_join (join runsDir id) "pipeline.yaml") by (apply join_ne || apply plain_pipeline_yaml).
  rewrite drop_name_snoc, Hdir. by destruct (f !! (resolve (join runsDir id) ++ ["pipeline.yaml"])) as [[]|].
Qed.

(** ** Climbing out of the directory *)

(** The id that leads from [from] to the root and then to [to]. *)
Definition escape_id (from to : location) : string := js_join "/" (((fun _ => "..") <$> from) ++ to).

Lemma split_slash_join_list l : l <> [] -> Forall (fun e => char_free slash e = true) l -> split_slash (js_join "/" l) = l.
Proof.
  induction l as [|e l IH]; intros Hne Hl; [done|]. apply Forall_cons in Hl as [He Hl]. destruct l as [|e' l].
  - simpl. by rewrite split_slash_free.
  - change (js_join "/" (e :: e' :: l)) with (e +:+ "/" +:+ js_join "/" (e' :: l)).
    change (e +:+ "/" +:+ js_join "/" (e' :: l)) with (join e (js_join "/" (e' :: l))).
    rewrite split_slash_app, split_slash_free, IH by done. done.
Qed.

Lemma walk_up l : foldl walk l ((fun _ => "..") <$> l) = [].
Proof.
  assert (H : forall n k, length k = n -> foldl walk k (replicate n "..") = []).
  { induction n as [|n IH]; intros k Hk; [by destruct k|]. simpl. apply IH.
    unfold walk. simpl. unfold drop_name. rewrite length_take. lia. }
  replace ((fun _ => "..") <$> l) with (replicate (length l) "..").
  - by apply H.
  - induction l as [|x l IH]; [done|]. simpl. by f_equal.
Qed.

Lemma walk_down l : forall k, Forall plain l -> foldl walk k l = k ++ l.
Proof.
  induction l as [|e l IH]; intros k Hl; [by rewrite app_nil_r|]. apply Forall_cons in Hl as [He Hl].
  simpl. rewrite walk_plain, IH by done. by rewrite <-app_assoc.
Qed.

Lemma resolve_escape runsDir to :
  runsDir <> "" -> Forall plain to -> resolve runsDir ++ to <> [] ->
  resolve (join runsDir (escape_id (resolve runsDir) to)) = to.
Proof.
  intros Hr Hto Hne. rewrite resolve_app by done. unfold escape_id. rewrite split_slash_join_list.
  - by rewrite foldl_app, walk_up, walk_down.
  - destruct (resolve runsDir); [by destruct to|done].
  - apply Forall_app. split; [|by eapply Forall_impl; [exact Hto|intros e [He _]]].
    apply Forall_fmap, Forall_forall. done.
Qed.

(** C31. Where the endpoint writes.  With an id that is a plain name the text goes to
    [pipeline.yaml] in the directory of that name below the runs directory, which
    is made if needed, and nothing else changes.  But the id is taken as a path:
    for every directory of the file system there is an id (dots and slashes) with which
    the endpoint writes the text sent to it there. *)
Theorem save_location runsDir fresh text m id f :
  fs_ok f -> truthy runsDir = true -> f !! resolve runsDir = Some DirNode ->
  yaml_load text = Ok (YMap m) -> jm_get "id" m = Some (YString id) -> truthy id = true ->
  (plain id -> (forall n, f !! (resolve runsDir ++ [id]) = Some n -> n = DirNode) ->
   f !! (resolve runsDir ++ [id; "pipeline.yaml"]) <> Some DirNode ->
   exists f', save runsDir fresh (Some text) f = (f', Ok id) /\
     forall q, f' !! q = if q === resolve runsDir ++ [id; "pipeline.yaml"] then Some (FileNode text)
                         else if q === resolve runsDir ++ [id] then Some DirNode else f !! q) /\
  (forall to, Forall plain to -> to <> [] -> f !! to = Some DirNode -> f !! (to ++ ["pipeline.yaml"]) <> Some DirNode ->
   id = escape_id (resolve runsDir) to ->
   save runsDir fresh (Some text) f = (<[to ++ ["pipeline.yaml"] := FileNode text]> f, Ok id)).
Proof.
  intros Hok Hr Hdir Hp Hid Ht. assert (Hrn : runsDir <> "") by (by apply truthy_spec). split.
  - intros Hpl Hn Hfile. assert (Hres : resolve (join runsDir id) = resolve runsDir ++ [id]) by (by apply resolve_join).
    set (l := resolve runsDir ++ [id]) in *.
    assert (Hl : resolve runsDir ++ [id; "pipeline.yaml"] = l ++ ["pipeline.yaml"]) by (unfold l; by rewrite <-app_assoc).
    rewrite Hl in *. destruct (f !! l) as [n|] eqn:E.
    + rewrite (Hn n eq_refl) in E. eexists. split; [by eapply save_into; rewrite ?Hres|]. intros q. rewrite Hres.
      case_bool_decide as Hq; [subst; apply lookup_insert_eq|]. rewrite lookup_insert_ne by done.
      case_bool_decide; [by subst|done].
    + unfold save. rewrite Hr. cbn [negb]. rewrite run_bind. unfold parse_yaml. rewrite Hp, run_ret.
      rewrite run_bind. unfold save_id. rewrite Hid. unfold js_or. rewrite Ht, run_ret, run_bind.
      unfold existsSync, node_at. rewrite truthy_join, Hres, E. cbv beta iota. rewrite run_bind.
      change (bool_decide (is_Some None)) with false. cbv iota.
      rewrite mkdir_join by (done || intros m' Hm'; fold l in Hm'; congruence). fold l. rewrite run_bind.
      unfold writeFileSync. rewrite truthy_join. cbn [negb].
      rewrite (resolve_join (join runsDir id) "pipeline.yaml"), Hres by (apply join_ne || apply plain_pipeline_yaml).
      rewrite drop_name_snoc, lookup_insert_eq, lookup_insert_ne by (apply snoc_ne).
      destruct (f !! (l ++ ["pipeline.yaml"])) as [[c|]|] eqn:E2; [| done |].
      all: eexists; split; [reflexivity|]; intros q; case_bool_decide as Hq; [subst; apply lookup_insert_eq|];
        rewrite lookup_insert_ne by done; case_bool_decide as Hq2; [subst; apply lookup_insert_eq|by rewrite lookup_insert_ne].
  - intros to Hto Hne Hd Hf ->.
    assert (Hres := resolve_escape runsDir to Hrn Hto ltac:(by destruct (resolve runsDir))).
    rewrite <-Hres at 1. eapply save_into; rewrite ?Hres; done.
Qed.
End Save.
