(* ===== verification/AllRoutes.v ===== *)
(** * All the routes of the server ([web_ui/server/api])

    [Router] has the routes over the database and the object store.  One more file,
    [pipeline/save.post.ts] ([SavePipeline]), answers without a session and writes to the
    file system of the server.  Here the server has both states.  (The routes below
    [api/auth] belong to the auth library.) *)

From S2P Require Export Isolation.
From S2P Require Export SavePipeline.

Record Server (DB : Type) := mkServer { sv_world : World DB; sv_fs : fs }.
Arguments mkServer {DB}.
Arguments sv_world {DB}. Arguments sv_fs {DB}.

(** [fresh] is the value of [v7()] in that request, [pipeline] the field of the body. *)
Inductive route :=
  | ApiRoute (req : request)
  | PostSave (fresh : string) (pipeline : option string).

Inductive route_answer :=
  | ApiAnswer (r : result HttpError response)
  | SaveAnswer (r : result FsError string).

(** Routes that need no session. *)
Definition public (rt : route) : bool :=
  match rt with ApiRoute req => anonymous req | PostSave _ _ => true end.

Definition reads_only (rt : route) : bool :=
  match rt with ApiRoute req => is_read req | PostSave _ _ => false end.

Definition worker_route (rt : route) : bool :=
  match rt with ApiRoute req => from_worker req | PostSave _ _ => false end.

Section Routes.
Context {DB : Type} `{Sql DB} {env : Env} {cfg : RouterConfig} {proc : Process} {yl : YamlLib}.
Context (runsDir : string).

Definition serve_route (session : option SessionUser) (rt : route) (s : Server DB) : Server DB * route_answer :=
  match rt with
  | ApiRoute req =>
      let '(w, r) := handle session req (sv_world s) in (mkServer w (sv_fs s), ApiAnswer r)
  | PostSave fresh pipeline =>
      let '(f, r) := save runsDir fresh pipeline (sv_fs s) in (mkServer (sv_world s) f, SaveAnswer r)
  end.

(** Every location is as it was, is a directory that was missing, or is a file
    [pipeline.yaml] with this text. *)
Definition writes_only (text : string) (f f' : fs) : Prop := forall p,
  f' !! p = f !! p \/ (f !! p = None /\ f' !! p = Some DirNode) \/
  (exists l, p = l ++ ["pipeline.yaml"] /\ f' !! p = Some (FileNode text)).

Lemma writes_only_refl text f : writes_only text f f.
Proof. intros p. by left. Qed.

Lemma mkdirs_writes (text : string) (todo : location) : forall (made : location) (f0 f f' : fs) r,
  writes_only text f0 f -> mkdirs made todo f = (f', r) -> writes_only text f0 f'.
Proof.
  induction todo as [|e todo IH]; intros made f0 f f' r Hf; cbn [mkdirs]; destruct (f !! made) as [[c|]|] eqn:E;
    try (intros Heq; by injection Heq as <- _); try (by eapply IH).
  all: assert (Hmade : writes_only text f0 (<[made := DirNode]> f));
    [intros p; destruct (decide (p = made)) as [->|Hne]; [|rewrite lookup_insert_ne by done; apply Hf];
     right; left; rewrite lookup_insert_eq; destruct (Hf made) as [Hm|[[Hm Hd]|(l & _ & Hd)]]; split; congruence|].
  - intros Heq. by injection Heq as <- _.
  - by eapply IH.
Qed.

Lemma dir_writes (text : string) (found : bool) (path : string) (f g : fs) (r : result FsError unit) :
  (if found then mret tt else mkdirSync path) f = (g, r) -> writes_only text f g.
Proof.
  destruct found; [intros Heq; injection Heq as <- _; apply writes_only_refl|]. unfold mkdirSync.
  destruct (truthy path); [apply mkdirs_writes, writes_only_refl|intros Heq; injection Heq as <- _; apply writes_only_refl].
Qed.

Lemma save_writes fresh text f f' r : save runsDir fresh (Some text) f = (f', r) -> writes_only text f f'.
Proof.
  unfold save. destruct (negb (truthy runsDir)); [intros Heq; injection Heq as <- _; apply writes_only_refl|].
  rewrite run_bind. unfold parse_yaml. destruct (yaml_load text) as [y|e]; [rewrite run_ret|intros Heq; injection Heq as <- _; apply writes_only_refl].
  rewrite run_bind. destruct (save_id y fresh f) as [g [id|e]] eqn:Hid.
  all: assert (g = f) as -> by (unfold save_id, throw, mret, M_ret in Hid; repeat case_match; by simplify_eq).
  2:{ intros Heq. injection Heq as <- _. apply writes_only_refl. }
  rewrite run_bind. unfold existsSync. cbv beta iota. rewrite run_bind.
  set (found := bool_decide _).
  destruct ((if found then mret tt else mkdirSync (join runsDir id)) f) as [g [[]|e]] eqn:Hdir; apply (dir_writes text) in Hdir as Hg.
  2:{ intros Heq. by injection Heq as <- _. }
  rewrite run_bind. unfold writeFileSync. rewrite truthy_join. cbn [negb].
  rewrite (resolve_join (join runsDir id) "pipeline.yaml") by (apply join_ne || apply plain_pipeline_yaml).
  rewrite drop_name_snoc. set (l := resolve (join runsDir id)).
  assert (Hnew : writes_only text f (<[l ++ ["pipeline.yaml"] := FileNode text]> g)).
  { intros p. destruct (decide (p = l ++ ["pipeline.yaml"])) as [->|Hne]; [|rewrite lookup_insert_ne by done; apply Hg].
    right. right. exists l. by rewrite lookup_insert_eq. }
  intros Heq. destruct (g !! (l ++ ["pipeline.yaml"])) as [[c|]|]; destruct (g !! l) as [[c'|]|];
    injection Heq as <- _; done.
Qed.

(** A sequence of requests, one after the other. *)
Fixpoint serve_routes (l : list (option SessionUser * route)) (s : Server DB) : Server DB :=
  match l with
  | [] => s
  | (session, rt) :: l => serve_routes l (serve_route session rt s).1
  end.
End Routes.

Section NoSession.
Context {DB : Type} `{SqlLaws DB} {env : Env} {cfg : RouterConfig} {proc : Process} {yl : YamlLib}.
Context (runsDir : string).

(** What a request may not do without being signed in, or without being a POST. *)
Definition same_data (s s' : Server DB) : Prop :=
  w_db (sv_world s') = w_db (sv_world s) /\ w_s3_deleted (sv_world s') = w_s3_deleted (sv_world s).

Lemma save_same_data session fresh pipeline s : sv_world (serve_route runsDir session (PostSave fresh pipeline) s).1 = sv_world s.
Proof. simpl. by destruct (save _ _ _ _). Qed.

Lemma read_same_data session rt s :
  reads_only rt = true ->
  same_data s (serve_route runsDir session rt s).1 /\ sv_fs (serve_route runsDir session rt s).1 = sv_fs s.
Proof.
  destruct rt as [req|]; [|done]. simpl. intros Hr.
  pose proof (is_read_pure req session (sv_world s) Hr) as Hp.
  destruct (handle session req (sv_world s)) as [w' r]. split; [by apply (Hp w' r)|done].
Qed.

Lemma unauthenticated rt s :
  public rt = false -> serve_route runsDir None rt s = (s, ApiAnswer (Throw (Http 401 "Not authenticated"))).
Proof. destruct rt as [req|]; [|done]. simpl. intros Hr. rewrite unauthenticated_401 by done. by destruct s. Qed.

Lemma anonymous_kept rt s : worker_route rt = false -> same_data s (serve_route runsDir None rt s).1.
Proof.
  intros Hw. destruct (public rt) eqn:Hp; [|by rewrite unauthenticated].
  destruct (reads_only rt) eqn:Hr; [by apply read_same_data|].
  destruct rt as [req|fresh pipeline]; [by destruct req|]. split; by rewrite save_same_data.
Qed.

(** C11. Nothing without a session, over all the routes but the auth library's.  Except
    for the worker's callback (which has its own secret), the public block catalogue and
    the saving of a pipeline file, every request without a session is answered 401 with
    the server unchanged.  A GET request, with a session or without, changes neither the
    database nor the object store nor a file.  The saving of a pipeline file does not look
    at the session and leaves the database and the store alone, but writes: directories
    that were missing and the text it was sent, to files [pipeline.yaml].  So however many
    requests come without a session, the database and the store stay, short of
    the worker's. *)
Theorem no_session_no_effect rt (s : Server DB) :
  (public rt = false -> serve_route runsDir None rt s = (s, ApiAnswer (Throw (Http 401 "Not authenticated")))) /\
  (reads_only rt = true -> forall session, let s' := (serve_route runsDir session rt s).1 in
     same_data s s' /\ sv_fs s' = sv_fs s) /\
  (forall fresh pipeline session, rt = PostSave fresh pipeline ->
     let s' := (serve_route runsDir session rt s).1 in
     s' = (serve_route runsDir None rt s).1 /\ sv_world s' = sv_world s /\
     (pipeline = None -> sv_fs s' = sv_fs s) /\
     (forall text, pipeline = Some text -> writes_only text (sv_fs s) (sv_fs s'))) /\
  (forall rts, Forall (fun rt => worker_route rt = false) rts ->
     same_data s (serve_routes runsDir ((fun rt => (None, rt)) <$> rts) s)).
Proof.
  split_and!.
  - apply unauthenticated.
  - intros Hr session s'. by apply read_same_data.
  - intros fresh pipeline session -> s'. split; [done|]. split; [apply save_same_data|]. subst s'. simpl.
    destruct (save runsDir fresh pipeline (sv_fs s)) as [f r] eqn:Hs. simpl. split.
    + intros ->. unfold save in Hs. destruct (negb (truthy runsDir)); by injection Hs as <- _.
    + intros text ->. by eapply save_writes.
  - intros rts Hall. revert s. induction Hall as [|rt0 rts Hw _ IH]; intros s; [done|].
    change (same_data s (serve_routes runsDir ((fun rt => (None, rt)) <$> rts) (serve_route runsDir None rt0 s).1)).
    destruct (anonymous_kept rt0 s Hw) as [Hdb Hs3]. destruct (IH (serve_route runsDir None rt0 s).1) as [Hdb' Hs3'].
    split; congruence.
Qed.
End NoSession.
