(* ===== verification/BlockOutputs.v ===== *)
(** * What a block delivers ([writeOutputs])

    Each returned value ends up in its own directory of [outputs], with the contents
    of its source files, and nothing else changes. *)

From S2P Require Export CopyTree.

Section Delivery.
Context {proc : Process} {yl : YamlLib}.
Implicit Types f g : fs.

Definition outputs_loc : location := cwd ++ ["outputs"].

Lemma plain_outputs : plain "outputs".
Proof. split; [reflexivity|]. by split_and!. Qed.

Lemma resolve_outputs : resolve "outputs" = outputs_loc.
Proof. unfold resolve. simpl. by rewrite (walk_plain cwd "outputs" plain_outputs). Qed.

Lemma resolve_output name : plain name -> resolve (join "outputs" name) = outputs_loc ++ [name].
Proof. intros Hn. by rewrite resolve_join, resolve_outputs by done. Qed.

(** The path that wins when several have the same name. *)
Definition last_named (b : string) (paths : list string) : option string :=
  last (js_filter (fun p => basename p === b) paths).

(** What the value needs of the file system to be written under a name. *)
Definition source_file (f : fs) (name path : string) : Prop :=
  (exists c, node_at f path = Some (FileNode c)) /\ strip outputs_loc (resolve path) = None /\
  plain (basename path) /\ f !! (outputs_loc ++ [name; basename path]) <> Some DirNode.

Definition deliverable (f : fs) (name : string) (v : Value) : Prop :=
  (forall m, f !! (outputs_loc ++ [name]) = Some m -> m = DirNode) /\
  match v with
  | FileObj _ path => source_file f name path
  | CollObj _ paths => forall p, p ∈ paths -> source_file f name p
  | DirObj _ src =>
      src <> "" /\ f !! resolve src = Some DirNode /\ disjoint_locations (resolve src) outputs_loc /\
      compatible f (resolve src) (outputs_loc ++ [name])
  | Plain _ => True
  end.

(** What is in the directory of the output afterwards: [r] is a location in it. *)
Definition delivered_node (f : fs) (name : string) (v : Value) (r : location) : option node :=
  let old := f !! (outputs_loc ++ name :: r) in
  match v, r with
  | _, [] => Some DirNode
  | FileObj _ path, [b] => if basename path === b then node_at f path else old
  | CollObj _ paths, [b] => match last_named b paths with Some p => node_at f p | None => old end
  | DirObj _ src, _ => match f !! (resolve src ++ r) with Some n => Some n | None => old end
  | _, _ => old
  end.

(** The effect of one output on the whole file system. *)
Definition delivered (f f' : fs) (name : string) (v : Value) : Prop :=
  forall q, f' !! q = match strip (outputs_loc ++ [name]) q with
                      | Some r => delivered_node f name v r
                      | None => f !! q
                      end.

Lemma last_named_cons b p ps :
  last_named b (p :: ps) =
  match last_named b ps with Some x => Some x | None => if basename p === b then Some p else None end.
Proof.
  unfold last_named. rewrite js_filter_cons. destruct (basename p === b); [|by destruct (last _)].
  destruct (js_filter _ ps) as [|y l] eqn:E; [done|]. rewrite last_cons_cons. destruct (last (y :: l)) eqn:E'; [done|]. by apply last_None in E'.
Qed.

(** ** Files *)

Lemma strip_snoc_None out name q : strip out q = None -> strip (out ++ [name]) q = None.
Proof.
  intros H. destruct (strip (out ++ [name]) q) as [r|] eqn:E; [|done]. apply strip_Some in E. subst q.
  by rewrite <-app_assoc, strip_app in H.
Qed.

Lemma copy_file g name path :
  fs_ok g -> plain name -> g !! (outputs_loc ++ [name]) = Some DirNode -> source_file g name path ->
  exists c, node_at g path = Some (FileNode c) /\
    copyFileSync path (join (join "outputs" name) (basename path)) g =
      (<[outputs_loc ++ [name; basename path] := FileNode c]> g, Ok tt) /\
    fs_ok (<[outputs_loc ++ [name; basename path] := FileNode c]> g).
Proof.
  intros Hok Hn Hdir ((c & Hc) & _ & Hb & Hnd). exists c. split; [done|].
  assert (Happ : outputs_loc ++ [name; basename path] = (outputs_loc ++ [name]) ++ [basename path]) by (by rewrite <-app_assoc).
  rewrite Happ in *. split.
  - unfold copyFileSync. rewrite Hc, truthy_join, resolve_join, resolve_output by (done || apply join_ne).
    cbn [negb]. rewrite drop_name_snoc, Hdir. by destruct (g !! ((outputs_loc ++ [name]) ++ [basename path])) as [[]|].
  - apply fs_ok_insert; [done..|]. intros m Hm. rewrite Hm in Hnd. by destruct m.
Qed.

Lemma node_at_insert_out g name b n p :
  strip outputs_loc (resolve p) = None -> node_at (<[outputs_loc ++ [name; b] := n]> g) p = node_at g p.
Proof.
  intros Hp. unfold node_at. destruct (truthy p); [|done]. apply lookup_insert_ne. intros Heq.
  rewrite <-Heq, strip_app in Hp. done.
Qed.

Lemma copy_files paths : forall g name,
  fs_ok g -> plain name -> g !! (outputs_loc ++ [name]) = Some DirNode ->
  (forall p, p ∈ paths -> source_file g name p) ->
  exists g', forM paths (fun p => copyFileSync p (join (join "outputs" name) (basename p))) g = (g', Ok tt) /\
    fs_ok g' /\
    forall q, g' !! q = match strip (outputs_loc ++ [name]) q with
                        | Some [b] => match last_named b paths with Some p => node_at g p | None => g !! q end
                        | _ => g !! q
                        end.
Proof.
  induction paths as [|p paths IH]; intros g name Hok Hn Hdir Hsrc.
  { exists g. split; [done|]. split; [done|]. intros q. by destruct (strip _ q) as [[|b [|]]|]. }
  destruct (copy_file g name p Hok Hn Hdir) as (c & Hc & Hrun & Hok1); [apply Hsrc; left|].
  set (g1 := <[outputs_loc ++ [name; basename p] := FileNode c]> g) in *.
  assert (Hne : forall l, g1 !! l = if decide (l = outputs_loc ++ [name; basename p]) then Some (FileNode c) else g !! l).
  { intros l. unfold g1. destruct (decide _) as [->|Hl]; [apply lookup_insert_eq|by apply lookup_insert_ne]. }
  destruct (IH g1 name Hok1 Hn) as (g' & Hrest & Hok' & Hg').
  - rewrite Hne, decide_False; [done|]. intros Heq. apply app_inv_head in Heq. done.
  - intros p' Hp'. destruct (Hsrc p') as ((c' & Hc') & Hout & Hb & Hnd); [by right|].
    split; [|split; [done|split; [done|]]].
    + exists c'. unfold g1. by rewrite node_at_insert_out.
    + rewrite Hne. by destruct (decide _).
  - exists g'. split; [simpl; by rewrite run_bind, Hrun|]. split; [done|]. intros q. rewrite Hg'.
    assert (Hlast : forall b, last_named b paths = None \/ exists p', last_named b paths = Some p' /\ node_at g1 p' = node_at g p').
    { intros b. destruct (last_named b paths) as [p'|] eqn:E; [right|by left]. exists p'. split; [done|].
      unfold last_named in E. apply last_Some_elem_of in E. apply elem_of_js_filter in E as [_ Hin].
      apply node_at_insert_out. by apply Hsrc; right. }
    destruct (strip (outputs_loc ++ [name]) q) as [[|b [|x r]]|] eqn:E; rewrite ?Hne.
    + rewrite decide_False; [done|]. intros ->. replace (outputs_loc ++ [name; basename p]) with
        ((outputs_loc ++ [name]) ++ [basename p]) in E by (by rewrite <-app_assoc). by rewrite strip_app in E.
    + rewrite last_named_cons. destruct (Hlast b) as [->|(p' & -> & ->)]; [|done].
      apply strip_Some in E. subst q. rewrite <-!app_assoc. simpl. case_bool_decide as Hb.
      * subst b. by rewrite decide_True.
      * rewrite decide_False; [done|]. intros Heq. apply app_inv_head in Heq. congruence.
    + rewrite decide_False; [done|]. intros ->. replace (outputs_loc ++ [name; basename p]) with
        ((outputs_loc ++ [name]) ++ [basename p]) in E by (by rewrite <-app_assoc). by rewrite strip_app in E.
    + rewrite decide_False; [done|]. intros ->. replace (outputs_loc ++ [name; basename p]) with
        ((outputs_loc ++ [name]) ++ [basename p]) in E by (by rewrite <-app_assoc). by rewrite strip_app in E.
Qed.

(** ** One output *)

Lemma depth_bound g l n : g !! l = Some n -> length l < depth g.
Proof.
  intros Hl. unfold depth. apply Nat.lt_succ_r, max_list_elem_of_le. apply list_elem_of_fmap_2.
  apply list_elem_of_fmap. exists (l, n). split; [done|]. by apply elem_of_map_to_list.
Qed.

Lemma last_named_one p b : last_named b [p] = if basename p === b then Some p else None.
Proof. unfold last_named. rewrite js_filter_cons. by destruct (basename p === b). Qed.

(** Making the directory of the output. *)
Lemma make_output g name :
  fs_ok g -> plain name -> g !! outputs_loc = Some DirNode ->
  (forall m, g !! (outputs_loc ++ [name]) = Some m -> m = DirNode) ->
  mkdirSync (join "outputs" name) g = (<[outputs_loc ++ [name] := DirNode]> g, Ok tt) /\
  fs_ok (<[outputs_loc ++ [name] := DirNode]> g).
Proof.
  intros Hok Hn Hout Hm. split.
  - rewrite mkdir_join; rewrite ?resolve_outputs; done.
  - apply fs_ok_insert; [done..|]. intros m Hm'. by rewrite (Hm m Hm').
Qed.

Lemma lookup_made g name r :
  (<[outputs_loc ++ [name] := DirNode]> g) !! (outputs_loc ++ name :: r) =
  match r with [] => Some DirNode | _ => g !! (outputs_loc ++ name :: r) end.
Proof.
  destruct r as [|x r]; [apply lookup_insert_eq|]. apply lookup_insert_ne. intros Heq.
  apply app_inv_head in Heq. done.
Qed.

Lemma lookup_made_other g name q : strip (outputs_loc ++ [name]) q = None ->
  (<[outputs_loc ++ [name] := DirNode]> g) !! q = g !! q.
Proof.
  intros Hq. apply lookup_insert_ne. intros <-. rewrite <-(app_nil_r (outputs_loc ++ [name])) in Hq at 2.
  by rewrite strip_app in Hq.
Qed.

Lemma source_made g name p : source_file g name p -> source_file (<[outputs_loc ++ [name] := DirNode]> g) name p.
Proof.
  intros ((c & Hc) & Hout & Hb & Hnd). split; [|split; [done|split; [done|]]].
  - exists c. unfold node_at in *. destruct (truthy p); [|done]. rewrite lookup_made_other; [done|]. by apply strip_snoc_None.
  - by rewrite (lookup_made g name [basename p]).
Qed.

Lemma node_made g name p :
  source_file g name p -> node_at (<[outputs_loc ++ [name] := DirNode]> g) p = node_at g p.
Proof.
  intros (_ & Hout & _). unfold node_at. destruct (truthy p); [|done]. apply lookup_made_other. by apply strip_snoc_None.
Qed.

Lemma write_files g name v paths :
  fs_ok g -> plain name -> g !! outputs_loc = Some DirNode ->
  (forall m, g !! (outputs_loc ++ [name]) = Some m -> m = DirNode) ->
  (forall p, p ∈ paths -> source_file g name p) ->
  (forall r, delivered_node g name v r =
     match r with
     | [] => Some DirNode
     | [b] => match last_named b paths with Some p => node_at g p | None => g !! (outputs_loc ++ name :: r) end
     | _ => g !! (outputs_loc ++ name :: r)
     end) ->
  exists g', forM paths (fun p => copyFileSync p (join (join "outputs" name) (basename p)))
      (<[outputs_loc ++ [name] := DirNode]> g) = (g', Ok tt) /\
    fs_ok g' /\ delivered g g' name v.
Proof.
  intros Hok Hn Hout Hm Hsrc Hv. destruct (make_output g name Hok Hn Hout Hm) as [_ Hok1].
  set (g1 := <[outputs_loc ++ [name] := DirNode]> g) in *.
  destruct (copy_files paths g1 name Hok1 Hn) as (g' & Hrun & Hok' & Hg').
  - apply lookup_insert_eq.
  - intros p Hp. by apply source_made, Hsrc.
  - exists g'. split; [done|]. split; [done|]. intros q. rewrite Hg'.
    destruct (strip (outputs_loc ++ [name]) q) as [r|] eqn:E; [|by apply lookup_made_other].
    apply strip_Some in E. subst q. rewrite Hv, <-!app_assoc. simpl. unfold g1. rewrite lookup_made.
    destruct r as [|b [|x r]]; [done| |done].
    destruct (last_named b paths) as [p|] eqn:E; [|done]. apply node_made, Hsrc.
    unfold last_named in E. apply last_Some_elem_of in E. by apply elem_of_js_filter in E as [_ ?].
Qed.

(** The loop over a directory's entries, as part of a recursive copy. *)
Lemma copyDir_unfold n src dest g g1 :
  mkdirSync dest g = (g1, Ok tt) ->
  copyDirRecursive (S n) src dest g = (entries ← readdirSync src; forM entries (copy_entry n src dest)) g1.
Proof. intros Hm. cbn [copyDirRecursive]. by rewrite run_bind, Hm. Qed.

Lemma write_dir_unfold c src name g g1 :
  mkdirSync (join "outputs" name) g = (g1, Ok tt) ->
  writeSingleOutput name (DirObj c src) g = copyDirRecursive (S (depth g1)) src (join "outputs" name) g.
Proof.
  intros Hm. rewrite (copyDir_unfold _ _ _ _ _ Hm). unfold writeSingleOutput. rewrite run_bind, Hm, !run_bind.
  unfold readdirSync, get_state. by destruct (node_at g1 src) as [[]|].
Qed.

Lemma disjoint_output s name : disjoint_locations s outputs_loc -> disjoint_locations s (outputs_loc ++ [name]).
Proof.
  intros [H1 H2]. split.
  - intros Hp. destruct (prefix_weak_total s outputs_loc (outputs_loc ++ [name]) Hp); [by exists [name]|done|done].
  - intros Hp. apply H2. etransitivity; [|exact Hp]. by exists [name].
Qed.

(** One returned value, written to a file system that has the outputs directory. *)
Lemma writeSingleOutput_delivers g name v :
  fs_ok g -> plain name -> g !! outputs_loc = Some DirNode -> deliverable g name v ->
  exists g', writeSingleOutput name v g = (g', Ok tt) /\ fs_ok g' /\ delivered g g' name v.
Proof.
  intros Hok Hn Hout [Hm Hv]. destruct (make_output g name Hok Hn Hout Hm) as [Hmk Hok1]. destruct v as [c p|c src|c paths|y].
  - destruct (write_files g name (FileObj c p) [p]) as (g' & Hrun & Hok' & Hg'); try done.
    + by intros p' ->%list_elem_of_singleton.
    + intros [|b [|x r]]; [done| |done]. simpl. rewrite last_named_one. by destruct (basename p === b).
    + exists g'. split; [|done]. unfold writeSingleOutput. rewrite run_bind, Hmk. simpl in Hrun.
      rewrite run_bind in Hrun. by destruct (copyFileSync _ _ _) as [? [[]|]].
  - destruct Hv as (Hne & Hsrc & Hdis & Hcomp). pose proof (disjoint_output _ name Hdis) as Hdis'.
    rewrite (write_dir_unfold c src name g _ Hmk). rewrite <-resolve_outputs in Hout, Hcomp, Hdis'.
    set (g1 := <[outputs_loc ++ [name] := DirNode]> g) in *.
    destruct (copyDir_overlay (S (depth g1)) g src "outputs" name) as (g' & Hrun & Hok' & Hg'); [done|done|done|done|done|done|done|done| |].
    + intros r n Hr. rewrite resolve_outputs in Hdis'.
      assert (g1 !! (resolve src ++ r) = Some n) as Hr1%depth_bound.
      { unfold g1. rewrite lookup_made_other; [done|]. by apply strip_disjoint. }
      rewrite length_app in Hr1. lia.
    + rewrite resolve_outputs in Hg'. exists g'. split; [done|]. split; [done|]. intros q. rewrite Hg'. unfold overlay.
      destruct (strip (outputs_loc ++ [name]) q) as [r|] eqn:E; [|done]. apply strip_Some in E. subst q.
      rewrite <-app_assoc. simpl. destruct r as [|x r]; [by rewrite app_nil_r, Hsrc|done].
  - destruct (write_files g name (CollObj c paths) paths) as (g' & Hrun & Hok' & Hg'); try done.
    exists g'. split; [|done]. unfold writeSingleOutput. by rewrite run_bind, Hmk.
  - destruct (write_files g name (Plain y) []) as (g' & Hrun & Hok' & Hg'); try done.
    { intros p Hp. by apply elem_of_nil in Hp. }
    { by intros [|b [|x r]]. }
    exists g'. split; [|done]. unfold writeSingleOutput. by rewrite run_bind, Hmk.
Qed.

(** ** All outputs *)

(** The named values a result stands for. *)
Definition outputs_entries (ret : Returned) (manifestOutputs : option Yaml) : option (jsmap Value) :=
  match ret with
  | RetValue v => if is_instance v then Some [(output_name manifestOutputs v, v)] else None
  | RetObject entries => Some entries
  | RetNothing => None
  end.

(** Nothing outside the directories of the given outputs differs. *)
Definition same_outside (names : list string) (f g : fs) : Prop :=
  forall q, (forall name, name ∈ names -> strip (outputs_loc ++ [name]) q = None) -> g !! q = f !! q.

Lemma same_outside_node names f g p :
  same_outside names f g -> strip outputs_loc (resolve p) = None -> node_at g p = node_at f p.
Proof.
  intros Hs Hp. unfold node_at. destruct (truthy p); [|done]. apply Hs. intros name _. by apply strip_snoc_None.
Qed.

Lemma same_outside_other names f g name r :
  same_outside names f g -> name ∉ names -> g !! (outputs_loc ++ name :: r) = f !! (outputs_loc ++ name :: r).
Proof.
  intros Hs Hn. apply Hs. intros x Hx. destruct (strip (outputs_loc ++ [x]) _) as [k|] eqn:E; [|done].
  apply strip_Some in E. rewrite <-app_assoc in E. apply app_inv_head in E. simpl in E. congruence.
Qed.

Lemma same_outside_source names f g src r :
  same_outside names f g -> disjoint_locations (resolve src) outputs_loc ->
  g !! (resolve src ++ r) = f !! (resolve src ++ r).
Proof. intros Hs Hd. apply Hs. intros x _. by apply strip_disjoint, disjoint_output. Qed.

Lemma deliverable_same names f g name v :
  same_outside names f g -> name ∉ names -> deliverable f name v -> deliverable g name v.
Proof.
  intros Hs Hn [Hm Hv]. pose proof (same_outside_other names f g name) as Ho. split.
  { intros m. rewrite (Ho []) by done. apply Hm. }
  assert (Hf : forall p, source_file f name p -> source_file g name p).
  { intros p ((c & Hc) & Hout & Hb & Hnd). split; [|split; [done|split; [done|]]].
    - exists c. by rewrite (same_outside_node names f g).
    - by rewrite (Ho [basename p]). }
  destruct v as [c p|c src|c paths|y]; [auto| |auto|done].
  destruct Hv as (Hne & Hsrc & Hdis & Hcomp). split; [done|]. split; [|split; [done|]].
  - rewrite <-(app_nil_r (resolve src)), (same_outside_source names f g) by done. by rewrite app_nil_r.
  - intros r n m. rewrite (same_outside_source names f g) by done. rewrite <-app_assoc. simpl. rewrite Ho by done.
    intros Hr Hm'. apply (Hcomp r); [done|]. by rewrite <-app_assoc.
Qed.

Lemma delivered_node_same names f g name v r :
  same_outside names f g -> name ∉ names -> deliverable f name v ->
  delivered_node g name v r = delivered_node f name v r.
Proof.
  intros Hs Hn [_ Hv]. unfold delivered_node. rewrite (same_outside_other names f g) by done.
  destruct v as [c p|c src|c paths|y]; [| | |done].
  - destruct r as [|b [|]]; [done| |done]. rewrite (same_outside_node names f g); [done|done|apply Hv].
  - destruct r; [done|]. by rewrite (same_outside_source names f g) by (done || apply Hv).
  - destruct r as [|b [|]]; [done| |done]. destruct (last_named b paths) as [p|] eqn:E; [|done].
    apply (same_outside_node names f g); [done|]. unfold last_named in E. apply last_Some_elem_of in E.
    apply elem_of_js_filter in E as [_ Hin]. by apply Hv.
Qed.

Lemma write_entries entries : forall done_ f g,
  fs_ok g -> g !! outputs_loc = Some DirNode -> same_outside done_ f g ->
  NoDup (done_ ++ jm_keys entries) ->
  (forall name v, (name, v) ∈ entries -> plain name /\ deliverable f name v) ->
  exists g', forM entries (fun e => writeSingleOutput e.1 e.2) g = (g', Ok tt) /\ fs_ok g' /\
    same_outside (done_ ++ jm_keys entries) f g' /\
    (forall x r, x ∈ done_ -> g' !! (outputs_loc ++ x :: r) = g !! (outputs_loc ++ x :: r)) /\
    forall name v r, (name, v) ∈ entries -> g' !! (outputs_loc ++ name :: r) = delivered_node f name v r.
Proof.
  induction entries as [|[name v] entries IH]; intros done_ f g Hok Hout Hs Hnd Hd.
  { exists g. split; [done|]. split; [done|]. rewrite app_nil_r. split; [done|]. split; [done|].
    intros ??? Hin. by apply elem_of_nil in Hin. }
  cbn [jm_keys fmap list_fmap fst] in Hnd. change (NoDup (done_ ++ name :: jm_keys entries)) in Hnd.
  pose proof Hnd as Hnd'. replace (done_ ++ name :: jm_keys entries)
    with ((done_ ++ [name]) ++ jm_keys entries) in Hnd' by (by rewrite <-app_assoc).
  assert (Hn : name ∉ done_ /\ name ∉ jm_keys entries).
  { apply NoDup_app in Hnd as (_ & H1 & H2). apply NoDup_cons in H2 as [H2 _]. split; [|done].
    intros Hin. by apply (H1 name Hin); left. }
  destruct (Hd name v) as [Hpl Hdel]; [left|]. destruct Hn as [Hn1 Hn2].
  destruct (writeSingleOutput_delivers g name v Hok Hpl Hout) as (g1 & Hrun & Hok1 & Hg1).
  { by eapply deliverable_same. }
  assert (Hs1 : same_outside (done_ ++ [name]) f g1).
  { intros q Hq. rewrite Hg1. rewrite (Hq name) by (apply elem_of_app; right; left).
    apply Hs. intros x Hx. apply Hq, elem_of_app. by left. }
  assert (Hout1 : g1 !! outputs_loc = Some DirNode).
  { rewrite Hg1. destruct (strip _ outputs_loc) as [k|] eqn:E; [|done]. apply strip_Some in E.
    apply (f_equal length) in E. rewrite !length_app in E. simpl in E. lia. }
  destruct (IH (done_ ++ [name]) f g1) as (g' & Hrest & Hok' & Hs' & Hkeep & Hnew); [done|done|done|done| |].
  { intros n' v' Hin. apply Hd. by right. }
  exists g'. split; [simpl; by rewrite run_bind, Hrun|]. split; [done|]. split.
  { intros q Hq. apply Hs'. intros x Hx. apply Hq. rewrite <-app_assoc in Hx. done. }
  split.
  - intros x r Hx. rewrite Hkeep by (apply elem_of_app; by left). rewrite Hg1.
    destruct (strip _ _) as [k|] eqn:E; [|done]. apply strip_Some in E. rewrite <-app_assoc in E.
    apply app_inv_head in E. simpl in E. congruence.
  - intros n' v' r Hin. apply elem_of_cons in Hin as [Heq|Hin]; [|by apply Hnew]. simplify_eq.
    rewrite Hkeep by (apply elem_of_app; right; left). rewrite Hg1.
    replace (outputs_loc ++ name :: r) with ((outputs_loc ++ [name]) ++ r) by (by rewrite <-app_assoc).
    rewrite strip_app. by eapply delivered_node_same.
Qed.

Lemma make_outputs f :
  fs_ok f -> f !! cwd = Some DirNode -> (forall m, f !! outputs_loc = Some m -> m = DirNode) ->
  mkdirSync "outputs" f = (<[outputs_loc := DirNode]> f, Ok tt) /\ fs_ok (<[outputs_loc := DirNode]> f).
Proof.
  intros Hok Hcwd Hm. split.
  - unfold mkdirSync. rewrite resolve_outputs. simpl. by apply (mkdirs_last f []).
  - apply fs_ok_insert; [done|done|apply plain_outputs|]. intros m Hm'. by rewrite (Hm m Hm').
Qed.

(** C34. What a block delivers.  When it returns an instance of a library class, or an object of
    named values, every value is in its own directory of [outputs] (named by the
    only output of the manifest, by the class, or by the key): a file under its base name, a
    collection with one file per distinct base name (the last path of each), a
    directory with its whole tree, in each case with the contents of the sources; files of
    an earlier run that are not overwritten stay, and nothing outside these
    directories changes.  It needs what the copy needs: sources that exist and lie outside
    [outputs], and no file where a directory must go. *)
Theorem writeOutputs_delivers ret manifestOutputs entries f :
  outputs_entries ret manifestOutputs = Some entries ->
  fs_ok f -> f !! cwd = Some DirNode -> (forall m, f !! outputs_loc = Some m -> m = DirNode) ->
  NoDup (jm_keys entries) ->
  (forall name v, (name, v) ∈ entries -> plain name /\ deliverable f name v) ->
  exists f', writeOutputs ret manifestOutputs f = (f', Ok tt) /\ fs_ok f' /\
    (forall name v r, (name, v) ∈ entries -> f' !! (outputs_loc ++ name :: r) = delivered_node f name v r) /\
    (forall q, q <> outputs_loc -> (forall name, name ∈ jm_keys entries -> strip (outputs_loc ++ [name]) q = None) ->
       f' !! q = f !! q).
Proof.
  intros Hent Hok Hcwd Hm Hnd Hd. destruct (make_outputs f Hok Hcwd Hm) as [Hmk Hok1].
  set (f1 := <[outputs_loc := DirNode]> f) in *.
  assert (Hne : forall q, q <> outputs_loc -> f1 !! q = f !! q) by (intros; by apply lookup_insert_ne).
  assert (Hin : forall x r, f1 !! (outputs_loc ++ x :: r) = f !! (outputs_loc ++ x :: r)).
  { intros x r. apply Hne. intros Heq. apply (f_equal length) in Heq. rewrite length_app in Heq. simpl in Heq. lia. }
  assert (Hsrc : forall p, strip outputs_loc (resolve p) = None -> node_at f1 p = node_at f p).
  { intros p Hp. unfold node_at. destruct (truthy p); [|done]. apply Hne. intros Heq. rewrite Heq in Hp.
    rewrite <-(app_nil_r outputs_loc) in Hp at 2. by rewrite strip_app in Hp. }
  assert (Htree : forall src r, disjoint_locations (resolve src) outputs_loc ->
    f1 !! (resolve src ++ r) = f !! (resolve src ++ r)).
  { intros src r Hdis. apply Hne. intros Heq. apply (disjoint_apart (resolve src) outputs_loc r [] Hdis). by rewrite app_nil_r. }
  assert (Hdel : forall name v, deliverable f name v -> deliverable f1 name v /\
    forall r, delivered_node f1 name v r = delivered_node f name v r).
  { intros name v [Hm' Hv]. assert (Hsf : forall p, source_file f name p -> source_file f1 name p).
    { intros p ((c & Hc) & Ho & Hb & Hx). split; [|split; [done|split; [done|]]]; [exists c; by rewrite Hsrc|by rewrite Hin]. }
    split; [split; [intros m; rewrite Hin; apply Hm'|]|].
    - destruct v as [c p|c src|c paths|y]; [auto| |auto|done]. destruct Hv as (Hn & Hs & Hdis & Hcomp).
      split; [done|]. split; [|split; [done|]].
      + rewrite <-(app_nil_r (resolve src)), Htree by done. by rewrite app_nil_r.
      + intros r n m. rewrite Htree by done. rewrite <-app_assoc. simpl. rewrite Hin. intros Hr Hm2.
        apply (Hcomp r); [done|]. by rewrite <-app_assoc.
    - intros r. unfold delivered_node. rewrite Hin. destruct v as [c p|c src|c paths|y]; [| | |done].
      + destruct r as [|b [|]]; [done| |done]. rewrite Hsrc; [done|apply Hv].
      + destruct r; [done|]. by rewrite Htree by apply Hv.
      + destruct r as [|b [|]]; [done| |done]. destruct (last_named b paths) as [p|] eqn:E; [|done].
        apply Hsrc. unfold last_named in E. apply last_Some_elem_of in E. apply elem_of_js_filter in E as [_ Hp]. by apply Hv. }
  destruct (write_entries entries [] f1 f1 Hok1) as (f' & Hrun & Hok' & Hs' & _ & Hnew).
  - apply lookup_insert_eq.
  - by intros q _.
  - done.
  - intros name v Hx. destruct (Hd name v Hx) as [Hpl Hdv]. split; [done|]. by apply Hdel.
  - exists f'. split; [|split; [done|split]].
    + destruct ret as [|v|es]; [done| |]; simpl in Hent.
      * destruct (is_instance v) eqn:Hi; [|done]. injection Hent as <-. unfold writeOutputs.
        destruct v as [c p|c src|c paths|y]; [| | |done]; rewrite run_bind, Hmk; simpl in Hrun |- *;
          rewrite run_bind in Hrun; by destruct (writeSingleOutput _ _ _) as [? [[]|]].
      * injection Hent as ->. unfold writeOutputs. by rewrite run_bind, Hmk.
    + intros name v r Hx. rewrite (Hnew name v r Hx). destruct (Hd name v Hx) as [_ Hdv]. by apply Hdel.
    + intros q Hq Hall. rewrite <-(Hne q Hq). apply Hs'. intros name Hname. by apply Hall.
Qed.
End Delivery.
