(* ===== verification/BlockInputs.v ===== *)
(** * What a block receives ([buildFunctionArgs] and [run]) *)

From S2P Require Export BlockOutputs.

(** ** Types *)

(** A value is an instance of the class, made by the constructor of its base. *)
Definition instance_of (c : SpadeClass) (v : Value) : Prop :=
  match v with
  | FileObj c' _ => c' = c /\ base_of c = BaseFile
  | DirObj c' _ => c' = c /\ base_of c = BaseDirectory
  | CollObj c' _ => c' = c /\ base_of c = BaseCollection
  | Plain _ => False
  end.

Lemma input_value_typed c name dir files v :
  input_value (Some (Class_ c)) name dir files = Ok v -> instance_of c v.
Proof.
  unfold input_value, isDirectorySubclass, isFileCollectionSubclass, isFileSubclass. simpl.
  destruct (base_of c) eqn:E; [destruct files| |]; intros Heq; simplify_eq; by split.
Qed.

Section Inputs.
Context {proc : Process} {yl : YamlLib}.
Implicit Types f : fs.

Definition inputs_loc : location := cwd ++ ["inputs"].

Lemma plain_inputs : plain "inputs".
Proof. split; [reflexivity|]. by split_and!. Qed.

Lemma resolve_inputs : resolve "inputs" = inputs_loc.
Proof. unfold resolve. simpl. by rewrite (walk_plain cwd "inputs" plain_inputs). Qed.

Definition is_file_at f (l : location) : bool := match f !! l with Some (FileNode _) => true | _ => false end.

(** The sorted names of the files of an input. *)
Definition file_names f (name : string) : list string :=
  js_filter (fun e => is_file_at f (inputs_loc ++ [name; e])) (js_sort (children f (inputs_loc ++ [name]))).

(** The value of an input: there is one for each directory in [inputs]. *)
Definition input_at f (typeHints : jsmap SpadeTypeClass) (name : string) : option (result FsError Value) :=
  match f !! (inputs_loc ++ [name]) with
  | Some DirNode =>
      Some (input_value (jm_get name typeHints) name (join "inputs" name)
              (join (join "inputs" name) <$> file_names f name))
  | _ => None
  end.


Lemma keep_files_spec f name l :
  fs_ok f -> plain name -> (forall e, e ∈ l -> plain e /\ is_Some (f !! (inputs_loc ++ [name; e]))) ->
  keep_files (join "inputs" name) l f = (f, Ok (js_filter (fun e => is_file_at f (inputs_loc ++ [name; e])) l)).
Proof.
  intros Hok Hn. induction l as [|e l IH]; intros Hl; [done|]. simpl. rewrite run_bind. unfold statSync.
  destruct (Hl e) as [He [n Hnode]]; [left|].
  assert (Hat : node_at f (join (join "inputs" name) e) = Some n).
  { rewrite node_at_join, resolve_join, resolve_inputs by (done || apply join_ne). by rewrite <-app_assoc. }
  rewrite Hat, run_bind, IH by (intros; apply Hl; by right). rewrite run_ret, js_filter_cons.
  assert (is_file_at f (inputs_loc ++ [name; e]) = isFile n) as -> by (unfold is_file_at; rewrite Hnode; by destruct n).
  by destruct n.
Qed.

(** The loop over the entries of [inputs]. *)
Fixpoint collect f (typeHints : jsmap SpadeTypeClass) (names : list string) (acc : jsmap Value)
    : result FsError (jsmap Value) :=
  match names with
  | [] => Ok acc
  | n :: names' =>
      match input_at f typeHints n with
      | Some (Ok v) => collect f typeHints names' (jm_set n v acc)
      | Some (Throw e) => Throw e
      | None => collect f typeHints names' acc
      end
  end.

Lemma scan_entries_collect f typeHints names : forall acc,
  fs_ok f -> (forall n, n ∈ names -> is_Some (f !! (inputs_loc ++ [n]))) ->
  scan_entries typeHints names acc f = (f, collect f typeHints names acc).
Proof.
  induction names as [|n names IH]; intros acc Hok Hn; [done|]. simpl. rewrite run_bind. unfold statSync, input_at.
  destruct (Hn n) as [x Hx]; [left|]. pose proof (fo_plain f Hok _ _ _ Hx) as Hp.
  rewrite node_at_join, resolve_inputs, Hx by done.
  destruct x as [c|]; cbn [isDirectory negb]; [apply IH; [done|]; intros; apply Hn; by right|].
  rewrite run_bind. unfold readdirSync. rewrite node_at_join, resolve_inputs, Hx by done.
  rewrite resolve_join, resolve_inputs by done. rewrite run_bind, keep_files_spec; [|done|done|].
  - fold (file_names f n). destruct (input_value _ _ _ _); [|done]. apply IH; [done|]. intros; apply Hn; by right.
  - intros e He%elem_js_sort%elem_children. rewrite <-app_assoc in He. simpl in He. split; [|done].
    destruct He as [m Hm]. apply (fo_plain f Hok (inputs_loc ++ [n]) e m). by rewrite <-app_assoc.
Qed.

Lemma collect_get f typeHints names : forall acc m,
  collect f typeHints names acc = Ok m ->
  forall k, jm_get k m = match (if decide (k ∈ names) then input_at f typeHints k else None) with
                         | Some (Ok v) => Some v
                         | _ => jm_get k acc
                         end.
Proof.
  induction names as [|n names IH]; intros acc m Hc k; simpl in Hc.
  { simplify_eq. by rewrite decide_False by apply not_elem_of_nil. }
  destruct (input_at f typeHints n) as [[v|e]|] eqn:E; [| |]; [|done|].
  - rewrite (IH _ _ Hc k), jm_get_set. destruct (decide (k = n)) as [->|Hne].
    + rewrite (decide_True (P := n ∈ n :: names)) by left. rewrite E, eqb_refl_js.
      by destruct (decide (n ∈ names)).
    + rewrite (eqb_ne_js n k) by congruence.
      destruct (decide (k ∈ names)) as [Hin|Hin].
      * by rewrite decide_True by (by right).
      * rewrite decide_False; [done|]. by intros [?|?]%elem_of_cons.
  - rewrite (IH _ _ Hc k). destruct (decide (k = n)) as [->|Hne].
    + rewrite (decide_True (P := n ∈ n :: names)) by left. rewrite E. by destruct (decide (n ∈ names)); rewrite ?E.
    + destruct (decide (k ∈ names)) as [Hin|Hin].
      * by rewrite decide_True by (by right).
      * rewrite decide_False; [done|]. by intros [?|?]%elem_of_cons.
Qed.

Lemma collect_Ok f typeHints names : forall acc,
  (forall n e, n ∈ names -> input_at f typeHints n <> Some (Throw e)) ->
  exists m, collect f typeHints names acc = Ok m.
Proof.
  induction names as [|n names IH]; intros acc Hn; [by exists acc|]. simpl.
  destruct (input_at f typeHints n) as [[v|e]|] eqn:E.
  - apply IH. intros; apply Hn; by right.
  - by destruct (Hn n e); [left|].
  - apply IH. intros; apply Hn; by right.
Qed.

Lemma collect_Throw f typeHints names : forall acc n e,
  n ∈ names -> input_at f typeHints n = Some (Throw e) ->
  exists n' e', input_at f typeHints n' = Some (Throw e') /\ collect f typeHints names acc = Throw e'.
Proof.
  induction names as [|x names IH]; intros acc n e Hn He; [by apply elem_of_nil in Hn|]. simpl.
  destruct (input_at f typeHints x) as [[v|e']|] eqn:E; [|by exists x, e'|].
  - apply elem_of_cons in Hn as [->|Hn]; [congruence|]. by eapply IH.
  - apply elem_of_cons in Hn as [->|Hn]; [congruence|]. by eapply IH.
Qed.

Lemma collect_NoDup f typeHints names : forall acc m,
  NoDup (jm_keys acc) -> collect f typeHints names acc = Ok m -> NoDup (jm_keys m).
Proof.
  induction names as [|n names IH]; intros acc m Hnd Hc; simpl in Hc; [by simplify_eq|].
  destruct (input_at f typeHints n) as [[v|e]|]; [|done|].
  - apply (IH (jm_set n v acc)); [by apply NoDup_jm_set|done].
  - by apply (IH acc).
Qed.

Lemma scanInputs_spec typeHints f :
  fs_ok f ->
  scanInputs typeHints f =
    (f, match f !! inputs_loc with
        | None => Ok []
        | Some (FileNode _) => Throw ENOTDIR
        | Some DirNode => collect f typeHints (js_sort (children f inputs_loc)) []
        end).
Proof.
  intros Hok. unfold scanInputs. rewrite run_bind. unfold existsSync, node_at. rewrite resolve_inputs.
  change (truthy "inputs") with true. cbv beta iota.
  destruct (f !! inputs_loc) as [n|] eqn:E; [|reflexivity].
  rewrite (bool_decide_eq_true_2 (is_Some (Some n))) by eauto. cbn [negb]. rewrite run_bind. unfold readdirSync, node_at.
  rewrite resolve_inputs. change (truthy "inputs") with true. cbv beta iota. rewrite E.
  destruct n as [c|]; [done|]. apply scan_entries_collect; [done|]. intros x Hx. rewrite elem_js_sort in Hx. by apply elem_children in Hx.
Qed.
End Inputs.

(** ** Spreading objects *)

Lemma foldl_set_get {V} (p : string -> bool) (l : jsmap V) : forall acc k,
  NoDup (jm_keys l) ->
  jm_get k (foldl (fun m e => if p e.1 then jm_set e.1 e.2 m else m) acc l) =
  match (if p k then jm_get k l else None) with Some v => Some v | None => jm_get k acc end.
Proof.
  induction l as [|[x v] l IH]; intros acc k Hnd; [by destruct (p k)|].
  change (NoDup (x :: jm_keys l)) in Hnd. apply NoDup_cons in Hnd as [Hx Hnd]. apply jm_get_None in Hx.
  simpl. rewrite IH by done. destruct (decide (x = k)) as [->|Hne].
  - rewrite Hx, eqb_refl_js. destruct (p k) eqn:Hp; [|done]. by rewrite jm_get_set_eq.
  - rewrite (eqb_ne_js x k) by done. destruct (p x); [|done]. by rewrite jm_get_set_ne.
Qed.

Lemma foldl_set_NoDup {V} (p : string -> bool) (l : jsmap V) : forall acc,
  NoDup (jm_keys acc) -> NoDup (jm_keys (foldl (fun m e => if p e.1 then jm_set e.1 e.2 m else m) acc l)).
Proof.
  induction l as [|[x v] l IH]; intros acc Hnd; [done|]. simpl. apply IH. destruct (p x); [|done]. by apply NoDup_jm_set.
Qed.

Lemma spread_get {V} (m1 m2 : jsmap V) k :
  NoDup (jm_keys m2) ->
  jm_get k (spread m1 m2) = match jm_get k m2 with Some v => Some v | None => jm_get k m1 end.
Proof. intros Hnd. apply (foldl_set_get (fun _ => true) m2 m1 k Hnd). Qed.

Lemma spread_NoDup {V} (m1 m2 : jsmap V) : NoDup (jm_keys m1) -> NoDup (jm_keys (spread m1 m2)).
Proof. apply (foldl_set_NoDup (fun _ => true)). Qed.

Lemma jm_get_prod_map {V W} (g : V -> W) (m : jsmap V) k : jm_get k (prod_map id g <$> m) = g <$> jm_get k m.
Proof. induction m as [|[x v] m IH]; [done|]. simpl. by destruct (x === k). Qed.

Lemma jm_keys_prod_map {V W} (g : V -> W) (m : jsmap V) : jm_keys (prod_map id g <$> m) = jm_keys m.
Proof. unfold jm_keys. rewrite <-list_fmap_compose. by apply list_fmap_ext. Qed.

(** ** The run of a block *)

Section Run.
Context {proc : Process} {yl : YamlLib}.
Implicit Types f : fs.

Lemma loadParams_file f c y :
  node_at f "params.yaml" = Some (FileNode c) -> yaml_load c = Ok y -> loadParams f = (f, Ok (own y)).
Proof.
  intros Hn Hy. unfold loadParams. rewrite run_bind. unfold existsSync. rewrite Hn.
  rewrite bool_decide_eq_true_2 by eauto. cbn [negb]. rewrite run_bind. unfold readFileSync. rewrite Hn.
  rewrite run_bind. unfold parse_yaml. by rewrite Hy.
Qed.

Definition type_hints (metadata : option SpadeMetadata) : jsmap SpadeTypeClass :=
  match metadata with Some md => md_inputs md | None => [] end.

Definition declared (metadata : option SpadeMetadata) (k : string) : bool :=
  match metadata with Some md => js_mem k (jm_keys (md_inputs md)) | None => true end.

Lemma filter_args_get metadata args k :
  NoDup (jm_keys args) -> jm_get k (filter_args metadata args) = if declared metadata k then jm_get k args else None.
Proof.
  intros Hnd. destruct metadata as [md|]; [|done]. simpl.
  rewrite (foldl_set_get (fun x => js_mem x (js_set_of (jm_keys (md_inputs md)))) args [] k Hnd).
  replace (js_mem k (js_set_of (jm_keys (md_inputs md)))) with (js_mem k (jm_keys (md_inputs md))).
  - destruct (js_mem _ _); [by destruct (jm_get k args)|done].
  - unfold js_mem. apply bool_decide_ext. by rewrite elem_js_set_of.
Qed.

(** C35. What a block's function receives.  The run reads [params.yaml] and the
    directories in [inputs]; if some input is empty where a file is needed the
    run fails before the function is called; otherwise the function is called once, with
    exactly the declared names (all names without metadata): an input directory
    gives a value of the declared class on its files, and wins over a parameter of the same name,
    and what the function returns is written as the block's outputs. *)
Theorem run_arguments fn metadata f params :
  fs_ok f -> (forall c, f !! inputs_loc <> Some (FileNode c)) ->
  loadParams f = (f, Ok params) -> NoDup (jm_keys params) ->
  (forall k e, input_at f (type_hints metadata) k = Some (Throw e) ->
     exists k' e', input_at f (type_hints metadata) k' = Some (Throw e') /\ run fn metadata f = (f, Throw e')) /\
  ((forall k e, input_at f (type_hints metadata) k <> Some (Throw e)) ->
   exists args,
     run fn metadata f =
       (ret ← fn args; manifestOutputs ← readBlockManifest; writeOutputs ret manifestOutputs) f /\
     (forall k, jm_get k args =
        if declared metadata k then
          match input_at f (type_hints metadata) k with
          | Some (Ok v) => Some v
          | _ => Plain <$> jm_get k params
          end
        else None) /\
     forall k c v, input_at f (type_hints metadata) k = Some (Ok v) ->
       jm_get k (type_hints metadata) = Some (Class_ c) -> instance_of c v).
Proof.
  intros Hok Hin Hparams Hnd. set (hints := type_hints metadata).
  assert (Hargs : buildFunctionArgs metadata f =
    match scanInputs hints f with
    | (f', Ok inputs) => (f', Ok (spread (spread [] (prod_map id Plain <$> params)) inputs))
    | (f', Throw e) => (f', Throw e)
    end).
  { unfold buildFunctionArgs. fold (type_hints metadata). rewrite run_bind, Hparams. rewrite run_bind. done. }
  rewrite scanInputs_spec in Hargs by done. split.
  - intros k e He. unfold run. rewrite run_bind, Hargs. unfold input_at in He.
    destruct (f !! (inputs_loc ++ [k])) as [[|]|] eqn:Hk; try done.
    pose proof (fo_parent f Hok _ _ _ Hk) as ->.
    destruct (collect_Throw f hints (js_sort (children f inputs_loc)) [] k e) as (k' & e' & He' & Hc).
    { apply elem_js_sort, elem_children. by eexists. }
    { unfold input_at. by rewrite Hk. }
    exists k', e'. split; [done|]. by rewrite Hc.
  - intros Hno. assert (exists inputs, (match f !! inputs_loc with None => Ok [] | Some (FileNode _) => Throw ENOTDIR
        | Some DirNode => collect f hints (js_sort (children f inputs_loc)) [] end) = Ok inputs /\
        NoDup (jm_keys inputs) /\
        forall k, jm_get k inputs = match input_at f hints k with Some (Ok v) => Some v | _ => None end)
      as (inputs & Hi & Hndi & Hget).
    { destruct (f !! inputs_loc) as [[c|]|] eqn:E; [by destruct (Hin c)| |].
      - destruct (collect_Ok f hints (js_sort (children f inputs_loc)) []) as [m Hm]; [by intros; apply Hno|].
        exists m. split; [done|]. split; [exact (collect_NoDup f hints _ [] m (NoDup_nil_2 (A := string)) Hm)|]. intros k.
        rewrite (collect_get _ _ _ _ _ Hm k). destruct (decide _) as [?|Hk]; [done|]. simpl.
        unfold input_at. destruct (f !! (inputs_loc ++ [k])) as [n|] eqn:Hn; [|done].
        destruct Hk. apply elem_js_sort, elem_children. by exists n.
      - exists []. split; [done|]. split; [apply NoDup_nil_2|]. intros k. unfold input_at.
        destruct (f !! (inputs_loc ++ [k])) as [n|] eqn:Hn; [|done]. apply (fo_parent f Hok) in Hn. congruence. }
    rewrite Hi in Hargs. eexists. split; [unfold run; by rewrite run_bind, Hargs|]. split.
    + intros k. rewrite filter_args_get by (by apply spread_NoDup, spread_NoDup, NoDup_nil_2).
      rewrite spread_get, Hget, spread_get by (done || by rewrite jm_keys_prod_map).
      rewrite jm_get_prod_map. destruct (declared metadata k); [|done].
      destruct (input_at f hints k) as [[v|e]|]; [done| |]; by destruct (jm_get k params).
    + intros k c v Hv Hc. unfold input_at in Hv. destruct (f !! (inputs_loc ++ [k])) as [[|]|]; try done.
      rewrite Hc in Hv. injection Hv as Hv. by eapply input_value_typed.
Qed.
End Run.

(** ** The built manifest *)

Lemma foldl_add_input l : forall acc k,
  NoDup (jm_keys l) ->
  jm_get k (foldl add_input acc l) =
  match jm_get k l ≫= TS_TYPE_TO_MANIFEST with Some e => Some e | None => jm_get k acc end.
Proof.
  induction l as [|[x t] l IH]; intros acc k Hnd; [done|]. change (NoDup (x :: jm_keys l)) in Hnd.
  apply NoDup_cons in Hnd as [Hx Hnd]. apply jm_get_None in Hx. simpl. rewrite IH by done. unfold add_input. simpl.
  destruct (decide (x = k)) as [->|Hne].
  - rewrite Hx, eqb_refl_js. simpl. destruct (TS_TYPE_TO_MANIFEST t) eqn:E; [by rewrite jm_get_set_eq|done].
  - rewrite (eqb_ne_js x k) by done. destruct (TS_TYPE_TO_MANIFEST t); [|done]. by rewrite jm_get_set_ne.
Qed.

Lemma built_name_class c entry :
  TS_TYPE_TO_MANIFEST (Class_ c) = Some entry -> TYPE_TO_OUTPUT_NAME (Class_ c) = Some (class_name c).
Proof. by destruct c. Qed.

(** C36. The manifest [build] writes describes what [run] does: it lists exactly the declared
    inputs whose type is one of the library's or a primitive, each with its entry;
    and when the function returns what it declares, a value of one of the library's classes,
    the directory [run] writes it to is the output the manifest names, whether or not the
    manifest is there at run time. *)
Theorem build_matches_run fn store md :
  getMetadata fn store = Some md -> NoDup (jm_keys (md_inputs md)) ->
  (forall k, jm_get k (bm_inputs (build fn store)) = jm_get k (md_inputs md) ≫= TS_TYPE_TO_MANIFEST) /\
  (forall c entry v, md_output md = Some (Class_ c) -> TS_TYPE_TO_MANIFEST (Class_ c) = Some entry ->
     instance_of c v ->
     bm_outputs (build fn store) = [(inferOutputName v, entry)] /\
     output_name None v = inferOutputName v /\
     output_name (Some (YMap (prod_map id (fun e => YMap (prod_map id YString <$> e))
                                <$> bm_outputs (build fn store)))) v = inferOutputName v) /\
  (forall t, md_output md = Some t -> TS_TYPE_TO_MANIFEST t = None -> bm_outputs (build fn store) = []).
Proof.
  intros Hmd Hnd. unfold build. rewrite Hmd. cbn [bm_inputs bm_outputs]. split; [|split].
  - intros k. rewrite foldl_add_input by done. by destruct (jm_get k (md_inputs md) ≫= TS_TYPE_TO_MANIFEST).
  - intros c entry v Ho He Hv. rewrite Ho, He, (built_name_class c entry He).
    assert (inferOutputName v = class_name c) as Hname.
    { destruct v as [c' p|c' p|c' ps|y]; simpl in Hv; [| | |done]; by destruct Hv as [-> _]. }
    unfold output_name. rewrite Hname. done.
  - intros t Ho He. by rewrite Ho, He.
Qed.
