(* ===== verification/BlockDemo.v ===== *)
(** * A block in a directory, and a server with its files: the witnesses of the theorems
    on the block library and on the routes that write files *)

From S2P Require Import ServerDemo AllRoutes.
From S2P Require Import BlockInputs SavePipeline.

(** ** Checking a file system *)

Definition plainb (e : string) : bool :=
  char_free slash e && negb (e === "") && negb (e === ".") && negb (e === "..").

Definition fs_okb (f : fs) : bool :=
  (f !! [] === Some DirNode) &&
  forallb (fun x => match last x.1 with
                    | Some e => (f !! drop_name x.1 === Some DirNode) && plainb e
                    | None => true
                    end) (map_to_list f).

Lemma fs_okb_sound f : fs_okb f = true -> fs_ok f.
Proof.
  unfold fs_okb. intros H. apply andb_true_iff in H as [Hroot Hall]. bool_prop. rewrite forallb_forall in Hall.
  assert (Hn : forall l e n, f !! (l ++ [e]) = Some n -> (f !! l === Some DirNode) && plainb e = true).
  { intros l e n Hl. specialize (Hall (l ++ [e], n)). simpl in Hall. rewrite last_snoc, drop_name_snoc in Hall.
    apply Hall. apply list_elem_of_In, elem_of_map_to_list. done. }
  split; [done| |]; intros l e n Hl; apply Hn, andb_true_iff in Hl as [Hl He].
  - by bool_prop.
  - unfold plainb in He. rewrite !andb_true_iff, !negb_true_iff in He. destruct He as [[[? ?] ?] ?]. bool_prop.
    by split_and!.
Qed.

(** ** An example *)

#[local] Instance demo_process : Process := { cwd := []; env_var _ := None }.
#[local] Instance demo_yaml : YamlLib := {
  yaml_load s := Ok (YMap [("n", YNumber "3"); ("img", YString "x")]) }.

Definition demo_fs : fs :=
  list_to_map [([], DirNode); (["params.yaml"], FileNode "p");
    (["inputs"], DirNode); (["inputs"; "img"], DirNode);
    (["inputs"; "img"; "b.tif"], FileNode "B"); (["inputs"; "img"; "a.tif"], FileNode "A");
    (["tmp"], DirNode); (["tmp"; "t"], DirNode); (["tmp"; "t"; "x"], FileNode "X");
    (["tmp"; "y"], FileNode "Y"); (["z"], DirNode); (["z"; "y"], FileNode "Z")].

Lemma demo_fs_ok : fs_ok demo_fs.
Proof. apply fs_okb_sound. vm_compute. reflexivity. Defined.

Definition demo_metadata : SpadeMetadata :=
  mkMetadata [("img", Class_ RasterFile); ("n", Number_)] (Some (Class_ Directory)) None.

Lemma run_arguments_witness :
  exists args,
    run (fun _ => mret RetNothing) (Some demo_metadata) demo_fs =
      (ret ← (fun _ : jsmap Value => mret RetNothing) args;
       manifestOutputs ← readBlockManifest; writeOutputs ret manifestOutputs) demo_fs /\
    jm_get "img" args = Some (FileObj RasterFile "inputs/img/a.tif") /\
    jm_get "n" args = Some (Plain (YNumber "3")).
Proof.
  destruct (run_arguments (fun _ => mret RetNothing) (Some demo_metadata) demo_fs
    [("n", YNumber "3"); ("img", YString "x")] demo_fs_ok) as [_ H].
  - intros c. vm_compute. discriminate.
  - apply (loadParams_file demo_fs "p" (YMap [("n", YNumber "3"); ("img", YString "x")])); vm_compute; reflexivity.
  - apply (bool_decide_unpack _). vm_compute. exact I.
  - destruct H as (args & Hrun & Hget & _).
    + intros k e. unfold input_at. destruct (demo_fs !! (inputs_loc ++ [k])) as [[c|]|] eqn:E; [discriminate| |discriminate].
      assert (k = "img") as ->; [|vm_compute; discriminate].
      apply elem_of_list_to_map_2 in E. apply list_elem_of_In in E. simpl in E.
      repeat (destruct E as [E|E]; [try discriminate E; simplify_eq/=; try reflexivity|]). destruct E.
    + exists args. split; [exact Hrun|]. split; rewrite Hget; vm_compute; reflexivity.
Defined.

(** Two files of one name and a directory: the last file wins. *)
Lemma writeOutputs_delivers_witness :
  exists f', writeOutputs (RetObject [("tree", DirObj Directory "tmp"); ("files", CollObj FileCollection ["tmp/y"; "z/y"])])
      None demo_fs = (f', Ok tt) /\
    f' !! ["outputs"; "tree"; "t"; "x"] = Some (FileNode "X") /\
    f' !! ["outputs"; "files"; "y"] = Some (FileNode "Z") /\
    f' !! ["tmp"; "y"] = Some (FileNode "Y").
Proof.
  destruct (writeOutputs_delivers (RetObject [("tree", DirObj Directory "tmp"); ("files", CollObj FileCollection ["tmp/y"; "z/y"])])
    None _ demo_fs eq_refl demo_fs_ok) as (f' & Hrun & _ & Hin & Hout).
  - vm_compute. reflexivity.
  - vm_compute. discriminate.
  - apply (bool_decide_unpack _). vm_compute. exact I.
  - intros name v Hx. apply elem_of_cons in Hx as [Hx|Hx]; [|apply list_elem_of_singleton in Hx]; injection Hx as -> ->.
    + split; [repeat split; discriminate|]. split; [vm_compute; discriminate|].
      split; [discriminate|]. split; [vm_compute; reflexivity|]. split.
      * apply (bool_decide_unpack _). vm_compute. exact I.
      * intros r n m _ Hm. exfalso. apply elem_of_list_to_map_2, list_elem_of_In in Hm. simpl in Hm.
        repeat (destruct Hm as [Hm|Hm]; [discriminate Hm|]). destruct Hm.
    + split; [repeat split; discriminate|]. split; [vm_compute; discriminate|].
      intros p Hp. apply elem_of_cons in Hp as [->|Hp]; [|apply list_elem_of_singleton in Hp as ->].
      * split; [exists "Y"; vm_compute; reflexivity|]. split; [vm_compute; reflexivity|].
        split; [repeat split; discriminate|vm_compute; discriminate].
      * split; [exists "Z"; vm_compute; reflexivity|]. split; [vm_compute; reflexivity|].
        split; [repeat split; discriminate|vm_compute; discriminate].
  - exists f'. split; [exact Hrun|].
    split; [exact (Hin "tree" (DirObj Directory "tmp") ["t"; "x"] (list_elem_of_here _ _))|].
    split; [exact (Hin "files" (CollObj FileCollection ["tmp/y"; "z/y"]) ["y"] (list_elem_of_further _ _ _ (list_elem_of_here _ _)))|].
    rewrite Hout; [vm_compute; reflexivity|discriminate|].
    intros name Hn. vm_compute in Hn |- *. reflexivity.
Defined.

Lemma build_matches_run_witness :
  bm_outputs (build 7 (setMetadata 7 demo_metadata ∅)) = [("directory", [("type", "directory")])] /\
  jm_get "img" (bm_inputs (build 7 (setMetadata 7 demo_metadata ∅))) = Some [("type", "file"); ("format", "GeoTIFF")].
Proof.
  destruct (build_matches_run 7 (setMetadata 7 demo_metadata ∅) demo_metadata) as (Hin & Hout & _).
  - vm_compute. reflexivity.
  - apply (bool_decide_unpack _). vm_compute. exact I.
  - split; [|rewrite Hin; reflexivity].
    destruct (Hout Directory [("type", "directory")] (DirObj Directory "d")) as [H _]; [reflexivity|reflexivity|split; reflexivity|].
    exact H.
Defined.

(** ** The endpoint that writes where the id says *)

#[local] Instance id_yaml : YamlLib := { yaml_load s := Ok (YMap [("id", YString s)]) }.

Lemma save_location_witness :
  (exists f', save (yl := id_yaml) "tmp" "u" (Some "p1") demo_fs = (f', Ok "p1") /\
     f' !! ["tmp"; "p1"; "pipeline.yaml"] = Some (FileNode "p1")) /\
  escape_id ["tmp"] ["z"] = "../z" /\
  save (yl := id_yaml) "tmp" "u" (Some "../z") demo_fs =
    (<[["z"; "pipeline.yaml"] := FileNode "../z"]> demo_fs, Ok "../z").
Proof.
  split; [|split].
  - destruct (save_location (yl := id_yaml) "tmp" "u" "p1" [("id", YString "p1")] "p1" demo_fs demo_fs_ok) as [H _].
    1-5: vm_compute; reflexivity.
    destruct H as (f' & Hrun & Hf').
    + repeat split; discriminate.
    + vm_compute. discriminate.
    + vm_compute. discriminate.
    + exists f'. split; [exact Hrun|]. rewrite Hf'. reflexivity.
  - reflexivity.
  - destruct (save_location (yl := id_yaml) "tmp" "u" "../z" [("id", YString "../z")] "../z" demo_fs demo_fs_ok) as [_ H].
    1-5: vm_compute; reflexivity.
    apply (H ["z"]).
    + constructor; [repeat split; discriminate|constructor].
    + discriminate.
    + vm_compute. reflexivity.
    + vm_compute. discriminate.
    + reflexivity.
Defined.

(** ** The routes of the server *)

Lemma no_session_no_effect_witness :
  let s := mkServer demo_world demo_fs in
  serve_route (yl := id_yaml) "tmp" None (ApiRoute (DeletePipeline (Some "p1"))) s =
    (s, ApiAnswer (Throw (Http 401 "Not authenticated"))) /\
  (let s' := (serve_route (yl := id_yaml) "tmp" None (PostSave "u" (Some "../z")) s).1 in
   sv_world s' = demo_world /\ writes_only "../z" demo_fs (sv_fs s') /\
   sv_fs s' !! ["z"; "pipeline.yaml"] = Some (FileNode "../z")) /\
  w_db (sv_world (serve_routes (yl := id_yaml) "tmp" ((fun rt => (None, rt)) <$>
    [PostSave "u" (Some "p1"); ApiRoute ListBlocks; ApiRoute (PostRun None)]) s)) = demo_db.
Proof.
  intros s. split; [|split].
  - apply (no_session_no_effect (yl := id_yaml) "tmp" (ApiRoute (DeletePipeline (Some "p1"))) s). reflexivity.
  - destruct (no_session_no_effect (yl := id_yaml) "tmp" (PostSave "u" (Some "../z")) s) as (_ & _ & H & _).
    destruct (H "u" (Some "../z") None eq_refl) as (_ & Hw & _ & Hf). split; [exact Hw|].
    split; [exact (Hf "../z" eq_refl)|vm_compute; reflexivity].
  - destruct (no_session_no_effect (yl := id_yaml) "tmp" (PostSave "u" None) s) as (_ & _ & _ & H).
    refine (proj1 (H [PostSave "u" (Some "p1"); ApiRoute ListBlocks; ApiRoute (PostRun None)] _)). repeat constructor.
Defined.
