(* ===== verification/CatalogueDemo.v ===== *)
(** * A catalogue of two blocks, one of which has a name addresses escape: the witness of [BlockPages] *)

From S2P Require Import BlockPages ServerDemo.

Definition block_row (name : string) : BlockRow :=
  mkBlockRow name name name "1" (mkManifest name "1" MapKind true None None None None) 0%Z 0%Z.
Definition catalogue_world : World contents :=
  mkWorld (set_rows TBlocks demo_db [block_row "gdal.warp"; block_row "my block"]) 0 0 [].

Lemma catalogue_keys : keys_ok (db_rows (w_db catalogue_world)).
Proof. intros t. destruct t; vm_compute; reflexivity. Defined.

Lemma catalogue_links_witness :
  exists l, handle None ListBlocks catalogue_world = (catalogue_world, Ok (RBlocks l)) /\
    (exists m, block_page None catalogue_world "gdal.warp" = BlockShown (block_panel m) /\ bp_title (block_panel m) = "gdal.warp") /\
    block_page None catalogue_world "my block" = BlockMissing.
Proof.
  eexists. split; [reflexivity|].
  assert (Hreg : registered (w_db catalogue_world)).
  { intros b Hb. repeat (apply elem_of_cons in Hb as [->|Hb]; [reflexivity|]). by apply elem_of_nil in Hb. }
  split.
  - destruct (catalogue_links demo_text_le_total demo_text_le_trans None catalogue_world catalogue_world _
      (mkListItem "gdal.warp" "gdal.warp" "gdal.warp" MapKind true None) catalogue_keys Hreg eq_refl) as [H _].
    + vm_compute. right. left.
    + reflexivity.
    + destruct H as (m & _ & Hpage & Htitle & _); [repeat constructor|]. exists m. split; [exact Hpage|exact Htitle].
  - destruct (catalogue_links demo_text_le_total demo_text_le_trans None catalogue_world catalogue_world _
      (mkListItem "my block" "my block" "my block" MapKind true None) catalogue_keys Hreg eq_refl) as [_ H].
    + vm_compute. left.
    + reflexivity.
    + apply H.
      * intros Ha. apply encode_plain in Ha. discriminate.
      * intros other Hin. vm_compute in Hin. repeat (apply elem_of_cons in Hin as [->|Hin]; [discriminate|]).
        by apply elem_of_nil in Hin.
Defined.
